(* ===== verification/_CoqProject ===== *)
-Q . S2P
Prelude.v
GoBase.v
GoStrings.v
Encoding.v
World.v
Telemetry.v
Zlogger.v
Database.v
Sqlite.v
Postgresql.v
Backends.v
Oidc.v
SessionConfig.v
Sessions.v
Config.v
LoadConfig.v
Manager.v
Cleaner.v
SessionLemmas.v
CookieLaws.v
Handlers.v
Httputil.v
Server.v
Startup.v
Shutdown.v
Invariance.v
Typing.v
Interleaving.v
MiddlewareSpec.v
Closed.v
Race.v
HandlerSpec.v
Concrete.v
MiddlewareProps.v
HandlerProps.v
DatabaseProps.v
ZloggerProps.v
ConfigProps.v
CleanerProps.v
ServerProps.v
LoadConfigProps.v
StartupProps.v
ShutdownProps.v
InterleavingProps.v
TypingProps.v
TerminationProps.v
RaceStore.v
Service.v
RaceProps.v
Backend.v
BackendProps.v
FlowProps.v
Revocation.v
ServiceProps.v
