(* ===== verification/Prelude.v ===== *)
(** * go-token-handler: a verification library

    The program is a token handler for single-page applications.  It logs users in
    with OpenID Connect, keeps their tokens on the server, and gives the browser only
    an encrypted session cookie; a reverse proxy puts the access token into the
    requests it forwards.  This library models the Go code of the repository as
    executable definitions and proves what the parts promise to each other and to the
    client.

    ** The program's parts, and the files that model them

    - This file: outcomes (return or panic), the state monad of the handlers with
      [defer], weakest preconditions ([twp]: returns, does not panic, satisfies the
      postcondition), frame and no-panic predicates, and their automation.
    - [GoBase]: Go errors and their identity, [errors.Is], contexts, time in
      nanoseconds, the float64 arithmetic of [Duration.Seconds].
    - [Encoding]: base64, URL queries ([net/url]), with their reference decoders;
      [GoStrings]: splitting and trimming texts, the names of headers and the tokens in
      them, the host of an address.
    - [World]: requests, responses, the table of sessions, the log and the trace; one
      class per library the program calls.
    - [Telemetry] (opentelemetry/tracer.go): the tracer and the spans.
    - [Zlogger] (zlogger/logger.go, status.go): error responses, status recorder,
      access log; the writers around a response: the one of [net/http], which refuses a
      status outside of 100 to 999 with a panic, the recorder, and the one of otelhttp,
      which keeps a second status to itself.
    - [Database] (database/database.go): the session record, its encryption, the
      [SessionImpl] interface, the statements of [database/sql] and of pgx, the abstract
      store and the contract of a backend ([StoreUnder]: with or without lost answers);
      [Sqlite] and [Postgresql] (the files of the same names): the two backends and
      the proof that they meet the contract; [Backends]: the two side by side.
    - [Oidc] (oidc/): discovery, configuration, id-token verification.
    - [SessionConfig], [Sessions], [Config], [Manager] (sessions/configuration.go,
      session.go, manager.go, config/config.go and the part of main.go between them):
      keys, cookie sessions, the validated configuration, the session manager.
    - [LoadConfig] (config/config.go): the defaults, the flags and the decoding of the
      settings; viper and pflag are a class with the documented precedence as its law.
    - [Cleaner] (the goroutine of sessions/manager.go): the background cleaner, as the
      steps of a process with any number of managers, and its invariant.
    - [Handlers] (sessions/middleware.go, handler.go): the authentication middleware
      and the login, callback, logout and userinfo handlers.
    - [Server] (main.go, proxy.go): the reverse proxy and its director, the routes,
      the server that puts the access log around them, and [http_serve], what [net/http]
      does with a request; [Httputil]: what the reverse proxy makes of the headers after
      the director (hop-by-hop headers, upgrades, the forwarded address).
    - [Startup] (main.go and the constructors of database/): the singletons of the
      backends, [main] up to its deferred calls ([start_up]) and up to the server that
      listens ([mount]); [os.Exit] is a value, a Go panic is the one of the monad.
    - [Shutdown] (main.go): the goroutines of the running process and the deferred
      calls of [main], as steps.
    - [Interleaving] (zlogger/logger.go): concurrent requests on the shared logger, each
      with its own response and recorder, as steps.
    - [Race] (the [Update] of both backends): the two statements of an update as
      computations of their own, and goroutines that call one storage, as steps;
      [RaceStore]: what each half promises of the abstract store, and the user of a
      session as an invariant.
    - [Invariance]: what a computation keeps of the database ([safe], [keeps]), the
      interface [StorageKeepsAs] with the provenance of the records it is called with,
      and every handler, the server and the running process against it; [Typing]: the
      instances of the backends, and [start_up] and [mount]; [Closed]: what a storage
      answers whose connection is closed.
    - [Service]: the service of sessions, a transition system that says what becomes of
      a session id (drawn, opened for a user, renewed, closed, expired), and the
      handlers against it while other goroutines run before every statement.
    - [Backend] (test/backend_services/): the demonstration service behind the proxy,
      with its start and its shutdown.
    - [SessionLemmas]: what each session method does, against the contract of the
      storage; [CookieLaws]: what the handlers rely on of gorilla/sessions.
    - [MiddlewareSpec], [HandlerSpec]: abstract specifications of the handlers as
      relations between the request, the world before and the answer, with the proofs
      that the handlers implement them.
    - [Concrete]: one executable instance of every class, on which all hypotheses are
      shown to hold together and the handlers are run.
    - [MiddlewareProps], [HandlerProps], [FlowProps], [Revocation], [DatabaseProps],
      [ZloggerProps], [ConfigProps], [LoadConfigProps], [CleanerProps], [ServerProps],
      [StartupProps], [ShutdownProps], [TerminationProps], [TypingProps],
      [InterleavingProps], [RaceProps], [BackendProps], [ServiceProps]: the properties.

    ** State and effects

    A handler is a function of type [ResponseWriter → Request → M World unit].  The
    [World] holds what outlives a call: the [sessions] table, whether the connection
    is open, the response being written (headers, cookies, the status line once it is
    sent, body chunks), the status recorder, the one logger every request shares, the
    log and the trace.  A Go panic is the outcome [Panic]; deferred calls run in both
    outcomes.  A Go method with a pointer receiver that changes its struct returns the
    new struct.  Calls that leave the repository (clock, UUIDs, random bytes, network,
    database driver, identity provider, cookie codec, span middleware) go through
    [interact], which numbers them ([w_tick]): a library is a function of that number,
    so two calls with the same arguments may answer differently, and may fail.

    SQL statements are atomic functions on the table, with its CHECK, primary key, type
    and encoding constraints.  A database method may be interrupted by an error of the
    driver between any two of its calls.  On sqlite an error means that the statement
    has not run, and the context of the request is not used.  On postgresql every call
    gets that context: it is refused when the context is done or the driver fails, and
    the answer of a statement that the server has run may be lost ([pgx_fate]).  So the
    handlers are proved against the contract with lost answers ([LossyStore]), which
    both backends meet.

    ** What the theorems show

    - Access: the handler behind the middleware runs only with a valid or renewed
      token of a stored session; each of the eight ways a request may end is
      specified; a session that was logged out is never accepted again, over all
      sequences of requests.
    - Login flow: login, callback and logout implement their specifications; what one
      request leaves in the cookie is what the next one finds; every cookie has the
      hardened attributes; states and queries survive their encodings.
    - Storage: sqlite refines the abstract store, postgresql does so up to lost answers;
      where their columns are equivalent and no call is disturbed, so are they, and a
      cancelled request tells them apart; additions, deletions, updates and purges have
      exactly the effect the interface suggests; times are truncated on the safe side;
      with a database key, no token is written in clear over the whole life of a process.
    - Configuration: exactly the valid configurations are accepted, and make a manager
      with the expected store; the environment spells every configuration, the command
      line none.
    - Start and shutdown: what [main] makes of an accepted configuration; the routes it
      serves; the singletons; the database closed after the cleaner has stopped; the
      end that is not reached without a signal, can be reached with one, and is reached
      in every fair execution after it; the start that panics and hangs; requests that
      come after the close are rejected.
    - Service: whatever other requests do before each of its statements, as long as
      they are steps of the service of sessions, a request is a series of such steps,
      too: it opens sessions for the user of a verified id-token only, renews them for
      the same user, and never brings one back (rely and guarantee); so the running
      process refines the service, and every record it stores was vouched for by the
      provider.  A handler behind the middleware is served with the session of the
      request.
    - Concurrency: one entry of the log per request in every interleaving, and the
      interleaving in which it has the error of another; no interleaving of the
      statements of the goroutines restores a session that was deleted, or changes its
      user, but a renewal that is overtaken by the deletion is served.
    - Cleaner: one goroutine per process runs it, and only its channel is ever closed;
      from every reachable state it can purge, stop when cancelled, and let the caller
      that waits for it return.
    - Server: every request to the server is answered and logged once, whatever fails,
      but for a proxied body that cannot be copied and a proxied status that [net/http]
      refuses; what the transport is given for the proxied service carries the token of
      the session and not the header of the client, unless the client has named that
      header in its [Connection] header; what the service behind makes of the header.
    - Answers and log: the exact error response, the entry of the access log.
    - Divergences: theorems that state what the code does where it is not what its
      comments, messages or documents say (key rotation, 24-byte keys, the secrets of
      test/README.md, the error switch of the middleware, [pgx.ErrNoRows], the empty
      state, userinfo, the headers of the proxy).

    The hypotheses on libraries are classes with laws or named hypotheses of a section,
    and every property with hypotheses has a witness on the instances of [Concrete].  Of
    gorilla/sessions ([CookieLaws]): a saved cookie is read back when its name is a valid
    one and it is not older than the 30 days of the codecs.  Of the identifiers: two
    draws are different, where a theorem says so.

    ** Bounds and fuel

    [ParseQuery] recurses on the query with its length as fuel: each round consumes at
    least the separator, and [ParseQuery_two] shows the fuel is enough for what is
    printed.  Nothing else needs fuel.  Integers are [Z]; the 32-bit column of
    postgresql is checked by [int4_ok].

    Termination: the recursion of the definitions is structural but for [ParseQuery];
    the shutdown, whose executions are infinite sequences of states, has a rank.

    ** What is not modelled, and the plan

    A handler is one step of the running process of [Shutdown]; [Service] lets the other
    requests run before every call of the storage and between the two statements of
    [Update], [Interleaving] between the parts of the access log.  The service of
    sessions speaks of users and ids: which of the tokens that two renewals of one
    session draw at the same time is stored last is not related to which is served.
    Not modelled: what zap and the tracer do with the configuration they are given; the
    sources of viper are its class; the white space of [strings.TrimSpace] is the one of
    ASCII; of the reverse proxy, trailers, the headers of interim responses in the
    response, and the protocol that is quoted in the error of an upgrade (an upgrade is
    always refused: no writer here is an [http.Hijacker]).  A connection of pgx that a
    cancelled call has closed for good is one whose later calls may all fail.  Next: the
    tokens of concurrent renewals, and the interference of [Service] as an explicit
    schedule of whole handlers. *)

From stdpp Require Import base gmap strings list option numbers.
From Stdlib Require Import ZArith Lia.

(** ** Outcomes and the state monad of the handlers

    A Go call either returns or panics; in both cases the state it has reached
    is kept, because deferred calls run on both paths. *)
Inductive outcome (A : Type) : Type :=
  | Ret (a : A)
  | Panic (why : string).
Arguments Ret {A} a.
Arguments Panic {A} why.

Definition M (W A : Type) : Type := W → outcome A * W.

#[global] Instance M_ret (W : Type) : MRet (M W) := λ A a w, (Ret a, w).

#[global] Instance M_bind (W : Type) : MBind (M W) := λ A B k m w,
  match m w with
  | (Ret a, w') => k a w'
  | (Panic e, w') => (Panic e, w')
  end.

Definition panic {W A : Type} (why : string) : M W A := λ w, (Panic why, w).
Definition gets {W A : Type} (f : W → A) : M W A := λ w, (Ret (f w), w).
Definition modify {W : Type} (f : W → W) : M W unit := λ w, (Ret tt, f w).

(** [defer d m]: Go's [defer d()] placed before [m]; [d] runs when [m] returns
    and when it panics. *)
Definition defer {W A : Type} (d : M W unit) (m : M W A) : M W A := λ w,
  match m w with
  | (o, w') =>
      match d w' with
      | (Ret _, w'') => (o, w'')
      | (Panic e, w'') => (Panic e, w'')
      end
  end.

(** What a Go call that yields a value or an error hands back when the callee
    is a library whose two results are never both meaningful. *)
Inductive result (E A : Type) : Type :=
  | Ok (a : A)
  | Err (e : E).
Arguments Ok {E A} a.
Arguments Err {E A} e.

(** ** Weakest preconditions *)

Definition wp {W A : Type} (m : M W A) (Q : outcome A → W → Prop) (w : W) : Prop :=
  Q (m w).1 (m w).2.

(** Total version: [m] does not panic, and its value and final state satisfy [Q]. *)
Definition twp {W A : Type} (m : M W A) (Q : A → W → Prop) (w : W) : Prop :=
  ∃ a, (m w).1 = Ret a ∧ Q a (m w).2.

(** [preserves f m]: running [m] leaves the part [f] of the state as it was,
    whatever the outcome. *)
Definition preserves {W A B : Type} (f : W → B) (m : M W A) : Prop :=
  ∀ w, f (m w).2 = f w.

(** [no_panic m]: [m] never panics. *)
Definition no_panic {W A : Type} (m : M W A) : Prop :=
  ∀ w, ∃ a, (m w).1 = Ret a.

Create HintDb frame.
Create HintDb nopanic.

Section MonadLaws.
Context {W : Type}.

Lemma bind_ret {A B} (a : A) (k : A → M W B) : (mret a ≫= k) = k a.
Proof. reflexivity. Qed.

Lemma run_bind {A B} (m : M W A) (k : A → M W B) w :
  (m ≫= k) w = match m w with
               | (Ret a, w') => k a w'
               | (Panic e, w') => (Panic e, w')
               end.
Proof. reflexivity. Qed.

Lemma bind_assoc {A B C} (m : M W A) (k : A → M W B) (h : B → M W C) w :
  ((m ≫= k) ≫= h) w = (m ≫= λ a, k a ≫= h) w.
Proof. rewrite !run_bind. destruct (m w) as [[a|e] w']; reflexivity. Qed.

Lemma wp_bind {A B} (m : M W A) (k : A → M W B) Q w :
  wp (m ≫= k) Q w ↔
  wp m (λ o w', match o with
                | Ret a => wp (k a) Q w'
                | Panic e => Q (Panic e) w'
                end) w.
Proof. unfold wp. rewrite run_bind. destruct (m w) as [[a|e] w']; reflexivity. Qed.

Lemma wp_mono {A} (m : M W A) (P Q : outcome A → W → Prop) w :
  wp m P w → (∀ o w', P o w' → Q o w') → wp m Q w.
Proof. unfold wp. eauto. Qed.

Lemma wp_conj {A} (m : M W A) (P Q : outcome A → W → Prop) w :
  wp m P w → wp m Q w → wp m (λ o w', P o w' ∧ Q o w') w.
Proof. unfold wp. auto. Qed.

Lemma twp_ret {A} (a : A) (Q : A → W → Prop) w : Q a w → twp (mret a) Q w.
Proof. intros H. exists a. by split. Qed.

Lemma twp_bind {A B} (m : M W A) (k : A → M W B) Q w :
  twp m (λ a, twp (k a) Q) w → twp (m ≫= k) Q w.
Proof.
  intros (a & Ha & b & Hb & HQ). exists b. rewrite run_bind.
  destruct (m w) as [o w']; simpl in *. by subst o.
Qed.

Lemma twp_bind_inv {A B} (m : M W A) (k : A → M W B) Q w :
  twp (m ≫= k) Q w → twp m (λ a, twp (k a) Q) w.
Proof.
  unfold twp. rewrite run_bind. destruct (m w) as [[a|e] w']; simpl.
  - intros H. exists a. by split.
  - by intros (b & ? & _).
Qed.

Lemma twp_gets {A} (f : W → A) (Q : A → W → Prop) w : Q (f w) w → twp (gets f) Q w.
Proof. intros H. eexists. by split. Qed.

Lemma twp_modify (f : W → W) (Q : unit → W → Prop) w : Q tt (f w) → twp (modify f) Q w.
Proof. intros H. eexists. by split. Qed.

Lemma twp_defer {A} d (m : M W A) Q w :
  twp m (λ a, twp d (λ _, Q a)) w → twp (defer d m) Q w.
Proof.
  intros (a & Ha & u & Hu & HQ). exists a. unfold defer.
  destruct (m w) as [o w']; simpl in *. subst o.
  destruct (d w') as [o w'']; simpl in *. by subst o.
Qed.

Lemma twp_mono {A} (m : M W A) (P Q : A → W → Prop) w :
  twp m P w → (∀ a w', P a w' → Q a w') → twp m Q w.
Proof. intros (a & Ha & HP) HPQ. exists a. auto. Qed.

Lemma twp_conj {A} (m : M W A) (P Q : A → W → Prop) w :
  twp m P w → twp m Q w → twp m (λ a w', P a w' ∧ Q a w') w.
Proof. intros (a & Ha & HP) (b & Hb & HQ). exists a. split; [done|]. split; congruence. Qed.

Lemma twp_run {A} (m : M W A) (Q : A → W → Prop) w a w' :
  twp m Q w → m w = (Ret a, w') → Q a w'.
Proof. intros (b & Hb & HQ) Hm. rewrite Hm in *. simpl in *. by simplify_eq. Qed.

Lemma twp_preserves {A B} (f : W → B) (m : M W A) Q w :
  preserves f m → twp m Q w → twp m (λ a w', Q a w' ∧ f w' = f w) w.
Proof. intros Hf (a & Ha & HQ). exists a. auto. Qed.

Lemma preserves_ret {A B} (f : W → B) (a : A) : preserves f (mret a).
Proof. intros w. reflexivity. Qed.

Lemma preserves_panic {A B} (f : W → B) e : preserves f (panic (A:=A) e).
Proof. intros w. reflexivity. Qed.

Lemma preserves_gets {A B} (f : W → B) (g : W → A) : preserves f (gets g).
Proof. intros w. reflexivity. Qed.

Lemma preserves_modify {B} (f : W → B) (g : W → W) :
  (∀ w, f (g w) = f w) → preserves f (modify g).
Proof. intros H w. apply H. Qed.

Lemma preserves_bind {A B C} (f : W → C) (m : M W A) (k : A → M W B) :
  preserves f m → (∀ a, preserves f (k a)) → preserves f (m ≫= k).
Proof.
  intros Hm Hk w. rewrite run_bind. specialize (Hm w).
  destruct (m w) as [[a|e] w']; simpl in *; [rewrite Hk|]; assumption.
Qed.

Lemma preserves_defer {A C} (f : W → C) d (m : M W A) :
  preserves f d → preserves f m → preserves f (defer d m).
Proof.
  intros Hd Hm w. unfold defer. specialize (Hm w).
  destruct (m w) as [o w']; simpl in *. specialize (Hd w').
  destruct (d w') as [[]  w'']; simpl in *; congruence.
Qed.

Lemma no_panic_ret {A} (a : A) : no_panic (W:=W) (mret a).
Proof. intros w. eexists. reflexivity. Qed.

Lemma no_panic_gets {A} (g : W → A) : no_panic (gets g).
Proof. intros w. eexists. reflexivity. Qed.

Lemma no_panic_modify (g : W → W) : no_panic (modify g).
Proof. intros w. eexists. reflexivity. Qed.

Lemma no_panic_bind {A B} (m : M W A) (k : A → M W B) :
  no_panic m → (∀ a, no_panic (k a)) → no_panic (m ≫= k).
Proof.
  intros Hm Hk w. rewrite run_bind. specialize (Hm w) as [a Ha].
  destruct (m w) as [o w']; simpl in *; subst. apply Hk.
Qed.

Lemma no_panic_defer {A} d (m : M W A) :
  no_panic d → no_panic m → no_panic (defer d m).
Proof.
  intros Hd Hm w. unfold defer. specialize (Hm w) as [a Ha].
  destruct (m w) as [o w']; simpl in *; subst. specialize (Hd w') as [[] Hd].
  destruct (d w') as [o w'']; simpl in *; subst. eexists; reflexivity.
Qed.
End MonadLaws.

#[export] Hint Resolve preserves_ret preserves_panic preserves_gets : frame.
#[export] Hint Resolve no_panic_ret no_panic_gets no_panic_modify : nopanic.

(** [solve_frame]: proves [preserves f m] by walking through binds, defers and
    matches; the leaves are found in the [frame] database. *)
Ltac solve_frame :=
  repeat first
    [ match goal with |- ∀ _, _ => intro | |- _ → _ => intro end
    | solve [auto with frame]
    | solve [apply preserves_modify; intros; auto]
    | apply preserves_bind
    | apply preserves_defer
    | match goal with
      | |- preserves _ (match ?x with _ => _ end) => destruct x
      | |- preserves _ (let _ := _ in _) => cbv zeta
      end ].

Ltac solve_nopanic :=
  repeat first
    [ match goal with |- ∀ _, _ => intro | |- _ → _ => intro end
    | solve [auto with nopanic]
    | apply no_panic_bind
    | apply no_panic_defer
    | match goal with
      | |- no_panic (match ?x with _ => _ end) => destruct x
      | |- no_panic (let _ := _ in _) => cbv zeta
      end ].

(** [step_match]: splits on the next [match] whose head decides the goal. *)
Ltac step_match :=
  match goal with
  | |- context [match ?x with _ => _ end] =>
      lazymatch x with
      | context [match _ with _ => _ end] => fail
      | _ => destruct x eqn:?
      end
  end.

(** Running past a prefix whose behaviour is known. *)
Lemma twp_run_bind {W A : Type} (m : M W A) (P : A → W → Prop) w :
  twp m P w → ∃ a w', P a w' ∧ ∀ B (k : A → M W B), (m ≫= k) w = k a w'.
Proof.
  intros (a & Ha & HP). exists a, (m w).2. split; [done|]. intros B k.
  rewrite run_bind. destruct (m w) as [o w']. simpl in *. by subst o.
Qed.
