(* ===== verification/GoBase.v ===== *)
(** * What the program uses of the Go language: errors, contexts, time

    Error values with Go's identity semantics, [context.Context] as the chain of
    [context.WithValue] calls, [time.Time] and [time.Duration] as integer
    nanoseconds, and the IEEE-754 arithmetic behind [Duration.Seconds]. *)

From stdpp Require Import base gmap strings list option numbers.
From Stdlib Require Import ZArith Lia SpecFloat.
From S2P Require Import Prelude.

#[local] Open Scope Z_scope.

(** ** Errors

    [ErrVar pkg name text]: the value of a package-level variable initialised by
    [errors.New(text)].  [Errorf text inner]: the fresh value [fmt.Errorf]
    returns when its format has one [%w], with the formatted text.
    [ErrorString text]: any other fresh error value. *)
Inductive error : Type :=
  | ErrVar (pkg name text : string)
  | Errorf (text : string) (inner : error)
  | ErrorString (text : string).

(** [err.Error()] *)
Definition Error (e : error) : string :=
  match e with
  | ErrVar _ _ t => t
  | Errorf t _ => t
  | ErrorString t => t
  end.

(** [err == v] for a package-level variable [v]: pointer identity, so a value
    made by [fmt.Errorf] is never equal to the variable it wraps. *)
Definition error_eq (e v : error) : bool :=
  match e, v with
  | ErrVar p n _, ErrVar p' n' _ => String.eqb p p' && String.eqb n n'
  | _, _ => false
  end.

(** [errors.Is(err, v)]: walks the chain of wrapped errors. *)
Fixpoint errors_Is (e v : error) : bool :=
  error_eq e v ||
  match e with
  | Errorf _ inner => errors_Is inner v
  | _ => false
  end.

(** [fmt.Errorf("%w: %s", err, s)] *)
Definition Errorf_w_s (e : error) (s : string) : error :=
  Errorf (Error e +:+ ": " +:+ s) e.

Definition nil_dereference : string :=
  "runtime error: invalid memory address or nil pointer dereference".

(** ** Contexts

    [context.WithValue] pushes a binding; [ctx.Value] finds the most recent one.
    The keys are the unexported key types of the packages that use them. *)
Inductive ctxkey : Type :=
  | zlogger_ctxKey
  | opentelemetry_ctxKey
  | ContextKeyAccessTokenName
  | otel_spanKey
  | ClaimsCtxKey.

#[export] Instance ctxkey_eq_dec : EqDecision ctxkey.
Proof. solve_decision. Defined.

(** A started span, as the program can see it. *)
Record Span : Type := mkSpan { span_id : nat; span_name : string }.

(** A [trace.Tracer], identified by its instrumentation name. *)
Record Tracer : Type := mkTracer { tracer_name : string }.

(** The claims of an access token, as the demonstration service decodes them. *)
Record Claims : Type := mkClaims {
  Sub : string;
  Azp : string;
  Scope : string;
  EmailVerified : bool;
  Name : string;
  PreferredUsername : string;
  GivenName : string;
  FamilyName : string;
  Email : string;
  Emails : list string
}.

(** The dynamic values the program stores in a context.  There is one
    [*zlogger.Logger] in a process, so the pointer carries no data here. *)
Inductive any : Type :=
  | AnyString (s : string)
  | AnyLogger
  | AnyTracer (t : Tracer)
  | AnySpan (s : Span)
  | AnyClaims (c : Claims).

Definition Context : Type := list (ctxkey * any).

Definition context_WithValue (parent : Context) (k : ctxkey) (v : any) : Context :=
  (k, v) :: parent.

Fixpoint ctx_Value (ctx : Context) (k : ctxkey) : option any :=
  match ctx with
  | [] => None
  | (k', v) :: parent => if decide (k = k') then Some v else ctx_Value parent k
  end.

(** ** Time

    A [time.Time] is the number of nanoseconds since the Unix epoch; a
    [time.Duration] is a number of nanoseconds. *)
Definition Time : Type := Z.
Definition Duration : Type := Z.

Definition Second : Duration := 1000000000.
Definition Minute : Duration := 60 * Second.

(** [time.Time{}]: January 1, year 1, 00:00:00 UTC. *)
Definition Time_zero : Time := -62135596800 * Second.

(** [t.Unix()], [time.Unix(s, 0)] and [t.After(u)]. *)
Definition Time_Unix (t : Time) : Z := Z.div t Second.
Definition time_Unix (sec : Z) : Time := sec * Second.
Definition Time_After (t u : Time) : bool := Z.ltb u t.

(** ** float64

    The conversions and the operations of [Duration.Seconds], on the binary64
    numbers of [SpecFloat] (53 bits of precision, maximal exponent 1024, rounding
    to nearest even). *)
Definition float64_of_int64 (z : Z) : spec_float := binary_normalize 53 1024 z 0 false.
Definition float64_add : spec_float → spec_float → spec_float := SFadd 53 1024.
Definition float64_div : spec_float → spec_float → spec_float := SFdiv 53 1024.

(** [int(f)]: truncation towards zero; Go leaves the result for an infinity or a
    NaN to the implementation, which is [None] here. *)
Definition int_of_float64 (f : spec_float) : option Z :=
  match f with
  | S754_zero _ => Some 0
  | S754_finite s m e =>
      let a := if Z.leb 0 e then Z.shiftl (Z.pos m) e else Z.shiftr (Z.pos m) (- e) in
      Some (if s then - a else a)
  | _ => None
  end%Z.

(** [d.Seconds()] *)
Definition Duration_Seconds (d : Duration) : spec_float :=
  let sec := Z.quot d Second in
  let nsec := Z.rem d Second in
  float64_add (float64_of_int64 sec)
              (float64_div (float64_of_int64 nsec) (float64_of_int64 Second)).

(** ** Lemmas *)

Lemma error_eq_var p n t : error_eq (ErrVar p n t) (ErrVar p n t) = true.
Proof. simpl. by rewrite !String.eqb_refl. Qed.

Lemma error_eq_Errorf t e v : error_eq (Errorf t e) v = false.
Proof. reflexivity. Qed.

Lemma ctx_Value_WithValue_eq ctx k v : ctx_Value (context_WithValue ctx k v) k = Some v.
Proof. simpl. by rewrite decide_True. Qed.

Lemma ctx_Value_WithValue_ne ctx k k' v :
  k ≠ k' → ctx_Value (context_WithValue ctx k' v) k = ctx_Value ctx k.
Proof. intros. simpl. by rewrite decide_False. Qed.

(** Seconds round down, so a time read back from its Unix seconds is never later
    than the original and less than a second earlier. *)
Lemma time_Unix_Time_Unix t :
  time_Unix (Time_Unix t) ≤ t < time_Unix (Time_Unix t) + Second.
Proof.
  unfold time_Unix, Time_Unix, Second.
  pose proof (Z.div_mod t 1000000000). pose proof (Z.mod_pos_bound t 1000000000). lia.
Qed.

Lemma Time_Unix_time_Unix s : Time_Unix (time_Unix s) = s.
Proof. unfold time_Unix, Time_Unix, Second. by rewrite Z.div_mul. Qed.

Lemma Time_Unix_idemp t : Time_Unix (time_Unix (Time_Unix t)) = Time_Unix t.
Proof. apply Time_Unix_time_Unix. Qed.
