(* ===== verification/GoStrings.v ===== *)
(** * strings, net/textproto and net: the functions on texts

    Splitting, trimming, the canonical names of headers, lists of tokens in a header,
    and the address of a host. *)

From stdpp Require Import base strings list option.
From Stdlib Require Import ZArith NArith Lia Ascii String.
From S2P Require Import Prelude.

#[local] Open Scope string_scope.

(** ** strings.Split and strings.TrimSpace *)

(** [strings.Split(s, sep)] for a separator that is not empty: [skip] characters of a
    separator are still to be skipped, [acc] is the field so far. *)
Fixpoint split_from (sep : string) (skip : nat) (acc s : string) : list string :=
  match s with
  | EmptyString => [acc]
  | String c rest =>
      match skip with
      | S k => split_from sep k acc rest
      | O => if String.prefix sep s
             then acc :: split_from sep (String.length sep - 1) "" rest
             else split_from sep 0 (acc +:+ String c "") rest
      end
  end.

Definition strings_Split (s sep : string) : list string := split_from sep 0 "" s.

(** [strings.Contains(s, sub)] *)
Fixpoint strings_Contains (s sub : string) : bool :=
  String.prefix sub s ||
  match s with
  | EmptyString => false
  | String _ rest => strings_Contains rest sub
  end.

Section Trim.
Context (blank : ascii → bool).

Fixpoint trim_left (s : string) : string :=
  match s with
  | String c rest => if blank c then trim_left rest else s
  | EmptyString => EmptyString
  end.

Fixpoint trim_right (s : string) : string :=
  match s with
  | EmptyString => EmptyString
  | String c rest =>
      match trim_right rest with
      | EmptyString => if blank c then EmptyString else String c EmptyString
      | rest => String c rest
      end
  end.

Definition trim (s : string) : string := trim_right (trim_left s).
End Trim.

(** The white space of ASCII. *)
Definition is_space (c : ascii) : bool :=
  let n := N_of_ascii c in (N.eqb n 32 || (9 <=? n)%N && (n <=? 13)%N).

(** [strings.TrimSpace], on ASCII strings. *)
Definition strings_TrimSpace (s : string) : string := trim is_space s.

(** Space, tab, line feed and carriage return: [textproto.TrimString]. *)
Definition is_textproto_space (c : ascii) : bool :=
  let n := N_of_ascii c in (N.eqb n 32 || N.eqb n 9 || N.eqb n 10 || N.eqb n 13).

(** ** Names of headers *)

(** The characters of a token of RFC 7230. *)
Definition is_token_char (c : ascii) : bool :=
  let n := N_of_ascii c in
  ((48 <=? n) && (n <=? 57))%N || ((65 <=? n) && (n <=? 90))%N || ((97 <=? n) && (n <=? 122))%N
  || existsb (Ascii.eqb c) (list_ascii_of_string "!#$%&'*+-.^_`|~").

Definition is_token (s : string) : bool := forallb is_token_char (list_ascii_of_string s).

Definition to_lower (c : ascii) : ascii :=
  let n := N_of_ascii c in
  if ((65 <=? n) && (n <=? 90))%N then ascii_of_N (n + 32) else c.

Definition to_upper (c : ascii) : ascii :=
  let n := N_of_ascii c in
  if ((97 <=? n) && (n <=? 122))%N then ascii_of_N (n - 32) else c.

Fixpoint canonical_from (upper : bool) (s : string) : string :=
  match s with
  | EmptyString => EmptyString
  | String c rest =>
      let c := if upper then to_upper c else to_lower c in
      String c (canonical_from (Ascii.eqb c "-") rest)
  end.

(** [textproto.CanonicalMIMEHeaderKey] *)
Definition CanonicalHeaderKey (s : string) : string :=
  if is_token s then canonical_from true s else s.

(** ** Lists of tokens *)

Fixpoint lower (s : string) : string :=
  match s with
  | EmptyString => EmptyString
  | String c rest => String (to_lower c) (lower rest)
  end.

(** [httpguts.HeaderValuesContainsToken] for an ASCII token: whatever the case. *)
Definition contains_token (values : list string) (token : string) : bool :=
  existsb (λ v, existsb (λ e, String.eqb (lower (trim (λ c, Ascii.eqb c " " || Ascii.eqb c "009") e))
                                         (lower token))
                        (strings_Split v ",")) values.

(** Printable ASCII. *)
Definition is_print (s : string) : bool :=
  forallb (λ c, let n := N_of_ascii c in (32 <=? n) && (n <=? 126))%N (list_ascii_of_string s).

(** ** net.SplitHostPort *)

(** The text before and after the last colon. *)
Fixpoint cut_last_colon (s : string) : option (string * string) :=
  match s with
  | EmptyString => None
  | String c rest =>
      match cut_last_colon rest with
      | Some (a, b) => Some (String c a, b)
      | None => if Ascii.eqb c ":" then Some ("", rest) else None
      end
  end.

(** The host of an address [host:port] or [[host]:port]. *)
Definition SplitHostPort_host (s : string) : option string :=
  match cut_last_colon s with
  | None => None
  | Some (before, port) =>
      if strings_Contains port "[" || strings_Contains port "]" then None
      else match before with
           | String "[" inner =>
               match strings_Split inner "]" with
               | [host; ""] => if strings_Contains host "[" then None else Some host
               | _ => None
               end
           | _ => if strings_Contains before ":" || strings_Contains before "["
                     || strings_Contains before "]" then None
                  else Some before
           end
  end.

(** ** Lemmas *)

(** A text without the separator is one field. *)
Lemma split_from_none sep acc s :
  strings_Contains s sep = false → split_from sep 0 acc s = [acc +:+ s].
Proof.
  revert acc. induction s as [|c s IH]; intros acc Hs.
  - simpl. f_equal. induction acc as [|x acc IHa]; [done|].
    change (String x acc = String x (acc +:+ "")). by f_equal.
  - cbn [strings_Contains] in Hs. apply orb_false_iff in Hs as [Hp Hs]. cbn [split_from].
    rewrite Hp, IH by done. f_equal. clear. induction acc as [|x acc IHa]; [done|].
    change (String x ((acc +:+ String c "") +:+ s) = String x (acc +:+ String c s)). by f_equal.
Qed.

(** One with it is at least two. *)
Lemma split_from_some sep acc s :
  sep ≠ "" → strings_Contains s sep = true →
  ∃ a b l, split_from sep 0 acc s = a :: b :: l.
Proof.
  intros Hsep. revert acc. induction s as [|c s IH]; intros acc Hs.
  - cbn [strings_Contains] in Hs. rewrite orb_false_r in Hs. by destruct sep.
  - cbn [split_from]. destruct (String.prefix sep (String c s)) eqn:Hp.
    + assert (Hne : ∀ k a t, ∃ b l, split_from sep k a t = b :: l).
      { clear. intros k a t. revert k a.
        induction t as [|x t IH]; intros k a; [by eexists _, _|]. cbn [split_from].
        destruct k; [|apply IH]. destruct (String.prefix _ _); [by eexists _, _|apply IH]. }
      destruct (Hne (String.length sep - 1)%nat "" s) as (b & l & ->). by exists acc, b, l.
    + apply IH. cbn [strings_Contains] in Hs. by rewrite Hp in Hs.
Qed.

Example split_bearer : strings_Split "Bearer at-bob" "Bearer" = [""; " at-bob"].
Proof. reflexivity. Qed.
Example canonical_name : CanonicalHeaderKey "x-forwarded-FOR" = "X-Forwarded-For".
Proof. reflexivity. Qed.
Example hosts :
  SplitHostPort_host "10.0.0.1:4000" = Some "10.0.0.1" ∧ SplitHostPort_host "[::1]:80" = Some "::1"
  ∧ SplitHostPort_host "::1" = None ∧ SplitHostPort_host "nohost" = None.
Proof. by split_and!. Qed.
