(* ===== verification/Encoding.v ===== *)
(** * Encodings of the standard library the handlers rely on

    [encoding/base64]'s [URLEncoding] (the oauth state), [net/url]'s
    [QueryEscape] / [QueryUnescape] / [ParseQuery] (the logout redirect and the
    callback parameters), and [strings.Split], [strings.TrimSpace],
    [strings.Cut].  A Go string is a sequence of bytes: [string] here. *)

From stdpp Require Import base gmap strings list option numbers.
From Stdlib Require Import ZArith NArith Lia Ascii String.
From S2P Require Import Prelude.

#[local] Open Scope string_scope.

(** ** base64.URLEncoding *)

Definition encodeURL : string :=
  "ABCDEFGHIJKLMNOPQRSTUVWXYZabcdefghijklmnopqrstuvwxyz0123456789-_".

Definition base64_char (n : N) : ascii :=
  match String.get (N.to_nat (N.land n 63)) encodeURL with
  | Some c => c
  | None => "="%char
  end.

(** The three-byte groups of [Encoding.Encode], then the remainder of one or two
    bytes with its padding. *)
Fixpoint base64_URLEncoding (src : string) : string :=
  match src with
  | String b0 (String b1 (String b2 rest)) =>
      let val := N.lor (N.shiftl (N_of_ascii b0) 16)
                       (N.lor (N.shiftl (N_of_ascii b1) 8) (N_of_ascii b2)) in
      String (base64_char (N.shiftr val 18))
        (String (base64_char (N.shiftr val 12))
          (String (base64_char (N.shiftr val 6))
            (String (base64_char val) (base64_URLEncoding rest))))
  | String b0 (String b1 EmptyString) =>
      let val := N.lor (N.shiftl (N_of_ascii b0) 16) (N.shiftl (N_of_ascii b1) 8) in
      String (base64_char (N.shiftr val 18))
        (String (base64_char (N.shiftr val 12))
          (String (base64_char (N.shiftr val 6)) "="))
  | String b0 EmptyString =>
      let val := N.shiftl (N_of_ascii b0) 16 in
      String (base64_char (N.shiftr val 18))
        (String (base64_char (N.shiftr val 12)) "==")
  | EmptyString => ""
  end.

(** ** Characters *)

Definition char_between (lo hi c : ascii) : bool :=
  N.leb (N_of_ascii lo) (N_of_ascii c) && N.leb (N_of_ascii c) (N_of_ascii hi).

Definition is_alnum (c : ascii) : bool :=
  char_between "a" "z" c || char_between "A" "Z" c || char_between "0" "9" c.

(** [url.shouldEscape(c, encodeQueryComponent)] *)
Definition shouldEscape (c : ascii) : bool :=
  negb (is_alnum c
        || Ascii.eqb c "-" || Ascii.eqb c "_" || Ascii.eqb c "." || Ascii.eqb c "~").

Definition upperhex (n : N) : ascii :=
  match String.get (N.to_nat n) "0123456789ABCDEF" with
  | Some c => c
  | None => "0"%char
  end.

Definition unhex (c : ascii) : option N :=
  let n := N_of_ascii c in
  if char_between "0" "9" c then Some (n - 48)%N
  else if char_between "a" "f" c then Some (n - 97 + 10)%N
  else if char_between "A" "F" c then Some (n - 65 + 10)%N
  else None.

(** [url.QueryEscape] *)
Fixpoint QueryEscape (s : string) : string :=
  match s with
  | EmptyString => ""
  | String c rest =>
      if Ascii.eqb c " " then String "+" (QueryEscape rest)
      else if shouldEscape c then
        String "%" (String (upperhex (N.shiftr (N_of_ascii c) 4))
          (String (upperhex (N.land (N_of_ascii c) 15)) (QueryEscape rest)))
      else String c (QueryEscape rest)
  end.

(** [url.QueryUnescape]; [None] is the [EscapeError]. *)
Fixpoint QueryUnescape (s : string) : option string :=
  match s with
  | EmptyString => Some ""
  | String c rest =>
      if Ascii.eqb c "%" then
        match rest with
        | String h (String l rest') =>
            match unhex h, unhex l with
            | Some h, Some l =>
                String (ascii_of_N (N.lor (N.shiftl h 4) l)) <$> QueryUnescape rest'
            | _, _ => None
            end
        | _ => None
        end
      else if Ascii.eqb c "+" then String " " <$> QueryUnescape rest
      else String c <$> QueryUnescape rest
  end.

(** [strings.Cut] at one character: what is before the first occurrence, and
    what is after it when there is one. *)
Fixpoint strings_Cut (sep : ascii) (s : string) : string * option string :=
  match s with
  | EmptyString => ("", None)
  | String c rest =>
      if Ascii.eqb c sep then ("", Some rest)
      else let '(before, after) := strings_Cut sep rest in (String c before, after)
  end.

Fixpoint strings_ContainsByte (x : ascii) (s : string) : bool :=
  match s with
  | EmptyString => false
  | String c rest => Ascii.eqb c x || strings_ContainsByte x rest
  end.

(** [url.ParseQuery], as [URL.Query] uses it: malformed settings are dropped. The
    loop consumes at least one character a round, so the length of the query is
    enough fuel. *)
Fixpoint parseQuery (fuel : nat) (query : string) : list (string * string) :=
  match fuel with
  | O => []
  | S fuel =>
      match query with
      | EmptyString => []
      | _ =>
          let '(key, after) := strings_Cut "&" query in
          let rest := parseQuery fuel (default "" after) in
          if strings_ContainsByte ";" key then rest
          else if String.eqb key "" then rest
          else
            let '(k, v) := strings_Cut "=" key in
            match QueryUnescape k, QueryUnescape (default "" v) with
            | Some k, Some v => (k, v) :: rest
            | _, _ => rest
            end
      end
  end.

Definition ParseQuery (query : string) : list (string * string) :=
  parseQuery (String.length query) query.

(** [url.Values.Get]: the first value of the key, or the empty string. *)
Fixpoint Values_Get (vs : list (string * string)) (key : string) : string :=
  match vs with
  | [] => ""
  | (k, v) :: vs' => if String.eqb k key then v else Values_Get vs' key
  end.

(** ** A reference decoder for base64 *)

(** The position of a character in the alphabet. *)
Fixpoint index_of (c : ascii) (s : string) : option N :=
  match s with
  | EmptyString => None
  | String d rest =>
      if Ascii.eqb c d then Some 0%N else N.succ <$> index_of c rest
  end.

Definition sextet (c : ascii) : option N := index_of c encodeURL.

Fixpoint base64_decode (s : string) : option string :=
  match s with
  | EmptyString => Some ""
  | String c0 (String c1 (String c2 (String c3 rest))) =>
      n0 ← sextet c0; n1 ← sextet c1;
      let b0 := ascii_of_N (n0 * 4 + n1 / 16) in
      match sextet c2 with
      | None => if String.eqb rest "" then Some (String b0 "") else None
      | Some n2 =>
          let b1 := ascii_of_N ((n1 mod 16) * 16 + n2 / 4) in
          match sextet c3 with
          | None => if String.eqb rest "" then Some (String b0 (String b1 "")) else None
          | Some n3 =>
              let b2 := ascii_of_N ((n2 mod 4) * 64 + n3) in
              (λ r, String b0 (String b1 (String b2 r))) <$> base64_decode rest
          end
      end
  | _ => None
  end%N.

(** ** Bytes *)

Lemma N_of_ascii_lt c : (N_of_ascii c < 256)%N.
Proof. apply N_ascii_bounded. Qed.

(** Concatenation of bit fields is addition. *)
Lemma lor_shiftl_add (a b k : N) :
  (a < 2 ^ k)%N → N.lor (N.shiftl b k) a = (b * 2 ^ k + a)%N.
Proof.
  intros Ha.
  assert (Hland : N.land (N.shiftl b k) a = 0%N).
  { apply N.bits_inj. intros i. rewrite N.land_spec, N.bits_0.
    destruct (N.ltb_spec i k) as [Hik|Hik].
    - by rewrite N.shiftl_spec_low.
    - destruct (decide (a = 0%N)) as [->|Hne].
      + by rewrite N.bits_0, andb_false_r.
      + rewrite (N.bits_above_log2 a i), andb_false_r; [done|].
        apply N.log2_lt_pow2; [lia|].
        eapply N.lt_le_trans; [exact Ha|]. apply N.pow_le_mono_r; lia. }
  rewrite <-N.lxor_lor, <-N.add_nocarry_lxor by done.
  by rewrite N.shiftl_mul_pow2.
Qed.

Lemma land_63 n : N.land n 63 = (n mod 64)%N.
Proof. change 63%N with (N.ones 6). by rewrite N.land_ones. Qed.

(** ** base64 *)

Lemma sextet_alphabet :
  forallb (λ n, bool_decide (sextet (base64_char (N.of_nat n)) = Some (N.of_nat n)))
          (seq 0 64) = true.
Proof. vm_compute. reflexivity. Qed.

Lemma base64_char_mod n : base64_char n = base64_char (n mod 64).
Proof. unfold base64_char. by rewrite !land_63, N.Div0.mod_mod. Qed.

Lemma sextet_char n : sextet (base64_char n) = Some (n mod 64)%N.
Proof.
  rewrite base64_char_mod.
  pose proof sextet_alphabet as H. rewrite forallb_forall in H.
  assert (Hn : (n mod 64 < 64)%N) by (apply N.mod_lt; lia).
  revert Hn. generalize (n mod 64)%N as k. intros k Hk.
  specialize (H (N.to_nat k)). rewrite N2Nat.id in H.
  eapply bool_decide_eq_true_1, H. apply in_seq.
  lia.
Qed.

Lemma sextet_pad : sextet "=" = None.
Proof. reflexivity. Qed.

(** Induction by groups of three bytes. *)
Lemma string_ind3 (P : string → Prop) :
  P "" → (∀ a, P (String a "")) → (∀ a b, P (String a (String b ""))) →
  (∀ a b c s, P s → P (String a (String b (String c s)))) →
  ∀ s, P s.
Proof.
  intros H0 H1 H2 H3 s.
  enough (P s ∧ (∀ a, P (String a s)) ∧ (∀ a b, P (String a (String b s)))) by tauto.
  induction s as [|c s (IH0 & IH1 & IH2)]; [auto|]. repeat split; auto.
Qed.

Lemma div_field (k q r : N) : (r < k → (q * k + r) / k = q)%N.
Proof. intros. symmetry. apply (N.div_unique _ _ _ r); lia. Qed.

Lemma mod_field (k q r : N) : (r < k → (q * k + r) mod k = r)%N.
Proof. intros. symmetry. apply (N.mod_unique _ _ q); lia. Qed.

Lemma div_mod_split (n k : N) : (k ≠ 0 → ∃ q r, n = q * k + r ∧ r < k)%N.
Proof.
  intros Hk. exists (n / k)%N, (n mod k)%N. split; [|by apply N.mod_lt].
  rewrite (N.mul_comm _ k). apply N.div_mod. done.
Qed.

(** The four sextets of a three-byte group. *)
Lemma base64_fields (a b c : N) :
  (a < 256 → b < 256 → c < 256 →
   let val := a * 65536 + b * 256 + c in
   ∃ a1 a0 b1 b0 c1 c0,
     a = a1 * 4 + a0 ∧ b = b1 * 16 + b0 ∧ c = c1 * 64 + c0 ∧
     a0 < 4 ∧ b1 < 16 ∧ b0 < 16 ∧ c1 < 4 ∧ c0 < 64 ∧
     N.shiftr val 18 mod 64 = a1 ∧ N.shiftr val 12 mod 64 = a0 * 16 + b1 ∧
     N.shiftr val 6 mod 64 = b0 * 4 + c1 ∧ val mod 64 = c0)%N.
Proof.
  intros Ha Hb Hc val.
  destruct (div_mod_split a 4) as (a1 & a0 & -> & Ha0); [done|].
  destruct (div_mod_split b 16) as (b1 & b0 & -> & Hb0); [done|].
  destruct (div_mod_split c 64) as (c1 & c0 & -> & Hc0); [done|].
  exists a1, a0, b1, b0, c1, c0. repeat (split; [first [done | lia]|]).
  rewrite !N.shiftr_div_pow2.
  change (2 ^ 18)%N with 262144%N; change (2 ^ 12)%N with 4096%N; change (2 ^ 6)%N with 64%N.
  subst val. repeat split.
  - replace ((a1 * 4 + a0) * 65536 + (b1 * 16 + b0) * 256 + (c1 * 64 + c0))%N
      with (a1 * 262144 + (a0 * 65536 + b1 * 4096 + b0 * 256 + c1 * 64 + c0))%N by lia.
    rewrite div_field by lia. apply N.mod_small. lia.
  - replace ((a1 * 4 + a0) * 65536 + (b1 * 16 + b0) * 256 + (c1 * 64 + c0))%N
      with ((a1 * 64 + (a0 * 16 + b1)) * 4096 + (b0 * 256 + c1 * 64 + c0))%N by lia.
    rewrite div_field by lia. apply mod_field. lia.
  - replace ((a1 * 4 + a0) * 65536 + (b1 * 16 + b0) * 256 + (c1 * 64 + c0))%N
      with (((a1 * 4096 + a0 * 1024 + b1 * 64) + (b0 * 4 + c1)) * 64 + c0)%N by lia.
    rewrite div_field by lia.
    replace (a1 * 4096 + a0 * 1024 + b1 * 64)%N with ((a1 * 64 + a0 * 16 + b1) * 64)%N by lia.
    apply mod_field. lia.
  - replace ((a1 * 4 + a0) * 65536 + (b1 * 16 + b0) * 256 + (c1 * 64 + c0))%N
      with ((a1 * 4096 + a0 * 1024 + b1 * 64 + b0 * 4 + c1) * 64 + c0)%N by lia.
    apply mod_field. lia.
Qed.

Lemma ascii_of_N_eq n c : n = N_of_ascii c → ascii_of_N n = c.
Proof. intros ->. apply ascii_N_embedding. Qed.

Lemma base64_val3 a b c :
  N.lor (N.shiftl (N_of_ascii a) 16) (N.lor (N.shiftl (N_of_ascii b) 8) (N_of_ascii c))
  = (N_of_ascii a * 65536 + N_of_ascii b * 256 + N_of_ascii c)%N.
Proof.
  pose proof (N_of_ascii_lt a). pose proof (N_of_ascii_lt b). pose proof (N_of_ascii_lt c).
  rewrite (lor_shiftl_add (N_of_ascii c) (N_of_ascii b) 8) by (simpl; lia).
  rewrite lor_shiftl_add by (simpl; lia). simpl (2 ^ _)%N. lia.
Qed.

Lemma base64_val2 a b :
  N.lor (N.shiftl (N_of_ascii a) 16) (N.shiftl (N_of_ascii b) 8)
  = (N_of_ascii a * 65536 + N_of_ascii b * 256)%N.
Proof.
  pose proof (N_of_ascii_lt a). pose proof (N_of_ascii_lt b).
  rewrite (N.shiftl_mul_pow2 (N_of_ascii b)). simpl (2 ^ _)%N.
  rewrite lor_shiftl_add by (simpl; lia). simpl (2 ^ _)%N. lia.
Qed.

(** Every group decodes to the bytes it was made from. *)
Lemma base64_group a b c :
  let val := (N_of_ascii a * 65536 + N_of_ascii b * 256 + N_of_ascii c)%N in
  (let n0 := N.shiftr val 18 mod 64 in let n1 := N.shiftr val 12 mod 64 in
   let n2 := N.shiftr val 6 mod 64 in let n3 := val mod 64 in
   ascii_of_N (n0 * 4 + n1 / 16) = a ∧
   ascii_of_N (n1 mod 16 * 16 + n2 / 4) = b ∧
   ascii_of_N (n2 mod 4 * 64 + n3) = c)%N.
Proof.
  intros val.
  destruct (base64_fields (N_of_ascii a) (N_of_ascii b) (N_of_ascii c))
    as (a1 & a0 & b1 & b0 & c1 & c0 & Ea & Eb & Ec & ? & ? & ? & ? & ? & E0 & E1 & E2 & E3);
    [apply N_of_ascii_lt..|].
  fold val in E0, E1, E2, E3. cbv zeta. rewrite E0, E1, E2, E3.
  rewrite !div_field, !mod_field by lia.
  repeat split; apply ascii_of_N_eq; done.
Qed.

(** Decoding is a left inverse of the encoder, so the encoder is injective. *)
Lemma base64_decode_encode s : base64_decode (base64_URLEncoding s) = Some s.
Proof.
  induction s as [|a|a b|a b c s IH] using string_ind3; [done|..].
  all: cbn [base64_URLEncoding base64_decode].
  - destruct (base64_group a zero zero) as (Ha & _).
    change 65536%N with (2 ^ 16)%N in Ha.
    rewrite !sextet_char, sextet_pad, N.shiftl_mul_pow2. cbn [mbind option_bind].
    rewrite !N.add_0_r in Ha. by rewrite Ha.
  - destruct (base64_group a b zero) as (Ha & Hb & _).
    rewrite base64_val2, !sextet_char, sextet_pad. cbn [mbind option_bind].
    rewrite !N.add_0_r in Ha, Hb. by rewrite Ha, Hb.
  - destruct (base64_group a b c) as (Ha & Hb & Hc).
    rewrite base64_val3, !sextet_char, IH. cbn [mbind option_bind]. cbn [fmap option_fmap option_map]. by rewrite Ha, Hb, Hc.
Qed.

Lemma base64_length s :
  String.length (base64_URLEncoding s) = 4 * ((String.length s + 2) / 3).
Proof.
  induction s as [|a|a b|a b c s IH] using string_ind3; [done..|].
  cbn [base64_URLEncoding String.length]. rewrite IH.
  replace (S (S (S (String.length s))) + 2) with (String.length s + 2 + 1 * 3) by lia.
  rewrite Nat.div_add by lia. lia.
Qed.

(** ** Query strings *)

(** What one escaped character contributes, and that it never is a delimiter. *)
Definition escape_char (c : ascii) : string :=
  if Ascii.eqb c " " then "+"
  else if shouldEscape c then
    String "%" (String (upperhex (N.shiftr (N_of_ascii c) 4))
      (String (upperhex (N.land (N_of_ascii c) 15)) ""))
  else String c "".

Lemma QueryEscape_cons c s : QueryEscape (String c s) = escape_char c +:+ QueryEscape s.
Proof.
  unfold escape_char. cbn [QueryEscape].
  destruct (Ascii.eqb c " "); [done|]. by destruct (shouldEscape c).
Qed.

Lemma QueryUnescape_escape_char c s :
  QueryUnescape (escape_char c +:+ s) = String c <$> QueryUnescape s.
Proof.
  destruct c as [[] [] [] [] [] [] [] []]; vm_compute escape_char; reflexivity.
Qed.

Lemma QueryUnescape_QueryEscape s : QueryUnescape (QueryEscape s) = Some s.
Proof.
  induction s as [|c s IH]; [done|].
  by rewrite QueryEscape_cons, QueryUnescape_escape_char, IH.
Qed.

(** The characters that structure a query string. *)
Definition is_delimiter (c : ascii) : bool :=
  Ascii.eqb c "&" || Ascii.eqb c "=" || Ascii.eqb c ";" || Ascii.eqb c "?" || Ascii.eqb c "#".

Lemma ContainsByte_app x s t :
  strings_ContainsByte x (s +:+ t) = strings_ContainsByte x s || strings_ContainsByte x t.
Proof. induction s as [|c s IH]; [done|]. simpl. by rewrite IH, orb_assoc. Qed.

Lemma QueryEscape_no_delimiter x s :
  is_delimiter x = true → strings_ContainsByte x (QueryEscape s) = false.
Proof.
  intros Hx. induction s as [|c s IH]; [done|].
  rewrite QueryEscape_cons, ContainsByte_app, IH, orb_false_r.
  unfold is_delimiter in Hx.
  destruct (Ascii.eqb_spec x "&") as [->|]; [|
  destruct (Ascii.eqb_spec x "=") as [->|]; [|
  destruct (Ascii.eqb_spec x ";") as [->|]; [|
  destruct (Ascii.eqb_spec x "?") as [->|]; [|
  destruct (Ascii.eqb_spec x "#") as [->|]; [|discriminate]]]]].
  all: by destruct c as [[] [] [] [] [] [] [] []]; vm_compute.
Qed.

Lemma Cut_app_none x s t :
  strings_ContainsByte x s = false →
  strings_Cut x (s +:+ String x t) = (s, Some t).
Proof.
  induction s as [|c s IH]; simpl; intros H; [by rewrite Ascii.eqb_refl|].
  apply orb_false_elim in H as [-> H]. by rewrite IH.
Qed.

Lemma Cut_none x s :
  strings_ContainsByte x s = false → strings_Cut x s = (s, None).
Proof.
  induction s as [|c s IH]; simpl; intros H; [done|].
  apply orb_false_elim in H as [-> H]. by rewrite IH.
Qed.

(** One setting [key=QueryEscape(v)], alone or followed by others. *)
Definition query_setting (key v : string) : string := key +:+ "=" +:+ QueryEscape v.

Definition plain_key (key : string) : Prop :=
  key ≠ "" ∧ QueryUnescape key = Some key ∧
  ∀ x, is_delimiter x = true → strings_ContainsByte x key = false.

Lemma query_setting_contains key v x :
  plain_key key → is_delimiter x = true → x ≠ "="%char →
  strings_ContainsByte x (query_setting key v) = false.
Proof.
  intros (_ & _ & Hk) Hx Hne. unfold query_setting.
  rewrite !ContainsByte_app, Hk, QueryEscape_no_delimiter by done.
  change (strings_ContainsByte x "=") with (Ascii.eqb "=" x || false).
  by rewrite (proj2 (Ascii.eqb_neq "=" x)) by congruence.
Qed.

Lemma parseQuery_setting fuel key v after query :
  plain_key key →
  strings_Cut "&" query = (query_setting key v, after) →
  query ≠ "" →
  parseQuery (S fuel) query = (key, v) :: parseQuery fuel (default "" after).
Proof.
  intros Hkey Hcut Hne. cbn [parseQuery]. destruct query as [|c q]; [done|].
  rewrite Hcut, query_setting_contains by done.
  assert (Heq : String.eqb (query_setting key v) "" = false).
  { apply String.eqb_neq. destruct Hkey as [Hk _]. by destruct key. }
  rewrite Heq. unfold query_setting at 1.
  change ("=" +:+ QueryEscape v) with (String "=" (QueryEscape v)).
  destruct Hkey as (_ & Hu & Hd).
  rewrite Cut_app_none by (by apply Hd). simpl default.
  by rewrite Hu, QueryUnescape_QueryEscape.
Qed.

Lemma length_append s t : String.length (s +:+ t) = String.length s + String.length t.
Proof. induction s as [|c s IH]; simpl; [done|]. by rewrite IH. Qed.

(** A query made of two settings parses to exactly these two settings, whatever
    bytes the values hold. *)
Lemma ParseQuery_two k1 v1 k2 v2 :
  plain_key k1 → plain_key k2 →
  ParseQuery (query_setting k1 v1 +:+ "&" +:+ query_setting k2 v2) = [(k1, v1); (k2, v2)].
Proof.
  intros H1 H2. unfold ParseQuery.
  set (q := (query_setting k1 v1 +:+ "&" +:+ query_setting k2 v2)%string).
  assert (Hlen : ∃ n, String.length q = S (S n)).
  { unfold q, query_setting. destruct k1 as [|c k1]; [by destruct H1|].
    rewrite !length_append. simpl. exists (String.length k1 + String.length (QueryEscape v1)
      + S (String.length k2 + S (String.length (QueryEscape v2)))). lia. }
  destruct Hlen as [n ->].
  rewrite (parseQuery_setting _ k1 v1 (Some (query_setting k2 v2))); [|done| |].
  - simpl default. rewrite (parseQuery_setting _ k2 v2 None); [by destruct n|done| |].
    + by rewrite Cut_none by (by apply query_setting_contains).
    + destruct k2; [by destruct H2|done].
  - unfold q. change ("&" +:+ query_setting k2 v2)%string with (String "&" (query_setting k2 v2)).
    by rewrite Cut_app_none by (by apply query_setting_contains).
  - unfold q. destruct k1; [by destruct H1|done].
Qed.

(** [plain_key] is decidable on closed keys: no delimiter, unescaped as itself. *)
Definition plain_keyb (key : string) : bool :=
  negb (String.eqb key "")
  && bool_decide (QueryUnescape key = Some key)
  && forallb (λ x, negb (strings_ContainsByte x key))
       ["&"%char; "="%char; ";"%char; "?"%char; "#"%char].

Lemma plain_keyb_spec key : plain_keyb key = true → plain_key key.
Proof.
  unfold plain_keyb, plain_key. rewrite !andb_true_iff, negb_true_iff, String.eqb_neq.
  intros [[Hne Hu] Hd]. apply bool_decide_eq_true_1 in Hu. repeat split; [done..|].
  intros x Hx. rewrite forallb_forall in Hd. apply negb_true_iff, Hd.
  unfold is_delimiter in Hx. rewrite !orb_true_iff, !Ascii.eqb_eq in Hx.
  simpl. destruct Hx as [[[[-> | ->] | ->] | ->] | ->]; tauto.
Qed.

