(* ===== verification/World.v ===== *)
(** * The state the request handlers act on, and the services around them

    [World] is everything a handler can read or change: the [sessions] table of
    the database, the HTTP response being written, the recorder wrapped around
    it, the shared logger, the log and the trace.  The code that is not in the
    repository is a set of type classes, one per library; each call to one of
    them is given the index of the call ([w_tick]), so that the same call may
    answer differently at different times.  *)

From stdpp Require Import base gmap strings list option numbers pretty.
From Stdlib Require Import ZArith Lia.
From S2P Require Import Prelude GoBase Encoding.

#[local] Open Scope Z_scope.

(** ** HTTP requests and responses *)

Definition Header : Type := gmap string (list string).

(** [h.Set], [h.Add] and [h.Get]; the keys the program uses are in canonical form. *)
Definition Header_Set (h : Header) (k v : string) : Header := <[k := [v]]> h.
Definition Header_Add (h : Header) (k v : string) : Header :=
  <[k := default [] (h !! k) ++ [v]]> h.
Definition Header_Get (h : Header) (k : string) : string :=
  match h !! k with
  | Some (v :: _) => v
  | _ => ""
  end.

Record URL : Type := mkURL {
  URL_Scheme : string;
  URL_Host : string;
  URL_Path : string;
  URL_RawQuery : string
}.

Record Request : Type := mkRequest {
  r_Method : string;
  r_URL : URL;
  r_PostForm : list (string * string);
  r_Cookies : list (string * string);
  r_Header : Header;
  r_Host : string;
  r_RemoteAddr : string;
  r_RequestURI : string;
  r_Proto : string;
  r_ctx : Context
}.

(** [r.WithContext(ctx)] *)
Definition WithContext (r : Request) (ctx : Context) : Request :=
  mkRequest (r_Method r) (r_URL r) (r_PostForm r) (r_Cookies r) (r_Header r) (r_Host r)
            (r_RemoteAddr r) (r_RequestURI r) (r_Proto r) ctx.

(** [r.URL.Query().Get(key)] *)
Definition Query_Get (r : Request) (key : string) : string :=
  Values_Get (ParseQuery (URL_RawQuery (r_URL r))) key.

(** [r.FormValue(key)]: the body parameters take precedence over the query. *)
Definition FormValue (r : Request) (key : string) : string :=
  Values_Get (r_PostForm r ++ ParseQuery (URL_RawQuery (r_URL r))) key.

(** [http.SameSite] *)
Inductive SameSite : Type :=
  | SameSiteDefaultMode | SameSiteLaxMode | SameSiteStrictMode | SameSiteNoneMode.

(** [sessions.Options] of gorilla/sessions. *)
Record Options : Type := mkOptions {
  o_Path : string;
  o_Domain : string;
  o_MaxAge : Z;
  o_Secure : bool;
  o_HttpOnly : bool;
  o_SameSite : SameSite
}.

(** A [Set-Cookie] header line, before it is printed. *)
Record Cookie : Type := mkCookie {
  c_Name : string;
  c_Value : string;
  c_Options : Options
}.

(** The response of [net/http]: the header map, the cookies set so far, the
    status line with the headers and cookies as they were when it was sent, and
    the chunks of the body. *)
Record Response : Type := mkResponse {
  rs_header : Header;
  rs_cookies : list Cookie;
  rs_sent : option (Z * Header * list Cookie);
  rs_body : list string
}.

Definition empty_response : Response := mkResponse ∅ [] None [].

Record StatusRecorder : Type := mkStatusRecorder {
  sr_Status : Z;
  sr_Written : Z
}.

(** The state of the writers that are wrapped around the one of [net/http] during a
    request: the [StatusRecorder], and the writers of the span middleware through which
    a status went (by their nesting). *)
Record Wrappers : Type := mkWrappers {
  wr_recorder : StatusRecorder;
  wr_otel : list nat
}.

(** ** Logging and tracing *)

Record Logger : Type := mkLogger {
  lastErr : option error;
  lastErrDescription : string;
  traceID : string;
  spanID : string
}.

Inductive Level : Type := DebugLevel | InfoLevel | WarnLevel | ErrorLevel | FatalLevel.

Inductive FieldValue : Type :=
  | FInt (z : Z)
  | FString (s : string)
  | FDuration (d : Duration)
  | FError (e : error).

Record LogEntry : Type := mkLogEntry {
  le_level : Level;
  le_message : string;
  le_fields : list (string * FieldValue)
}.

Inductive AttrValue : Type :=
  | AttrString (s : string)
  | AttrTime (t : Time).

Inductive SpanEvent : Type :=
  | SpanStart (s : Span)
  | SpanSetAttributes (s : Span) (attrs : list (string * AttrValue))
  | SpanSetStatus (s : Span) (description : string)
  | SpanEnd (s : Span).

(** ** The database *)

(** A row of the [sessions] table; [expires_at] is an integer column. *)
Record Row : Type := mkRow {
  row_subject : string;
  row_access_token : string;
  row_refresh_token : string;
  row_id_token : string;
  row_expires_at : Z
}.

#[export] Instance Row_eq_dec : EqDecision Row.
Proof. solve_decision. Defined.

Record World : Type := mkWorld {
  w_tick : nat;
  w_table : gmap string Row;
  w_open : bool;
  w_resp : Response;
  w_rec : Wrappers;
  w_logger : Logger;
  w_log : list LogEntry;
  w_trace : list SpanEvent
}.

Definition set_tick (f : nat → nat) (w : World) : World :=
  mkWorld (f (w_tick w)) (w_table w) (w_open w) (w_resp w) (w_rec w) (w_logger w) (w_log w) (w_trace w).
Definition set_table (t : gmap string Row) (w : World) : World :=
  mkWorld (w_tick w) t (w_open w) (w_resp w) (w_rec w) (w_logger w) (w_log w) (w_trace w).
Definition set_open (b : bool) (w : World) : World :=
  mkWorld (w_tick w) (w_table w) b (w_resp w) (w_rec w) (w_logger w) (w_log w) (w_trace w).
Definition set_resp (f : Response → Response) (w : World) : World :=
  mkWorld (w_tick w) (w_table w) (w_open w) (f (w_resp w)) (w_rec w) (w_logger w) (w_log w) (w_trace w).
Definition set_wrappers (f : Wrappers → Wrappers) (w : World) : World :=
  mkWorld (w_tick w) (w_table w) (w_open w) (w_resp w) (f (w_rec w)) (w_logger w) (w_log w) (w_trace w).
Definition set_rec (f : StatusRecorder → StatusRecorder) : World → World :=
  set_wrappers (λ wr, mkWrappers (f (wr_recorder wr)) (wr_otel wr)).
Definition set_otel (f : list nat → list nat) : World → World :=
  set_wrappers (λ wr, mkWrappers (wr_recorder wr) (f (wr_otel wr))).
Definition set_logger (f : Logger → Logger) (w : World) : World :=
  mkWorld (w_tick w) (w_table w) (w_open w) (w_resp w) (w_rec w) (f (w_logger w)) (w_log w) (w_trace w).
Definition add_log (e : LogEntry) (w : World) : World :=
  mkWorld (w_tick w) (w_table w) (w_open w) (w_resp w) (w_rec w) (w_logger w) (w_log w ++ [e]) (w_trace w).
Definition add_trace (e : SpanEvent) (w : World) : World :=
  mkWorld (w_tick w) (w_table w) (w_open w) (w_resp w) (w_rec w) (w_logger w) (w_log w) (w_trace w ++ [e]).

(** The world a new request finds: its own response and writers. *)
Definition new_exchange (w : World) : World :=
  mkWorld (w_tick w) (w_table w) (w_open w) empty_response (mkWrappers (mkStatusRecorder 200 0) [])
    (w_logger w) (w_log w) (w_trace w).

(** The recorder of the current request. *)
Definition w_recorder (w : World) : StatusRecorder := wr_recorder (w_rec w).

Abbreviation IO := (M World).

(** One call to the outside: the answer may depend on when it is made. *)
Definition interact {A : Type} (f : nat → A) : IO A := λ w,
  (Ret (f (w_tick w)), set_tick S w).

(** ** The libraries around the program *)

(** [time.Now], in nanoseconds, and the text [encoding/json] gives a time. *)
Class Clock : Type := {
  clock_now : nat → Time;
  time_MarshalJSON : Time → string
}.

(** [uuid.New().String()] *)
Class Uuid : Type := { uuid_New : nat → string }.

(** [crypto/rand.Read(b)]: the bytes written at the front of [b], and the error. *)
Class Rand : Type := { rand_Read : nat → nat → string * option error }.

(** The network under the response writer: the error of one [Write]. *)
Class Network : Type := { write_error : nat → option error }.

(** What the drivers and the server behind a statement may do besides running it.
    [sql_failure]: the sqlite driver fails, without an effect.  [pgx_failure]: the
    postgresql driver or server fails before the statement has run.  [pgx_lost]: the
    server has run the statement, and the answer is lost (the connection broke, or
    the context was cancelled meanwhile).  [ctx_Err]: [ctx.Err()] at that moment, by
    which pgx refuses a call whose context is already done. *)
Class SqlDriver : Type := {
  sql_failure : nat → option error;
  pgx_failure : nat → option error;
  pgx_lost : nat → option error;
  ctx_Err : nat → Context → option error
}.

(** [encryption.HexCipher].  Encryption draws a nonce, hence the index; decryption
    is a function of the text. *)
Record HexCipher : Type := mkHexCipher {
  EncryptToHexString : nat → string → result error string;
  DecryptFromHexString : string → result error string
}.

(** [trace.SpanContext]: the identifiers of a span, when they are valid; the context the
    span middleware [otelhttp.NewHandler] gives the inner handler; and whether the
    response writer it gives it passes on a status after the first one (in the version
    of go.mod it does not). *)
Class Otel : Type := {
  SpanContext_TraceID : option Span → option string;
  SpanContext_SpanID : option Span → option string;
  otelhttp_context : nat → string → Context → Context;
  otelhttp_passes_late : bool
}.

(** [realip.Get(r)] *)
Class RealIP : Type := { realip_Get : Request → result error string }.

(** What [http.Redirect] makes of its [url] argument before it writes the
    [Location] header (relative references are resolved against the request
    path). *)
Class Redirector : Type := { redirect_location : string → string → string }.

(** ** Basic operations *)

(** The response writers of the program: the one of [net/http], a
    [zlogger.StatusRecorder] embedding another one, and the one the span middleware
    puts around another one. *)
Inductive ResponseWriter : Type :=
  | NetHttpWriter
  | RecorderOf (inner : ResponseWriter)
  | OtelWriterOf (inner : ResponseWriter).

Definition Handler : Type := ResponseWriter → Request → IO unit.

(** How many writers of the span middleware there are. *)
Fixpoint otel_level (w : ResponseWriter) : nat :=
  match w with
  | NetHttpWriter => 0
  | RecorderOf inner => otel_level inner
  | OtelWriterOf inner => S (otel_level inner)
  end.

Section Operations.
Context `{!Clock} `{!Network}.

Definition time_Now : IO Time := interact clock_now.

(** The header map is shared by all the wrappers. *)
Definition rw_Header_Set (w : ResponseWriter) (k v : string) : IO unit :=
  modify (set_resp (λ rs, mkResponse (Header_Set (rs_header rs) k v)
                            (rs_cookies rs) (rs_sent rs) (rs_body rs))).

(** [http.SetCookie(w, c)] *)
Definition http_SetCookie (w : ResponseWriter) (c : Cookie) : IO unit :=
  modify (set_resp (λ rs, mkResponse (rs_header rs) (rs_cookies rs ++ [c])
                            (rs_sent rs) (rs_body rs))).

(** An interim response, after which the status line is still to come. *)
Definition informational (code : Z) : bool :=
  (100 <=? code) && (code <=? 199) && negb (code =? 101).

(** The status line goes out, with the headers and cookies set so far. *)
Definition send_status (code : Z) : IO unit :=
  modify (set_resp (λ rs, mkResponse (rs_header rs) (rs_cookies rs)
    (Some (code, rs_header rs, rs_cookies rs)) (rs_body rs))).

(** [WriteHeader] of [net/http]: only the first call sends a status line; a code that
    does not have three digits makes it panic; an interim response (which is not part
    of [Response]) leaves the status line to a later call. *)
Definition net_http_WriteHeader (code : Z) : IO unit :=
  rs ← gets w_resp;
  match rs_sent rs with
  | Some _ => mret tt
  | None =>
      if (code <? 100) || (999 <? code) then
        panic (String.append "invalid WriteHeader code " (pretty code))
      else if informational code then mret tt
      else send_status code
  end.

(** [Write] of [net/http]: sends the status line 200 if none was sent. *)
Definition net_http_Write (b : string) : IO (Z * option error) :=
  _ ← net_http_WriteHeader 200;
  e ← interact write_error;
  match e with
  | Some _ => mret (0, e)
  | None =>
      _ ← modify (set_resp (λ rs, mkResponse (rs_header rs) (rs_cookies rs)
                             (rs_sent rs) (rs_body rs ++ [b])));
      mret (Z.of_nat (String.length b), None)
  end.
End Operations.

(** ** Frames and total preconditions of the basic operations *)

Lemma preserves_interact {A B} (f : World → B) (g : nat → A) :
  (∀ w, f (set_tick S w) = f w) → preserves f (interact g).
Proof. intros H w. apply H. Qed.

Lemma no_panic_interact {A} (g : nat → A) : no_panic (interact g).
Proof. intros w. eexists. reflexivity. Qed.

Lemma twp_interact {A} (g : nat → A) Q w :
  Q (g (w_tick w)) (set_tick S w) → twp (interact g) Q w.
Proof. intros H. eexists. split; [reflexivity|exact H]. Qed.

#[export] Hint Resolve no_panic_interact : nopanic.

(** Worlds that differ by their trace only. *)
Definition erase_trace (w : World) : World :=
  mkWorld (w_tick w) (w_table w) (w_open w) (w_resp w) (w_rec w) (w_logger w) (w_log w) [].

#[export] Instance World_equiv : Equiv World := λ w1 w2, erase_trace w1 = erase_trace w2.

#[export] Instance World_equivalence : Equivalence (≡@{World}).
Proof. split; repeat intro; unfold equiv, World_equiv in *; congruence. Qed.

Lemma World_equiv_fields (w1 w2 : World) :
  w1 ≡ w2 ↔
  w_tick w1 = w_tick w2 ∧ w_table w1 = w_table w2 ∧ w_open w1 = w_open w2 ∧
  w_resp w1 = w_resp w2 ∧ w_rec w1 = w_rec w2 ∧ w_logger w1 = w_logger w2 ∧
  w_log w1 = w_log w2.
Proof.
  unfold equiv, World_equiv, erase_trace. split; [by inversion 1|].
  intros (-> & -> & -> & -> & -> & -> & ->). done.
Qed.

#[export] Instance w_tick_proper : Proper ((≡) ==> (=)) w_tick.
Proof. by intros w1 w2 (? & _)%World_equiv_fields. Qed.
#[export] Instance w_table_proper : Proper ((≡) ==> (=)) w_table.
Proof. by intros w1 w2 (_ & ? & _)%World_equiv_fields. Qed.
#[export] Instance w_open_proper : Proper ((≡) ==> (=)) w_open.
Proof. by intros w1 w2 (_ & _ & ? & _)%World_equiv_fields. Qed.
#[export] Instance w_resp_proper : Proper ((≡) ==> (=)) w_resp.
Proof. by intros w1 w2 (_ & _ & _ & ? & _)%World_equiv_fields. Qed.
#[export] Instance w_rec_proper : Proper ((≡) ==> (=)) w_rec.
Proof. by intros w1 w2 (_ & _ & _ & _ & ? & _)%World_equiv_fields. Qed.
#[export] Instance w_logger_proper : Proper ((≡) ==> (=)) w_logger.
Proof. by intros w1 w2 (_ & _ & _ & _ & _ & ? & _)%World_equiv_fields. Qed.
#[export] Instance w_log_proper : Proper ((≡) ==> (=)) w_log.
Proof. by intros w1 w2 (_ & _ & _ & _ & _ & _ & ?)%World_equiv_fields. Qed.

Lemma add_trace_equiv e w : add_trace e w ≡ w.
Proof. by apply World_equiv_fields. Qed.
