(* ===== verification/Telemetry.v ===== *)
(** * opentelemetry/tracer.go

    The tracer kept in the request context and the spans started from it.  The
    calls to the tracing library are recorded in [w_trace]. *)

From stdpp Require Import base gmap strings list option numbers.
From Stdlib Require Import ZArith Lia.
From S2P Require Import Prelude GoBase Encoding World.

(** ** The tracing library, seen from the program *)

(** [span.End()], [span.SetAttributes], [span.SetStatus(codes.Error, d)]. *)
Definition Span_End (s : Span) : IO unit := modify (add_trace (SpanEnd s)).
Definition Span_SetAttributes (s : Span) (attrs : list (string * AttrValue)) : IO unit :=
  modify (add_trace (SpanSetAttributes s attrs)).
Definition Span_SetStatus (s : Span) (description : string) : IO unit :=
  modify (add_trace (SpanSetStatus s description)).

(** [tracer.Start(ctx, name)]: a new span, and a context that contains it. *)
Definition Tracer_Start (t : Tracer) (ctx : Context) (name : string) : IO (Context * Span) :=
  id ← gets (λ w, length (w_trace w));
  let s := mkSpan id name in
  _ ← modify (add_trace (SpanStart s));
  mret (context_WithValue ctx otel_spanKey (AnySpan s), s).

(** [trace.SpanFromContext(ctx)] *)
Definition SpanFromContext (ctx : Context) : option Span :=
  match ctx_Value ctx otel_spanKey with
  | Some (AnySpan s) => Some s
  | _ => None
  end.

(** ** tracer.go *)

Definition opentelemetry_NewContext (parent : Context) (t : Tracer) : Context :=
  context_WithValue parent opentelemetry_ctxKey (AnyTracer t).

Definition NewSpanFromContext (ctx : Context) (spanName : string)
    : IO (Context * option Span) :=
  match ctx_Value ctx opentelemetry_ctxKey with
  | Some (AnyTracer tracer) =>
      '(ctx', span) ← Tracer_Start tracer ctx spanName;
      mret (ctx', Some span)
  | _ => mret (ctx, None)
  end.

(** The nil interface when there is no tracer in the context. *)
Definition TracerFromContext (ctx : Context) : option Tracer :=
  match ctx_Value ctx opentelemetry_ctxKey with
  | Some (AnyTracer t) => Some t
  | _ => None
  end.

(** [opentelemetry.Middleware(next, name, operation)]: the handler made by
    [otelhttp.NewHandler] puts its span into the context and a writer of its own around
    the response writer, then the inner function adds the tracer. *)
Definition opentelemetry_Middleware `{!Otel}
    (next : ResponseWriter → Request → IO unit) (name operation : string)
    : ResponseWriter → Request → IO unit := λ w r,
  ctx ← interact (λ n, otelhttp_context n operation (r_ctx r));
  _ ← modify (set_otel (List.remove Nat.eq_dec (otel_level (OtelWriterOf w))));
  let tracer := mkTracer name in
  next (OtelWriterOf w) (WithContext r (context_WithValue ctx opentelemetry_ctxKey (AnyTracer tracer))).

(** ** The two shapes in which the program starts a span *)

(** [ctx, span := TracerFromContext(ctx).Start(ctx, name); defer span.End()]: a
    method call on the nil interface panics. *)
Definition with_span {A : Type} (ctx : Context) (name : string)
    (body : Context → IO A) : IO A :=
  match TracerFromContext ctx with
  | None => panic nil_dereference
  | Some t =>
      '(ctx', span) ← Tracer_Start t ctx name;
      defer (Span_End span) (body ctx')
  end.

(** [_, span := NewSpanFromContext(ctx, name); if span != nil { defer span.End() }] *)
Definition with_optional_span {A : Type} (ctx : Context) (name : string)
    (body : option Span → IO A) : IO A :=
  '(_, span) ← NewSpanFromContext ctx name;
  match span with
  | Some s => defer (Span_End s) (body span)
  | None => body None
  end.

(** [if span != nil { span.SetAttributes(attrs...) }] *)
Definition set_attributes (span : option Span) (attrs : list (string * AttrValue)) : IO unit :=
  match span with
  | Some s => Span_SetAttributes s attrs
  | None => mret tt
  end.

(** [if span != nil { span.SetStatus(codes.Error, d); span.SetAttributes(error.message) }] *)
Definition set_error_status (span : option Span) (d : string) (e : error) : IO unit :=
  match span with
  | Some s =>
      _ ← Span_SetStatus s d;
      Span_SetAttributes s [("error.message", AttrString (Error e))]
  | None => mret tt
  end.

(** ** Frames: tracing touches nothing but the trace *)

Section Frames.
Context {B : Type} (f : World → B).
Hypothesis f_trace : ∀ e w, f (add_trace e w) = f w.

Lemma preserves_Span_End s : preserves f (Span_End s).
Proof using f_trace. apply preserves_modify. auto. Qed.
Lemma preserves_Span_SetAttributes s a : preserves f (Span_SetAttributes s a).
Proof using f_trace. apply preserves_modify. auto. Qed.
Lemma preserves_Span_SetStatus s d : preserves f (Span_SetStatus s d).
Proof using f_trace. apply preserves_modify. auto. Qed.

Lemma preserves_Tracer_Start t ctx n : preserves f (Tracer_Start t ctx n).
Proof using f_trace.
  unfold Tracer_Start. solve_frame.
Qed.

Lemma preserves_with_span {A} ctx n (body : Context → IO A) :
  (∀ c, preserves f (body c)) → preserves f (with_span ctx n body).
Proof using f_trace.
  intros Hb. unfold with_span. destruct (TracerFromContext ctx); [|apply preserves_panic].
  apply preserves_bind; [apply preserves_Tracer_Start|]. intros [c s].
  apply preserves_defer; [apply preserves_Span_End|apply Hb].
Qed.

Lemma preserves_with_optional_span {A} ctx n (body : option Span → IO A) :
  (∀ s, preserves f (body s)) → preserves f (with_optional_span ctx n body).
Proof using f_trace.
  intros Hb. unfold with_optional_span, NewSpanFromContext.
  apply preserves_bind.
  - destruct (ctx_Value ctx opentelemetry_ctxKey) as [[]|]; solve_frame;
      apply preserves_Tracer_Start.
  - intros [c [s|]]; [|apply Hb].
    apply preserves_defer; [apply preserves_Span_End|apply Hb].
Qed.

Lemma preserves_set_attributes s a : preserves f (set_attributes s a).
Proof using f_trace.
  destruct s; [apply preserves_Span_SetAttributes|apply preserves_ret].
Qed.

Lemma preserves_set_error_status s d e : preserves f (set_error_status s d e).
Proof using f_trace.
  destruct s; [|apply preserves_ret].
  apply preserves_bind; [apply preserves_Span_SetStatus|].
  intros. apply preserves_Span_SetAttributes.
Qed.
End Frames.

#[export] Hint Resolve preserves_Span_End preserves_Span_SetAttributes
  preserves_Span_SetStatus preserves_Tracer_Start preserves_with_span
  preserves_with_optional_span preserves_set_attributes preserves_set_error_status : frame.

(** ** Total preconditions of the span shapes *)

Lemma twp_Tracer_Start t ctx n (Q : Context * Span → World → Prop) w :
  (∀ s w', w' ≡ w →
     Q (context_WithValue ctx otel_spanKey (AnySpan s), s) w') →
  twp (Tracer_Start t ctx n) Q w.
Proof.
  intros H. apply twp_bind, twp_gets, twp_bind, twp_modify, twp_ret, H, add_trace_equiv.
Qed.

(** The body runs in a context extended with the span, from an equivalent world,
    and the end of the span is only visible in the trace. *)
Lemma twp_with_span {A} ctx n (body : Context → IO A) t Q w :
  TracerFromContext ctx = Some t →
  (∀ s w', w' ≡ w →
     twp (body (context_WithValue ctx otel_spanKey (AnySpan s)))
         (λ a w1, ∀ w2, w2 ≡ w1 → Q a w2) w') →
  twp (with_span ctx n body) Q w.
Proof.
  intros Ht H. unfold with_span. rewrite Ht.
  apply twp_bind, twp_Tracer_Start. intros s w' Hw'.
  apply twp_defer. eapply twp_mono; [exact (H s w' Hw')|].
  intros a w1 HQ. apply twp_modify, HQ, add_trace_equiv.
Qed.

Lemma twp_with_optional_span {A} ctx n (body : option Span → IO A) Q w :
  (∀ s w', w' ≡ w → twp (body s) (λ a w1, ∀ w2, w2 ≡ w1 → Q a w2) w') →
  twp (with_optional_span ctx n body) Q w.
Proof.
  intros H. unfold with_optional_span, NewSpanFromContext. apply twp_bind.
  assert (Hnone : twp (body None) Q w).
  { eapply twp_mono; [exact (H None w (reflexivity w))|]. intros a w1 HQ. by apply HQ. }
  destruct (ctx_Value ctx opentelemetry_ctxKey) as [[]|];
    try (apply twp_ret; exact Hnone).
  apply twp_bind, twp_Tracer_Start. intros s w' Hw'. apply twp_ret, twp_defer.
  eapply twp_mono; [exact (H (Some s) w' Hw')|].
  intros a w1 HQ. apply twp_modify, HQ, add_trace_equiv.
Qed.

Lemma twp_set_attributes s a (Q : unit → World → Prop) w :
  (∀ w', w' ≡ w → Q tt w') → twp (set_attributes s a) Q w.
Proof.
  intros H. destruct s; [apply twp_modify, H, add_trace_equiv|apply twp_ret, H; done].
Qed.

Lemma twp_Span_SetStatus s d (Q : unit → World → Prop) w :
  (∀ w', w' ≡ w → Q tt w') → twp (Span_SetStatus s d) Q w.
Proof. intros H. apply twp_modify, H, add_trace_equiv. Qed.

Lemma twp_set_error_status s d e (Q : unit → World → Prop) w :
  (∀ w', w' ≡ w → Q tt w') → twp (set_error_status s d e) Q w.
Proof.
  intros H. destruct s as [s|]; [|apply twp_ret, H; done].
  apply twp_bind, twp_modify, twp_modify, H.
  etrans; apply add_trace_equiv.
Qed.
