(* ===== verification/Zlogger.v ===== *)
(** * zlogger: the status recorder, the JSON errors and the access log

    [zlogger/status.go] and the request-time part of [zlogger/logger.go].  One
    [Logger] is shared by every request of the process: it is the field
    [w_logger] of the world. *)

From stdpp Require Import base gmap strings list option numbers pretty.
From Stdlib Require Import ZArith Lia Ascii String.
From S2P Require Import Prelude GoBase Encoding World Telemetry.

#[local] Open Scope Z_scope.
#[local] Open Scope string_scope.

(** ** http.StatusText *)

Definition StatusText (code : Z) : string :=
  match code with
  | 100 => "Continue" | 101 => "Switching Protocols" | 102 => "Processing"
  | 103 => "Early Hints"
  | 200 => "OK" | 201 => "Created" | 202 => "Accepted"
  | 203 => "Non-Authoritative Information" | 204 => "No Content"
  | 205 => "Reset Content" | 206 => "Partial Content" | 207 => "Multi-Status"
  | 208 => "Already Reported" | 226 => "IM Used"
  | 300 => "Multiple Choices" | 301 => "Moved Permanently" | 302 => "Found"
  | 303 => "See Other" | 304 => "Not Modified" | 305 => "Use Proxy"
  | 307 => "Temporary Redirect" | 308 => "Permanent Redirect"
  | 400 => "Bad Request" | 401 => "Unauthorized" | 402 => "Payment Required"
  | 403 => "Forbidden" | 404 => "Not Found" | 405 => "Method Not Allowed"
  | 406 => "Not Acceptable" | 407 => "Proxy Authentication Required"
  | 408 => "Request Timeout" | 409 => "Conflict" | 410 => "Gone"
  | 411 => "Length Required" | 412 => "Precondition Failed"
  | 413 => "Request Entity Too Large" | 414 => "Request URI Too Long"
  | 415 => "Unsupported Media Type" | 416 => "Requested Range Not Satisfiable"
  | 417 => "Expectation Failed" | 418 => "I'm a teapot"
  | 421 => "Misdirected Request" | 422 => "Unprocessable Entity"
  | 423 => "Locked" | 424 => "Failed Dependency" | 425 => "Too Early"
  | 426 => "Upgrade Required" | 428 => "Precondition Required"
  | 429 => "Too Many Requests" | 431 => "Request Header Fields Too Large"
  | 451 => "Unavailable For Legal Reasons"
  | 500 => "Internal Server Error" | 501 => "Not Implemented"
  | 502 => "Bad Gateway" | 503 => "Service Unavailable" | 504 => "Gateway Timeout"
  | 505 => "HTTP Version Not Supported" | 506 => "Variant Also Negotiates"
  | 507 => "Insufficient Storage" | 508 => "Loop Detected" | 510 => "Not Extended"
  | 511 => "Network Authentication Required"
  | _ => ""
  end.

(** ** encoding/json of the error document

    The string encoder escapes the ASCII characters [encoding/json] escapes; the
    descriptions and status texts of the program are ASCII. *)
Definition lowerhex (n : N) : ascii :=
  match String.get (N.to_nat n) "0123456789abcdef" with
  | Some c => c
  | None => "0"%char
  end.

Definition json_escape (c : ascii) : string :=
  let n := N_of_ascii c in
  if N.eqb n 34 then String "092" (String c "")
  else if N.eqb n 92 then String "092" (String c "")
  else if N.eqb n 10 then String "092" "n"
  else if N.eqb n 13 then String "092" "r"
  else if N.eqb n 9 then String "092" "t"
  else if N.ltb n 32 || N.eqb n 60 || N.eqb n 62 || N.eqb n 38 then
    String "092" (String "u" (String "0" (String "0"
      (String (lowerhex (N.shiftr n 4)) (String (lowerhex (N.land n 15)) "")))))
  else String c "".

Fixpoint json_chars (s : string) : string :=
  match s with
  | EmptyString => ""
  | String c rest => json_escape c +:+ json_chars rest
  end.

Definition dquote : string := String "034" "".
Definition json_string (s : string) : string := dquote +:+ json_chars s +:+ dquote.
Definition json_field (name value : string) : string := json_string name +:+ ":" +:+ value.

Section Zlogger.
Context `{!Clock} `{!Network} `{!Otel} `{!RealIP}.

(** ** status.go *)

Definition StatusRecorder_WriteHeader (inner : Z → IO unit) (status : Z) : IO unit :=
  _ ← modify (set_rec (λ r, mkStatusRecorder status (sr_Written r)));
  inner status.

Definition StatusRecorder_Write (inner : string → IO (Z * option error)) (b : string)
    : IO (Z * option error) :=
  '(written, err) ← inner b;
  _ ← modify (set_rec (λ r, mkStatusRecorder (sr_Status r) written));
  mret (written, err).

(** The writer of the span middleware, at a level: it remembers that a status went through
    it, and keeps a later one to itself, or not. *)
Definition OtelWriter_WriteHeader (level : nat) (inner : Z → IO unit) (status : Z) : IO unit :=
  wrote ← gets (λ w, existsb (Nat.eqb level) (wr_otel (w_rec w)));
  if wrote && negb otelhttp_passes_late then mret tt
  else
    _ ← modify (set_otel (cons level));
    inner status.

Definition OtelWriter_Write (level : nat) (inner_WriteHeader : Z → IO unit)
    (inner : string → IO (Z * option error)) (b : string) : IO (Z * option error) :=
  wrote ← gets (λ w, existsb (Nat.eqb level) (wr_otel (w_rec w)));
  _ ← (if wrote : bool then mret tt else OtelWriter_WriteHeader level inner_WriteHeader 200);
  inner b.

(** Method calls on the [http.ResponseWriter] interface. *)
Fixpoint rw_WriteHeader (w : ResponseWriter) (status : Z) : IO unit :=
  match w with
  | NetHttpWriter => net_http_WriteHeader status
  | RecorderOf inner => StatusRecorder_WriteHeader (rw_WriteHeader inner) status
  | OtelWriterOf inner => OtelWriter_WriteHeader (otel_level w) (rw_WriteHeader inner) status
  end.

Fixpoint rw_Write (w : ResponseWriter) (b : string) : IO (Z * option error) :=
  match w with
  | NetHttpWriter => net_http_Write b
  | RecorderOf inner => StatusRecorder_Write (rw_Write inner) b
  | OtelWriterOf inner =>
      OtelWriter_Write (otel_level w) (rw_WriteHeader inner) (rw_Write inner) b
  end.

(** ** logger.go *)

(** [FromContext(ctx)]: a missing logger is a nil pointer, and the assignments
    to its fields panic. *)
Definition zlogger_FromContext (ctx : Context) : IO unit :=
  match ctx_Value ctx zlogger_ctxKey with
  | Some AnyLogger =>
      let tid := default "" (SpanContext_TraceID (SpanFromContext ctx)) in
      _ ← modify (set_logger (λ l,
            mkLogger (lastErr l) (lastErrDescription l) tid (spanID l)));
      let sid := default "" (SpanContext_SpanID (SpanFromContext ctx)) in
      modify (set_logger (λ l,
            mkLogger (lastErr l) (lastErrDescription l) (traceID l) sid))
  | _ => panic nil_dereference
  end.

Definition zlogger_NewContext (parent : Context) : Context :=
  context_WithValue parent zlogger_ctxKey AnyLogger.

Definition Logger_SetError (description : string) (err : option error) : IO unit :=
  modify (set_logger (λ l, mkLogger err description (traceID l) (spanID l))).

(** The document written by [json.NewEncoder(w).Encode(data)]: the message is
    left out when it is empty, the unexported [err] always is. *)
Definition json_error_document (code : Z) (description : string) (now : Time) : string :=
  "{" +:+ json_field "code" (pretty code)
      +:+ "," +:+ json_field "status" (json_string (StatusText code))
      +:+ (if String.eqb description "" then ""
           else "," +:+ json_field "message" (json_string description))
      +:+ "," +:+ json_field "timestamp" (time_MarshalJSON now)
      +:+ "}" +:+ String "010" "".

Definition Logger_JsonError (w : ResponseWriter) (code : Z) (description : string)
    (err : option error) : IO unit :=
  _ ← modify (set_logger (λ l, mkLogger err description (traceID l) (spanID l)));
  _ ← rw_Header_Set w "Content-Type" "application/json; charset=utf-8";
  _ ← rw_Header_Set w "X-Content-Type-Options" "nosniff";
  _ ← rw_WriteHeader w code;
  now ← time_Now;
  _ ← rw_Write w (json_error_document code description now);
  mret tt.

(** The fields of the access log entry, in the order they are appended. *)
Definition log_fields (rec : StatusRecorder) (latency : Duration) (r : Request)
    (l : Logger) : list (string * FieldValue) :=
  [("status", FInt (sr_Status rec)); ("size", FInt (sr_Written rec));
   ("latency", FDuration latency); ("method", FString (r_Method r));
   ("uri", FString (r_RequestURI r)); ("host", FString (r_RemoteAddr r))]
  ++ (if String.eqb (traceID l) "" then [] else [("trace-id", FString (traceID l))])
  ++ (if String.eqb (spanID l) "" then [] else [("trace-id", FString (spanID l))])
  ++ (if String.eqb (Header_Get (r_Header r) "Referer") "" then []
      else [("referer", FString (Header_Get (r_Header r) "Referer"))])
  ++ (match realip_Get r with Ok ip => [("remote_ip", FString ip)] | Err _ => [] end)
  ++ [("protocol", FString (r_Proto r));
      ("user_agent", FString (Header_Get (r_Header r) "User-Agent"))]
  ++ (match lastErr l with Some e => [("error", FError e)] | None => [] end).

Definition log_message (status : Z) (l : Logger) : string :=
  if String.eqb (lastErrDescription l) "" then StatusText status
  else StatusText status +:+ ": " +:+ lastErrDescription l.

Definition log_level (status : Z) : Level :=
  (if 500 <=? status then ErrorLevel
  else if 400 <=? status then WarnLevel
  else InfoLevel)%Z.

(** [defer func() { l.lastErrDescription = ""; l.lastErr = nil }()] *)
Definition clean_logger : IO unit :=
  modify (set_logger (λ l, mkLogger None "" (traceID l) (spanID l))).

Definition Logger_Middleware (next : ResponseWriter → Request → IO unit)
    : ResponseWriter → Request → IO unit := λ w r,
  defer clean_logger (
    _ ← modify (set_rec (λ _, mkStatusRecorder 200 0));
    let ctx := context_WithValue (r_ctx r) zlogger_ctxKey AnyLogger in
    start ← time_Now;
    _ ← next (RecorderOf w) (WithContext r ctx);
    stop ← time_Now;
    rec ← gets w_recorder;
    l ← gets w_logger;
    modify (add_log (mkLogEntry (log_level (sr_Status rec)) (log_message (sr_Status rec) l)
                       (log_fields rec (stop - start)%Z r l)))).
End Zlogger.

(** ** What writing a response changes *)

(** Everything but the response, its recorder, the logger, the trace and the index
    of the next outside call. *)
Definition http_step (w w' : World) : Prop :=
  (w_tick w ≤ w_tick w')%nat ∧ w_table w' = w_table w ∧ w_open w' = w_open w ∧
  w_log w' = w_log w.

#[export] Instance http_step_preorder : PreOrder http_step.
Proof.
  split; [by repeat split|]. intros w1 w2 w3 (?&?&?&?) (?&?&?&?).
  repeat split; [lia|congruence..].
Qed.

(** The status line, headers and cookies the client sees once the code [code] has
    been written: those of the first [WriteHeader]. *)
Definition sent_by (rs : Response) (code : Z) : Z * Header * list Cookie :=
  match rs_sent rs with
  | Some s => s
  | None => (code, rs_header rs, rs_cookies rs)
  end.

Definition same_trace_logger (w w' : World) : Prop :=
  w_logger w' = w_logger w ∧ w_trace w' = w_trace w.

(** A status the program may answer with: it is sent, and final. *)
Definition final_status (code : Z) : Prop := (200 ≤ code ≤ 999)%Z.

(** A status that is written through [rw] reaches the client, unless another one has. *)
Definition writable (rw : ResponseWriter) (w : World) : Prop :=
  ∀ k, (k ≤ otel_level rw)%nat → k ∈ wr_otel (w_rec w) → is_Some (rs_sent (w_resp w)).

Lemma writable_sent rw w : is_Some (rs_sent (w_resp w)) → writable rw w.
Proof. by intros Hs k _ _. Qed.

Lemma writable_same rw w w' :
  w_rec w' = w_rec w → rs_sent (w_resp w') = rs_sent (w_resp w) → writable rw w → writable rw w'.
Proof. unfold writable. by intros -> ->. Qed.

Lemma wrote_spec k w :
  existsb (Nat.eqb k) (wr_otel (w_rec w)) = true ↔ k ∈ wr_otel (w_rec w).
Proof.
  rewrite existsb_exists. split.
  - intros (j & Hj & ->%Nat.eqb_eq). by apply list_elem_of_In.
  - intros Hk. exists k. split; [by apply list_elem_of_In|apply Nat.eqb_refl].
Qed.

Section HttpLemmas.
Context `{!Clock} `{!Network} `{!Otel}.

Lemma twp_net_http_WriteHeader code (Q : unit → World → Prop) w :
  final_status code →
  (∀ w', http_step w w' → same_trace_logger w w' → w_rec w' = w_rec w →
     rs_header (w_resp w') = rs_header (w_resp w) →
     rs_cookies (w_resp w') = rs_cookies (w_resp w) →
     rs_body (w_resp w') = rs_body (w_resp w) →
     rs_sent (w_resp w') = Some (sent_by (w_resp w) code) → Q tt w') →
  twp (net_http_WriteHeader code) Q w.
Proof.
  intros [Hlo Hhi] HQ. unfold net_http_WriteHeader, sent_by in *. apply twp_bind, twp_gets.
  destruct (rs_sent (w_resp w)) eqn:Hs; [by apply twp_ret, HQ; rewrite ?Hs|].
  unfold informational. rewrite (proj2 (Z.ltb_ge code 100)), (proj2 (Z.ltb_ge 999 code)),
    (proj2 (Z.leb_gt code 199)) by lia. rewrite andb_false_r. by apply twp_modify, HQ.
Qed.

Lemma twp_rw_WriteHeader rw code (Q : unit → World → Prop) w :
  final_status code →
  (∀ w', http_step w w' → same_trace_logger w w' →
     rs_header (w_resp w') = rs_header (w_resp w) →
     rs_cookies (w_resp w') = rs_cookies (w_resp w) →
     rs_body (w_resp w') = rs_body (w_resp w) →
     (writable rw w → rs_sent (w_resp w') = Some (sent_by (w_resp w) code)) →
     (rs_sent (w_resp w') = Some (sent_by (w_resp w) code) ∨
      rs_sent (w_resp w') = rs_sent (w_resp w)) → Q tt w') →
  twp (rw_WriteHeader rw code) Q w.
Proof.
  intros Hcode. revert w. induction rw as [|inner IH|inner IH]; intros w HQ; simpl.
  - apply twp_net_http_WriteHeader; [done|]. intros w' ? ? _ ? ? ? Hs. apply HQ; auto.
  - apply twp_bind, twp_modify, IH. intros w' (?&?&?&?) [? ?]. simpl in *.
    intros. apply HQ; try done; by repeat split.
  - unfold OtelWriter_WriteHeader. apply twp_bind, twp_gets.
    destruct (existsb _ _ && _) eqn:Hw.
    { apply andb_true_iff in Hw as [Hw%wrote_spec _]. apply twp_ret, HQ; try by repeat split.
      - intros Hwr. destruct (Hwr _ (le_n _) Hw) as [s Hs]. unfold sent_by. by rewrite Hs.
      - by right. }
    apply twp_bind, twp_modify, IH. intros w' (?&?&?&?) [? ?] ? ? ? Hs ?. simpl in *.
    apply HQ; try done; try by repeat split. intros Hwr. apply Hs. intros k Hk Hin.
    apply elem_of_cons in Hin as [->|Hin]; [lia|]. apply (Hwr k); [simpl; lia|done].
Qed.

Lemma twp_rw_Write rw b (Q : Z * option error → World → Prop) w :
  (∀ r w', http_step w w' → same_trace_logger w w' →
     rs_header (w_resp w') = rs_header (w_resp w) →
     rs_cookies (w_resp w') = rs_cookies (w_resp w) →
     rs_sent (w_resp w') = Some (sent_by (w_resp w) 200) → Q r w') →
  twp (rw_Write rw b) Q w.
Proof.
  revert Q w. induction rw as [|inner IH|inner IH]; intros Q w HQ; simpl.
  - unfold net_http_Write. apply twp_bind, twp_net_http_WriteHeader; [done|].
    intros w1 (?&?&?&?) [? ?] _ ? ? ? ?. apply twp_bind, twp_interact.
    destruct (write_error (w_tick w1)).
    + apply twp_ret, HQ; try done; repeat split; simpl in *; [lia|congruence..].
    + apply twp_bind, twp_modify, twp_ret, HQ; try done; repeat split; simpl in *; [lia|congruence..].
  - unfold StatusRecorder_Write. apply twp_bind, IH. intros [n e] w' (?&?&?&?) [? ?] ? ? ?.
    apply twp_bind, twp_modify, twp_ret. simpl. apply HQ; by repeat split.
  - unfold OtelWriter_Write. apply twp_bind, twp_gets, twp_bind.
    apply (twp_mono _ (λ _ w', http_step w w' ∧ same_trace_logger w w' ∧
      rs_header (w_resp w') = rs_header (w_resp w) ∧ rs_cookies (w_resp w') = rs_cookies (w_resp w) ∧
      sent_by (w_resp w') 200 = sent_by (w_resp w) 200)).
    + destruct (existsb _ _); [by apply twp_ret|].
      apply (twp_rw_WriteHeader (OtelWriterOf inner)); [done|].
      intros w' ? ? Hh Hc ? _ Hs. split_and!; try done.
      unfold sent_by in *. by destruct Hs as [-> | ->]; [|rewrite Hh, Hc].
    + intros [] w1 ((?&?&?&?) & [? ?] & ? & ? & Hs). apply IH.
      intros r w' (?&?&?&?) [? ?] ? ? Hs'. rewrite Hs in Hs'.
      apply HQ; try congruence; repeat split; [lia|congruence..].
Qed.

(** The headers of an error response. *)
Definition error_headers (h : Header) : Header :=
  Header_Set (Header_Set h "Content-Type" "application/json; charset=utf-8")
             "X-Content-Type-Options" "nosniff".

Lemma twp_Logger_JsonError rw code d e (Q : unit → World → Prop) w :
  final_status code →
  (∀ w', http_step w w' → w_trace w' = w_trace w →
     w_logger w' = mkLogger e d (traceID (w_logger w)) (spanID (w_logger w)) →
     rs_cookies (w_resp w') = rs_cookies (w_resp w) →
     is_Some (rs_sent (w_resp w')) →
     (writable rw w → rs_sent (w_resp w')
       = Some (match rs_sent (w_resp w) with
               | Some s => s
               | None => (code, error_headers (rs_header (w_resp w)), rs_cookies (w_resp w))
               end)) → Q tt w') →
  twp (Logger_JsonError rw code d e) Q w.
Proof.
  intros Hcode HQ. unfold Logger_JsonError.
  apply twp_bind, twp_modify, twp_bind, twp_modify, twp_bind, twp_modify.
  apply twp_bind, twp_rw_WriteHeader; [done|]. intros w1 (?&?&?&?) [Hl1 Ht1] Hh1 Hc1 Hb1 Hs1 _.
  apply twp_bind, twp_interact. apply twp_bind, twp_rw_Write.
  intros r w2 (?&?&?&?) [Hl2 Ht2] Hh2 Hc2 Hs2. apply twp_ret.
  unfold sent_by in *. simpl in *.
  apply HQ; [repeat split; [lia|congruence..]|congruence..|by eexists|].
  intros Hwr. rewrite Hs2, Hs1 by exact Hwr. by destruct (rs_sent (w_resp w)).
Qed.

(** A context that holds the logger. *)
Definition has_logger (ctx : Context) : Prop :=
  ctx_Value ctx zlogger_ctxKey = Some AnyLogger.

Lemma twp_zlogger_FromContext ctx (Q : unit → World → Prop) w :
  has_logger ctx →
  (∀ w', http_step w w' → w_resp w' = w_resp w → w_rec w' = w_rec w →
     w_tick w' = w_tick w → w_trace w' = w_trace w →
     lastErr (w_logger w') = lastErr (w_logger w) →
     lastErrDescription (w_logger w') = lastErrDescription (w_logger w) →
     Q tt w') →
  twp (zlogger_FromContext ctx) Q w.
Proof.
  intros Hl HQ. unfold zlogger_FromContext. rewrite Hl.
  apply twp_bind, twp_modify, twp_modify, HQ; by repeat split.
Qed.
End HttpLemmas.
