(* ===== verification/Database.v ===== *)
(** * database/database.go, and the table both backends keep

    The session record, its encryption at rest, the [SessionImpl] interface, and
    the effect of the SQL statements of the two backends on the [sessions]
    table. *)

From stdpp Require Import base gmap strings list option numbers.
From Stdlib Require Import ZArith Lia.
From S2P Require Import Prelude GoBase Encoding World Telemetry.

#[local] Open Scope Z_scope.

Definition ErrSessionsMismatch : error :=
  ErrVar "database" "ErrSessionsMismatch" "the old and new session do not match".

(** [sql.ErrNoRows] and [pgx.ErrNoRows] are two different variables. *)
Definition sql_ErrNoRows : error := ErrVar "sql" "ErrNoRows" "sql: no rows in result set".
Definition pgx_ErrNoRows : error := ErrVar "pgx" "ErrNoRows" "no rows in result set".

Record SessionData : Type := mkSessionData {
  Subject : string;
  AccessToken : string;
  RefreshToken : string;
  IDToken : string;
  ExpiresAt : Time
}.

#[export] Instance SessionData_eq_dec : EqDecision SessionData.
Proof. solve_decision. Defined.

(** [SessionData{}] *)
Definition SessionData_zero : SessionData := mkSessionData "" "" "" "" Time_zero.

(** The operations of the interface; a Go method with two results returns both. *)
Record SessionImpl : Type := mkSessionImpl {
  CloseConnection : Context → IO (option error);
  Add : Context → SessionData → IO (string * option error);
  Delete : Context → string → IO (option error);
  Get : Context → string → IO (SessionData * option error);
  Update : Context → string → SessionData → IO (option error);
  Purge : Context → IO (option error)
}.

Definition SessionData_IsExpired `{!Clock} (d : SessionData) : IO bool :=
  now ← time_Now;
  mret (Time_After now (ExpiresAt d)).

(** ** Encryption at rest *)

Definition encryptArgs (cipher : option HexCipher) (s : SessionData)
    : IO (SessionData * option error) :=
  match cipher with
  | None => mret (s, None)
  | Some cipher =>
      encAccessToken ← interact (λ n, EncryptToHexString cipher n (AccessToken s));
      match encAccessToken with
      | Err err => mret (SessionData_zero,
          Some (Errorf ("cannot encrypt access token: " +:+ Error err) err))
      | Ok encAccessToken =>
          encRefreshToken ← interact (λ n, EncryptToHexString cipher n (RefreshToken s));
          match encRefreshToken with
          | Err err => mret (SessionData_zero,
              Some (Errorf ("cannot encrypt refresh token: " +:+ Error err) err))
          | Ok encRefreshToken =>
              encIDToken ← interact (λ n, EncryptToHexString cipher n (IDToken s));
              match encIDToken with
              | Err err => mret (SessionData_zero,
                  Some (Errorf ("cannot encrypt id token: " +:+ Error err) err))
              | Ok encIDToken =>
                  mret (mkSessionData (Subject s) encAccessToken encRefreshToken
                          encIDToken (ExpiresAt s), None)
              end
          end
      end
  end.

Definition decryptArgs (cipher : option HexCipher) (s : SessionData)
    : SessionData * option error :=
  match cipher with
  | None => (s, None)
  | Some cipher =>
      match DecryptFromHexString cipher (AccessToken s) with
      | Err err => (SessionData_zero,
          Some (Errorf ("cannot decrypt access token: " +:+ Error err) err))
      | Ok decAccessToken =>
          match DecryptFromHexString cipher (RefreshToken s) with
          | Err err => (SessionData_zero,
              Some (Errorf ("cannot decrypt refresh token: " +:+ Error err) err))
          | Ok decRefreshToken =>
              match DecryptFromHexString cipher (IDToken s) with
              | Err err => (SessionData_zero,
                  Some (Errorf ("cannot decrypt id token: " +:+ Error err) err))
              | Ok decIDToken =>
                  (mkSessionData (Subject s) decAccessToken decRefreshToken
                     decIDToken (ExpiresAt s), None)
              end
          end
      end
  end.

(** ** SQL statements

    A statement is atomic: it has run on the whole table or not at all.  On sqlite an
    error means that it has not.  On postgresql the answer of a statement that has run
    may be lost, and the program sees an error; the call is given the context of the
    request, and fails when it is done. *)
Definition Table : Type := gmap string Row.

(** The [CHECK (... != '')] constraints of the table. *)
Definition row_checks (r : Row) : bool :=
  negb (String.eqb (row_subject r) "") && negb (String.eqb (row_access_token r) "")
  && negb (String.eqb (row_refresh_token r) "") && negb (String.eqb (row_id_token r) "").

Definition ErrCheckConstraint : error := ErrorString "CHECK constraint failed: sessions".
Definition ErrUniqueConstraint : error :=
  ErrorString "UNIQUE constraint failed: sessions.session_id".
Definition ErrOutOfRange : error := ErrorString "value is out of range for type integer".
Definition ErrStringTooLong : error :=
  ErrorString "value too long for type character varying(36)".
Definition ErrInvalidText : error := ErrorString "invalid byte sequence for encoding UTF8".
Definition ErrConnClosed : error := ErrorString "sql: database is closed".
Definition pgx_ErrConnClosed : error := ErrorString "conn closed".

Definition sql_insert (id : string) (r : Row) (t : gmap string Row)
    : result error (gmap string Row) :=
  if negb (row_checks r) then Err ErrCheckConstraint
  else match t !! id with
       | Some _ => Err ErrUniqueConstraint
       | None => Ok (<[id := r]> t)
       end.

Definition sql_delete (id : string) (t : gmap string Row) : result error (gmap string Row) :=
  Ok (delete id t).

(** [UPDATE ... WHERE session_id = id]: no row, no check, no effect. *)
Definition sql_update (id : string) (r : Row) (t : gmap string Row)
    : result error (gmap string Row) :=
  match t !! id with
  | None => Ok t
  | Some _ => if row_checks r then Ok (<[id := r]> t) else Err ErrCheckConstraint
  end.

(** [DELETE FROM sessions WHERE expires_at < now] *)
Definition sql_purge (now : Z) (t : gmap string Row) : result error (gmap string Row) :=
  Ok (filter (λ kr : string * Row, ¬ (row_expires_at kr.2 < now)) t).

Definition row_of (s : SessionData) : Row :=
  mkRow (Subject s) (AccessToken s) (RefreshToken s) (IDToken s) (Time_Unix (ExpiresAt s)).

Definition data_of (r : Row) : SessionData :=
  mkSessionData (row_subject r) (row_access_token r) (row_refresh_token r) (row_id_token r)
                (time_Unix (row_expires_at r)).

Section Sql.
Context `{!SqlDriver}.

Definition db_Exec (stmt : gmap string Row → result error (gmap string Row))
    : IO (option error) :=
  failure ← interact sql_failure;
  match failure with
  | Some e => mret (Some e)
  | None =>
      open ← gets w_open;
      if open : bool then
        t ← gets w_table;
        match stmt t with
        | Ok t' => _ ← modify (set_table t'); mret None
        | Err e => mret (Some e)
        end
      else mret (Some ErrConnClosed)
  end.

Definition db_QueryRow (no_rows : error) (query : gmap string Row → option Row)
    : IO (result error Row) :=
  failure ← interact sql_failure;
  match failure with
  | Some e => mret (Err e)
  | None =>
      open ← gets w_open;
      if open : bool then
        t ← gets w_table;
        match query t with
        | Some r => mret (Ok r)
        | None => mret (Err no_rows)
        end
      else mret (Err ErrConnClosed)
  end.

Definition db_Close : IO (option error) :=
  failure ← interact sql_failure;
  _ ← modify (set_open false);
  mret failure.

(** *** The calls of pgx *)

(** What becomes of the [n]th call, with this context. *)
Inductive fate : Type :=
  | Answered
  | Refused (e : error)
  | Lost (e : error).

Definition pgx_fate (ctx : Context) (n : nat) : fate :=
  match ctx_Err n ctx with
  | Some e => Refused e
  | None =>
      match pgx_failure n with
      | Some e => Refused e
      | None => match pgx_lost n with Some e => Lost e | None => Answered end
      end
  end.

Definition pgx_Exec (ctx : Context) (stmt : gmap string Row → result error (gmap string Row))
    : IO (option error) :=
  fate ← interact (pgx_fate ctx);
  match fate with
  | Refused e => mret (Some e)
  | _ =>
      open ← gets w_open;
      if open : bool then
        t ← gets w_table;
        match stmt t with
        | Ok t' =>
            _ ← modify (set_table t');
            mret (match fate with Lost e => Some e | _ => None end)
        | Err e => mret (Some e)
        end
      else mret (Some pgx_ErrConnClosed)
  end.

Definition pgx_QueryRow (ctx : Context) (query : gmap string Row → result error Row)
    : IO (result error Row) :=
  fate ← interact (pgx_fate ctx);
  match fate with
  | Refused e | Lost e => mret (Err e)
  | Answered =>
      open ← gets w_open;
      if open : bool then
        t ← gets w_table;
        mret (query t)
      else mret (Err pgx_ErrConnClosed)
  end.

(** [conn.Close(ctx)] closes, whatever it reports. *)
Definition pgx_Close (ctx : Context) : IO (option error) :=
  fate ← interact (pgx_fate ctx);
  _ ← modify (set_open false);
  mret (match fate with Answered => None | Refused e | Lost e => Some e end).
End Sql.

(** ** The abstract store

    What the rest of the program may rely on: a map from session ids to session
    data whose expiration is a whole number of seconds.  Each operation is a
    relation between the store before, the results, and the store after. *)
Abbreviation Store := (gmap string SessionData).

Definition truncate (d : SessionData) : SessionData :=
  mkSessionData (Subject d) (AccessToken d) (RefreshToken d) (IDToken d)
                (time_Unix (Time_Unix (ExpiresAt d))).

Definition spec_Add (d : SessionData) (s : Store) (r : string * option error) (s' : Store) : Prop :=
  match r.2 with
  | None => s !! r.1 = None ∧ s' = <[r.1 := truncate d]> s
  | Some _ => r.1 = "" ∧ s' = s
  end.

Definition spec_Delete (id : string) (s : Store) (err : option error) (s' : Store) : Prop :=
  s' = match err with None => delete id s | Some _ => s end.

Definition spec_Get (id : string) (s : Store) (r : SessionData * option error) (s' : Store) : Prop :=
  s' = s ∧
  match r.2 with
  | None => s !! id = Some r.1
  | Some _ => r.1 = SessionData_zero
  end.

Definition spec_Update (id : string) (d : SessionData) (s : Store) (err : option error)
    (s' : Store) : Prop :=
  match err with
  | None => ∃ old, s !! id = Some old ∧ Subject old = Subject d ∧ s' = <[id := truncate d]> s
  | Some _ => s' = s
  end.

Definition spec_Purge `{!Clock} (s : Store) (err : option error) (s' : Store) : Prop :=
  match err with
  | None => ∃ n, s' = filter (λ kd : string * SessionData,
                        ¬ (Time_Unix (ExpiresAt kd.2) < Time_Unix (clock_now n))) s
  | Some _ => s' = s
  end.

#[global] Arguments spec_Add : simpl never.
#[global] Arguments spec_Delete : simpl never.
#[global] Arguments spec_Get : simpl never.
#[global] Arguments spec_Update : simpl never.
#[global] Arguments spec_Purge : simpl never.

(** What a database call may change: the table, the trace and the index of the
    next outside call. *)
Definition db_step (w w' : World) : Prop :=
  (w_tick w ≤ w_tick w')%nat ∧ w_open w' = w_open w ∧ w_resp w' = w_resp w ∧
  w_rec w' = w_rec w ∧ w_logger w' = w_logger w ∧ w_log w' = w_log w.

(** [unless_lost doubt failed spec]: where there is [doubt], an operation that took effect
    may report a failure. *)
Definition unless_lost {A : Type} (doubt : Prop) (failed : A → Prop)
    (spec : Store → A → Store → Prop) : Store → A → Store → Prop := λ s a s',
  spec s a s' ∨ (doubt ∧ failed a ∧ ∃ a', spec s a' s').

Definition add_failed (r : string * option error) : Prop := r.1 = "" ∧ r.2 ≠ None.
Definition call_failed (e : option error) : Prop := e ≠ None.

Definition refines {A : Type} (view : gmap string Row → Store) (m : IO A)
    (spec : Store → A → Store → Prop) : Prop :=
  ∀ w, twp m (λ a w', db_step w w' ∧ spec (view (w_table w)) a (view (w_table w'))) w.

(** Statements are answered, and no context is done. *)
Definition answering `{!SqlDriver} : Prop :=
  ∀ n, sql_failure n = None ∧ ∀ ctx, pgx_fate ctx n = Answered.

(** The database accepts statements. *)
Definition db_up `{!SqlDriver} (w : World) : Prop := answering ∧ w_open w = true.

(** The contract of a backend: its methods never panic, refine the abstract
    store, hand out fresh ids, and [Get] answers when the database is up.  [no_rows] is
    the error for a missing row.  With [doubt], an error does not mean that nothing
    happened. *)
Class StoreUnder `{!Clock} `{!Uuid} `{!SqlDriver} (doubt : Prop) (impl : SessionImpl)
    (view : gmap string Row → Store) (no_rows : string → error) : Prop := {
  Add_refines ctx d :
    refines view (Add impl ctx d) (unless_lost doubt add_failed (spec_Add d));
  Delete_refines ctx id :
    refines view (Delete impl ctx id) (unless_lost doubt call_failed (spec_Delete id));
  Get_refines ctx id : refines view (Get impl ctx id) (spec_Get id);
  Update_refines ctx id d :
    refines view (Update impl ctx id d) (unless_lost doubt call_failed (spec_Update id d));
  Purge_refines ctx :
    refines view (Purge impl ctx) (unless_lost doubt call_failed spec_Purge);
  Get_table ctx id : preserves w_table (Get impl ctx id);
  (** an id that is new in the store was drawn during the call *)
  Add_fresh ctx d w :
    twp (Add impl ctx d) (λ r w', ∀ id,
      view (w_table w) !! id = None → is_Some (view (w_table w') !! id) →
      ∃ n, id = uuid_New n ∧ (w_tick w ≤ n < w_tick w')%nat) w;
  Get_found ctx id d w :
    db_up w → view (w_table w) !! id = Some d →
    twp (Get impl ctx id) (λ r _, r = (d, None)) w;
  Get_missing ctx id w :
    db_up w → w_table w !! id = None →
    twp (Get impl ctx id) (λ r _, r = (SessionData_zero, Some (no_rows id))) w;
  view_dom t id : is_Some (view t !! id) → is_Some (t !! id)
}.

(** An error means that nothing happened. *)
Abbreviation SessionStore := (StoreUnder False).
(** It may have. *)
Abbreviation LossyStore := (StoreUnder True).

(** ** The store behind a table *)

Definition decode_row (cipher : option HexCipher) (r : Row) : option SessionData :=
  match decryptArgs cipher (data_of r) with
  | (d, None) => Some d
  | (_, Some _) => None
  end.

Definition store_view (cipher : option HexCipher) (t : gmap string Row) : Store :=
  omap (decode_row cipher) t.

(** Decryption inverts encryption. *)
Definition cipher_ok (cipher : option HexCipher) : Prop :=
  match cipher with
  | None => True
  | Some c => ∀ n x y, EncryptToHexString c n x = Ok y → DecryptFromHexString c y = Ok x
  end.

(** ** Lemmas *)

Lemma truncate_idemp d : truncate (truncate d) = truncate d.
Proof. unfold truncate. simpl. by rewrite Time_Unix_idemp. Qed.

#[export] Instance db_step_preorder : PreOrder db_step.
Proof.
  split; [by repeat split|]. intros w1 w2 w3 (?&?&?&?&?&?) (?&?&?&?&?&?).
  repeat split; [lia|congruence..].
Qed.

Lemma db_step_equiv w w' : w' ≡ w → db_step w w'.
Proof.
  intros (Ht&?&?&?&?&?&?)%World_equiv_fields. unfold db_step. rewrite Ht. by repeat split.
Qed.

#[export] Instance db_step_proper : Proper ((≡) ==> (≡) ==> iff) db_step.
Proof.
  intros w1 w2 (H1&H2&H3&H4&H5&H6&H7)%World_equiv_fields
         w3 w4 (K1&K2&K3&K4&K5&K6&K7)%World_equiv_fields.
  unfold db_step. by rewrite H1, H3, H4, H5, H6, H7, K1, K3, K4, K5, K6, K7.
Qed.

Lemma db_step_tick w w' : db_step (set_tick S w) w' → db_step w w'.
Proof. intros (?&?&?&?&?&?). repeat split; simpl in *; [lia|done..]. Qed.

Lemma db_up_step `{!SqlDriver} w w' : db_step w w' → db_up w → db_up w'.
Proof. intros (_ & Ho & _) [? ?]. split; [done|]. congruence. Qed.

Section SqlLemmas.
Context `{!SqlDriver}.

Lemma twp_db_Exec stmt (Q : option error → World → Prop) w :
  (∀ e, Q (Some e) (set_tick S w)) →
  (∀ t, stmt (w_table w) = Ok t → w_open w = true → Q None (set_table t (set_tick S w))) →
  twp (db_Exec stmt) Q w.
Proof.
  intros He Hok. unfold db_Exec. apply twp_bind, twp_interact.
  destruct (sql_failure (w_tick w)); [by apply twp_ret|].
  apply twp_bind, twp_gets. simpl. destruct (w_open w); [|by apply twp_ret].
  apply twp_bind, twp_gets. simpl. destruct (stmt (w_table w)) as [t|e]; [|by apply twp_ret].
  apply twp_bind, twp_modify, twp_ret. by apply Hok.
Qed.

Lemma twp_db_QueryRow no_rows query (Q : result error Row → World → Prop) w :
  (∀ e, (db_up w → query (w_table w) = None ∧ e = no_rows) → Q (Err e) (set_tick S w)) →
  (∀ r, query (w_table w) = Some r → Q (Ok r) (set_tick S w)) →
  twp (db_QueryRow no_rows query) Q w.
Proof.
  intros He Hok. unfold db_QueryRow. apply twp_bind, twp_interact.
  destruct (sql_failure (w_tick w)) eqn:Hf;
    [apply twp_ret, He; intros [Ha _]; destruct (Ha (w_tick w)); congruence|].
  apply twp_bind, twp_gets. simpl. destruct (w_open w) eqn:Ho;
    [|apply twp_ret, He; intros [_ ?]; congruence].
  apply twp_bind, twp_gets. simpl.
  destruct (query (w_table w)) eqn:Hq; apply twp_ret; auto.
Qed.
End SqlLemmas.

Section PgxLemmas.
Context `{!SqlDriver}.

(** Some answer may be lost. *)
Definition answers_get_lost : Prop := ∃ n e, pgx_lost n = Some e.

Lemma pgx_fate_lost ctx n e : pgx_fate ctx n = Lost e → answers_get_lost.
Proof.
  unfold pgx_fate. destruct (ctx_Err n ctx); [done|]. destruct (pgx_failure n); [done|].
  destruct (pgx_lost n) eqn:Hl; [|done]. intros _. by exists n, e0.
Qed.

Lemma twp_pgx_Exec ctx stmt (Q : option error → World → Prop) w :
  (∀ e, Q (Some e) (set_tick S w)) →
  (∀ t err, stmt (w_table w) = Ok t → w_open w = true → (err ≠ None → answers_get_lost) →
     Q err (set_table t (set_tick S w))) →
  twp (pgx_Exec ctx stmt) Q w.
Proof.
  intros He Hok. unfold pgx_Exec. apply twp_bind, twp_interact.
  destruct (pgx_fate ctx (w_tick w)) as [|e|e] eqn:Hf; [|by apply twp_ret|];
    apply twp_bind, twp_gets; simpl; (destruct (w_open w); [|by apply twp_ret]);
    apply twp_bind, twp_gets; simpl; (destruct (stmt (w_table w)) as [t|e0]; [|by apply twp_ret]);
    apply twp_bind, twp_modify, twp_ret; apply Hok; try done.
  intros _. by eapply pgx_fate_lost.
Qed.

Lemma twp_pgx_QueryRow ctx query (Q : result error Row → World → Prop) w :
  (∀ e, (db_up w → query (w_table w) = Err e) → Q (Err e) (set_tick S w)) →
  (∀ r, query (w_table w) = Ok r → Q (Ok r) (set_tick S w)) →
  twp (pgx_QueryRow ctx query) Q w.
Proof.
  intros He Hok. unfold pgx_QueryRow. apply twp_bind, twp_interact.
  assert (Hdown : ∀ e, ¬ db_up w → Q (Err e) (set_tick S w)).
  { intros e Hn. apply He. intros Hup. by destruct Hn. }
  destruct (pgx_fate ctx (w_tick w)) eqn:Hf;
    try (apply twp_ret, Hdown; intros [Ha _]; destruct (Ha (w_tick w)) as [_ Hx]; by rewrite Hx in Hf).
  apply twp_bind, twp_gets. simpl. destruct (w_open w) eqn:Ho;
    [|apply twp_ret, Hdown; intros [_ ?]; congruence].
  apply twp_bind, twp_gets, twp_ret. simpl. destruct (query (w_table w)) eqn:Hq; auto.
Qed.
End PgxLemmas.

(** The row that is stored for [d] under [c]: three separate encryptions. *)
Definition encrypted_by (c : HexCipher) (d : SessionData) (r : Row) : Prop :=
  ∃ n1 n2 n3, (n1 < n2 < n3)%nat ∧
    EncryptToHexString c n1 (AccessToken d) = Ok (row_access_token r) ∧
    EncryptToHexString c n2 (RefreshToken d) = Ok (row_refresh_token r) ∧
    EncryptToHexString c n3 (IDToken d) = Ok (row_id_token r) ∧
    row_subject r = Subject d ∧ row_expires_at r = Time_Unix (ExpiresAt d).

Lemma twp_encryptArgs_Some c d (Q : SessionData * option error → World → Prop) w :
  (∀ w' enc err, db_step w w' → w_table w' = w_table w →
     (err = None → encrypted_by c d (row_of enc)) → Q (enc, err) w') →
  twp (encryptArgs (Some c) d) Q w.
Proof.
  intros HQ. unfold encryptArgs.
  apply twp_bind, twp_interact.
  destruct (EncryptToHexString c _ (AccessToken d)) as [a|e] eqn:Ha;
    [|apply twp_ret, HQ; [by repeat split; simpl; lia|done|done]].
  apply twp_bind, twp_interact.
  destruct (EncryptToHexString c _ (RefreshToken d)) as [b|e] eqn:Hb;
    [|apply twp_ret, HQ; [by repeat split; simpl; lia|done|done]].
  apply twp_bind, twp_interact.
  destruct (EncryptToHexString c _ (IDToken d)) as [i|e] eqn:Hi;
    [|apply twp_ret, HQ; [by repeat split; simpl; lia|done|done]].
  apply twp_ret, HQ; [by repeat split; simpl; lia|done|]. intros _.
  eexists _, _, _. split; [|split; [exact Ha|split; [exact Hb|split; [exact Hi|done]]]].
  simpl. lia.
Qed.

Lemma encrypted_by_decodes c d r :
  cipher_ok (Some c) → encrypted_by c d r → decode_row (Some c) r = Some (truncate d).
Proof.
  intros Hc (n1 & n2 & n3 & _ & Ha & Hb & Hi & Hs & He). unfold decode_row, decryptArgs, data_of.
  simpl. rewrite (Hc _ _ _ Ha), (Hc _ _ _ Hb), (Hc _ _ _ Hi), Hs, He. done.
Qed.

(** Encrypting, storing with whole seconds, reading back and decrypting. *)
Lemma twp_encryptArgs cipher s (Q : SessionData * option error → World → Prop) w :
  cipher_ok cipher →
  (∀ enc err w', db_step w w' → w_table w' = w_table w →
     (err = None → decode_row cipher (row_of enc) = Some (truncate s)) →
     Q (enc, err) w') →
  twp (encryptArgs cipher s) Q w.
Proof.
  intros Hc HQ. destruct cipher as [c|]; [|by apply twp_ret, HQ].
  apply twp_encryptArgs_Some. intros w' enc err Hs Ht He. apply HQ; [done..|].
  intros Hn. by apply encrypted_by_decodes, He.
Qed.

Lemma decode_row_expires cipher r d :
  decode_row cipher r = Some d → Time_Unix (ExpiresAt d) = row_expires_at r.
Proof.
  unfold decode_row, decryptArgs. destruct cipher as [c|].
  - simpl. destruct (DecryptFromHexString c _); [|done].
    destruct (DecryptFromHexString c _); [|done].
    destruct (DecryptFromHexString c _); [|done].
    intros ?; simplify_eq/=. apply Time_Unix_time_Unix.
  - intros ?; simplify_eq/=. apply Time_Unix_time_Unix.
Qed.

Section StoreView.
Context (cipher : option HexCipher).
Implicit Types (t : gmap string Row) (id : string) (r : Row).

Lemma store_view_lookup t id : store_view cipher t !! id = t !! id ≫= decode_row cipher.
Proof. apply lookup_omap. Qed.

Lemma store_view_lookup_Some t id d :
  store_view cipher t !! id = Some d ↔
  ∃ r, t !! id = Some r ∧ decode_row cipher r = Some d.
Proof. rewrite store_view_lookup. apply bind_Some. Qed.

Lemma store_view_None t id : t !! id = None → store_view cipher t !! id = None.
Proof. intros H. by rewrite store_view_lookup, H. Qed.

Lemma store_view_insert t id r d :
  decode_row cipher r = Some d →
  store_view cipher (<[id := r]> t) = <[id := d]> (store_view cipher t).
Proof. intros. by apply omap_insert_Some. Qed.

Lemma store_view_delete t id :
  store_view cipher (delete id t) = delete id (store_view cipher t).
Proof. apply omap_delete. Qed.

Lemma store_view_purge t now :
  store_view cipher (filter (λ kr : string * Row, ¬ (row_expires_at kr.2 < now)) t)
  = filter (λ kd : string * SessionData, ¬ (Time_Unix (ExpiresAt kd.2) < now))
           (store_view cipher t).
Proof.
  apply map_eq. intros id. apply option_eq. intros d.
  rewrite store_view_lookup_Some, map_lookup_filter_Some, store_view_lookup_Some. simpl.
  setoid_rewrite map_lookup_filter_Some. simpl. split.
  - intros (r & [Hr Hn] & Hd). split; [eauto|]. by rewrite (decode_row_expires _ _ _ Hd).
  - intros [(r & Hr & Hd) Hn]. exists r.
    by rewrite (decode_row_expires _ _ _ Hd) in Hn.
Qed.

Lemma decryptArgs_decode r :
  match decryptArgs cipher (data_of r) with
  | (d, None) => decode_row cipher r = Some d
  | (d, Some _) => decode_row cipher r = None ∧ d = SessionData_zero
  end.
Proof.
  unfold decode_row, decryptArgs. destruct cipher as [c|]; [|done].
  destruct (DecryptFromHexString c _); [|done].
  destruct (DecryptFromHexString c _); [|done].
  by destruct (DecryptFromHexString c _).
Qed.
End StoreView.

(** ** Stepping through a method *)

(** Turns what is known of the worlds along a run into field equations. *)
Ltac world_facts :=
  repeat match goal with
    | H : ?w1 ≡@{World} ?w2 |- _ => apply World_equiv_fields in H; destruct_and! H
    | H : db_step ?w1 ?w2 |- _ => unfold db_step in H; destruct_and! H
    end;
  simpl in *.

Ltac solve_db_step :=
  unfold db_step; world_facts; repeat split; first [lia | congruence].

Ltac db_run :=
  repeat first
    [ match goal with |- ∀ _, _ => intro | |- _ → _ => intro end
    | apply twp_with_optional_span
    | apply twp_bind
    | apply twp_ret
    | apply twp_set_attributes
    | apply twp_set_error_status
    | apply twp_Span_SetStatus
    | apply twp_encryptArgs; [assumption|]
    | apply twp_db_Exec
    | apply twp_db_QueryRow
    | apply twp_pgx_Exec
    | apply twp_pgx_QueryRow
    | apply twp_interact
    | match goal with
      | |- twp (match ?x with _ => _ end) _ _ => destruct x eqn:?
      end ].

(** What the four kinds of statement do when they succeed. *)
Lemma sql_insert_Ok id r t t' :
  sql_insert id r t = Ok t' → t !! id = None ∧ t' = <[id := r]> t ∧ row_checks r = true.
Proof.
  unfold sql_insert. destruct (row_checks r); [|done].
  destruct (t !! id) eqn:Hid; [done|]. simpl. intros ?; by simplify_eq.
Qed.

Lemma sql_update_Ok id r t t' :
  is_Some (t !! id) → sql_update id r t = Ok t' →
  t' = <[id := r]> t ∧ row_checks r = true.
Proof.
  intros [r0 Hr0]. unfold sql_update. rewrite Hr0.
  destruct (row_checks r); [|done]. intros ?; by simplify_eq.
Qed.

(** Names the table a step has left, in terms of the table it started from. *)
Ltac table_is t :=
  match goal with
  | |- context [store_view _ (w_table ?w')] =>
      assert_fails (constr_eq (w_table w') t);
      let H := fresh "Htable" in
      assert (w_table w' = t) as H by congruence; rewrite ?H; clear H
  end.

(** The branches of a method that do not change the table. *)
Ltac same_table :=
  world_facts;
  match goal with |- context [store_view _ (w_table ?w)] => try table_is (w_table w) end;
  try solve [repeat split; first [done | congruence]].

(** ** Operations whose answer may be lost *)

Lemma unless_lost_spec {A} doubt failed (spec : Store → A → Store → Prop) s a s' :
  spec s a s' → unless_lost doubt failed spec s a s'.
Proof. by left. Qed.

Lemma unless_lost_False {A} failed (spec : Store → A → Store → Prop) s a s' :
  unless_lost False failed spec s a s' → spec s a s'.
Proof. by intros [?|[[] _]]. Qed.

Lemma unless_lost_mono {A} (d1 d2 : Prop) failed (spec : Store → A → Store → Prop) s a s' :
  (d1 → d2) → unless_lost d1 failed spec s a s' → unless_lost d2 failed spec s a s'.
Proof. intros Hd [?|(? & ? & ?)]; [by left|right; auto]. Qed.

Lemma refines_mono {A} view (m : IO A) (spec1 spec2 : Store → A → Store → Prop) :
  (∀ s a s', spec1 s a s' → spec2 s a s') → refines view m spec1 → refines view m spec2.
Proof.
  intros Hs Hm w. eapply twp_mono; [apply Hm|]. intros a w' [? ?]. split; auto.
Qed.

(** Less doubt is a stronger contract. *)
Lemma store_under_mono `{!Clock} `{!Uuid} `{!SqlDriver} (d1 d2 : Prop) impl view no_rows :
  (d1 → d2) → StoreUnder d1 impl view no_rows → StoreUnder d2 impl view no_rows.
Proof.
  intros Hd Hs. pose proof (λ A failed spec s (a : A) s', unless_lost_mono d1 d2 failed spec s a s' Hd) as Hm.
  split.
  - intros ctx d. eapply refines_mono; [apply Hm|apply Add_refines].
  - intros ctx id. eapply refines_mono; [apply Hm|apply Delete_refines].
  - apply Get_refines.
  - intros ctx id d. eapply refines_mono; [apply Hm|apply Update_refines].
  - intros ctx. eapply refines_mono; [apply Hm|apply Purge_refines].
  - apply Get_table.
  - apply Add_fresh.
  - apply Get_found.
  - apply Get_missing.
  - apply view_dom.
Qed.

(** The operations that change the store one id at a time, seen from an id. *)
Lemma spec_Add_new d s r s' id :
  unless_lost True add_failed (spec_Add d) s r s' → s !! id = None → is_Some (s' !! id) →
  s' = <[id := truncate d]> s.
Proof.
  assert (Hone : ∀ r, spec_Add d s r s' → s !! id = None → is_Some (s' !! id) →
            s' = <[id := truncate d]> s).
  { intros [k [e|]] Hs Hn [d' Hd']; destruct Hs as [Hk Hv]; simpl in *; subst s'; [congruence|].
    destruct (decide (k = id)) as [->|Hne]; [done|]. rewrite lookup_insert_ne in Hd'; congruence. }
  intros [Hs|(_ & _ & r' & Hs)]; by eapply Hone.
Qed.

(** What a delete and a purge may do to the store, whatever they report. *)
Lemma spec_Delete_effect id s e s' :
  unless_lost True call_failed (spec_Delete id) s e s' → s' = s ∨ s' = delete id s.
Proof. intros [Hv|(_ & _ & e' & Hv)]; [destruct e|destruct e']; [by left|by right|by left|by right]. Qed.

Lemma spec_Purge_effect `{!Clock} s e s' :
  unless_lost True call_failed spec_Purge s e s' →
  s' = s ∨ ∃ n, s' = filter (λ kd : string * SessionData,
                  ¬ (Time_Unix (ExpiresAt kd.2) < Time_Unix (clock_now n))) s.
Proof. intros [Hv|(_ & _ & e' & Hv)]; [destruct e|destruct e']; [by left|by right|by left|by right]. Qed.

(** ** The obligations of a backend, on tables *)

Section Obligations.
Context (cipher : option HexCipher).
Implicit Types (t : gmap string Row) (id : string) (r : Row).

Lemma spec_Add_insert d enc id t :
  t !! id = None → decode_row cipher (row_of enc) = Some (truncate d) →
  spec_Add d (store_view cipher t) (id, None) (store_view cipher (<[id := row_of enc]> t)).
Proof.
  intros Hn Hd. split; simpl; [by apply store_view_None|by apply store_view_insert].
Qed.

Lemma spec_Update_insert d old enc id t :
  store_view cipher t !! id = Some old → Subject d = Subject old →
  decode_row cipher (row_of enc) = Some (truncate d) →
  spec_Update id d (store_view cipher t) None (store_view cipher (<[id := row_of enc]> t)).
Proof.
  intros Ho Hs Hd. exists old. repeat split; [done..|]. by apply store_view_insert.
Qed.

Lemma spec_Get_row id t r :
  t !! id = Some r →
  spec_Get id (store_view cipher t) (decryptArgs cipher (data_of r)) (store_view cipher t).
Proof.
  intros Hr. split; [done|]. pose proof (decryptArgs_decode cipher r) as Hd.
  destruct (decryptArgs cipher (data_of r)) as [d [e|]]; simpl; [by destruct Hd|].
  rewrite store_view_lookup, Hr. exact Hd.
Qed.

Lemma store_view_dom t id : is_Some (store_view cipher t !! id) → is_Some (t !! id).
Proof. intros [d (r & ? & _)%store_view_lookup_Some]. eauto. Qed.
End Obligations.

(** The id of a new row was drawn. *)
Lemma drawn_id `{!Uuid} cipher (t t' : gmap string Row) n r id (lo hi : nat) :
  t' = <[uuid_New n := r]> t → (lo ≤ n < hi)%nat →
  store_view cipher t !! id = None → is_Some (store_view cipher t' !! id) →
  ∃ n, id = uuid_New n ∧ (lo ≤ n < hi)%nat.
Proof.
  intros -> Hn Hno Hs. exists n. split; [|done].
  destruct (decide (uuid_New n = id)) as [|Hne]; [done|]. exfalso.
  apply store_view_dom in Hs as Hs'. destruct Hs as [d Hd].
  rewrite store_view_lookup, lookup_insert_ne, <-store_view_lookup in Hd by done. congruence.
Qed.

(** The contract of [Get], with what it answers when the database is up. *)
Definition get_post `{!SqlDriver} (cipher : option HexCipher) (no_rows : string → error) (id : string)
    (w : World) (r : SessionData * option error) (w' : World) : Prop :=
  db_step w w' ∧ w_table w' = w_table w ∧
  spec_Get id (store_view cipher (w_table w)) r (store_view cipher (w_table w)) ∧
  (db_up w →
     match w_table w !! id with
     | Some row => r = decryptArgs cipher (data_of row)
     | None => r = (SessionData_zero, Some (no_rows id))
     end).

Lemma get_post_found `{!SqlDriver} cipher no_rows id d w r w' :
  get_post cipher no_rows id w r w' → db_up w →
  store_view cipher (w_table w) !! id = Some d → r = (d, None).
Proof.
  intros (_ & _ & _ & Hup) Hw (row & Hrow & Hd)%store_view_lookup_Some.
  specialize (Hup Hw). rewrite Hrow in Hup. subst r. unfold decode_row in Hd.
  destruct (decryptArgs cipher (data_of row)) as [d' [e|]]; by simplify_eq.
Qed.

Lemma get_post_missing `{!SqlDriver} cipher no_rows id w r w' :
  get_post cipher no_rows id w r w' → db_up w →
  w_table w !! id = None → r = (SessionData_zero, Some (no_rows id)).
Proof. intros (_ & _ & _ & Hup) Hw Hn. specialize (Hup Hw). by rewrite Hn in Hup. Qed.
