(* ===== verification/Sqlite.v ===== *)
(** * database/sqlite.go *)

From stdpp Require Import base gmap strings list option numbers.
From Stdlib Require Import ZArith Lia.
From S2P Require Import Prelude GoBase Encoding World Telemetry Database.

#[local] Open Scope Z_scope.

(** ** The statements *)

Definition querySQLiteDelete (id : string) := sql_delete id.
Definition querySQLiteInsert (id : string) (r : Row) := sql_insert id r.
Definition querySQLiteSelect (id : string) (t : gmap string Row) : option Row := t !! id.
Definition querySQLiteUpdate (r : Row) (id : string) := sql_update id r.
Definition querySQLitePurge (now : Z) := sql_purge now.

Section Sqlite.
Context `{!Clock} `{!Uuid} `{!SqlDriver}.

(** The [cipher] field of the [sqlite] struct; its [db] field is the table and
    the connection of the world. *)
Variable cipher : option HexCipher.

Definition sqlite_CloseConnection (_ : Context) : IO (option error) := db_Close.

Definition sqlite_Add (ctx : Context) (s : SessionData) : IO (string * option error) :=
  with_optional_span ctx "session.postgresql: INSERT" (λ span,
    id ← interact uuid_New;
    _ ← set_attributes span [("db.table", AttrString "sessions"); ("db.table.id", AttrString id);
          ("db.table.subject", AttrString (Subject s));
          ("db.table.expires_at", AttrTime (ExpiresAt s))];
    '(enc, err) ← encryptArgs cipher s;
    match err with
    | Some err =>
        _ ← set_error_status span "session.sqlite: INSERT -> encryptArgs" err;
        mret ("", Some err)
    | None =>
        err ← db_Exec (querySQLiteInsert id (row_of enc));
        match err with
        | Some err =>
            _ ← set_error_status span "session.sqlite: INSERT -> db.db.Exec" err;
            mret ("", Some err)
        | None => mret (id, None)
        end
    end).

Definition sqlite_Delete (ctx : Context) (id : string) : IO (option error) :=
  with_optional_span ctx "session.postgresql: INSERT" (λ span,
    _ ← set_attributes span [("db.table", AttrString "sessions"); ("db.table.id", AttrString id)];
    err ← db_Exec (querySQLiteDelete id);
    match err with
    | Some err =>
        _ ← set_error_status span "session.sqlite: DELETE -> db.conn.Exec" err;
        mret (Some err)
    | None => mret None
    end).

Definition sqlite_Get (ctx : Context) (id : string) : IO (SessionData * option error) :=
  with_optional_span ctx "session.postgresql: INSERT" (λ span,
    _ ← set_attributes span [("db.table", AttrString "sessions"); ("db.table.id", AttrString id)];
    row ← db_QueryRow sql_ErrNoRows (querySQLiteSelect id);
    match row with
    | Err err =>
        _ ← set_error_status span "session.sqlite: INSERT -> db.conn.QueryRow" err;
        mret (SessionData_zero, Some err)
    | Ok row => mret (decryptArgs cipher (data_of row))
    end).

Definition sqlite_Update (ctx : Context) (id : string) (s : SessionData) : IO (option error) :=
  with_optional_span ctx "session.postgresql: INSERT" (λ span,
    _ ← set_attributes span [("db.table", AttrString "sessions"); ("db.table.id", AttrString id);
          ("db.table.subject", AttrString (Subject s));
          ("db.table.expires_at", AttrTime (ExpiresAt s))];
    '(oldSession, err) ← sqlite_Get [] id;
    match err with
    | Some err =>
        _ ← set_error_status span "session.sqlite: UPDATE -> Get" err;
        mret (Some err)
    | None =>
        if negb (String.eqb (Subject s) (Subject oldSession)) then
          _ ← (match span with
               | Some sp => Span_SetStatus sp "session.sqlite: subject mismatch"
               | None => mret tt
               end);
          mret (Some ErrSessionsMismatch)
        else
          '(enc, err) ← encryptArgs cipher s;
          match err with
          | Some err =>
              _ ← set_error_status span "session.sqlite: UPDATE -> encryptArgs" err;
              mret (Some err)
          | None =>
              err ← db_Exec (querySQLiteUpdate (row_of enc) id);
              match err with
              | Some err =>
                  _ ← set_error_status span "session.sqlite: UPDATE -> db.conn.Exec" err;
                  mret (Some err)
              | None => mret None
              end
          end
    end).

Definition sqlite_Purge (_ : Context) : IO (option error) :=
  now ← time_Now;
  db_Exec (querySQLitePurge (Time_Unix now)).

Definition sqlite_impl : SessionImpl :=
  mkSessionImpl sqlite_CloseConnection sqlite_Add sqlite_Delete sqlite_Get
                sqlite_Update sqlite_Purge.
End Sqlite.

(** ** The sqlite backend implements the store *)

(** What [Get] reports for an id without a row. *)
Definition sqlite_no_rows (_ : string) : error := sql_ErrNoRows.

Section SqliteStore.
Context `{!Clock} `{!Uuid} `{!SqlDriver}.
Context (cipher : option HexCipher) (Hc : cipher_ok cipher).

Lemma twp_sqlite_Get ctx id w :
  twp (sqlite_Get cipher ctx id) (get_post cipher sqlite_no_rows id w) w.
Proof.
  unfold sqlite_Get, querySQLiteSelect. db_run.
  all: (split; [solve_db_step|]); (split; [world_facts; congruence|]).
  - split; [done|]. intros Hup.
    match goal with He : db_up _ → _ |- _ =>
      destruct He as [Hq ->]; [apply (db_up_step w); [solve_db_step|done]|] end.
    world_facts. replace (w_table w !! id) with (@None Row) by congruence. done.
  - world_facts. replace (w_table w !! id) with (Some r) by congruence.
    split; [|done]. apply spec_Get_row. congruence.
Qed.

#[local] Opaque sqlite_Get.

Lemma sqlite_Add_refines ctx d :
  refines (store_view cipher) (sqlite_Add cipher ctx d) (spec_Add d).
Proof using Hc.
  intros w. unfold sqlite_Add. db_run.
  all: (split; [solve_db_step|]); same_table.
  match goal with Hs : querySQLiteInsert _ _ _ = Ok _ |- _ =>
    apply sql_insert_Ok in Hs as (Hn & -> & _) end.
  table_is (<[uuid_New (w_tick w') := row_of enc]> (w_table w)).
  apply spec_Add_insert; [congruence|auto].
Qed.

Lemma sqlite_Add_fresh ctx d w :
  twp (sqlite_Add cipher ctx d) (λ r w', ∀ id,
    store_view cipher (w_table w) !! id = None → is_Some (store_view cipher (w_table w') !! id) →
    ∃ n, id = uuid_New n ∧ (w_tick w ≤ n < w_tick w')%nat) w.
Proof using Hc.
  unfold sqlite_Add. db_run.
  all: match goal with Hn : store_view _ _ !! _ = None, Hs : is_Some _ |- _ =>
    try (world_facts; destruct Hs as [? Hs]; congruence) end.
  match goal with Hs : querySQLiteInsert _ _ _ = Ok _ |- _ =>
    apply sql_insert_Ok in Hs as (_ & -> & _) end.
  eapply (drawn_id cipher (w_table w) _ (w_tick w') (row_of enc)); [| |done..]; world_facts;
    [congruence|lia].
Qed.

Lemma sqlite_Delete_refines ctx id :
  refines (store_view cipher) (sqlite_Delete ctx id) (spec_Delete id).
Proof.
  intros w. unfold sqlite_Delete. db_run.
  all: (split; [solve_db_step|]); same_table.
  match goal with Hs : querySQLiteDelete _ _ = Ok _ |- _ => injection Hs as <- end.
  table_is (delete id (w_table w)). unfold spec_Delete. by rewrite store_view_delete.
Qed.

Lemma sqlite_Get_refines ctx id :
  refines (store_view cipher) (sqlite_Get cipher ctx id) (spec_Get id).
Proof.
  intros w. eapply twp_mono; [apply twp_sqlite_Get|].
  intros r w' (? & -> & ? & _). done.
Qed.

Lemma sqlite_Update_refines ctx id d :
  refines (store_view cipher) (sqlite_Update cipher ctx id d) (spec_Update id d).
Proof using Hc.
  intros w. unfold sqlite_Update. db_run.
  eapply twp_mono; [apply twp_sqlite_Get|]. intros [old [err|]] w'1 (? & ? & [_ Hget] & _); simpl in Hget.
  all: db_run.
  all: (split; [solve_db_step|]); same_table.
  match goal with Hs : querySQLiteUpdate _ _ (w_table ?wx) = Ok _ |- _ =>
    apply sql_update_Ok in Hs as [-> _];
      [|apply (store_view_dom cipher); exists old; congruence] end.
  table_is (<[id := row_of enc]> (w_table w)).
  apply (spec_Update_insert _ _ old); [congruence| |auto].
  by apply negb_false_iff, String.eqb_eq in Heqb.
Qed.

Lemma sqlite_Purge_refines ctx :
  refines (store_view cipher) (sqlite_Purge ctx) spec_Purge.
Proof.
  intros w. unfold sqlite_Purge, time_Now. db_run.
  all: (split; [solve_db_step|]); try done.
  match goal with Hs : querySQLitePurge _ _ = Ok _ |- _ => injection Hs as <- end.
  eexists. simpl. apply store_view_purge.
Qed.

#[export] Instance sqlite_store : SessionStore (sqlite_impl cipher) (store_view cipher) sqlite_no_rows.
Proof using Hc.
  split; simpl.
  - intros. eapply refines_mono; [by apply unless_lost_spec|apply sqlite_Add_refines].
  - intros. eapply refines_mono; [by apply unless_lost_spec|apply sqlite_Delete_refines].
  - apply sqlite_Get_refines.
  - intros. eapply refines_mono; [by apply unless_lost_spec|apply sqlite_Update_refines].
  - intros. eapply refines_mono; [by apply unless_lost_spec|apply sqlite_Purge_refines].
  - intros ctx id w. destruct (twp_sqlite_Get ctx id w) as (r & _ & _ & Ht & _). exact Ht.
  - apply sqlite_Add_fresh.
  - intros ctx id d w Hup Hv. eapply twp_mono; [apply twp_sqlite_Get|].
    intros r w' Hp. by eapply get_post_found.
  - intros ctx id w Hup Hv. eapply twp_mono; [apply twp_sqlite_Get|].
    intros r w' Hp. by eapply get_post_missing.
  - apply store_view_dom.
Qed.

#[export] Instance sqlite_lossy_store :
  LossyStore (sqlite_impl cipher) (store_view cipher) sqlite_no_rows.
Proof using Hc. eapply store_under_mono, sqlite_store. done. Qed.
End SqliteStore.
