(* ===== verification/Postgresql.v ===== *)
(** * database/postgresql.go *)

From stdpp Require Import base gmap strings list option numbers.
From Stdlib Require Import ZArith Lia Ascii String.
From S2P Require Import Prelude GoBase Encoding World Telemetry Database.

#[local] Open Scope Z_scope.

(** ** The statements

    [expires_at] is a 32-bit [integer] column and [session_id] a [varchar(36)], and a
    text is valid UTF-8 without the character 0: an argument that does not fit makes
    the statement fail before it touches the table. *)
Definition int4_ok (z : Z) : bool := (-2147483648 <=? z) && (z <=? 2147483647).

(** [utf8_from k lo hi s]: [s] goes on with [k] continuation bytes, the first of them
    between [lo] and [hi]. *)
Fixpoint utf8_from (k : nat) (lo hi : N) (s : string) : bool :=
  match s with
  | EmptyString => Nat.eqb k 0
  | String c s =>
      let n := N_of_ascii c in
      match k with
      | S k => ((lo <=? n) && (n <=? hi))%N && utf8_from k 128 191 s
      | O =>
          if ((1 <=? n) && (n <=? 127))%N then utf8_from 0 128 191 s
          else if ((194 <=? n) && (n <=? 223))%N then utf8_from 1 128 191 s
          else if (n =? 224)%N then utf8_from 2 160 191 s
          else if (n =? 237)%N then utf8_from 2 128 159 s
          else if ((225 <=? n) && (n <=? 239))%N then utf8_from 2 128 191 s
          else if (n =? 240)%N then utf8_from 3 144 191 s
          else if ((241 <=? n) && (n <=? 243))%N then utf8_from 3 128 191 s
          else if (n =? 244)%N then utf8_from 3 128 143 s
          else false
      end
  end.

Definition text_ok (s : string) : bool := utf8_from 0 128 191 s.

(** The texts of a row. *)
Definition row_text_ok (r : Row) : bool :=
  text_ok (row_subject r) && text_ok (row_access_token r)
  && text_ok (row_refresh_token r) && text_ok (row_id_token r).

Definition queryPostgresqlDelete (id : string) (t : gmap string Row)
    : result error (gmap string Row) :=
  if negb (text_ok id) then Err ErrInvalidText else sql_delete id t.

Definition queryPostgresqlInsert (id : string) (r : Row) (t : gmap string Row)
    : result error (gmap string Row) :=
  if negb (int4_ok (row_expires_at r)) then Err ErrOutOfRange
  else if negb (text_ok id && row_text_ok r) then Err ErrInvalidText
  else if negb (Nat.leb (String.length id) 36) then Err ErrStringTooLong
  else sql_insert id r t.

(** What the server reports for an id without a row. *)
Definition pgx_no_rows (id : string) : error :=
  if text_ok id then pgx_ErrNoRows else ErrInvalidText.

(** No row has an id that is not a text. *)
Definition queryPostgresqlSelect (id : string) (t : gmap string Row) : result error Row :=
  match t !! id with
  | Some r => Ok r
  | None => Err (pgx_no_rows id)
  end.

Definition queryPostgresqlUpdate (r : Row) (id : string) (t : gmap string Row)
    : result error (gmap string Row) :=
  if negb (int4_ok (row_expires_at r)) then Err ErrOutOfRange
  else if negb (text_ok id && row_text_ok r) then Err ErrInvalidText
  else sql_update id r t.

Definition queryPostgresqlPurge (now : Z) (t : gmap string Row)
    : result error (gmap string Row) :=
  if negb (int4_ok now) then Err ErrOutOfRange
  else sql_purge now t.

Section Postgresql.
Context `{!Clock} `{!Uuid} `{!SqlDriver}.

(** The [cipher] field of the [postgresql] struct; its [conn] field is the table
    and the connection of the world. *)
Variable cipher : option HexCipher.

Definition postgresql_CloseConnection (ctx : Context) : IO (option error) := pgx_Close ctx.

Definition postgresql_Add (ctx : Context) (s : SessionData) : IO (string * option error) :=
  with_optional_span ctx "session.postgresql: INSERT" (λ span,
    id ← interact uuid_New;
    _ ← set_attributes span [("db.table", AttrString "sessions"); ("db.table.id", AttrString id);
          ("db.table.subject", AttrString (Subject s));
          ("db.table.expires_at", AttrTime (ExpiresAt s))];
    '(enc, err) ← encryptArgs cipher s;
    match err with
    | Some err =>
        _ ← set_error_status span "session.postgresql: INSERT -> encryptArgs" err;
        mret ("", Some err)
    | None =>
        err ← pgx_Exec ctx (queryPostgresqlInsert id (row_of enc));
        match err with
        | Some err =>
            _ ← set_error_status span "session.postgresql: INSERT -> db.conn.Exec" err;
            mret ("", Some err)
        | None => mret (id, None)
        end
    end).

Definition postgresql_Delete (ctx : Context) (id : string) : IO (option error) :=
  with_optional_span ctx "session.postgresql: INSERT" (λ span,
    _ ← set_attributes span [("db.table", AttrString "sessions"); ("db.table.id", AttrString id)];
    err ← pgx_Exec ctx (queryPostgresqlDelete id);
    match err with
    | Some err =>
        _ ← set_error_status span "session.postgresql: DELETE -> db.conn.Exec" err;
        mret (Some err)
    | None => mret None
    end).

Definition postgresql_Get (ctx : Context) (id : string) : IO (SessionData * option error) :=
  with_optional_span ctx "session.postgresql: INSERT" (λ span,
    _ ← set_attributes span [("db.table", AttrString "sessions"); ("db.table.id", AttrString id)];
    row ← pgx_QueryRow ctx (queryPostgresqlSelect id);
    match row with
    | Err err =>
        _ ← set_error_status span "session.postgresql: INSERT -> db.conn.QueryRow" err;
        mret (SessionData_zero, Some err)
    | Ok row => mret (decryptArgs cipher (data_of row))
    end).

Definition postgresql_Update (ctx : Context) (id : string) (s : SessionData)
    : IO (option error) :=
  with_optional_span ctx "session.postgresql: INSERT" (λ span,
    _ ← set_attributes span [("db.table", AttrString "sessions"); ("db.table.id", AttrString id);
          ("db.table.subject", AttrString (Subject s));
          ("db.table.expires_at", AttrTime (ExpiresAt s))];
    '(oldSession, err) ← postgresql_Get ctx id;
    match err with
    | Some err =>
        _ ← set_error_status span "session.postgresql: UPDATE -> Get" err;
        mret (Some err)
    | None =>
        if negb (String.eqb (Subject s) (Subject oldSession)) then
          _ ← (match span with
               | Some sp => Span_SetStatus sp "session.postgresql: subject mismatch"
               | None => mret tt
               end);
          mret (Some ErrSessionsMismatch)
        else
          '(enc, err) ← encryptArgs cipher s;
          match err with
          | Some err =>
              _ ← set_error_status span "session.postgresql: UPDATE -> encryptArgs" err;
              mret (Some err)
          | None =>
              err ← pgx_Exec ctx (queryPostgresqlUpdate (row_of enc) id);
              match err with
              | Some err =>
                  _ ← set_error_status span "session.postgresql: UPDATE -> db.conn.Exec" err;
                  mret (Some err)
              | None => mret None
              end
          end
    end).

Definition postgresql_Purge (ctx : Context) : IO (option error) :=
  now ← time_Now;
  pgx_Exec ctx (queryPostgresqlPurge (Time_Unix now)).

Definition postgresql_impl : SessionImpl :=
  mkSessionImpl postgresql_CloseConnection postgresql_Add postgresql_Delete postgresql_Get
                postgresql_Update postgresql_Purge.
End Postgresql.

(** ** Arguments that fit *)

Lemma queryPostgresqlInsert_Ok id r t t' :
  queryPostgresqlInsert id r t = Ok t' →
  t !! id = None ∧ t' = <[id := r]> t ∧ row_checks r = true ∧ int4_ok (row_expires_at r) = true.
Proof.
  unfold queryPostgresqlInsert. destruct (int4_ok _); [|done]. destruct (_ && _); [|done].
  destruct (Nat.leb _ _); [|done]. by intros (?&?&?)%sql_insert_Ok.
Qed.

Lemma queryPostgresqlUpdate_Ok r id t t' :
  is_Some (t !! id) → queryPostgresqlUpdate r id t = Ok t' →
  t' = <[id := r]> t ∧ row_checks r = true.
Proof.
  intros Hs. unfold queryPostgresqlUpdate. destruct (int4_ok _); [|done].
  destruct (_ && _); [|done]. by apply sql_update_Ok.
Qed.

Lemma queryPostgresqlDelete_Ok id t t' :
  queryPostgresqlDelete id t = Ok t' → t' = delete id t ∧ text_ok id = true.
Proof.
  unfold queryPostgresqlDelete. destruct (text_ok id); [|done]. intros H. by injection H as <-.
Qed.

Lemma queryPostgresqlPurge_Ok now t t' :
  queryPostgresqlPurge now t = Ok t' →
  t' = filter (λ kr : string * Row, ¬ (row_expires_at kr.2 < now)) t ∧ int4_ok now = true.
Proof.
  unfold queryPostgresqlPurge. destruct (int4_ok _); [|done]. intros H. by injection H as <-.
Qed.

(** ** The postgresql backend implements the store *)

Section PostgresqlStore.
Context `{!Clock} `{!Uuid} `{!SqlDriver}.
Context (cipher : option HexCipher) (Hc : cipher_ok cipher).

Abbreviation lossy := (unless_lost answers_get_lost).

(** A statement that ran has the effect of the operation, whatever is reported. *)
Lemma lossy_done {A} (failed : A → Prop) spec s a a0 s' (err : option error) :
  spec s a0 s' → (err ≠ None → answers_get_lost) → (err = None → a = a0) →
  (err ≠ None → failed a) → lossy failed spec s a s'.
Proof.
  intros Hs Hl Hn Hf. destruct err as [e|]; [right|left; by rewrite Hn].
  split; [by apply Hl|]. split; [by apply Hf|]. by exists a0.
Qed.

(** The table a query has read. *)
Ltac read_table :=
  match goal with
  | H : match w_table ?w' !! _ with _ => _ end = _ |- context [w_table ?w] =>
      replace (w_table w') with (w_table w) in H by (world_facts; congruence)
  end.

Lemma twp_postgresql_Get ctx id w :
  twp (postgresql_Get cipher ctx id) (get_post cipher pgx_no_rows id w) w.
Proof.
  unfold postgresql_Get, queryPostgresqlSelect. db_run.
  all: (split; [solve_db_step|]); (split; [world_facts; congruence|]).
  - split; [done|]. intros Hup.
    match goal with He : db_up _ → _ |- _ =>
      specialize (He ltac:(apply (db_up_step w); [solve_db_step|done])) end.
    read_table. destruct (w_table w !! id); by simplify_eq.
  - read_table. destruct (w_table w !! id) eqn:Hr; simplify_eq. split; [|done]. by apply spec_Get_row.
Qed.

#[local] Opaque postgresql_Get.

(** The branches that leave the table as it was. *)
Ltac nothing_happened := try (apply unless_lost_spec; same_table; done).

Lemma postgresql_Add_refines ctx d :
  refines (store_view cipher) (postgresql_Add cipher ctx d) (lossy add_failed (spec_Add d)).
Proof using Hc.
  intros w. unfold postgresql_Add. db_run.
  all: (split; [solve_db_step|]); nothing_happened.
  all: match goal with Hs : queryPostgresqlInsert _ _ _ = Ok _, Hl : ?e ≠ None → _ |- _ =>
    apply queryPostgresqlInsert_Ok in Hs as (Hn & -> & _);
    apply (lossy_done _ _ _ _ (uuid_New (w_tick w'), None) _ e); [|done..] end.
  all: world_facts; table_is (<[uuid_New (w_tick w') := row_of enc]> (w_table w)).
  all: apply spec_Add_insert; [congruence|auto].
Qed.

Lemma postgresql_Add_fresh ctx d w :
  twp (postgresql_Add cipher ctx d) (λ r w', ∀ id,
    store_view cipher (w_table w) !! id = None → is_Some (store_view cipher (w_table w') !! id) →
    ∃ n, id = uuid_New n ∧ (w_tick w ≤ n < w_tick w')%nat) w.
Proof using Hc.
  unfold postgresql_Add. db_run.
  all: match goal with Hn : store_view _ _ !! _ = None, Hs : is_Some _ |- _ =>
    try (world_facts; destruct Hs as [? Hs]; congruence) end.
  all: match goal with Hs : queryPostgresqlInsert _ _ _ = Ok _ |- _ =>
    apply queryPostgresqlInsert_Ok in Hs as (_ & -> & _) end.
  all: eapply (drawn_id cipher (w_table w) _ (w_tick w') (row_of enc)); [| |done..]; world_facts;
    [congruence|lia].
Qed.

Lemma postgresql_Delete_refines ctx id :
  refines (store_view cipher) (postgresql_Delete ctx id) (lossy call_failed (spec_Delete id)).
Proof.
  intros w. unfold postgresql_Delete. db_run.
  all: (split; [solve_db_step|]); nothing_happened.
  all: match goal with Hs : queryPostgresqlDelete _ _ = Ok _, Hl : ?e ≠ None → _ |- _ =>
    apply queryPostgresqlDelete_Ok in Hs as [-> _];
    apply (lossy_done _ _ _ _ None _ e); [|done..] end.
  all: world_facts; table_is (delete id (w_table w)); unfold spec_Delete; by rewrite store_view_delete.
Qed.

Lemma postgresql_Get_refines ctx id :
  refines (store_view cipher) (postgresql_Get cipher ctx id) (spec_Get id).
Proof.
  intros w. eapply twp_mono; [apply twp_postgresql_Get|].
  intros r w' (? & -> & ? & _). done.
Qed.

Lemma postgresql_Update_refines ctx id d :
  refines (store_view cipher) (postgresql_Update cipher ctx id d)
    (lossy call_failed (spec_Update id d)).
Proof using Hc.
  intros w. unfold postgresql_Update. db_run.
  eapply twp_mono; [apply twp_postgresql_Get|]. intros [old [err|]] w'1 (? & ? & [_ Hget] & _); simpl in Hget.
  all: db_run.
  all: (split; [solve_db_step|]); nothing_happened.
  all: match goal with Hs : queryPostgresqlUpdate _ _ (w_table ?wx) = Ok _, Hl : ?e ≠ None → _ |- _ =>
    apply queryPostgresqlUpdate_Ok in Hs as [-> _];
      [|apply (store_view_dom cipher); exists old; congruence];
    apply (lossy_done _ _ _ _ None _ e); [|done..] end.
  all: world_facts; table_is (<[id := row_of enc]> (w_table w)).
  all: apply (spec_Update_insert _ _ old); [congruence| |auto].
  all: by apply negb_false_iff, String.eqb_eq in Heqb.
Qed.

Lemma postgresql_Purge_refines ctx :
  refines (store_view cipher) (postgresql_Purge ctx) (lossy call_failed spec_Purge).
Proof.
  intros w. unfold postgresql_Purge, time_Now. db_run.
  all: (split; [solve_db_step|]); nothing_happened.
  match goal with Hs : queryPostgresqlPurge _ _ = Ok _, Hl : ?e ≠ None → _ |- _ =>
    apply queryPostgresqlPurge_Ok in Hs as [-> _]; apply (lossy_done _ _ _ _ None _ e) end;
    [|done| |done].
  - eexists. simpl. apply store_view_purge.
  - done.
Qed.

(** An error leaves a doubt when the answer may be lost, and only then. *)
#[export] Instance postgresql_store :
  StoreUnder answers_get_lost (postgresql_impl cipher) (store_view cipher) pgx_no_rows.
Proof using Hc.
  split; simpl.
  - apply postgresql_Add_refines.
  - apply postgresql_Delete_refines.
  - apply postgresql_Get_refines.
  - apply postgresql_Update_refines.
  - apply postgresql_Purge_refines.
  - intros ctx id w. destruct (twp_postgresql_Get ctx id w) as (r & _ & _ & Ht & _). exact Ht.
  - apply postgresql_Add_fresh.
  - intros ctx id d w Hup Hv. eapply twp_mono; [apply twp_postgresql_Get|].
    intros r w' Hp. by eapply get_post_found.
  - intros ctx id w Hup Hv. eapply twp_mono; [apply twp_postgresql_Get|].
    intros r w' Hp. by eapply get_post_missing.
  - apply store_view_dom.
Qed.

#[export] Instance postgresql_lossy_store :
  LossyStore (postgresql_impl cipher) (store_view cipher) pgx_no_rows.
Proof using Hc. eapply store_under_mono, postgresql_store. done. Qed.
End PostgresqlStore.
