(* ===== verification/Backends.v ===== *)
(** * The two backends side by side

    Two computations agree when, from worlds that differ by their trace only, they
    end the same way, with related values and such worlds again.  The rules below
    walk through two methods at once; the spans they open and the texts they put on
    them may differ. *)

From stdpp Require Import base gmap strings list option numbers.
From Stdlib Require Import ZArith Lia.
From S2P Require Import Prelude GoBase Encoding World Telemetry Database Sqlite Postgresql.

#[local] Open Scope Z_scope.

Definition outcome_rel {A B : Type} (R : A → B → Prop) (o1 : outcome A) (o2 : outcome B) : Prop :=
  match o1, o2 with
  | Ret a, Ret b => R a b
  | Panic e1, Panic e2 => e1 = e2
  | _, _ => False
  end.

Definition agree {A B : Type} (R : A → B → Prop) (m1 : IO A) (m2 : IO B) : Prop :=
  ∀ w1 w2, w1 ≡ w2 → outcome_rel R (m1 w1).1 (m2 w2).1 ∧ (m1 w1).2 ≡ (m2 w2).2.

Create HintDb agree.

#[export] Instance set_tick_proper f : Proper ((≡) ==> (≡)) (set_tick f).
Proof.
  intros w1 w2 Hw. apply World_equiv_fields in Hw as (? & ? & ? & ? & ? & ? & ?).
  apply World_equiv_fields. simpl. split_and!; congruence.
Qed.

#[export] Instance set_table_proper t : Proper ((≡) ==> (≡)) (set_table t).
Proof.
  intros w1 w2 Hw. apply World_equiv_fields in Hw as (? & ? & ? & ? & ? & ? & ?).
  apply World_equiv_fields. simpl. split_and!; congruence.
Qed.

Section Agree.
Lemma agree_ret {A B} (R : A → B → Prop) a b : R a b → agree R (mret a) (mret b).
Proof. intros HR w1 w2 Hw. by split. Qed.

Lemma agree_bind {A B C D} (R : A → B → Prop) (S : C → D → Prop) m1 m2 k1 k2 :
  agree R m1 m2 → (∀ a b, R a b → agree S (k1 a) (k2 b)) → agree S (m1 ≫= k1) (m2 ≫= k2).
Proof.
  intros Hm Hk w1 w2 Hw. rewrite !run_bind. destruct (Hm w1 w2 Hw) as [Ho Hw'].
  destruct (m1 w1) as [[a|e] w1'], (m2 w2) as [[b|e'] w2']; simpl in *; try done.
  by apply Hk.
Qed.

Lemma agree_interact {A} (f : nat → A) : agree eq (interact f) (interact f).
Proof. intros w1 w2 Hw. split; [simpl; by rewrite Hw|]. simpl. by rewrite Hw. Qed.

(** A span that may be started runs its body in a world with the same trace-free part. *)
Lemma run_with_optional_span {A} ctx n (b : option Span → IO A) w :
  ∃ s w', w' ≡ w ∧ (with_optional_span ctx n b w).1 = (b s w').1 ∧
          (with_optional_span ctx n b w).2 ≡ (b s w').2.
Proof.
  unfold with_optional_span, NewSpanFromContext. rewrite run_bind.
  destruct (ctx_Value ctx opentelemetry_ctxKey) as [[]|];
    try (exists None, w; by repeat split).
  set (s := mkSpan (length (w_trace w)) n).
  exists (Some s), (add_trace (SpanStart s) w). split; [apply add_trace_equiv|].
  change ((defer (Span_End s) (b (Some s)) (add_trace (SpanStart s) w)).1
            = (b (Some s) (add_trace (SpanStart s) w)).1 ∧
          (defer (Span_End s) (b (Some s)) (add_trace (SpanStart s) w)).2
            ≡ (b (Some s) (add_trace (SpanStart s) w)).2).
  unfold defer. destruct (b (Some s) _) as [o w']. split; [done|]. apply add_trace_equiv.
Qed.

Lemma agree_optional_span {A B} (R : A → B → Prop) c1 c2 n1 n2 b1 b2 :
  (∀ s1 s2, agree R (b1 s1) (b2 s2)) →
  agree R (with_optional_span c1 n1 b1) (with_optional_span c2 n2 b2).
Proof.
  intros Hb w1 w2 Hw.
  destruct (run_with_optional_span c1 n1 b1 w1) as (s1 & w1' & Hw1 & -> & ->).
  destruct (run_with_optional_span c2 n2 b2 w2) as (s2 & w2' & Hw2 & -> & ->).
  apply Hb. by rewrite Hw1, Hw2.
Qed.

Lemma agree_tracing m1 m2 :
  (∀ w, (m1 w).1 = Ret tt ∧ (m1 w).2 ≡ w) → (∀ w, (m2 w).1 = Ret tt ∧ (m2 w).2 ≡ w) →
  agree eq m1 m2.
Proof.
  intros H1 H2 w1 w2 Hw. destruct (H1 w1) as [-> ->], (H2 w2) as [-> ->]. by split.
Qed.

Lemma run_set_attributes s a w : (set_attributes s a w).1 = Ret tt ∧ (set_attributes s a w).2 ≡ w.
Proof. by destruct s. Qed.

Lemma run_set_error_status s d e w :
  (set_error_status s d e w).1 = Ret tt ∧ (set_error_status s d e w).2 ≡ w.
Proof. by destruct s. Qed.

Lemma run_mismatch_status s d w :
  ((match s with Some sp => Span_SetStatus sp d | None => mret tt end : IO unit) w).1 = Ret tt ∧
  ((match s with Some sp => Span_SetStatus sp d | None => mret tt end : IO unit) w).2 ≡ w.
Proof. by destruct s. Qed.
End Agree.

#[export] Hint Resolve run_set_attributes run_set_error_status run_mismatch_status : agree.

Section Sql.
Context `{!SqlDriver}.

(** Neither driver disturbs a statement, called with [ctx] on postgresql. *)
Definition undisturbed (ctx : Context) : Prop :=
  ∀ n, sql_failure n = None ∧ pgx_fate ctx n = Answered.

(** The errors for a missing row and for a closed connection are the ones of the
    library; any other is the same. *)
Definition same_error (e1 e2 : error) : Prop :=
  e1 = e2 ∨ (e1 = sql_ErrNoRows ∧ e2 = pgx_ErrNoRows) ∨ (e1 = ErrConnClosed ∧ e2 = pgx_ErrConnClosed).

Definition same_errors (e1 e2 : option error) : Prop :=
  match e1, e2 with
  | None, None => True
  | Some e1, Some e2 => same_error e1 e2
  | _, _ => False
  end.

Definition same_result {A : Type} (r1 r2 : A * option error) : Prop :=
  r1.1 = r2.1 ∧ same_errors r1.2 r2.2.

Lemma same_error_refl e : same_error e e.
Proof. by left. Qed.

Lemma same_errors_refl e : same_errors e e.
Proof. destruct e; [by left|done]. Qed.

Lemma agree_Exec ctx s1 s2 :
  undisturbed ctx → (∀ t, s1 t = s2 t) → agree same_errors (db_Exec s1) (pgx_Exec ctx s2).
Proof.
  intros Hc Hs w1 w2 Hw. pose proof (set_tick_proper S _ _ Hw) as Hw'.
  unfold db_Exec, pgx_Exec. rewrite !run_bind. cbn [interact]. rewrite (w_tick_proper _ _ Hw).
  destruct (Hc (w_tick w2)) as [-> ->].
  rewrite !run_bind. cbn [gets w_open set_tick]. rewrite (w_open_proper _ _ Hw).
  destruct (w_open w2); [|split; [by right; right|done]].
  rewrite !run_bind. cbn [gets w_table set_tick]. rewrite (w_table_proper _ _ Hw), Hs.
  destruct (s2 (w_table w2)); [|split; [by left|done]]. split; [done|]. simpl. by rewrite Hw'.
Qed.

Definition same_row (r1 r2 : result error Row) : Prop :=
  match r1, r2 with
  | Ok a, Ok b => a = b
  | Err e1, Err e2 => same_error e1 e2
  | _, _ => False
  end.

Lemma agree_QueryRow ctx id :
  undisturbed ctx → text_ok id = true →
  agree same_row (db_QueryRow sql_ErrNoRows (querySQLiteSelect id))
                 (pgx_QueryRow ctx (queryPostgresqlSelect id)).
Proof.
  intros Hc Hid w1 w2 Hw. pose proof (set_tick_proper S _ _ Hw) as Hw'.
  unfold db_QueryRow, pgx_QueryRow. rewrite !run_bind. cbn [interact].
  rewrite (w_tick_proper _ _ Hw). destruct (Hc (w_tick w2)) as [-> ->].
  rewrite !run_bind. cbn [gets w_open set_tick]. rewrite (w_open_proper _ _ Hw).
  destruct (w_open w2); [|split; [by right; right|done]].
  rewrite !run_bind. cbn [gets w_table set_tick]. rewrite (w_table_proper _ _ Hw).
  unfold querySQLiteSelect, queryPostgresqlSelect, pgx_no_rows. rewrite Hid.
  destruct (w_table w2 !! id); split; [done|done|by right; left|done].
Qed.
End Sql.

(** ** Records that both can store *)

(** What encryption makes of a record, whatever it draws. *)
Definition encryption_of (cipher : option HexCipher) (s enc : SessionData) : Prop :=
  Subject enc = Subject s ∧ ExpiresAt enc = ExpiresAt s ∧
  match cipher with
  | None => enc = s
  | Some c => ∃ n1 n2 n3,
      EncryptToHexString c n1 (AccessToken s) = Ok (AccessToken enc) ∧
      EncryptToHexString c n2 (RefreshToken s) = Ok (RefreshToken enc) ∧
      EncryptToHexString c n3 (IDToken s) = Ok (IDToken enc)
  end.

(** The id and the texts of the row fit in the columns of postgresql, and so does the
    expiration. *)
Definition storable (cipher : option HexCipher) (s : SessionData) : Prop :=
  ∀ enc, encryption_of cipher s enc →
    row_text_ok (row_of enc) = true ∧ int4_ok (row_expires_at (row_of enc)) = true.

Lemma agree_encryptArgs cipher s :
  agree (λ a b, a = b ∧ (a.2 = None → encryption_of cipher s a.1))
    (encryptArgs cipher s) (encryptArgs cipher s).
Proof.
  unfold encryptArgs, encryption_of. destruct cipher as [c|]; [|by apply agree_ret].
  assert (Hdraw : ∀ x, agree (λ a b, a = b ∧ ∃ n, EncryptToHexString c n x = a)
            (interact (λ n, EncryptToHexString c n x)) (interact (λ n, EncryptToHexString c n x))).
  { intros x w1 w2 Hw. destruct (agree_interact (λ n, EncryptToHexString c n x) w1 w2 Hw) as [Ho Hw'].
    split; [|done]. split; [done|]. by exists (w_tick w1). }
  eapply agree_bind; [apply Hdraw|]. intros a ? [<- [n1 Ha]].
  destruct a; [|by apply agree_ret].
  eapply agree_bind; [apply Hdraw|]. intros b ? [<- [n2 Hb]].
  destruct b; [|by apply agree_ret].
  eapply agree_bind; [apply Hdraw|]. intros i ? [<- [n3 Hi]].
  destruct i; apply agree_ret; [|done]. split; [done|]. intros _. simpl. split; [done|].
  split; [done|]. by exists n1, n2, n3.
Qed.

(** ** The methods *)

Section Methods.
Context `{!Clock} `{!Uuid} `{!SqlDriver}.
Context (cipher : option HexCipher).
(** The text of a UUID has 36 characters of ASCII. *)
Context (uuid_text : ∀ n, (String.length (uuid_New n) ≤ 36)%nat ∧ text_ok (uuid_New n) = true).

Lemma insert_fits id r t :
  int4_ok (row_expires_at r) = true → row_text_ok r = true →
  (String.length id ≤ 36)%nat → text_ok id = true →
  querySQLiteInsert id r t = queryPostgresqlInsert id r t.
Proof.
  intros Hr Ht Hid%Nat.leb_le Hi. unfold queryPostgresqlInsert. by rewrite Hr, Ht, Hi, Hid.
Qed.

Lemma update_fits id r t :
  int4_ok (row_expires_at r) = true → row_text_ok r = true → text_ok id = true →
  querySQLiteUpdate r id t = queryPostgresqlUpdate r id t.
Proof. intros Hr Ht Hi. unfold queryPostgresqlUpdate. by rewrite Hr, Ht, Hi. Qed.

Lemma agree_error_status {A} (r1 r2 : A) s1 s2 d1 d2 e1 e2 (R : A → A → Prop) :
  R r1 r2 →
  agree R (_ ← set_error_status s1 d1 e1; mret r1) (_ ← set_error_status s2 d2 e2; mret r2).
Proof.
  intros HR. eapply agree_bind; [apply agree_tracing; auto with agree|]. intros _ _ _.
  by apply agree_ret.
Qed.

Lemma Add_agree ctx s :
  undisturbed ctx → storable cipher s →
  agree same_result (sqlite_Add cipher ctx s) (postgresql_Add cipher ctx s).
Proof using uuid_text.
  intros Hc Hs. apply agree_optional_span. intros s1 s2.
  eapply (agree_bind (λ a b, a = b ∧ (String.length a ≤ 36)%nat ∧ text_ok a = true)).
  { intros w1 w2 Hw. destruct (agree_interact uuid_New w1 w2 Hw) as [Ho Hw'].
    split; [|done]. simpl in *. split; [done|]. apply uuid_text. }
  intros id ? (<- & Hlen & Hid). eapply agree_bind; [apply agree_tracing; auto with agree|]. intros _ _ _.
  eapply agree_bind; [apply agree_encryptArgs|]. intros [enc [e|]] ? [<- He].
  { apply agree_error_status. split; [done|apply same_errors_refl]. }
  simpl in He. destruct (Hs enc (He eq_refl)) as [Ht Hr].
  eapply agree_bind.
  { apply (agree_Exec ctx); [done|]. intros t. by apply insert_fits. }
  intros [e1|] [e2|] Hee; simpl in Hee; try done;
    first [by apply agree_error_status|by apply agree_ret].
Qed.

Lemma Delete_agree ctx id :
  undisturbed ctx → text_ok id = true →
  agree same_errors (sqlite_Delete ctx id) (postgresql_Delete ctx id).
Proof.
  intros Hc Hid. apply agree_optional_span. intros s1 s2.
  eapply agree_bind; [apply agree_tracing; auto with agree|]. intros _ _ _.
  eapply agree_bind.
  { apply agree_Exec; [done|]. intros t. unfold queryPostgresqlDelete. by rewrite Hid. }
  intros [e1|] [e2|] Hee; simpl in Hee; try done;
    first [by apply agree_error_status|by apply agree_ret].
Qed.

Lemma Get_agree ctx1 ctx2 id :
  undisturbed ctx2 → text_ok id = true →
  agree same_result (sqlite_Get cipher ctx1 id) (postgresql_Get cipher ctx2 id).
Proof.
  intros Hc Hid. apply agree_optional_span. intros s1 s2.
  eapply agree_bind; [apply agree_tracing; auto with agree|]. intros _ _ _.
  eapply agree_bind; [by apply agree_QueryRow|].
  intros [row|e1] [row'|e2] Hr; simpl in Hr; try done.
  - subst row'. apply agree_ret. split; [done|apply same_errors_refl].
  - by apply agree_error_status.
Qed.

Lemma Update_agree ctx id s :
  undisturbed ctx → text_ok id = true → storable cipher s →
  agree same_errors (sqlite_Update cipher ctx id s) (postgresql_Update cipher ctx id s).
Proof.
  intros Hc Hid Hs. apply agree_optional_span. intros s1 s2.
  eapply agree_bind; [apply agree_tracing; auto with agree|]. intros _ _ _.
  eapply agree_bind; [by apply Get_agree|].
  intros [old [e1|]] [old' [e2|]] [Ho He]; simpl in Ho, He; try done; subst old'.
  { by apply agree_error_status. }
  destruct (negb (String.eqb (Subject s) (Subject old))).
  { eapply agree_bind; [apply agree_tracing; auto with agree|]. intros _ _ _.
    apply agree_ret. by left. }
  eapply agree_bind; [apply agree_encryptArgs|]. intros [enc [e|]] ? [<- He'].
  { apply agree_error_status. by left. }
  simpl in He'. destruct (Hs enc (He' eq_refl)) as [Ht Hr].
  eapply agree_bind.
  { apply (agree_Exec ctx); [done|]. intros t. by apply update_fits. }
  intros [e1|] [e2|] Hee; simpl in Hee; try done;
    first [by apply agree_error_status|by apply agree_ret].
Qed.

Lemma Purge_agree ctx :
  undisturbed ctx → (∀ n, int4_ok (Time_Unix (clock_now n)) = true) →
  agree same_errors (sqlite_Purge ctx) (postgresql_Purge ctx).
Proof.
  intros Hu Hc. eapply (agree_bind (λ a b, a = b ∧ int4_ok (Time_Unix a) = true)).
  { intros w1 w2 Hw. destruct (agree_interact clock_now w1 w2 Hw) as [Ho Hw'].
    split; [|done]. simpl in *. split; [done|]. apply Hc. }
  intros now ? [<- Hn]. apply agree_Exec; [done|]. intros t.
  unfold queryPostgresqlPurge. by rewrite Hn.
Qed.
End Methods.

(** ** A request that was cancelled *)

Section Cancelled.
Context `{!Clock} `{!Uuid} `{!SqlDriver} (cipher : option HexCipher).

(** The context is done, and stays so. *)
Definition done_context (ctx : Context) : Prop := ∀ n, is_Some (ctx_Err n ctx).

(** A call that fails and leaves the table as it was. *)
Definition refused {A : Type} (failed : A → Prop) (m : IO A) : Prop :=
  ∀ w, twp m (λ a w', failed a ∧ w_table w' = w_table w) w.

Lemma twp_pgx_Exec_done ctx stmt (Q : option error → World → Prop) w :
  done_context ctx → (∀ e, Q (Some e) (set_tick S w)) → twp (pgx_Exec ctx stmt) Q w.
Proof.
  intros Hd HQ. apply twp_bind, twp_interact. unfold pgx_fate.
  destruct (Hd (w_tick w)) as [e ->]. by apply twp_ret.
Qed.

Lemma twp_pgx_QueryRow_done ctx q (Q : result error Row → World → Prop) w :
  done_context ctx → (∀ e, Q (Err e) (set_tick S w)) → twp (pgx_QueryRow ctx q) Q w.
Proof.
  intros Hd HQ. apply twp_bind, twp_interact. unfold pgx_fate.
  destruct (Hd (w_tick w)) as [e ->]. by apply twp_ret.
Qed.

(** Encryption does not touch the table. *)
Lemma twp_encryptArgs_table s (Q : SessionData * option error → World → Prop) w :
  (∀ a w', w_table w' = w_table w → Q a w') → twp (encryptArgs cipher s) Q w.
Proof.
  intros HQ. unfold encryptArgs. destruct cipher as [c|]; [|by apply twp_ret, HQ].
  repeat (apply twp_bind, twp_interact; destruct (EncryptToHexString _ _ _);
          [|by apply twp_ret, HQ]). by apply twp_ret, HQ.
Qed.

Ltac run_done :=
  repeat first
    [ match goal with |- ∀ _, _ => intro | |- _ → _ => intro end
    | apply twp_with_optional_span | apply twp_bind | apply twp_ret | apply twp_set_attributes
    | apply twp_set_error_status | apply twp_encryptArgs_table
    | apply twp_pgx_Exec_done; [done|] | apply twp_pgx_QueryRow_done; [done|]
    | apply twp_interact
    | match goal with |- twp (match ?x with _ => _ end) _ _ => destruct x eqn:? end ];
  (split; [done|]); world_facts; congruence.

Lemma Add_refused ctx s : done_context ctx → refused add_failed (postgresql_Add cipher ctx s).
Proof. intros Hd w. unfold postgresql_Add. run_done. Qed.

Lemma Delete_refused ctx id : done_context ctx → refused call_failed (postgresql_Delete ctx id).
Proof. intros Hd w. unfold postgresql_Delete. run_done. Qed.

Lemma Get_refused ctx id :
  done_context ctx → refused (λ r, r.2 ≠ None) (postgresql_Get cipher ctx id).
Proof. intros Hd w. unfold postgresql_Get. run_done. Qed.

Lemma Update_refused ctx id s :
  done_context ctx → refused call_failed (postgresql_Update cipher ctx id s).
Proof. intros Hd w. unfold postgresql_Update, postgresql_Get. run_done. Qed.

Lemma Purge_refused ctx : done_context ctx → refused call_failed (postgresql_Purge ctx).
Proof. intros Hd w. unfold postgresql_Purge, time_Now. run_done. Qed.

(** *** The sqlite backend does not look at the context, but for its tracer *)

Lemma agree_db_Exec stmt : agree eq (db_Exec stmt) (db_Exec stmt).
Proof.
  intros w1 w2 Hw. pose proof (set_tick_proper S _ _ Hw) as Hw'.
  unfold db_Exec. rewrite !run_bind. cbn [interact]. rewrite (w_tick_proper _ _ Hw).
  destruct (sql_failure (w_tick w2)); [by split|].
  rewrite !run_bind. cbn [gets w_open set_tick]. rewrite (w_open_proper _ _ Hw).
  destruct (w_open w2); [|by split].
  rewrite !run_bind. cbn [gets w_table set_tick]. rewrite (w_table_proper _ _ Hw).
  destruct (stmt (w_table w2)); [|by split]. split; [done|]. simpl. by rewrite Hw'.
Qed.

Lemma agree_db_QueryRow e q : agree eq (db_QueryRow e q) (db_QueryRow e q).
Proof.
  intros w1 w2 Hw. pose proof (set_tick_proper S _ _ Hw) as Hw'.
  unfold db_QueryRow. rewrite !run_bind. cbn [interact]. rewrite (w_tick_proper _ _ Hw).
  destruct (sql_failure (w_tick w2)); [by split|].
  rewrite !run_bind. cbn [gets w_open set_tick]. rewrite (w_open_proper _ _ Hw).
  destruct (w_open w2); [|by split].
  rewrite !run_bind. cbn [gets w_table set_tick]. rewrite (w_table_proper _ _ Hw).
  by destruct (q (w_table w2)).
Qed.

Lemma agree_encryptArgs_eq s : agree eq (encryptArgs cipher s) (encryptArgs cipher s).
Proof.
  intros w1 w2 Hw. destruct (agree_encryptArgs cipher s w1 w2 Hw) as [Ho Hw']. split; [|done].
  by destruct (encryptArgs cipher s w1) as [[] ?], (encryptArgs cipher s w2) as [[] ?]; simpl in *;
    try done; destruct Ho as [-> _].
Qed.

Ltac same_call :=
  apply agree_optional_span; intros ? ?;
  repeat first
    [ by apply agree_ret
    | eapply agree_bind; [first [apply agree_interact | apply agree_db_Exec | apply agree_db_QueryRow
                                |apply agree_encryptArgs_eq | apply agree_tracing; auto with agree]|];
      intros ? ? <-
    | match goal with |- agree _ (match ?x with _ => _ end) _ => destruct x end ].

Lemma sqlite_Add_context ctx ctx' s :
  agree eq (sqlite_Add cipher ctx s) (sqlite_Add cipher ctx' s).
Proof. same_call. Qed.

Lemma sqlite_Delete_context ctx ctx' id : agree eq (sqlite_Delete ctx id) (sqlite_Delete ctx' id).
Proof. same_call. Qed.

Lemma sqlite_Get_context ctx ctx' id :
  agree eq (sqlite_Get cipher ctx id) (sqlite_Get cipher ctx' id).
Proof. same_call. Qed.

Lemma sqlite_Update_context ctx ctx' id s :
  agree eq (sqlite_Update cipher ctx id s) (sqlite_Update cipher ctx' id s).
Proof.
  apply agree_optional_span; intros ? ?.
  eapply agree_bind; [apply agree_tracing; auto with agree|]. intros ? ? <-.
  eapply agree_bind; [apply sqlite_Get_context|]. intros [old [e|]] ? <-; [by apply agree_error_status|].
  destruct (negb _).
  { eapply agree_bind; [apply agree_tracing; auto with agree|]. intros ? ? <-. by apply agree_ret. }
  eapply agree_bind; [apply agree_encryptArgs_eq|]. intros [enc [e|]] ? <-; [by apply agree_error_status|].
  eapply agree_bind; [apply agree_db_Exec|]. intros [e|] ? <-; [by apply agree_error_status|].
  by apply agree_ret.
Qed.
End Cancelled.
