(* ===== verification/Oidc.v ===== *)
(** * oidc: discovery, configuration and id-token verification

    [oidc/endpoints.go] and [oidc/oidc.go].  The identity provider, the oauth2
    client and the token verifier are libraries talking to the network: classes
    here. *)

From stdpp Require Import base gmap strings list option numbers.
From Stdlib Require Import ZArith Lia.
From S2P Require Import Prelude GoBase Encoding World Telemetry.

#[local] Open Scope Z_scope.

(** ** endpoints.go *)

Definition openIDConfigurationPath : string := "/.well-known/openid-configuration".

Record Endpoints : Type := mkEndpoints {
  AuthorizationEndpoint : string;
  EndSessionEndpoint : string;
  IntrospectionEndpoint : string;
  JWKSUri : string;
  RevocationEndpoint : string;
  TokenEndpoint : string;
  UserInfoEndpoint : string
}.

Definition Endpoints_zero : Endpoints := mkEndpoints "" "" "" "" "" "" "".

(** [http.Get(url)] (the body), and decoding it into [Endpoints]. *)
Class Discovery : Type := {
  http_Get : nat → string → result error string;
  json_Decode_Endpoints : string → result error Endpoints
}.

Definition getOidcEndpoints `{!Discovery} (issuer : string) : IO (Endpoints * option error) :=
  resp ← interact (λ n, http_Get n (issuer +:+ openIDConfigurationPath));
  match resp with
  | Err err => mret (Endpoints_zero, Some err)
  | Ok body =>
      match json_Decode_Endpoints body with
      | Err err => mret (Endpoints_zero, Some err)
      | Ok config => mret (config, None)
      end
  end.

(** ** oidc.go *)

(** [oauth2.Config] *)
Record oauth2_Config : Type := mkOauth2Config {
  ClientID : string;
  ClientSecret : string;
  AuthURL : string;
  TokenURL : string;
  Scopes : list string;
  RedirectURL : string
}.

(** [oauth2.Token]; [t_Extra_id_token] is [Extra("id_token").(string)]. *)
Record Token : Type := mkToken {
  t_AccessToken : string;
  t_RefreshToken : string;
  t_Expiry : Time;
  t_Extra_id_token : option string
}.

(** [&oauth2.Token{RefreshToken: rt}] and [&oauth2.Token{AccessToken: at}] *)
Definition Token_of_refresh (rt : string) : Token := mkToken "" rt Time_zero None.
Definition Token_of_access (a : string) : Token := mkToken a "" Time_zero None.

Record oidc_Config : Type := mkOidcConfig {
  oauth2_config : oauth2_Config;
  issuer : string;
  OidcEndpoints : Endpoints
}.

Definition NewConfiguration `{!Discovery} (clientID clientSecret issuer redirectURL : string)
    : IO (option oidc_Config * option error) :=
  '(oidcEndpoints, err) ← getOidcEndpoints issuer;
  match err with
  | Some err => mret (None, Some err)
  | None =>
      let oauthConfig := mkOauth2Config clientID clientSecret
        (AuthorizationEndpoint oidcEndpoints) (TokenEndpoint oidcEndpoints)
        ["openid"; "profile"; "email"] redirectURL in
      mret (Some (mkOidcConfig oauthConfig issuer oidcEndpoints), None)
  end.

(** The oauth2 client: the code exchange, [TokenSource(ctx, t).Token()], the login
    URL of [AuthCodeURL(state, AccessTypeOnline)], and [Client(ctx, t).Get(url)]
    (the status of the answer, and its body in the chunks it is read in). *)
Class OAuth2 : Type := {
  oauth2_Exchange : nat → oauth2_Config → string → result error Token;
  oauth2_TokenSource_Token : nat → oauth2_Config → Token → result error Token;
  oauth2_AuthCodeURL : oauth2_Config → string → string;
  oauth2_Client_Get : nat → oauth2_Config → Token → string → result error (Z * list string)
}.

(** coreos/go-oidc: a provider found by discovery, and the verification of a raw
    token for a client id, which yields the subject. *)
Class OidcLib : Type := {
  Provider : Type;
  oidc_NewProvider : nat → string → result error Provider;
  Verifier_Verify : nat → Provider → string → string → result error string
}.

Record IDToken_ : Type := mkIDToken {
  Token_Subject : string;
  RawToken : string
}.

Section OidcConfig.
Context `{!OidcLib}.

Definition GetIdToken (c : oidc_Config) (ctx : Context) (token : Token)
    : IO (option IDToken_ * option error) :=
  with_span ctx "oidc: verify and decode the the id-token" (λ ctx,
    match t_Extra_id_token token with
    | None => mret (None, Some (ErrorString "no valid id_token in the response"))
    | Some rawIDToken =>
        provider ← interact (λ n, oidc_NewProvider n (issuer c));
        match provider with
        | Err _ => mret (None, Some (ErrorString "failed to verify the id-token (1001)"))
        | Ok provider =>
            idToken ← interact (λ n,
              Verifier_Verify n provider (ClientID (oauth2_config c)) rawIDToken);
            match idToken with
            | Err _ => mret (None, Some (ErrorString "failed to verify the id-token (1002)"))
            | Ok sub => mret (Some (mkIDToken sub rawIDToken), None)
            end
        end
    end).

Definition AccessTokenIsValid (c : oidc_Config) (ctx : Context) (accessToken : string)
    : IO (option error) :=
  with_span ctx "oidc: verify and decode the the id-token" (λ ctx,
    provider ← interact (λ n, oidc_NewProvider n (issuer c));
    match provider with
    | Err _ => mret (Some (ErrorString "failed to verify the access-token (1001)"))
    | Ok provider =>
        idToken ← interact (λ n, Verifier_Verify n provider "account" accessToken);
        match idToken with
        | Err _ => mret (Some (ErrorString "failed to verify the access-token (1002)"))
        | Ok _ => mret None
        end
    end).
End OidcConfig.
