(* ===== verification/SessionConfig.v ===== *)
(** * sessions/configuration.go and constants.go

    The configuration of the session manager, and the key pairs handed to the
    cookie store. *)

From stdpp Require Import base gmap strings list option numbers.
From Stdlib Require Import ZArith Lia.
From S2P Require Import Prelude GoBase Encoding World Telemetry Database.

(** A byte slice is a string; the nil slice is the empty one. *)
Record KeyPair : Type := mkKeyPair {
  Authentication : string;
  Encryption : string
}.

Record Configuration : Type := mkConfiguration {
  CookieName : string;
  CookieDomain : string;
  NewKeyPair : KeyPair;
  OldKeyPair : KeyPair;
  LoginTimeout : Duration;
  SessionTimeout : Duration;
  SessionImpl_ : option SessionImpl
}.

Definition ErrWrongAuthSecretSize : error :=
  ErrVar "sessions" "ErrWrongAuthSecretSize"
    "the session authentication key should have a size of 32 or 64 bytes".
Definition ErrWrongEncSecretSize : error :=
  ErrVar "sessions" "ErrWrongEncSecretSize"
    "the session encryption key should have a size of 16, 24 or 32 bytes".

Inductive parseType : Type := parseCurrent | parseOld.

Definition parseType_string (pt : parseType) : string :=
  match pt with
  | parseCurrent => "current"
  | parseOld => "old"
  end.

Definition appendSlice (mc : Configuration) (slice : list string) (pt : parseType)
    : list string * option error :=
  let kp := match pt with
            | parseCurrent => NewKeyPair mc
            | parseOld => OldKeyPair mc
            end in
  let authKey := Authentication kp in
  let kLen := String.length authKey in
  if negb (Nat.eqb kLen 32) && negb (Nat.eqb kLen 64) then
    ([], Some (Errorf_w_s ErrWrongAuthSecretSize (parseType_string pt +:+ " authentication key")))
  else
    let slice := slice ++ [authKey] in
    let encKey := Encryption kp in
    let kLen := String.length encKey in
    if negb (Nat.eqb kLen 0) && negb (Nat.eqb kLen 16) && negb (Nat.eqb kLen 32)
       && negb (Nat.eqb kLen 64) then
      ([], Some (Errorf_w_s ErrWrongEncSecretSize (parseType_string pt +:+ " encryption key")))
    else (slice ++ [encKey], None).

Definition keyPairsAsSlice (mc : Configuration) : list string * option error :=
  if String.eqb (Authentication (NewKeyPair mc)) "" then ([], None)
  else
    match appendSlice mc [] parseCurrent with
    | (_, Some err) => ([], Some err)
    | (slice, None) =>
        if String.eqb (Authentication (OldKeyPair mc)) "" then (slice, None)
        else appendSlice mc [] parseOld
    end.

(** constants.go *)
Definition sessionIdName : string := "session_id".
Definition sessionStateName : string := "state".
