(* ===== verification/Sessions.v ===== *)
(** * sessions/session.go and the request side of sessions/manager.go

    A session couples the cookie session of gorilla/sessions with the record of
    the database.  The struct is passed along and returned where the code
    mutates it through its pointer; no two variables of the program point to the
    same one. *)

From stdpp Require Import base gmap strings list option numbers.
From Stdlib Require Import ZArith Lia.
From S2P Require Import Prelude GoBase Encoding World Telemetry Database Oidc SessionConfig.

#[local] Open Scope Z_scope.

(** ** gorilla/sessions *)

(** A value of the [map[interface{}]interface{}] of a cookie session. *)
Inductive value : Type :=
  | VString (s : string)
  | VOther.

Record CookieStore : Type := mkCookieStore {
  cs_keyPairs : list string;
  cs_Options : Options
}.

Record GSession : Type := mkGSession {
  gs_Name : string;
  gs_Values : gmap string value;
  gs_Options : Options;
  gs_IsNew : bool;
  gs_store : CookieStore
}.

(** [store.New], [store.Get] (which differ only in that [Get] remembers the session
    for the rest of the request, and no handler asks twice), and the cookie
    [session.Save] adds to the response, or its error. *)
Class Gorilla : Type := {
  store_New : nat → CookieStore → Request → string → GSession * option error;
  store_Get : nat → CookieStore → Request → string → GSession * option error;
  session_cookie : nat → GSession → result error Cookie
}.

Definition gs_Save `{!Gorilla} (s : GSession) (w : ResponseWriter) : IO (option error) :=
  c ← interact (λ n, session_cookie n s);
  match c with
  | Err err => mret (Some err)
  | Ok c => _ ← http_SetCookie w c; mret None
  end.

(** ** session.go *)

Definition ErrCannotCreateCookie : error :=
  ErrVar "sessions" "ErrCannotCreateCookie" "cannot create a new cookie".
Definition ErrCannotGetCookie : error :=
  ErrVar "sessions" "ErrCannotGetCookie" "cannot get the cookie".
Definition ErrSessionNotFound : error :=
  ErrVar "sessions" "ErrSessionNotFound" "cannot retrieve session from storage".
Definition ErrCannotRetrieveSessionData : error :=
  ErrVar "sessions" "ErrCannotRetrieveSessionData" "cannot retrieve session data".
Definition ErrSessionInvalid : error :=
  ErrVar "sessions" "ErrSessionInvalid" "cannot retrieve session id from memory".

Record Session : Type := mkSession {
  s_sessionImpl : SessionImpl;
  s_session : GSession;
  s_oidcConfig : oidc_Config;
  s_data : SessionData;
  s_timeout : Duration
}.

Definition set_data (s : Session) (d : SessionData) : Session :=
  mkSession (s_sessionImpl s) (s_session s) (s_oidcConfig s) d (s_timeout s).
Definition set_session (s : Session) (g : GSession) : Session :=
  mkSession (s_sessionImpl s) g (s_oidcConfig s) (s_data s) (s_timeout s).

Definition set_MaxAge (o : Options) (age : Z) : Options :=
  mkOptions (o_Path o) (o_Domain o) age (o_Secure o) (o_HttpOnly o) (o_SameSite o).

Definition set_Values (g : GSession) (vs : gmap string value) (age : Z) : GSession :=
  mkGSession (gs_Name g) vs (set_MaxAge (gs_Options g) age) (gs_IsNew g) (gs_store g).

(** [s.session.Values[k].(string)] *)
Definition value_string (g : GSession) (k : string) : option string :=
  match gs_Values g !! k with
  | Some (VString s) => Some s
  | _ => None
  end.

(** [int(d.Seconds())] *)
Definition seconds_int (d : Duration) : Z := default 0 (int_of_float64 (Duration_Seconds d)).

Section Session.
Context `{!Gorilla} `{!OidcLib}.

Definition dataFromDB (s : Session) (ctx : Context) : IO (Session * option error) :=
  with_span ctx "session: get session data from db" (λ _,
    match value_string (s_session s) sessionIdName with
    | None => mret (s, Some ErrSessionInvalid)
    | Some id =>
        '(data, err) ← Get (s_sessionImpl s) ctx id;
        let s := set_data s data in
        match err with
        | Some err =>
            if error_eq err sql_ErrNoRows then mret (s, Some ErrSessionNotFound)
            else mret (s, Some (Errorf_w_s ErrCannotRetrieveSessionData (Error err)))
        | None => mret (s, None)
        end
    end).

Definition saveState (s : Session) (w : ResponseWriter) (r : Request) (state : string)
    (age : Z) : IO (option error) :=
  with_span (r_ctx r) "session: save state into a cookie" (λ _,
    gs_Save (set_Values (s_session s)
               (<[sessionStateName := VString state]> (gs_Values (s_session s))) age) w).

Definition getState (s : Session) (r : Request) : IO string :=
  with_span (r_ctx r) "session: get state from a cookie" (λ _,
    mret (default "" (value_string (s_session s) sessionStateName))).

Definition newData (s : Session) (ctx : Context) (token : Token)
    : IO (SessionData * option error) :=
  with_span ctx "session: create a new session dataset" (λ ctx,
    '(idToken, err) ← GetIdToken (s_oidcConfig s) ctx token;
    match err with
    | Some err => mret (SessionData_zero, Some err)
    | None =>
        match idToken with
        | None => panic nil_dereference
        | Some idToken =>
            mret (mkSessionData (Token_Subject idToken) (t_AccessToken token)
                    (t_RefreshToken token) (RawToken idToken) (t_Expiry token), None)
        end
    end).

Definition saveSession (s : Session) (w : ResponseWriter) (r : Request) (id : string)
    : IO (option error) :=
  with_span (r_ctx r) "session: save session into a cookie" (λ _,
    let values := delete sessionStateName (gs_Values (s_session s)) in
    let values := <[sessionIdName := VString id]> values in
    gs_Save (set_Values (s_session s) values (seconds_int (s_timeout s))) w).

Definition Save (s : Session) (w : ResponseWriter) (r : Request) (token : Token)
    : IO (Session * option error) :=
  with_span (r_ctx r) "session: save" (λ ctx,
    '(data, err) ← newData s ctx token;
    let s := set_data s data in
    match err with
    | Some err => mret (s, Some err)
    | None =>
        '(id, err) ← Add (s_sessionImpl s) ctx (s_data s);
        match err with
        | Some err => mret (s, Some err)
        | None =>
            err ← saveSession s w (WithContext r ctx) id;
            mret (s, err)
        end
    end).

Definition Session_Update (s : Session) (w : ResponseWriter) (r : Request) (token : Token)
    : IO (Session * option error) :=
  with_span (r_ctx r) "session: update" (λ ctx,
    '(data, err) ← newData s ctx token;
    let s := set_data s data in
    match err with
    | Some err => mret (s, Some err)
    | None =>
        match value_string (s_session s) sessionIdName with
        | None => mret (s, Some ErrSessionInvalid)
        | Some id =>
            err ← Update (s_sessionImpl s) ctx id (s_data s);
            match err with
            | Some err => mret (s, Some err)
            | None =>
                err ← saveSession s w (WithContext r ctx) id;
                mret (s, err)
            end
        end
    end).

Definition Session_Delete (s : Session) (w : ResponseWriter) (r : Request)
    : IO (option error) :=
  with_span (r_ctx r) "session: delete" (λ ctx,
    match value_string (s_session s) sessionIdName with
    | None => mret (Some ErrSessionInvalid)
    | Some id =>
        err ← Delete (s_sessionImpl s) ctx id;
        match err with
        | Some err => mret (Some err)
        | None =>
            gs_Save (set_Values (s_session s) (gs_Values (s_session s)) (-1)) w
        end
    end).
End Session.

(** ** manager.go: sessions of a request *)

Record Manager : Type := mkManager {
  m_cookieName : string;
  m_loginTimeout : Z;
  m_sessionTimeout : Duration;
  m_store : CookieStore;
  m_sessionImpl : SessionImpl;
  m_done : nat
}.

Section Manager.
Context `{!Gorilla} `{!OidcLib}.

Definition NewSession (m : Manager) (r : Request) (config : oidc_Config)
    : IO (option Session * option error) :=
  with_span (r_ctx r) "session-manager: create new session into a cookie" (λ _,
    '(session, err) ← interact (λ n, store_New n (m_store m) r (m_cookieName m));
    match err with
    | Some err =>
        mret (None, Some (Errorf (Error ErrCannotCreateCookie +:+ " '" +:+ m_cookieName m
                                  +:+ "': " +:+ Error err) ErrCannotCreateCookie))
    | None =>
        mret (Some (mkSession (m_sessionImpl m) session config SessionData_zero
                      (m_sessionTimeout m)), None)
    end).

Definition GetSession (m : Manager) (r : Request) (config : oidc_Config)
    : IO (option Session * option error) :=
  with_span (r_ctx r) "session-manager: retrieve existing session from a cookie" (λ ctx,
    '(session, err) ← interact (λ n, store_Get n (m_store m) r (m_cookieName m));
    match err with
    | Some err =>
        mret (None, Some (Errorf (Error ErrCannotGetCookie +:+ " '" +:+ m_cookieName m
                                  +:+ "': " +:+ Error err) ErrCannotGetCookie))
    | None =>
        let s := mkSession (m_sessionImpl m) session config SessionData_zero
                           (m_sessionTimeout m) in
        match value_string session sessionStateName with
        | Some _ => mret (Some s, None)
        | None =>
            '(s, err) ← dataFromDB s ctx;
            match err with
            | Some err => mret (None, Some err)
            | None => mret (Some s, None)
            end
        end
    end).
End Manager.
