(* ===== verification/Config.v ===== *)
(** * config/config.go: the configuration and its validation

    [LoadConfig] reads the values through viper, pflag and the environment; what it
    does with them is [configValidate]. *)

From stdpp Require Import base gmap strings list option numbers.
From Stdlib Require Import ZArith Lia String.
From S2P Require Import Prelude GoBase.

#[local] Open Scope string_scope.

(** The defaults of the settings. *)
Definition defaultIsProduction : bool := false.
Definition defaultLogLevel : string := "info".
Definition defaultOidcIssuer : string := "".
Definition defaultOidcClientID : string := "".
Definition defaultOidcClientSecret : string := "".
Definition defaultOidcRedirectURL : string := "".
Definition defaultOidcPostLoginRedirectURL : string := "".
Definition defaultOidcPostLogoutRedirectURL : string := "".
Definition defaultListenAddr : string := ":9080".
Definition defaultCookieDomain : string := "localhost".
Definition defaultCookieName : string := "session".
Definition defaultSessionAuthSecret : string := "my-secret-key-CHANGE-ME-IN-PROD!".
Definition defaultSessionEncSecret : string := "".
Definition defaultSessionOldAuthSecret : string := "".
Definition defaultSessionOldEncSecret : string := "".
Definition defaultSessionDBKey : string := "".
Definition defaultSessionOldDBKey : string := "".
Definition defaultProxyConfig : string := "".
Definition defaultDBType : string := "sqlite".
Definition defaultDBHost : string := "".
Definition defaultDBName : string := "".
Definition defaultDBUsername : string := "".
Definition defaultDBPassword : string := "".

Definition ErrMissingParameter : error :=
  ErrVar "config" "ErrMissingParameter" "a mandatory parameter is missing".
Definition ErrDefaultCookieDomainInProduction : error :=
  ErrVar "config" "ErrDefaultCookieDomainInProduction"
    "the cookie domain shouldn't be 'localhost' in production".
Definition ErrDefaultAuthSecretInProduction : error :=
  ErrVar "config" "ErrDefaultAuthSecretInProduction"
    "the session authentication secret should be changed to a random value in production".
Definition config_ErrWrongAuthSecretSize : error :=
  ErrVar "config" "ErrWrongAuthSecretSize"
    "the session authentication secret should have a size of 32 or 64 bytes".
Definition config_ErrWrongEncSecretSize : error :=
  ErrVar "config" "ErrWrongEncSecretSize"
    "the session encryption secret should have a size of 16, 24 or 32 bytes".
Definition ErrWrongEncDBKey : error :=
  ErrVar "config" "ErrWrongEncDBKey" "the database encryption key must have a size of 32 bytes".
Definition ErrWrongDBType : error :=
  ErrVar "config" "ErrWrongDBType"
    "the database backend must be a value from: sqlite, postgresql".
Definition ErrMissingSQLiteDatabase : error :=
  ErrVar "config" "ErrMissingSQLiteDatabase"
    "you must specify the database file name, using the db-name parameter".
Definition ErrMissingDBServerHost : error :=
  ErrVar "config" "ErrMissingDBServerHost"
    "you must specify the database host, using the db-host parameter".
Definition ErrMissingDBServerDatabase : error :=
  ErrVar "config" "ErrMissingDBServerDatabase"
    "you must specify the database name, using the db-name parameter".
Definition ErrMissingDBServerUsername : error :=
  ErrVar "config" "ErrMissingDBServerUsername"
    "you must specify the username to connect to the database, using the db-username parameter".
Definition ErrMissingDBServerPassword : error :=
  ErrVar "config" "ErrMissingDBServerPassword"
    "you must specify the password to connect to the database, using the db-password parameter".

Record Config : Type := mkConfig {
  IsProduction : bool;
  LogLevel : string;
  OidcIssuer : string;
  OidcClientID : string;
  OidcClientSecret : string;
  OidcRedirectURL : string;
  OidcPostLoginRedirectURL : string;
  OidcPostLogoutRedirectURL : string;
  ListenAddr : string;
  c_CookieDomain : string;
  c_CookieName : string;
  SessionAuthSecret : string;
  SessionEncSecret : string;
  SessionOldAuthSecret : string;
  SessionOldEncSecret : string;
  SessionDBKey : string;
  SessionOldDBKey : string;
  ProxyConfig_ : string;
  DBType : string;
  DBHost : string;
  DBName : string;
  DBUsername : string;
  DBPassword : string
}.

(** [len(s) != n1 && len(s) != n2 && ...] *)
Definition len_not_in (s : string) (ns : list nat) : bool :=
  forallb (λ n, negb (Nat.eqb (String.length s) n)) ns.

Abbreviation missing s := (String.eqb s "").

(** Every branch returns the configuration unchanged. *)
Definition configValidate (c : Config) : Config * option error :=
  if missing (OidcIssuer c) then (c, Some (Errorf_w_s ErrMissingParameter "oidc-issuer"))
  else if missing (OidcClientID c) then
    (c, Some (Errorf_w_s ErrMissingParameter "oidc-client-id"))
  else if missing (OidcClientSecret c) then
    (c, Some (Errorf_w_s ErrMissingParameter "oidc-client-secret"))
  else if missing (OidcRedirectURL c) then
    (c, Some (Errorf_w_s ErrMissingParameter "oidc-redirect-url"))
  else if missing (OidcPostLoginRedirectURL c) then
    (c, Some (Errorf_w_s ErrMissingParameter "oidc-post-login-redirect-url"))
  else if missing (OidcPostLogoutRedirectURL c) then
    (c, Some (Errorf_w_s ErrMissingParameter "oidc-post-logout-redirect-url"))
  else if missing (ListenAddr c) then
    (c, Some (Errorf_w_s ErrMissingParameter "listen-addr"))
  else if missing (c_CookieDomain c) then
    (c, Some (Errorf_w_s ErrMissingParameter "cookie-domain"))
  else if missing (c_CookieName c) then
    (c, Some (Errorf_w_s ErrMissingParameter "cookie-name"))
  else if missing (SessionAuthSecret c) then
    (c, Some (Errorf_w_s ErrMissingParameter "session-secret"))
  else if String.eqb (c_CookieDomain c) defaultCookieDomain && IsProduction c then
    (c, Some ErrDefaultCookieDomainInProduction)
  else if String.eqb (SessionAuthSecret c) defaultSessionAuthSecret && IsProduction c then
    (c, Some ErrDefaultAuthSecretInProduction)
  else if len_not_in (SessionAuthSecret c) [32; 64] then
    (c, Some (Errorf_w_s config_ErrWrongAuthSecretSize "session-auth-secret"))
  else if negb (missing (SessionEncSecret c))
          && len_not_in (SessionEncSecret c) [16; 24; 32] then
    (c, Some (Errorf_w_s config_ErrWrongEncSecretSize "session-enc-secret"))
  else if negb (missing (SessionOldAuthSecret c))
          && len_not_in (SessionOldAuthSecret c) [32; 64] then
    (c, Some (Errorf_w_s config_ErrWrongAuthSecretSize "session-old-auth-secret"))
  else if negb (missing (SessionOldEncSecret c))
          && len_not_in (SessionOldEncSecret c) [16; 24; 32] then
    (c, Some (Errorf_w_s config_ErrWrongEncSecretSize "session-old-enc-secret"))
  else if negb (missing (SessionDBKey c)) && len_not_in (SessionDBKey c) [32] then
    (c, Some (Errorf_w_s ErrWrongEncDBKey "session-db-key"))
  else if negb (missing (SessionOldDBKey c)) && len_not_in (SessionOldDBKey c) [32] then
    (c, Some (Errorf_w_s ErrWrongEncDBKey "session-old-db-key"))
  else if negb (String.eqb (DBType c) "sqlite") && negb (String.eqb (DBType c) "postgresql") then
    (c, Some ErrWrongDBType)
  else if String.eqb (DBType c) "sqlite" && missing (DBName c) then
    (c, Some ErrMissingSQLiteDatabase)
  else if String.eqb (DBType c) "postgresql" then
    if missing (DBHost c) then (c, Some ErrMissingDBServerHost)
    else if missing (DBName c) then (c, Some ErrMissingDBServerDatabase)
    else if missing (DBUsername c) then (c, Some ErrMissingDBServerUsername)
    else if missing (DBPassword c) then (c, Some ErrMissingDBServerPassword)
    else (c, None)
  else (c, None).
