(* ===== verification/LoadConfig.v ===== *)
(** * config/config.go: where the configuration comes from

    [LoadConfig] gives viper the defaults and the flags of the command line, lets it
    read the environment and the file [token_handler], and decodes the settings whose
    keys are the tags of the fields of [Config].  viper and pflag are a class, with
    their documented behaviour as laws. *)

From stdpp Require Import base gmap strings list option.
From Stdlib Require Import ZArith Lia Ascii String.
From S2P Require Import Prelude GoBase Config.

#[local] Open Scope string_scope.

(** ** Settings, flags and sources *)

(** The dynamic value of a setting. *)
Inductive setting : Type :=
  | SBool (b : bool)
  | SString (s : string).

#[export] Instance setting_eq_dec : EqDecision setting.
Proof. solve_decision. Defined.

(** A flag: its name, its value, and whether the command line gave it. *)
Record Flag : Type := mkFlag { f_name : string; f_value : setting; f_changed : bool }.

(** [strings.ToLower] and [strings.ToUpper] on ASCII keys. *)
Definition lower_ascii (c : ascii) : ascii :=
  let n := N_of_ascii c in
  if (65 <=? n)%N && (n <=? 90)%N then ascii_of_N (n + 32) else c.

Fixpoint ToLower (s : string) : string :=
  match s with
  | EmptyString => EmptyString
  | String c s => String (lower_ascii c) (ToLower s)
  end.

Definition upper_ascii (c : ascii) : ascii :=
  let n := N_of_ascii c in
  if (97 <=? n)%N && (n <=? 122)%N then ascii_of_N (n - 32) else c.

Fixpoint ToUpper (s : string) : string :=
  match s with
  | EmptyString => EmptyString
  | String c s => String (upper_ascii c) (ToUpper s)
  end.

(** The environment, by the names of its variables, and the settings of the
    configuration file, if one was found. *)
Record Sources : Type := mkSources {
  src_env : gmap string string;
  src_file : gmap string setting
}.

(** ** Libraries *)

(** spf13/viper and spf13/pflag: [SetDefault], [BindPFlags], and what [Unmarshal] finds
    under a key once the environment and the file are read; [Parse], which ends the
    process on a command line it does not know ([None]). *)
Class Viper : Type := {
  viper : Type;
  viper_New : viper;
  viper_SetDefault : viper → string → setting → viper;
  viper_BindPFlags : viper → list Flag → result error viper;
  viper_Get : Sources → viper → string → option setting;
  pflag_Parse : list Flag → list string → option (list Flag)
}.

(** The value of a key, as viper documents it: keys are case-insensitive and a flag
    is bound to the key that is its long name; a flag of the command line comes before
    the environment (variables in upper case, the empty ones ignored), which comes
    before the file, the defaults, and the default of a flag. *)
Definition same_key (k k' : string) : bool := String.eqb (ToLower k) (ToLower k').

Definition viper_find (src : Sources) (ds : list (string * setting)) (fs : list Flag) (k : string)
    : option setting :=
  match find (λ f, f_changed f && same_key (f_name f) k) fs with
  | Some f => Some (f_value f)
  | None =>
      match default "" (src_env src !! ToUpper k) with
      | EmptyString =>
          match src_file src !! ToLower k with
          | Some x => Some x
          | None =>
              match find (λ kx, same_key kx.1 k) (rev ds) with
              | Some kx => Some kx.2
              | None => f_value <$> find (λ f, same_key (f_name f) k) fs
              end
          end
      | s => Some (SString s)
      end
  end.

Definition viper_of `{!Viper} (ds : list (string * setting)) : viper :=
  fold_left (λ v kx, viper_SetDefault v kx.1 kx.2) ds viper_New.

(** Binding fails only for a nil flag, and parsing keeps the names of the flags. *)
Class ViperLaws `{!Viper} : Prop := {
  viper_BindPFlags_ok ds fs : ∃ v, viper_BindPFlags (viper_of ds) fs = Ok v;
  viper_Get_find src ds fs v k :
    viper_BindPFlags (viper_of ds) fs = Ok v → viper_Get src v k = viper_find src ds fs k;
  pflag_Parse_names fs args fs' : pflag_Parse fs args = Some fs' → f_name <$> fs' = f_name <$> fs
}.

(** ** Weak decoding of mitchellh/mapstructure *)

(** [strconv.ParseBool], and the empty string, which decodes to [false]. *)
Definition weak_bool (s : setting) : result error bool :=
  match s with
  | SBool b => Ok b
  | SString s =>
      if bool_decide (s ∈ ["1"; "t"; "T"; "TRUE"; "true"; "True"]) then Ok true
      else if bool_decide (s ∈ [""; "0"; "f"; "F"; "FALSE"; "false"; "False"]) then Ok false
      else Err (ErrorString ("cannot parse '" +:+ s +:+ "' as bool"))
  end.

Definition weak_string (s : setting) : result error string :=
  match s with
  | SBool b => Ok (if b then "1" else "0")
  | SString s => Ok s
  end.

#[local] Instance result_bind : MBind (result error) := λ A B k m,
  match m with Ok a => k a | Err e => Err e end.

(** A field whose key has no value keeps its zero value. *)
Definition field_string (get : string → option setting) (tag : string) : result error string :=
  match get tag with Some x => weak_string x | None => Ok "" end.

Definition field_bool (get : string → option setting) (tag : string) : result error bool :=
  match get tag with Some x => weak_bool x | None => Ok false end.

(** [viper.Unmarshal(&config)], with the tags of the fields, from the value of each key. *)
Definition viper_Unmarshal (get : string → option setting) : result error Config :=
  let str := field_string get in
  isProduction ← field_bool get "IS_PRODUCTION";
  logLevel ← str "LOG_LEVEL";
  oidcIssuer ← str "OIDC_ISSUER";
  oidcClientID ← str "OIDC_CLIENT_ID";
  oidcClientSecret ← str "OIDC_CLIENT_SECRET";
  oidcRedirectURL ← str "OIDC_REDIRECT_URL";
  oidcPostLogin ← str "OIDC_POST_LOGIN_REDIRECT_URL";
  oidcPostLogout ← str "OIDC_POST_LOGOUT_REDIRECT_URL";
  listenAddr ← str "LISTEN_ADDR";
  cookieDomain ← str "COOKIE_DOMAIN";
  cookieName ← str "COOKIE_NAME";
  sessionAuthSecret ← str "SESSION_AUTH_SECRET";
  sessionEncSecret ← str "SESSION_ENC_SECRET";
  sessionOldAuthSecret ← str "SESSION_OLD_AUTH_SECRET";
  sessionOldEncSecret ← str "SESSION_OLD_ENC_SECRET";
  sessionDBKey ← str "SESSION_DB_KEY";
  sessionOldDBKey ← str "SESSION_OLD_DB_KEY";
  proxyConfig ← str "PROXY_CONFIG";
  dBType ← str "DB_TYPE";
  dBHost ← str "DB_HOST";
  dBName ← str "DB_NAME";
  dBUsername ← str "DB_USERNAME";
  dBPassword ← str "DB_PASSWORD";
  Ok (mkConfig isProduction logLevel oidcIssuer oidcClientID oidcClientSecret oidcRedirectURL
        oidcPostLogin oidcPostLogout listenAddr cookieDomain cookieName sessionAuthSecret
        sessionEncSecret sessionOldAuthSecret sessionOldEncSecret sessionDBKey sessionOldDBKey
        proxyConfig dBType dBHost dBName dBUsername dBPassword).

(** [Config{}] *)
Definition Config_zero : Config :=
  mkConfig false "" "" "" "" "" "" "" "" "" "" "" "" "" "" "" "" "" "" "" "" "" "".

(** The defaults, in the order they are set. *)
Definition defaults : list (string * setting) :=
  [("IS_PRODUCTION", SBool defaultIsProduction); ("LOG_LEVEL", SString defaultLogLevel);
   ("OIDC_ISSUER", SString defaultOidcIssuer);
   ("OIDC_CLIENT_ID", SString defaultOidcClientID);
   ("OIDC_CLIENT_SECRET", SString defaultOidcClientSecret);
   ("OIDC_REDIRECT_URL", SString defaultOidcRedirectURL);
   ("OIDC_POST_LOGIN_REDIRECT_URL", SString defaultOidcPostLoginRedirectURL);
   ("OIDC_POST_LOGOUT_REDIRECT_URL", SString defaultOidcPostLogoutRedirectURL);
   ("LISTEN_ADDR", SString defaultListenAddr);
   ("COOKIE_DOMAIN", SString defaultCookieDomain);
   ("COOKIE_NAME", SString defaultCookieName);
   ("SESSION_AUTH_SECRET", SString defaultSessionAuthSecret);
   ("SESSION_ENC_SECRET", SString defaultSessionEncSecret);
   ("SESSION_OLD_AUTH_SECRET", SString defaultSessionOldAuthSecret);
   ("SESSION_OLD_ENC_SECRET", SString defaultSessionOldEncSecret);
   ("SESSION_DB_KEY", SString defaultSessionDBKey);
   ("SESSION_OLD_DB_KEY", SString defaultSessionOldDBKey);
   ("PROXY_CONFIG", SString defaultProxyConfig); ("DB_TYPE", SString defaultDBType);
   ("DB_HOST", SString defaultDBHost); ("DB_NAME", SString defaultDBName);
   ("DB_USERNAME", SString defaultDBUsername); ("DB_PASSWORD", SString defaultDBPassword)].

(** The flags of the command line. *)
Definition declared_flags : list Flag :=
  (λ nv : string * setting, mkFlag nv.1 nv.2 false) <$>
  [("is-production", SBool defaultIsProduction); ("log-level", SString "info");
   ("oidc-issuer", SString defaultOidcIssuer);
   ("oidc-client-id", SString defaultOidcClientID);
   ("oidc-client-secret", SString defaultOidcClientSecret);
   ("oidc-redirect-url", SString defaultOidcRedirectURL);
   ("oidc-post-login-redirect-url", SString defaultOidcPostLoginRedirectURL);
   ("oidc-post-logout-redirect-url", SString defaultOidcPostLogoutRedirectURL);
   ("listen-addr", SString defaultListenAddr);
   ("cookie-domain", SString defaultCookieDomain);
   ("cookie-name", SString defaultCookieName);
   ("session-auth-secret", SString defaultSessionAuthSecret);
   ("session-enc-secret", SString defaultSessionEncSecret);
   ("session-old-auth-secret", SString defaultSessionOldAuthSecret);
   ("session-old-enc-secret", SString defaultSessionOldEncSecret);
   ("session-db-key", SString defaultSessionDBKey);
   ("session-old-db-key", SString defaultSessionOldDBKey);
   ("proxy-config", SString defaultProxyConfig); ("db-type", SString defaultDBType);
   ("db-host", SString defaultDBHost); ("db-name", SString defaultDBName);
   ("db-username", SString defaultDBUsername); ("db-password", SString defaultDBPassword)].

Section LoadConfig.
Context `{!Viper}.

Definition set_defaults : viper := viper_of defaults.

(** [None] when [pflag.Parse] ends the process. *)
Definition LoadConfig (src : Sources) (args : list string) : option (Config * option error) :=
  flags ← pflag_Parse declared_flags args;
  Some (match viper_BindPFlags set_defaults flags with
        | Err err => (Config_zero, Some err)
        | Ok v =>
            match viper_Unmarshal (viper_Get src v) with
            | Err err => (Config_zero, Some err)
            | Ok config => configValidate config
            end
        end).
End LoadConfig.
