(* ===== verification/Manager.v ===== *)
(** * sessions/manager.go: the manager and its background cleaner

    [NewManager], and the goroutine that purges expired sessions: one per process,
    whatever the number of managers, because it runs inside [once.Do]. *)

From stdpp Require Import base gmap strings list option numbers.
From Stdlib Require Import ZArith Lia.
From S2P Require Import Prelude GoBase Encoding World Telemetry Database Oidc SessionConfig.
From S2P Require Import Sessions Config.

#[local] Open Scope Z_scope.

Definition ErrNilValue : error := ErrVar "sessions" "ErrNilValue" "you cannot pass a nil value".

(** The options of the cookie store. *)
Definition manager_options (c : Configuration) : Options :=
  mkOptions "/" (CookieDomain c) 0 true true SameSiteStrictMode.

(** [NewManager(ctx, c)], given the channel [done] it makes.  The goroutine it starts
    is the process below. *)
Definition NewManager (done : nat) (c : Configuration) : option Manager * option error :=
  match SessionImpl_ c with
  | None => (None, Some (Errorf_w_s ErrNilValue "Configuration.DB"))
  | Some impl =>
      match keyPairsAsSlice c with
      | (_, Some err) => (None, Some err)
      | (kpSlice, None) =>
          (Some (mkManager (CookieName c) (Z.quot (LoginTimeout c) Second) (SessionTimeout c)
                   (mkCookieStore kpSlice (manager_options c)) impl done), None)
      end
  end.

(** ** main.go: the configuration of the session manager *)

Definition session_configuration (c : Config) (impl : option SessionImpl) : Configuration :=
  mkConfiguration (c_CookieName c) (c_CookieDomain c)
    (mkKeyPair (SessionAuthSecret c) (SessionEncSecret c))
    (mkKeyPair (SessionOldAuthSecret c) (SessionOldEncSecret c))
    (5 * Minute) (30 * Minute) impl.
