(* ===== verification/Cleaner.v ===== *)
(** * sessions/manager.go: the background cleaner

    [NewManager] starts a goroutine that purges the expired sessions every ten
    minutes until its context is done, inside the [once.Do] of a package variable:
    however many managers the process makes, one goroutine runs the cleaner, and only
    the channel of its manager is ever closed.  The goroutines are modelled as the
    steps of a process. *)

From stdpp Require Import base gmap strings list option numbers relations.
From Stdlib Require Import ZArith Lia.
From S2P Require Import Prelude GoBase Encoding World Telemetry Zlogger Database Oidc.
From S2P Require Import SessionConfig Sessions Manager.

#[local] Open Scope Z_scope.

Section Rounds.
Context `{!Otel}.

(** [zlogger.FromContext(ctx).Error(...)] and [.Debug(...)]: what is handed to zap. *)
Definition log_to (ctx : Context) (l : Level) (message : string)
    (fields : list (string * FieldValue)) : IO unit :=
  _ ← zlogger_FromContext ctx;
  modify (add_log (mkLogEntry l message fields)).

(** The case of the ticker. *)
Definition cleaner_round (ctx : Context) (db : SessionImpl) : IO unit :=
  err ← Purge db ctx;
  match err with
  | Some err => log_to ctx ErrorLevel "cannot clear the expired sessions" [("error", FError err)]
  | None => mret tt
  end.

(** The case of [ctx.Done()]; the deferred [close(done)] is part of the step. *)
Definition cleaner_stopping (ctx : Context) : IO unit :=
  log_to ctx DebugLevel "session manager: stopping the expired sessions cleaner job" [].

(** [WaitSessionCleaner], once the channel is closed. *)
Definition cleaner_stopped (ctx : Context) : IO unit :=
  log_to ctx DebugLevel "session manager: the expired sessions cleaner is now stopped" [].
End Rounds.

(** The [once] of the package: not called, running the function of a manager, done. *)
Inductive once_state : Type :=
  | OnceNew
  | OnceRunning (ch : nat)
  | OnceDone (ch : nat).

(** The process, as far as the cleaner goes.  A manager is named after its channel;
    [p_waiting] are the managers whose [WaitSessionCleaner] was called and has not
    returned. *)
Record Process : Type := mkProcess {
  p_made : nat;
  p_pending : gset nat;
  p_once : once_state;
  p_cancelled : gset nat;
  p_closed : gset nat;
  p_waiting : gset nat;
  p_world : World
}.

Definition process_start (w : World) : Process := mkProcess 0 ∅ OnceNew ∅ ∅ ∅ w.

Section Process.
Context `{!Otel}.
Context (ctx : nat → Context) (c : nat → Configuration) (impl : nat → SessionImpl).

(** The steps: a manager is made, and its goroutine starts later; the goroutine enters
    [once.Do], and either runs the cleaner, or, once the function of another has
    returned, does nothing; the ticker of the running cleaner fires; a context is
    cancelled; the running cleaner sees it and closes its channel; a caller of
    [WaitSessionCleaner] waits, and returns when the channel is closed. *)
Inductive process_step : Process → Process → Prop :=
  | step_new n pend o can clo wai w m :
      NewManager n (c n) = (Some m, None) → m_sessionImpl m = impl n →
      process_step (mkProcess n pend o can clo wai w)
                   (mkProcess (S n) ({[m_done m]} ∪ pend) o can clo wai w)
  | step_once_run n pend can clo wai w i :
      i ∈ pend →
      process_step (mkProcess n pend OnceNew can clo wai w)
                   (mkProcess n (pend ∖ {[i]}) (OnceRunning i) can clo wai w)
  | step_once_skip n pend can clo wai w i j :
      i ∈ pend →
      process_step (mkProcess n pend (OnceDone j) can clo wai w)
                   (mkProcess n (pend ∖ {[i]}) (OnceDone j) can clo wai w)
  | step_tick n pend can clo wai w i w' :
      cleaner_round (ctx i) (impl i) w = (Ret tt, w') →
      process_step (mkProcess n pend (OnceRunning i) can clo wai w)
                   (mkProcess n pend (OnceRunning i) can clo wai w')
  | step_cancel n pend o can clo wai w i :
      process_step (mkProcess n pend o can clo wai w)
                   (mkProcess n pend o ({[i]} ∪ can) clo wai w)
  | step_stop n pend can clo wai w i w' :
      i ∈ can → cleaner_stopping (ctx i) w = (Ret tt, w') →
      process_step (mkProcess n pend (OnceRunning i) can clo wai w)
                   (mkProcess n pend (OnceDone i) can ({[i]} ∪ clo) wai w')
  | step_wait n pend o can clo wai w i :
      process_step (mkProcess n pend o can clo wai w)
                   (mkProcess n pend o can clo ({[i]} ∪ wai) w)
  | step_wait_returns n pend o can clo wai w i w' :
      i ∈ wai → i ∈ clo → cleaner_stopped (ctx i) w = (Ret tt, w') →
      process_step (mkProcess n pend o can clo wai w)
                   (mkProcess n pend o can clo (wai ∖ {[i]}) w')
  | step_outside n pend o can clo wai w w' :
      process_step (mkProcess n pend o can clo wai w)
                   (mkProcess n pend o can clo wai w').

Definition reachable (p : Process) : Prop :=
  ∃ w, rtc process_step (process_start w) p.

(** The goroutine that has entered [once.Do] first. *)
Definition owner (p : Process) : option nat :=
  match p_once p with
  | OnceNew => None
  | OnceRunning i | OnceDone i => Some i
  end.

(** ** Invariant *)

Definition cleaner_invariant (p : Process) : Prop :=
  p_closed p = match p_once p with OnceDone i => {[i]} | _ => ∅ end ∧
  (∀ i, i ∈ p_pending p → (i < p_made p)%nat) ∧
  (∀ i, owner p = Some i → (i < p_made p)%nat ∧ i ∉ p_pending p).

Lemma NewManager_done n cf m : NewManager n cf = (Some m, None) → m_done m = n.
Proof.
  unfold NewManager. destruct (SessionImpl_ cf); [|done].
  destruct (keyPairsAsSlice cf) as [? [?|]]; [done|]. intros ?; by simplify_eq.
Qed.

Lemma cleaner_invariant_step p p' : process_step p p' → cleaner_invariant p → cleaner_invariant p'.
Proof.
  intros Hstep (Hclo & Hpend & Hown). unfold cleaner_invariant, owner in *.
  destruct Hstep as [n pend o can clo wai w m Hm Hi|n pend can clo wai w i Hi|
    n pend can clo wai w i j Hi|n pend can clo wai w i w' Hr|n pend o can clo wai w i|
    n pend can clo wai w i w' Hc Hr|n pend o can clo wai w i|
    n pend o can clo wai w i w' Hw Hc Hr|n pend o can clo wai w w']; simpl in *.
  - apply NewManager_done in Hm as ->. split; [done|]. split.
    + intros i [->%elem_of_singleton|Hi']%elem_of_union; [lia|]. specialize (Hpend i Hi'). lia.
    + intros i Hio. specialize (Hown i Hio) as [Hlt Hnp]. split; [lia|].
      intros [->%elem_of_singleton|?]%elem_of_union; [lia|done].
  - split; [done|]. split.
    + intros j [Hj _]%elem_of_difference. auto.
    + intros j [= <-]. split; [auto|]. by intros [_ []%not_elem_of_singleton]%elem_of_difference.
  - split; [done|]. split.
    + intros k [Hk _]%elem_of_difference. auto.
    + intros k Hk. destruct (Hown k Hk) as [? Hnp]. split; [done|].
      by intros [? _]%elem_of_difference.
  - auto.
  - auto.
  - split; [by rewrite Hclo, union_empty_r_L|]. auto.
  - auto.
  - auto.
  - auto.
Qed.

Lemma reachable_invariant p : reachable p → cleaner_invariant p.
Proof.
  intros [w Hrtc]. assert (Hstart : cleaner_invariant (process_start w)).
  { split; [done|]. split; [intros i []%not_elem_of_empty|done]. }
  revert Hstart. induction Hrtc; eauto using cleaner_invariant_step.
Qed.

Lemma owner_step p p' i : process_step p p' → owner p = Some i → owner p' = Some i.
Proof. unfold owner. destruct 1; simpl; congruence. Qed.

Lemma owner_steps p p' i : rtc process_step p p' → owner p = Some i → owner p' = Some i.
Proof. induction 1; eauto using owner_step. Qed.

Lemma reachable_step p p' : reachable p → rtc process_step p p' → reachable p'.
Proof. intros [w Hw] Hp. exists w. by etrans. Qed.
End Process.
