(* ===== verification/SessionLemmas.v ===== *)
(** * Specifications of the session methods

    What each method of [Session] and [Manager] answers and changes, proved
    against the [LossyStore] contract of the database. *)

From stdpp Require Import base gmap strings list option numbers.
From Stdlib Require Import ZArith Lia.
From S2P Require Import Prelude GoBase Encoding World Telemetry Zlogger Database Oidc.
From S2P Require Import SessionConfig Sessions.

#[local] Open Scope Z_scope.

(** ** Contexts with a tracer *)

Definition has_tracer (ctx : Context) : Prop := is_Some (TracerFromContext ctx).

Lemma has_tracer_WithValue ctx k v :
  k ≠ opentelemetry_ctxKey → has_tracer ctx → has_tracer (context_WithValue ctx k v).
Proof.
  unfold has_tracer, TracerFromContext. intros Hk.
  by rewrite ctx_Value_WithValue_ne by done.
Qed.

Lemma twp_with_span_tracer {A} ctx n (body : Context → IO A) Q w :
  has_tracer ctx →
  (∀ c w', w' ≡ w → has_tracer c →
     twp (body c) (λ a w1, ∀ w2, w2 ≡ w1 → Q a w2) w') →
  twp (with_span ctx n body) Q w.
Proof.
  intros [t Ht] HQ. eapply twp_with_span; [exact Ht|]. intros s w' Hw.
  apply HQ; [done|]. apply has_tracer_WithValue; [done|]. by exists t.
Qed.

(** ** Steps *)

(** Only the trace and the index of the next outside call moved. *)
Definition quiet (w w' : World) : Prop := db_step w w' ∧ w_table w' = w_table w.

(** Only cookies were added to the response. *)
Definition cookie_step (w w' : World) : Prop :=
  http_step w w' ∧ w_rec w' = w_rec w ∧ w_logger w' = w_logger w ∧
  rs_header (w_resp w') = rs_header (w_resp w) ∧
  rs_sent (w_resp w') = rs_sent (w_resp w) ∧
  rs_body (w_resp w') = rs_body (w_resp w).

(** As [cookie_step], but the table may have changed. *)
Definition session_step (w w' : World) : Prop :=
  (w_tick w ≤ w_tick w')%nat ∧ w_open w' = w_open w ∧ w_log w' = w_log w ∧
  w_rec w' = w_rec w ∧ w_logger w' = w_logger w ∧
  rs_header (w_resp w') = rs_header (w_resp w) ∧
  rs_sent (w_resp w') = rs_sent (w_resp w) ∧
  rs_body (w_resp w') = rs_body (w_resp w).

Ltac step_facts :=
  repeat match goal with
    | H : quiet ?w1 ?w2 |- _ => unfold quiet in H; destruct_and! H
    | H : cookie_step ?w1 ?w2 |- _ => unfold cookie_step in H; destruct_and! H
    | H : session_step ?w1 ?w2 |- _ => unfold session_step in H; destruct_and! H
    | H : http_step ?w1 ?w2 |- _ => unfold http_step in H; destruct_and! H
    end;
  world_facts.

Ltac solve_step :=
  unfold quiet, cookie_step, session_step, http_step, db_step;
  step_facts; repeat split; first [lia | congruence].

(** A session step that sets no cookie leaves the response alone. *)
Lemma session_step_resp w w' :
  session_step w w' → rs_cookies (w_resp w') = rs_cookies (w_resp w) → w_resp w' = w_resp w.
Proof.
  intros (_ & _ & _ & _ & _ & Hh & Hs & Hb) Hc.
  destruct (w_resp w), (w_resp w'). simpl in *. congruence.
Qed.

(** ** The pieces *)

(** The id-token of [token] was verified for this client, and carries [sub]. *)
Definition verified `{!OidcLib} (c : oidc_Config) (token : Token) (sub raw : string) : Prop :=
  t_Extra_id_token token = Some raw ∧
  ∃ n p k, oidc_NewProvider n (issuer c) = Ok p ∧
           Verifier_Verify k p (ClientID (oauth2_config c)) raw = Ok sub.

(** The record made from a token and its verified id-token. *)
Definition token_data (sub raw : string) (t : Token) : SessionData :=
  mkSessionData sub (t_AccessToken t) (t_RefreshToken t) raw (t_Expiry t).

(** ** Reading the session of a request *)

Definition session_of (m : Manager) (config : oidc_Config) (g : GSession) (d : SessionData)
    : Session := mkSession (m_sessionImpl m) g config d (m_sessionTimeout m).

Definition cookie_error (m : Manager) (e : error) : error :=
  Errorf (Error ErrCannotGetCookie +:+ " '" +:+ m_cookieName m +:+ "': " +:+ Error e)
         ErrCannotGetCookie.

(** The four things the cookie of a request may be. *)
Inductive cookie_state : Type :=
  | CookieError (e : error)
  | LoginInProgress (g : GSession) (state : string)
  | NoSession (g : GSession)
  | SessionId (g : GSession) (id : string).

Definition cookie_lookup `{!Gorilla} (m : Manager) (r : Request) (n : nat) : cookie_state :=
  match store_Get n (m_store m) r (m_cookieName m) with
  | (_, Some e) => CookieError e
  | (g, None) =>
      match value_string g sessionStateName with
      | Some state => LoginInProgress g state
      | None =>
          match value_string g sessionIdName with
          | Some id => SessionId g id
          | None => NoSession g
          end
      end
  end.

(** The error of a session id the database does not answer for. *)
Definition lookup_error (e : error) : error :=
  if error_eq e sql_ErrNoRows then ErrSessionNotFound
  else Errorf_w_s ErrCannotRetrieveSessionData (Error e).

(** A decoded cookie with a session id carries no state, and that id. *)
Lemma cookie_lookup_id `{!Gorilla} m r n g id id' :
  cookie_lookup m r n = SessionId g id → value_string g sessionIdName = Some id' → id' = id.
Proof.
  unfold cookie_lookup. destruct (store_Get _ _ _ _) as [g' [e|]]; [done|].
  destruct (value_string g' sessionStateName); [done|].
  destruct (value_string g' sessionIdName) eqn:Hid; [|done]. intros ??; by simplify_eq.
Qed.

Section Pieces.
Context `{!Gorilla} `{!OidcLib}.

Lemma twp_GetIdToken c ctx token (Q : option IDToken_ * option error → World → Prop) w :
  has_tracer ctx →
  (∀ w' e, quiet w w' → Q (None, Some e) w') →
  (∀ w' sub raw, quiet w w' → verified c token sub raw →
     Q (Some (mkIDToken sub raw), None) w') →
  twp (GetIdToken c ctx token) Q w.
Proof.
  intros Ht Herr Hok. apply twp_with_span_tracer; [done|]. intros ctx' w1 Hw1 _.
  destruct (t_Extra_id_token token) as [raw|] eqn:Hraw;
    [|apply twp_ret; intros; apply Herr; solve_step].
  apply twp_bind, twp_interact. destruct (oidc_NewProvider _ _) as [p|e] eqn:Hp;
    [|apply twp_ret; intros; apply Herr; solve_step].
  apply twp_bind, twp_interact. destruct (Verifier_Verify _ _ _ _) as [sub|e] eqn:Hv;
    apply twp_ret; intros; [|apply Herr; solve_step].
  apply Hok; [solve_step|]. split; [done|eauto].
Qed.

Lemma twp_newData s ctx token (Q : SessionData * option error → World → Prop) w :
  has_tracer ctx →
  (∀ w' e, quiet w w' → Q (SessionData_zero, Some e) w') →
  (∀ w' sub raw, quiet w w' → verified (s_oidcConfig s) token sub raw →
     Q (token_data sub raw token, None) w') →
  twp (newData s ctx token) Q w.
Proof.
  intros Ht Herr Hok. apply twp_with_span_tracer; [done|]. intros ctx' w1 Hw1 Ht'.
  apply twp_bind, twp_GetIdToken; [done|..].
  - intros w2 e Hw2. apply twp_ret. intros. apply Herr. solve_step.
  - intros w2 sub raw Hw2 Hv. apply twp_ret. intros. apply Hok; [solve_step|done].
Qed.

Lemma twp_gs_Save g rw (Q : option error → World → Prop) w :
  (∀ e, Q (Some e) (set_tick S w)) →
  (∀ w' c, cookie_step w w' → (w_tick w < w_tick w')%nat → session_cookie (w_tick w) g = Ok c →
     rs_cookies (w_resp w') = rs_cookies (w_resp w) ++ [c] → Q None w') →
  twp (gs_Save g rw) Q w.
Proof.
  intros Herr Hok. apply twp_bind, twp_interact.
  destruct (session_cookie (w_tick w) g) as [c|e] eqn:Hc; [|by apply twp_ret].
  apply twp_bind, twp_modify, twp_ret, (Hok _ c); [|simpl; lia|done..].
  repeat split; simpl; lia.
Qed.

Lemma twp_getState s r (Q : string → World → Prop) w :
  has_tracer (r_ctx r) →
  (∀ w', quiet w w' → Q (default "" (value_string (s_session s) sessionStateName)) w') →
  twp (getState s r) Q w.
Proof.
  intros Ht HQ. apply twp_with_span_tracer; [done|]. intros c w1 Hw1 _.
  apply twp_ret. intros. apply HQ. solve_step.
Qed.

(** The cookie session a login saves. *)
Definition with_state (g : GSession) (state : string) (age : Z) : GSession :=
  set_Values g (<[sessionStateName := VString state]> (gs_Values g)) age.

(** The cookie session a successful callback or refresh saves. *)
Definition with_id (g : GSession) (id : string) (timeout : Duration) : GSession :=
  set_Values g (<[sessionIdName := VString id]> (delete sessionStateName (gs_Values g)))
    (seconds_int timeout).

Definition saved (g : GSession) (w w' : World) : Prop :=
  ∃ n c, (w_tick w ≤ n < w_tick w')%nat ∧ session_cookie n g = Ok c ∧
         rs_cookies (w_resp w') = rs_cookies (w_resp w) ++ [c].

Lemma twp_saveState s rw r state age (Q : option error → World → Prop) w :
  has_tracer (r_ctx r) →
  (∀ w' e, quiet w w' → Q (Some e) w') →
  (∀ w', cookie_step w w' → saved (with_state (s_session s) state age) w w' → Q None w') →
  twp (saveState s rw r state age) Q w.
Proof.
  intros Ht Herr Hok. apply twp_with_span_tracer; [done|]. intros c w1 Hw1 _.
  apply twp_gs_Save; [intros; apply Herr; solve_step|].
  intros w2 ck Hw2 Htick Hck Hr w3 Hw3. apply Hok; [solve_step|].
  eexists _, ck. split; [|split; [exact Hck|]]; step_facts; [lia|congruence].
Qed.

Lemma twp_saveSession s rw r id (Q : option error → World → Prop) w :
  has_tracer (r_ctx r) →
  (∀ w' e, quiet w w' → Q (Some e) w') →
  (∀ w', cookie_step w w' → saved (with_id (s_session s) id (s_timeout s)) w w' → Q None w') →
  twp (saveSession s rw r id) Q w.
Proof.
  intros Ht Herr Hok. apply twp_with_span_tracer; [done|]. intros c w1 Hw1 _.
  apply twp_gs_Save; [intros; apply Herr; solve_step|].
  intros w2 ck Hw2 Htick Hck Hr w3 Hw3. apply Hok; [solve_step|].
  eexists _, ck. split; [|split; [exact Hck|]]; step_facts; [lia|congruence].
Qed.

Lemma twp_NewSession m r config (Q : option Session * option error → World → Prop) w :
  has_tracer (r_ctx r) →
  (∀ w' e g, quiet w w' → store_New (w_tick w) (m_store m) r (m_cookieName m) = (g, Some e) →
     Q (None, Some (Errorf (Error ErrCannotCreateCookie +:+ " '" +:+ m_cookieName m
                            +:+ "': " +:+ Error e) ErrCannotCreateCookie)) w') →
  (∀ w' g, quiet w w' → store_New (w_tick w) (m_store m) r (m_cookieName m) = (g, None) →
     Q (Some (mkSession (m_sessionImpl m) g config SessionData_zero (m_sessionTimeout m)), None) w') →
  twp (NewSession m r config) Q w.
Proof.
  intros Ht Herr Hok. apply twp_with_span_tracer; [done|]. intros c w1 Hw1 _.
  assert (Htick : w_tick w1 = w_tick w) by (step_facts; congruence).
  rewrite <-Htick in Herr, Hok. apply twp_bind, twp_interact.
  destruct (store_New (w_tick w1) (m_store m) r (m_cookieName m)) as [g [e|]] eqn:Hg;
    apply twp_ret; intros; [by eapply Herr; [solve_step|]|].
  apply Hok; [solve_step|done].
Qed.
End Pieces.

Section WithStore.
Context `{!Clock} `{!Uuid} `{!SqlDriver} `{!Gorilla} `{!OidcLib}.
Context (impl : SessionImpl) (view : gmap string Row → Store) (no_rows : string → error).
Context `{!LossyStore impl view no_rows}.

Lemma twp_impl_Get ctx id (Q : SessionData * option error → World → Prop) w :
  (∀ w' d, quiet w w' → view (w_table w) !! id = Some d → Q (d, None) w') →
  (∀ w' e, quiet w w' → (db_up w → view (w_table w) !! id = None) →
     (db_up w → w_table w !! id = None → e = no_rows id) → Q (SessionData_zero, Some e) w') →
  twp (Get impl ctx id) Q w.
Proof.
  intros Hok Herr. pose proof (Get_refines (view:=view) (impl:=impl) ctx id w) as Hr.
  pose proof (Get_table (impl:=impl) ctx id w) as Ht.
  destruct Hr as ([d e] & Hrun & Hstep & [_ Hspec]). exists (d, e). split; [done|].
  simpl in Hspec. destruct e as [e|].
  - subst d. apply Herr; [by split|..].
    + intros Hup. destruct (view (w_table w) !! id) as [d|] eqn:Hv; [|done].
      destruct (Get_found ctx id d w Hup Hv) as (r & Hr & Heq). congruence.
    + intros Hup Hn. destruct (Get_missing ctx id w Hup Hn) as (r & Hr & Heq). congruence.
  - apply Hok; [by split|done].
Qed.

(** *** Reading the session of a request *)

Definition get_session_post (m : Manager) (config : oidc_Config) (r : Request) (w : World)
    (a : option Session * option error) : Prop :=
  match cookie_lookup m r (w_tick w) with
  | CookieError e => a = (None, Some (cookie_error m e))
  | LoginInProgress g _ => a = (Some (session_of m config g SessionData_zero), None)
  | NoSession g => a = (None, Some ErrSessionInvalid)
  | SessionId g id =>
      (∃ d, view (w_table w) !! id = Some d ∧ a = (Some (session_of m config g d), None)) ∨
      (∃ e, a = (None, Some (lookup_error e)) ∧ (db_up w → view (w_table w) !! id = None) ∧
            (db_up w → w_table w !! id = None → e = no_rows id))
  end.

Lemma twp_GetSession m config r (Q : option Session * option error → World → Prop) w :
  m_sessionImpl m = impl → has_tracer (r_ctx r) →
  (∀ a w', quiet w w' → get_session_post m config r w a → Q a w') →
  twp (GetSession m r config) Q w.
Proof.
  intros Hm Ht HQ. apply twp_with_span_tracer; [done|]. intros c w1 Hw1 Hc.
  assert (Htick : w_tick w1 = w_tick w) by (step_facts; congruence).
  apply twp_bind, twp_interact. rewrite Htick.
  unfold get_session_post, cookie_lookup in HQ.
  destruct (store_Get (w_tick w) (m_store m) r (m_cookieName m)) as [g [e|]];
    [apply twp_ret; intros; apply HQ; [solve_step|done]|].
  destruct (value_string g sessionStateName);
    [apply twp_ret; intros; apply HQ; [solve_step|done]|].
  apply twp_bind, twp_with_span_tracer; [done|]. intros c' w2 Hw2 _. simpl.
  destruct (value_string g sessionIdName) as [id|];
    [|apply twp_ret; intros; apply twp_ret; intros; apply HQ; [solve_step|done]].
  assert (Htab : w_table w2 = w_table w) by (step_facts; congruence).
  apply twp_bind. rewrite Hm. apply twp_impl_Get.
  - intros w3 d Hw3 Hd. apply twp_ret. intros w4 Hw4. apply twp_ret. intros w5 Hw5.
    apply HQ; [solve_step|]. left. exists d. rewrite <-Htab. unfold session_of. by rewrite Hm.
  - intros w3 e Hw3 Hno Hrows. assert (Hup : db_up w → db_up w2).
    { apply db_up_step. solve_step. }
    assert (Hlast : ∃ s, error_eq e sql_ErrNoRows = s) by eauto.
    destruct Hlast as [b Hb]. rewrite Hb.
    destruct b; apply twp_ret; intros w4 Hw4; apply twp_ret; intros w5 Hw5;
      (apply HQ; [solve_step|]); right; exists e; unfold lookup_error;
      rewrite Hb, <-Htab; repeat split; auto.
Qed.

(** *** Writing the session of a request *)

Definition fresh_id (id : string) (w w' : World) : Prop :=
  ∃ n, id = uuid_New n ∧ (w_tick w ≤ n < w_tick w')%nat.

(** What an operation that has failed may have done: nothing, or its work. *)
Definition add_tried (d : SessionData) (w w' : World) : Prop :=
  view (w_table w') = view (w_table w) ∨
  ∃ id, fresh_id id w w' ∧ view (w_table w) !! id = None ∧
        view (w_table w') = <[id := truncate d]> (view (w_table w)).

Definition update_tried (id : string) (d : SessionData) (w w' : World) : Prop :=
  view (w_table w') = view (w_table w) ∨
  ∃ old, view (w_table w) !! id = Some old ∧ Subject old = Subject d ∧
         view (w_table w') = <[id := truncate d]> (view (w_table w)).

Definition delete_tried (id : string) (w w' : World) : Prop :=
  view (w_table w') = view (w_table w) ∨ view (w_table w') = delete id (view (w_table w)).

Lemma twp_impl_Add ctx d (Q : string * option error → World → Prop) w :
  (∀ w' e, db_step w w' → add_tried d w w' → Q ("", Some e) w') →
  (∀ w' id, db_step w w' → view (w_table w) !! id = None → fresh_id id w w' →
     view (w_table w') = <[id := truncate d]> (view (w_table w)) → Q (id, None) w') →
  twp (Add impl ctx d) Q w.
Proof.
  intros Herr Hok.
  destruct (twp_conj _ _ _ _ (Add_refines (view:=view) (impl:=impl) ctx d w)
              (Add_fresh (view:=view) (impl:=impl) ctx d w)) as ([id [e|]] & Hrun & (Hs & Hspec) & Hf).
  - eexists. split; [exact Hrun|].
    destruct Hspec as [[Hid Hv]|(_ & [Hid _] & [k [e'|]] & [Hk Hv])]; simpl in Hid, Hv; subst id;
      apply Herr; try done; [by left..|right].
    exists k. split; [|done]. apply Hf; [done|]. rewrite Hv, lookup_insert_eq. by eexists.
  - destruct Hspec as [[Hn Hv]|(_ & [_ He] & _)]; [|done]. eexists. split; [exact Hrun|].
    apply Hok; [done..| |done]. apply Hf; [done|]. simpl in Hv. rewrite Hv, lookup_insert_eq. by eexists.
Qed.

Lemma twp_impl_Update ctx id d (Q : option error → World → Prop) w :
  (∀ w' e, db_step w w' → update_tried id d w w' → Q (Some e) w') →
  (∀ w' old, db_step w w' → view (w_table w) !! id = Some old → Subject old = Subject d →
     view (w_table w') = <[id := truncate d]> (view (w_table w)) → Q None w') →
  twp (Update impl ctx id d) Q w.
Proof.
  intros Herr Hok.
  destruct (Update_refines (view:=view) (impl:=impl) ctx id d w) as ([e|] & Hrun & Hs & Hspec).
  - eexists. split; [exact Hrun|]. apply Herr; [done|].
    destruct Hspec as [Hv|(_ & _ & [e'|] & Hv)]; [by left..|by right].
  - destruct Hspec as [(old & Ho & Hsub & Hv)|(_ & He & _)]; [|by destruct He].
    eexists. split; [exact Hrun|]. by eapply Hok.
Qed.

Lemma twp_impl_Delete ctx id (Q : option error → World → Prop) w :
  (∀ w' e, db_step w w' → delete_tried id w w' → Q (Some e) w') →
  (∀ w', db_step w w' → view (w_table w') = delete id (view (w_table w)) → Q None w') →
  twp (Delete impl ctx id) Q w.
Proof.
  intros Herr Hok.
  destruct (Delete_refines (view:=view) (impl:=impl) ctx id w) as ([e|] & Hrun & Hs & Hspec).
  - eexists. split; [exact Hrun|]. apply Herr; [done|].
    by apply spec_Delete_effect in Hspec.
  - destruct Hspec as [Hv|(_ & He & _)]; [|by destruct He].
    eexists. split; [exact Hrun|]. by apply Hok.
Qed.

(** [Save] failed: no cookie was set, and at most an orphan record was added. *)
Definition save_failed (w w' : World) : Prop :=
  session_step w w' ∧ rs_cookies (w_resp w') = rs_cookies (w_resp w) ∧
  (view (w_table w') = view (w_table w) ∨
   ∃ id d, fresh_id id w w' ∧ view (w_table w) !! id = None ∧
           view (w_table w') = <[id := d]> (view (w_table w))).

(** [Save] succeeded: a verified token is stored under a fresh id, and the cookie
    carries that id and no oauth state. *)
Definition save_done (s : Session) (token : Token) (w w' : World) : Prop :=
  ∃ sub raw id,
    session_step w w' ∧ verified (s_oidcConfig s) token sub raw ∧ fresh_id id w w' ∧
    view (w_table w) !! id = None ∧
    view (w_table w') = <[id := truncate (token_data sub raw token)]> (view (w_table w)) ∧
    saved (with_id (s_session s) id (s_timeout s)) w w'.

Lemma twp_Save s rw r token (Q : Session * option error → World → Prop) w :
  s_sessionImpl s = impl → has_tracer (r_ctx r) →
  (∀ s' e w', save_failed w w' → Q (s', Some e) w') →
  (∀ s' w', save_done s token w w' → Q (s', None) w') →
  twp (Save s rw r token) Q w.
Proof.
  intros Hi Ht Herr Hok. apply twp_with_span_tracer; [done|]. intros c w1 Hw1 Hc.
  apply twp_bind, twp_newData; [done|..].
  - intros w2 e Hw2. apply twp_ret. intros w3 Hw3.
    apply Herr. split; [solve_step|]. split; [step_facts; congruence|]. left.
    f_equal. step_facts. congruence.
  - intros w2 sub raw Hw2 Hv. simpl. apply twp_bind. rewrite Hi.
    assert (Htab : w_table w2 = w_table w) by (step_facts; congruence).
    apply twp_impl_Add.
    + intros w3 e Hw3 Hv3. apply twp_ret. intros w4 Hw4.
      apply Herr. split; [solve_step|]. split; [step_facts; congruence|].
      assert (Htab4 : w_table w4 = w_table w3) by (step_facts; congruence).
      unfold add_tried in Hv3. rewrite Htab, <-Htab4 in Hv3.
      destruct Hv3 as [Hv3|(id & (k & -> & Hk) & Hn & Hv3)]; [by left|right].
      exists (uuid_New k), (truncate (token_data sub raw token)). split; [|done].
      exists k. split; [done|]. step_facts. lia.
    + intros w3 id Hw3 Hn Hf Hv3. rewrite Htab in Hn, Hv3.
      apply twp_bind, twp_saveSession; [done|..].
      * intros w4 e Hw4. apply twp_ret. intros w5 Hw5.
        apply Herr. split; [solve_step|]. split; [step_facts; congruence|]. right.
        exists id, (truncate (token_data sub raw token)).
        split; [destruct Hf as (k & -> & Hk); exists k; split; [done|step_facts; lia]|].
        split; [done|]. rewrite <-Hv3. f_equal. step_facts. congruence.
      * intros w4 Hw4 (n & ck & Hn4 & Hck & Hcs). apply twp_ret. intros w5 Hw5.
        apply Hok. exists sub, raw, id. split; [solve_step|]. split; [done|].
        split; [destruct Hf as (k & -> & Hk); exists k; split; [done|step_facts; lia]|].
        split; [done|]. split; [rewrite <-Hv3; f_equal; step_facts; congruence|].
        exists n, ck. split; [step_facts; lia|]. split; [done|]. step_facts. congruence.
Qed.

(** [Update] failed: no cookie was set; the stored record may have been
    replaced when only the cookie could not be made. *)
Definition update_failed (w w' : World) : Prop :=
  session_step w w' ∧ rs_cookies (w_resp w') = rs_cookies (w_resp w) ∧
  (view (w_table w') = view (w_table w) ∨
   ∃ id old d, view (w_table w) !! id = Some old ∧ Subject old = Subject d ∧
               view (w_table w') = <[id := d]> (view (w_table w))).

(** [Update] succeeded: a verified token of the same subject replaces the record of
    the session id in the cookie, which is set again. *)
Definition update_done (s : Session) (token : Token) (s' : Session) (w w' : World) : Prop :=
  ∃ sub raw id old,
    session_step w w' ∧ verified (s_oidcConfig s) token sub raw ∧
    value_string (s_session s) sessionIdName = Some id ∧
    view (w_table w) !! id = Some old ∧ Subject old = sub ∧
    view (w_table w') = <[id := truncate (token_data sub raw token)]> (view (w_table w)) ∧
    s' = set_data s (token_data sub raw token) ∧
    saved (with_id (s_session s) id (s_timeout s)) w w'.

Lemma twp_Session_Update s rw r token (Q : Session * option error → World → Prop) w :
  s_sessionImpl s = impl → has_tracer (r_ctx r) →
  (∀ s' e w', update_failed w w' → Q (s', Some e) w') →
  (∀ s' w', update_done s token s' w w' → Q (s', None) w') →
  twp (Session_Update s rw r token) Q w.
Proof.
  intros Hi Ht Herr Hok. apply twp_with_span_tracer; [done|]. intros c w1 Hw1 Hc.
  assert (Hquiet : ∀ w2, quiet w w2 → update_failed w w2).
  { intros w2 Hw2. split; [solve_step|]. split; [step_facts; congruence|]. left.
    f_equal. step_facts. congruence. }
  apply twp_bind, twp_newData; [done|..].
  - intros w2 e Hw2. apply twp_ret. intros w3 Hw3. apply Herr, Hquiet. solve_step.
  - intros w2 sub raw Hw2 Hv. cbn beta iota zeta.
    change (s_session (set_data s _)) with (s_session s).
    destruct (value_string (s_session s) sessionIdName) as [id|] eqn:Hid;
      [|apply twp_ret; intros w3 Hw3; apply Herr, Hquiet; solve_step].
    apply twp_bind. simpl s_sessionImpl. rewrite Hi.
    assert (Htab : w_table w2 = w_table w) by (step_facts; congruence).
    apply twp_impl_Update.
    + intros w3 e Hw3 Hv3. apply twp_ret. intros w4 Hw4.
      apply Herr. split; [solve_step|]. split; [step_facts; congruence|].
      assert (Htab4 : w_table w4 = w_table w3) by (step_facts; congruence).
      unfold update_tried in Hv3. rewrite Htab, <-Htab4 in Hv3.
      destruct Hv3 as [Hv3|(old & Ho & Hsub & Hv3)]; [by left|right].
      by exists id, old, (truncate (token_data sub raw token)).
    + intros w3 old Hw3 Ho Hsub Hv3. rewrite Htab in Ho, Hv3. cbn [s_data set_data] in Hsub, Hv3.
      apply twp_bind, twp_saveSession; [done|..].
      * intros w4 e Hw4. apply twp_ret. intros w5 Hw5.
        apply Herr. split; [solve_step|]. split; [step_facts; congruence|]. right.
        exists id, old, (truncate (token_data sub raw token)). split; [done|]. split; [done|].
        rewrite <-Hv3. f_equal. step_facts. congruence.
      * intros w4 Hw4 (n & ck & Hn4 & Hck & Hcs). apply twp_ret. intros w5 Hw5.
        apply Hok. exists sub, raw, id, old. split; [solve_step|].
        do 4 (split; [done|]).
        split; [rewrite <-Hv3; f_equal; step_facts; congruence|]. split; [done|].
        exists n, ck. split; [step_facts; lia|]. split; [done|]. step_facts. congruence.
Qed.

Definition delete_failed (w w' : World) : Prop :=
  session_step w w' ∧ rs_cookies (w_resp w') = rs_cookies (w_resp w) ∧
  (view (w_table w') = view (w_table w) ∨
   ∃ id, view (w_table w') = delete id (view (w_table w))).

Definition delete_done (s : Session) (w w' : World) : Prop :=
  ∃ id, session_step w w' ∧ value_string (s_session s) sessionIdName = Some id ∧
    view (w_table w') = delete id (view (w_table w)) ∧
    saved (set_Values (s_session s) (gs_Values (s_session s)) (-1)) w w'.

Lemma twp_Session_Delete s rw r (Q : option error → World → Prop) w :
  s_sessionImpl s = impl → has_tracer (r_ctx r) →
  (∀ e w', delete_failed w w' → Q (Some e) w') →
  (∀ w', delete_done s w w' → Q None w') →
  twp (Session_Delete s rw r) Q w.
Proof.
  intros Hi Ht Herr Hok. apply twp_with_span_tracer; [done|]. intros c w1 Hw1 Hc.
  assert (Htab : w_table w1 = w_table w) by (step_facts; congruence).
  destruct (value_string (s_session s) sessionIdName) as [id|] eqn:Hid.
  - apply twp_bind. rewrite Hi. apply twp_impl_Delete.
    + intros w3 e Hw3 Hv3. apply twp_ret. intros w4 Hw4.
      apply Herr. split; [solve_step|]. split; [step_facts; congruence|].
      assert (Htab4 : w_table w4 = w_table w3) by (step_facts; congruence).
      unfold delete_tried in Hv3. rewrite Htab, <-Htab4 in Hv3.
      destruct Hv3 as [Hv3|Hv3]; [by left|right]. by exists id.
    + intros w3 Hw3 Hv3. rewrite Htab in Hv3. apply twp_gs_Save.
      * intros e w4 Hw4. apply Herr. split; [solve_step|]. split; [step_facts; congruence|].
        right. exists id. rewrite <-Hv3. f_equal. step_facts. congruence.
      * intros w4 ck Hw4 Htick Hck Hcs w5 Hw5. apply Hok. exists id. split; [solve_step|].
        split; [done|]. split; [rewrite <-Hv3; f_equal; step_facts; congruence|].
        eexists _, ck. split; [|split; [exact Hck|]]; step_facts; [lia|congruence].
  - apply twp_ret. intros w2 Hw2. apply Herr. split; [solve_step|].
    split; [step_facts; congruence|]. left. f_equal. step_facts. congruence.
Qed.
End WithStore.
