(* ===== verification/CookieLaws.v ===== *)
(** * What the handlers rely on of gorilla/sessions

    The documented behaviour of the cookie store: a new session carries the options
    of its store; a saved session becomes a cookie with its name and options, and
    the store decodes the values of a cookie it made, when the cookie has a valid name
    and is not older than the codecs allow.  The theorems that follow a session from
    one request to the next are proved against this class. *)

From stdpp Require Import base gmap strings list option.
From Stdlib Require Import ZArith Lia.
From S2P Require Import Prelude GoBase GoStrings Encoding World Telemetry Database Oidc.
From S2P Require Import SessionConfig.
From S2P Require Import Sessions SessionLemmas.

#[local] Open Scope Z_scope.

(** gorilla/sessions wants the name of a cookie to be a token. *)
Definition valid_cookie_name (name : string) : bool :=
  negb (String.eqb name "") && is_token name.

(** The codecs of [sessions.NewCookieStore] refuse a cookie that was made more than 30
    days ago; the program does not change that. *)
Definition codec_max_age : Z := 86400 * 30.

Definition not_too_old `{!Clock} (made read : nat) : Prop :=
  Time_Unix (clock_now read) - Time_Unix (clock_now made) ≤ codec_max_age.

Class CookieLaws `{!Gorilla} `{!Clock} : Prop := {
  (** a session made or read by a store *)
  store_New_fields n st r name g :
    store_New n st r name = (g, None) →
    gs_Name g = name ∧ gs_store g = st ∧ gs_Options g = cs_Options st;
  store_Get_fields n st r name g :
    store_Get n st r name = (g, None) →
    gs_Name g = name ∧ gs_store g = st ∧ gs_Options g = cs_Options st;
  (** a saved session *)
  session_cookie_fields n g c :
    session_cookie n g = Ok c → c_Name c = gs_Name g ∧ c_Options c = gs_Options g;
  (** sent back by the client *)
  store_Get_saved n n' g c r :
    session_cookie n g = Ok c → valid_cookie_name (gs_Name g) = true → not_too_old n n' →
    r_Cookies r = [(c_Name c, c_Value c)] →
    ∃ g', store_Get n' (gs_store g) r (gs_Name g) = (g', None) ∧ gs_Values g' = gs_Values g;
  (** a request without cookies *)
  store_New_empty n st r name :
    r_Cookies r = [] → ∃ g, store_New n st r name = (g, None) ∧ gs_Values g = ∅
}.

(** [hardened st c]: the cookie has the attributes of the store, but for its age. *)
Definition hardened (st : CookieStore) (c : Cookie) : Prop :=
  ∃ age, c_Options c = set_MaxAge (cs_Options st) age.

Section CookieLemmas.
Context `{!Gorilla} `{!Clock} `{!CookieLaws}.

(** A saved session is found again under the same values. *)
Lemma saved_cookie g vs age w w' :
  saved (set_Values g vs age) w w' →
  ∃ c n, rs_cookies (w_resp w') = rs_cookies (w_resp w) ++ [c] ∧
    c_Options c = set_MaxAge (gs_Options g) age ∧ c_Name c = gs_Name g ∧
    (w_tick w ≤ n < w_tick w')%nat ∧
    ∀ n' r, valid_cookie_name (gs_Name g) = true → not_too_old n n' →
      r_Cookies r = [(c_Name c, c_Value c)] →
      ∃ g', store_Get n' (gs_store g) r (gs_Name g) = (g', None) ∧ gs_Values g' = vs.
Proof.
  intros (n & c & Hn & Hc & Hcs). exists c, n. split; [done|].
  destruct (session_cookie_fields _ _ _ Hc) as [Hname Hopt].
  split; [exact Hopt|]. split; [exact Hname|]. split; [exact Hn|]. intros n' r Hv Ho Hr.
  exact (store_Get_saved _ n' _ _ _ Hc Hv Ho Hr).
Qed.

(** Reading back the cookie of a login in progress, and of a session. *)
Lemma cookie_lookup_state m r n g state :
  store_Get n (m_store m) r (m_cookieName m) = (g, None) →
  value_string g sessionStateName = Some state → cookie_lookup m r n = LoginInProgress g state.
Proof. unfold cookie_lookup. by intros -> ->. Qed.

Lemma cookie_lookup_session m r n g id :
  store_Get n (m_store m) r (m_cookieName m) = (g, None) →
  value_string g sessionStateName = None → value_string g sessionIdName = Some id →
  cookie_lookup m r n = SessionId g id.
Proof. unfold cookie_lookup. by intros -> -> ->. Qed.
End CookieLemmas.
