(* ===== verification/Handlers.v ===== *)
(** * sessions/middleware.go and sessions/handler.go

    The authentication middleware and the login, callback, logout and userinfo
    handlers. *)

From stdpp Require Import base gmap strings list option numbers.
From Stdlib Require Import ZArith Lia Ascii String.
From S2P Require Import Prelude GoBase Encoding World Telemetry Zlogger Database Oidc.
From S2P Require Import SessionConfig Sessions.

#[local] Open Scope Z_scope.
#[local] Open Scope string_scope.

(** ** net/http: Redirect *)

(** [htmlReplacer] and [hexEscapeNonASCII] of net/http. *)
Fixpoint htmlEscape (s : string) : string :=
  match s with
  | EmptyString => ""
  | String c rest =>
      (if Ascii.eqb c "&" then "&amp;"
       else if Ascii.eqb c "<" then "&lt;"
       else if Ascii.eqb c ">" then "&gt;"
       else if Ascii.eqb c "034" then "&#34;"
       else if Ascii.eqb c "'" then "&#39;"
       else String c "") +:+ htmlEscape rest
  end.

Fixpoint hexEscapeNonASCII (s : string) : string :=
  match s with
  | EmptyString => ""
  | String c rest =>
      (if N.leb 128 (N_of_ascii c) then
         String "%" (String (lowerhex (N.shiftr (N_of_ascii c) 4))
                      (String (lowerhex (N.land (N_of_ascii c) 15)) ""))
       else String c "") +:+ hexEscapeNonASCII rest
  end.

Section Redirect.
Context `{!Network} `{!Otel} `{!Redirector}.

Definition http_Redirect (w : ResponseWriter) (r : Request) (url : string) (code : Z)
    : IO unit :=
  let url := redirect_location (URL_Path (r_URL r)) url in
  h ← gets (λ w, rs_header (w_resp w));
  let hadCT := match h !! "Content-Type" with Some _ => true | None => false end in
  let get_or_head := String.eqb (r_Method r) "GET" || String.eqb (r_Method r) "HEAD" in
  _ ← rw_Header_Set w "Location" (hexEscapeNonASCII url);
  _ ← (if negb hadCT && get_or_head
       then rw_Header_Set w "Content-Type" "text/html; charset=utf-8" else mret tt);
  _ ← rw_WriteHeader w code;
  if negb hadCT && String.eqb (r_Method r) "GET" then
    _ ← rw_Write w ("<a href=" +:+ dquote +:+ htmlEscape url +:+ dquote +:+ ">"
                    +:+ StatusText code +:+ "</a>." +:+ String "010" (String "010" ""));
    mret tt
  else mret tt.
End Redirect.

(** How reading and closing the body of an answer may fail. *)
Class BodyFault : Type := {
  body_read_error : nat → option error;
  body_close_error : nat → option error
}.

Section Handlers.
Context `{!Clock} `{!Network} `{!Otel} `{!Rand} `{!Redirector}.
Context `{!Gorilla} `{!OidcLib} `{!OAuth2} `{!BodyFault}.

(** ** middleware.go *)

(** The lines after the error switch; a nil session is dereferenced. *)
Definition authenticated (config : oidc_Config) (next : Handler) (session : option Session)
    : Handler := λ w r,
  match session with
  | None => panic nil_dereference
  | Some session =>
      let serve (session : Session) :=
        let ctx := context_WithValue (r_ctx r) ContextKeyAccessTokenName
                     (AnyString (AccessToken (s_data session))) in
        next w (WithContext r ctx) in
      expired ← SessionData_IsExpired (s_data session);
      if expired : bool then
        token ← interact (λ n, oauth2_TokenSource_Token n (oauth2_config config)
                                 (Token_of_refresh (RefreshToken (s_data session))));
        match token with
        | Err err => Logger_JsonError w 401 "cannot renew the access token" (Some err)
        | Ok token =>
            '(session, err) ← Session_Update session w r token;
            match err with
            | Some err => Logger_JsonError w 500 "cannot update the session" (Some err)
            | None => serve session
            end
        end
      else serve session
  end.

Definition AuthenticationMiddleware (m : Manager) (config : oidc_Config) (next : Handler)
    : Handler := λ w r,
  _ ← zlogger_FromContext (r_ctx r);
  '(session, err) ← GetSession m r config;
  match err with
  | Some err =>
      if error_eq err ErrCannotGetCookie then
        _ ← Logger_JsonError w 401 "invalid session data" (Some err);
        authenticated config next session w r
      else if error_eq err ErrSessionNotFound then
        Logger_JsonError w 401 "no session found" (Some err)
      else if error_eq err ErrSessionInvalid then
        Logger_JsonError w 401 "invalid or expired session" (Some err)
      else Logger_JsonError w 500 "cannot retrieve the session" (Some err)
  | None => authenticated config next session w r
  end.

(** ** handler.go *)

(** [make([]byte, 128)] filled by [rand.Read], whose error is ignored. *)
Fixpoint zero_bytes (n : nat) : string :=
  match n with
  | O => ""
  | S n => String "000" (zero_bytes n)
  end.

Definition fill (n : nat) (read : string) : string :=
  String.substring 0 n (read +:+ zero_bytes n).

Definition generateOAuthState : IO string :=
  '(read, _) ← interact (λ n, rand_Read n 128);
  mret (base64_URLEncoding (fill 128 read)).

Definition LoginHandlerOidc (m : Manager) (config : oidc_Config) : Handler := λ w r,
  _ ← zlogger_FromContext (r_ctx r);
  '(session, err) ← NewSession m r config;
  match err, session with
  | Some err, _ => Logger_JsonError w 500 "cannot create a new session" (Some err)
  | None, None => panic nil_dereference
  | None, Some session =>
      state ← generateOAuthState;
      err ← saveState session w r state (m_loginTimeout m);
      match err with
      | Some err =>
          Logger_JsonError w 500 "cannot save the oauth state in the session" (Some err)
      | None =>
          let loginURL := oauth2_AuthCodeURL (oauth2_config config) state in
          http_Redirect w r loginURL 302
      end
  end.

Definition CallbackHandlerOidc (m : Manager) (config : oidc_Config)
    (postLoginRedirectURI : string) : Handler := λ w r,
  _ ← zlogger_FromContext (r_ctx r);
  '(session, err) ← GetSession m r config;
  match err, session with
  | Some err, _ =>
      Logger_JsonError w 500 "cannot retrieve the session for oidc callback" (Some err)
  | None, None => panic nil_dereference
  | None, Some session =>
      let responseState := Query_Get r sessionStateName in
      state ← getState session r;
      if negb (String.eqb state responseState) then
        Logger_JsonError w 401 "cannot validate state value for oidc callback" None
      else
        token ← interact (λ n, oauth2_Exchange n (oauth2_config config) (FormValue r "code"));
        match token with
        | Err err =>
            Logger_JsonError w 401 "cannot validate oauth code for oidc callback" (Some err)
        | Ok token =>
            '(newSession, err) ← NewSession m r config;
            match err, newSession with
            | Some err, _ =>
                Logger_JsonError w 500
                  "cannot reinitialize the existing session for oidc callback" (Some err)
            | None, None => panic nil_dereference
            | None, Some newSession =>
                '(_, err) ← Save newSession w r token;
                match err with
                | Some err =>
                    Logger_JsonError w 500
                      "cannot save the new session for oidc callback" (Some err)
                | None => http_Redirect w r postLoginRedirectURI 302
                end
            end
        end
  end.

Definition logout_query (id_token postLogoutRedirectURI : string) : string :=
  "id_token_hint=" +:+ QueryEscape id_token +:+ "&post_logout_redirect_uri="
    +:+ QueryEscape postLogoutRedirectURI.

Definition LogoutHandlerOidc (m : Manager) (config : oidc_Config)
    (postLogoutRedirectURI : string) : Handler := λ w r,
  _ ← zlogger_FromContext (r_ctx r);
  '(session, err) ← GetSession m r config;
  match err, session with
  | Some err, _ =>
      Logger_JsonError w 500 "cannot retrieve session for logout handler" (Some err)
  | None, None => panic nil_dereference
  | None, Some session =>
      err ← Session_Delete session w r;
      match err with
      | Some err =>
          Logger_JsonError w 500 "cannot delete the session for logout handler" (Some err)
      | None =>
          let query := logout_query (IDToken (s_data session)) postLogoutRedirectURI in
          let logoutUrl := EndSessionEndpoint (OidcEndpoints config) +:+ "?" +:+ query in
          http_Redirect w r logoutUrl 302
      end
  end.

Definition close_body : IO unit :=
  err ← interact body_close_error;
  match err with
  | Some err => Logger_SetError "error closing userinfo handler body: " (Some err)
  | None => mret tt
  end.

(** [io.Copy(w, resp.Body)]: one write for every chunk that is read, until the body
    ends or a read fails. *)
Fixpoint io_Copy (w : ResponseWriter) (body : list string) : IO (option error) :=
  match body with
  | [] => interact body_read_error
  | chunk :: body =>
      '(_, err) ← rw_Write w chunk;
      match err with
      | Some err => mret (Some err)
      | None => io_Copy w body
      end
  end.

(** The handler behind the middleware. *)

Definition userInfo (config : oidc_Config) : Handler := λ w r,
  _ ← zlogger_FromContext (r_ctx r);
  match ctx_Value (r_ctx r) ContextKeyAccessTokenName with
  | Some (AnyString accessToken) =>
      resp ← interact (λ n, oauth2_Client_Get n (oauth2_config config)
               (Token_of_access accessToken) (UserInfoEndpoint (OidcEndpoints config)));
      match resp with
      | Err err =>
          Logger_JsonError w 500 "cannot retrieve the oidc userinfo endpoint" (Some err)
      | Ok (_, body) =>
          defer close_body (
            _ ← rw_Header_Set w "Content-Type" "application/json";
            _ ← rw_WriteHeader w 200;
            err ← io_Copy w body;
            match err with
            | Some err =>
                Logger_JsonError w 500 "cannot copy userinfo response to the client" (Some err)
            | None => mret tt
            end)
      end
  | _ =>
      Logger_JsonError w 500 "cannot retrieve the access token from the context" None
  end.

Definition UserInfoHandlerOidc (m : Manager) (config : oidc_Config) : Handler :=
  AuthenticationMiddleware m config (userInfo config).
End Handlers.
