(* ===== verification/Httputil.v ===== *)
(** * net/http/httputil: the headers the reverse proxy sends

    What [httputil.ReverseProxy] does to the headers of a request after its Director
    has run, and to the ones of the answer. *)

From stdpp Require Import base gmap strings list option.
From Stdlib Require Import ZArith NArith Lia Ascii String.
From S2P Require Import Prelude GoBase GoStrings Encoding World.

#[local] Open Scope string_scope.

(** [h[k]], and [h.Del(k)], which makes the name canonical. *)
Definition Header_Values (h : Header) (k : string) : list string := default [] (h !! k).
Definition Header_Del (h : Header) (k : string) : Header := delete (CanonicalHeaderKey k) h.

(** The headers the [Connection] header names. *)
Definition connection_names (h : Header) : list string :=
  List.filter (λ s, negb (String.eqb s ""))
    (trim is_textproto_space <$> (Header_Values h "Connection" ≫= λ v, strings_Split v ",")).

Definition hopHeaders : list string :=
  ["Connection"; "Proxy-Connection"; "Keep-Alive"; "Proxy-Authenticate"; "Proxy-Authorization";
   "Te"; "Trailer"; "Transfer-Encoding"; "Upgrade"].

Definition removeHopByHopHeaders (h : Header) : Header :=
  fold_left Header_Del hopHeaders (fold_left Header_Del (connection_names h) h).

Definition upgradeType (h : Header) : string :=
  if contains_token (Header_Values h "Connection") "Upgrade" then Header_Get h "Upgrade" else "".

Definition forwarded_for (remote_addr : string) (h : Header) : Header :=
  match SplitHostPort_host remote_addr with
  | None => h
  | Some clientIP =>
      match h !! "X-Forwarded-For" with
      | Some [] => h
      | Some prior => Header_Set h "X-Forwarded-For" (String.concat ", " (prior ++ [clientIP]))
      | None => Header_Set h "X-Forwarded-For" clientIP
      end
  end.

(** The headers of the outgoing request, for the incoming one and what the Director has
    made of its headers; the text of the error does not quote the protocol here. *)
Definition outgoing_headers (r : Request) (h : Header) : result error Header :=
  let reqUpType := upgradeType h in
  if negb (is_print reqUpType) then
    Err (ErrorString "client tried to switch to invalid protocol")
  else
    let h := removeHopByHopHeaders h in
    let h := if contains_token (Header_Values (r_Header r) "Te") "trailers"
             then Header_Set h "Te" "trailers" else h in
    let h := if String.eqb reqUpType "" then h
             else Header_Set (Header_Set h "Connection" "Upgrade") "Upgrade" reqUpType in
    let h := forwarded_for (r_RemoteAddr r) h in
    Ok (match h !! "User-Agent" with
        | Some _ => h
        | None => Header_Set h "User-Agent" ""
        end).

(** ** Lemmas *)

(** The client has asked for the header [k] to be dropped. *)
Definition drops (h : Header) (k : string) : bool :=
  existsb (λ s, String.eqb (CanonicalHeaderKey s) k) (connection_names h).

Lemma lookup_Header_Del h k k' :
  Header_Del h k !! k' = if String.eqb (CanonicalHeaderKey k) k' then None else h !! k'.
Proof.
  unfold Header_Del, Header. destruct (String.eqb_spec (CanonicalHeaderKey k) k') as [<-|Hne].
  - apply lookup_delete_eq.
  - by apply lookup_delete_ne.
Qed.

Lemma lookup_Header_Dels l h k :
  fold_left Header_Del l h !! k
  = if existsb (λ s, String.eqb (CanonicalHeaderKey s) k) l then None else h !! k.
Proof.
  revert h. induction l as [|s l IH]; intros h; [done|]. simpl. rewrite IH, lookup_Header_Del.
  by destruct (String.eqb _ _), (existsb _ l).
Qed.

(** A header that is neither hop-by-hop nor one the proxy writes. *)
Definition end_to_end (k : string) : Prop :=
  existsb (λ s, String.eqb s k) hopHeaders = false ∧ k ≠ "X-Forwarded-For" ∧ k ≠ "User-Agent".

Lemma lookup_removeHopByHopHeaders h k :
  end_to_end k → removeHopByHopHeaders h !! k = if drops h k then None else h !! k.
Proof.
  intros (Hh & _). unfold removeHopByHopHeaders. rewrite lookup_Header_Dels.
  change (existsb (λ s, String.eqb (CanonicalHeaderKey s) k) hopHeaders)
    with (existsb (λ s, String.eqb s k) hopHeaders).
  rewrite Hh. apply lookup_Header_Dels.
Qed.

Lemma lookup_Header_Set_ne h k k' v : k ≠ k' → Header_Set h k v !! k' = h !! k'.
Proof. apply lookup_insert_ne. Qed.

Lemma lookup_forwarded_for addr h k :
  k ≠ "X-Forwarded-For" → forwarded_for addr h !! k = h !! k.
Proof.
  intros Hk. unfold forwarded_for. destruct (SplitHostPort_host addr); [|done].
  destruct (h !! "X-Forwarded-For") as [[|]|]; [done|..]; by apply lookup_Header_Set_ne.
Qed.

(** What reaches the target of an end-to-end header: all of it, unless the client has
    asked for it to be dropped. *)
Lemma lookup_outgoing_headers r h h' k :
  outgoing_headers r h = Ok h' → end_to_end k →
  h' !! k = if drops h k then None else h !! k.
Proof.
  unfold outgoing_headers. destruct (negb _); [done|]. intros [= <-] Hk.
  rewrite <-(lookup_removeHopByHopHeaders h k Hk). destruct Hk as (Hh & Hx & Hu).
  assert (Hne : ∀ s, In s hopHeaders → s ≠ k).
  { intros s Hs ->. assert (Ht : existsb (λ s, String.eqb s k) hopHeaders = true).
    { apply existsb_exists. exists k. split; [done|]. apply String.eqb_refl. }
    congruence. }
  assert (Hlast : ∀ h0 : Header, (match h0 !! "User-Agent" with
      Some _ => h0 | None => Header_Set h0 "User-Agent" "" end) !! k = h0 !! k).
  { intros h0. destruct (h0 !! "User-Agent"); [done|]. by apply lookup_Header_Set_ne. }
  rewrite Hlast, lookup_forwarded_for by done.
  assert (Hup : ∀ h0 u, (if String.eqb u "" then h0
      else Header_Set (Header_Set h0 "Connection" "Upgrade") "Upgrade" u) !! k = h0 !! k).
  { intros h0 u. destruct (String.eqb u ""); [done|].
    rewrite !lookup_Header_Set_ne; [done|..]; apply Hne; simpl; tauto. }
  rewrite Hup. destruct (contains_token _ _); [|done].
  apply lookup_Header_Set_ne, Hne. simpl. tauto.
Qed.
