(* ===== verification/Server.v ===== *)
(** * main.go and proxy.go: the routes of the server and the reverse proxy *)

From stdpp Require Import base gmap strings list option numbers.
From Stdlib Require Import ZArith Lia Ascii String.
From S2P Require Import Prelude GoBase GoStrings Encoding World Telemetry Zlogger Database.
From S2P Require Import Oidc SessionConfig Sessions Handlers Httputil.

#[local] Open Scope Z_scope.
#[local] Open Scope string_scope.

(** ** Libraries *)

(** [url.Parse] *)
Class UrlParser : Type := { url_Parse : string → result error URL }.

(** The parameters of the transport of a proxy. *)
Record ProxyConfig : Type := mkProxyConfig {
  Timeout : Duration;
  KeepAlive : Duration;
  MaxIdleConns : Z;
  IdleConnTimeout : Duration
}.

(** The transport of [httputil.ReverseProxy] and the network behind it: for the outgoing
    request, the interim responses that are forwarded (none, in the versions of Go that
    do not forward them), and the answer of the target (status, headers, body in
    chunks) or an error; and the error that may cut the body.  The status of an answer
    is what the status line says, three digits. *)
Class ReverseProxy : Type := {
  proxy_RoundTrip : nat → ProxyConfig → Request →
    list (Z * Header) * result error (Z * Header * list string);
  proxy_body_error : nat → option error
}.

(** [http.ErrAbortHandler], with which the reverse proxy panics when it cannot copy the
    body to the end. *)
Definition ErrAbortHandler : string := "net/http: abort Handler".

(** [otel.GetTextMapPropagator().Inject(ctx, HeaderCarrier(h))] *)
Class Propagator : Type := { propagator_Inject : Context → Header → Header }.

(** What [http.ServeMux] does before it looks for a pattern: the address of the
    redirect it answers when the path is not in canonical form. *)
Class MuxPaths : Type := { mux_redirect : Request → option string }.

Section Proxy.
Context `{!Clock} `{!Network} `{!Otel} `{!ReverseProxy} `{!Propagator}.

(** ** proxy.go *)

Definition set_request (r : Request) (u : URL) (host : string) (h : Header) : Request :=
  mkRequest (r_Method r) u (r_PostForm r) (r_Cookies r) h host (r_RemoteAddr r)
    (r_RequestURI r) (r_Proto r) (r_ctx r).

(** The Director of the proxy for [targetURL]. *)
Definition Director (targetURL : URL) (r : Request) : Request :=
  let h := r_Header r in
  let h := match ctx_Value (r_ctx r) ContextKeyAccessTokenName with
           | Some (AnyString accessToken) =>
               Header_Set h "Authorization" ("Bearer " +:+ accessToken)
           | _ => h
           end in
  let h := Header_Add h "X-Forwarded-For" (r_RemoteAddr r) in
  let h := propagator_Inject (r_ctx r) h in
  set_request r targetURL (URL_Host targetURL) h.

(** The ErrorHandler, for the context of [NewProxy]. *)
Definition proxy_ErrorHandler (ctx : Context) (w : ResponseWriter) (r : Request) (err : error)
    : IO unit :=
  _ ← zlogger_FromContext ctx;
  Logger_JsonError w 502 "reverse proxy error" (Some err).

Record Proxy : Type := mkProxy {
  px_ctx : Context;
  px_target : URL;
  px_config : ProxyConfig
}.

Definition NewProxy `{!UrlParser} (ctx : Context) (targetHost : string) (config : ProxyConfig)
    : result error Proxy :=
  match url_Parse targetHost with
  | Err err => Err err
  | Ok targetURL => Ok (mkProxy ctx targetURL config)
  end.

(** The values of a header of the answer are added to the ones already there. *)
Definition copy_headers (from : Header) (h : Header) : Header :=
  map_fold (λ k vs h, fold_left (λ h v, Header_Add h k v) vs h) h from.

Fixpoint copyResponse (w : ResponseWriter) (body : list string) : IO unit :=
  match body with
  | [] =>
      err ← interact proxy_body_error;
      match err with
      | Some _ => panic ErrAbortHandler
      | None => mret tt
      end
  | chunk :: body =>
      '(_, err) ← rw_Write w chunk;
      match err with
      | Some _ => panic ErrAbortHandler
      | None => copyResponse w body
      end
  end.

Definition add_headers (h : Header) : IO unit :=
  modify (set_resp (λ rs, mkResponse (copy_headers h (rs_header rs)) (rs_cookies rs)
                            (rs_sent rs) (rs_body rs))).

(** Interim responses are forwarded as they come; the header map, with the cookies that
    were set in it, is emptied after each. *)
Fixpoint forward_interim (w : ResponseWriter) (interim : list (Z * Header)) : IO unit :=
  match interim with
  | [] => mret tt
  | (code, h) :: interim =>
      _ ← add_headers h;
      _ ← rw_WriteHeader w code;
      _ ← modify (set_resp (λ rs, mkResponse ∅ [] (rs_sent rs) (rs_body rs)));
      forward_interim w interim
  end.

(** None of the writers the program puts around a response is an [http.Hijacker]. *)
Definition ErrNoHijacker : error :=
  ErrorString "can't switch protocols using non-Hijacker ResponseWriter type".

(** The request the transport is given. *)
Definition outgoing_request (p : Proxy) (r : Request) : result error Request :=
  let out := Director (px_target p) r in
  match outgoing_headers r (r_Header out) with
  | Err err => Err err
  | Ok h => Ok (set_request out (r_URL out) (r_Host out) h)
  end.

(** [proxy.ServeHTTP(w, r)] *)
Definition proxy_ServeHTTP (p : Proxy) : Handler := λ w r,
  match outgoing_request p r with
  | Err err => proxy_ErrorHandler (px_ctx p) w r err
  | Ok out =>
      '(interim, resp) ← interact (λ n, proxy_RoundTrip n (px_config p) out);
      _ ← forward_interim w interim;
      match resp with
      | Err err => proxy_ErrorHandler (px_ctx p) w r err
      | Ok (status, h, body) =>
          if (status =? 101)%Z then proxy_ErrorHandler (px_ctx p) w r ErrNoHijacker
          else
            _ ← add_headers (removeHopByHopHeaders h);
            _ ← rw_WriteHeader w status;
            copyResponse w body
      end
  end.

Definition ProxyRequestHandler (p : Proxy) : Handler := λ w r, proxy_ServeHTTP p w r.

(** ** main.go: handlers and routes *)

Definition rootHandler : Handler := λ w r,
  _ ← zlogger_FromContext (r_ctx r);
  Logger_JsonError w 404 "" None.
End Proxy.

Definition tracer_name_ : string := "gitlab.oitech.it/devops/token-handler".

(** [http.ServeMux]: an exact pattern first, then the longest pattern that ends with a
    slash and is a prefix of the path. *)
Fixpoint mux_exact (path : string) (routes : list (string * Handler)) : option Handler :=
  match routes with
  | [] => None
  | (p, h) :: routes => if String.eqb p path then Some h else mux_exact path routes
  end.

Definition ends_with_slash (p : string) : bool :=
  String.eqb (String.substring (String.length p - 1) 1 p) "/".

Fixpoint mux_prefix (path : string) (routes : list (string * Handler)) (best : option (string * Handler))
    : option (string * Handler) :=
  match routes with
  | [] => best
  | (p, h) :: routes =>
      let better := match best with
                    | Some (q, _) => Nat.ltb (String.length q) (String.length p)
                    | None => true
                    end in
      if ends_with_slash p && String.prefix p path && better then mux_prefix path routes (Some (p, h))
      else mux_prefix path routes best
  end.

Definition mux_match (path : string) (routes : list (string * Handler)) : option Handler :=
  match mux_exact path routes with
  | Some h => Some h
  | None => snd <$> mux_prefix path routes None
  end.

Section Server.
Context `{!Clock} `{!Network} `{!Otel} `{!Rand} `{!Redirector} `{!RealIP}.
Context `{!Gorilla} `{!OidcLib} `{!OAuth2} `{!BodyFault}.
Context `{!ReverseProxy} `{!Propagator} `{!MuxPaths}.

(** The pages of [net/http] for a path without a pattern. *)
Definition http_NotFound : Handler := λ w r,
  _ ← rw_Header_Set w "Content-Type" "text/plain; charset=utf-8";
  _ ← rw_Header_Set w "X-Content-Type-Options" "nosniff";
  _ ← rw_WriteHeader w 404;
  _ ← rw_Write w ("404 page not found" +:+ String "010" "");
  mret tt.

Definition mux_ServeHTTP (routes : list (string * Handler)) : Handler := λ w r,
  match mux_redirect r with
  | Some url => http_Redirect w r url 301
  | None =>
      match mux_match (URL_Path (r_URL r)) routes with
      | Some h => h w r
      | None => http_NotFound w r
      end
  end.

(** The routes of the server; [proxies] are the endpoints of the proxy configuration
    with their proxies. *)
Definition routes (m : Manager) (config : oidc_Config) (post_login post_logout : string)
    (proxies : list (string * Proxy)) : list (string * Handler) :=
  [("/login", opentelemetry_Middleware (LoginHandlerOidc m config) tracer_name_ "GET /login");
   ("/callback", opentelemetry_Middleware (CallbackHandlerOidc m config post_login)
                   tracer_name_ "GET /callback");
   ("/logout", opentelemetry_Middleware (LogoutHandlerOidc m config post_logout)
                 tracer_name_ "GET /logout");
   ("/userinfo", opentelemetry_Middleware (UserInfoHandlerOidc m config)
                   tracer_name_ "GET /userinfo")]
  ++ ((λ ep : string * Proxy,
         (ep.1, opentelemetry_Middleware
                  (AuthenticationMiddleware m config (ProxyRequestHandler ep.2))
                  tracer_name_ "GET /proxy")) <$> proxies)
  ++ [("/", opentelemetry_Middleware rootHandler tracer_name_ "GET /")].

(** [zlog.Middleware(mux)], which [http.ListenAndServe] serves. *)
Definition server (m : Manager) (config : oidc_Config) (post_login post_logout : string)
    (proxies : list (string * Proxy)) : Handler :=
  Logger_Middleware (mux_ServeHTTP (routes m config post_login post_logout proxies)).
End Server.

(** What [net/http] does with a request: the handler runs, and when it returns without
    a status line, 200 is sent. *)
Definition http_serve (h : Handler) (r : Request) : IO unit :=
  _ ← h NetHttpWriter r;
  rs ← gets w_resp;
  match rs_sent rs with
  | Some _ => mret tt
  | None => send_status 200
  end.
