(* ===== verification/Startup.v ===== *)
(** * main.go: the start of the process, and the constructors it calls

    The singleton constructors of the two backends (database/sqlite.go and
    database/postgresql.go), [ReadProxyConfig], and [main] up to the moment the
    server listens.  [os.Exit], which ends the process without running the deferred
    calls, is a value of [main_end]; a Go panic is the [Panic] of the monad. *)

From stdpp Require Import base gmap strings list option numbers.
From Stdlib Require Import ZArith Lia String.
From S2P Require Import Prelude GoBase Encoding World Telemetry Zlogger Database Sqlite.
From S2P Require Import Postgresql Oidc SessionConfig Sessions Config LoadConfig Manager.
From S2P Require Import Handlers Server.

#[local] Open Scope Z_scope.
#[local] Open Scope string_scope.

(** ** Libraries *)

(** [sql.Open(driver, dsn)] and [pgx.Connect(ctx, connString)]; and what the database
    behind an address holds: [None] when it has no table [sessions] yet. *)
Class Databases : Type := {
  sql_Open : nat → string → string → option error;
  pgx_Connect : nat → string → option error;
  stored_table : string → option (gmap string Row)
}.

(** [encryption.NewXChaCha20Cipher(key, oldKey)], and the text of its
    [ErrNoEncryptionKeys]. *)
Class CipherLib : Type := {
  NewXChaCha20Cipher : string → string → option HexCipher * option error;
  ErrNoEncryptionKeys_text : string
}.

Definition ErrNoEncryptionKeys `{!CipherLib} : error :=
  ErrVar "encryption" "ErrNoEncryptionKeys" ErrNoEncryptionKeys_text.

(** What zap encodes entries with: the fields [NewLogger] sets over one of its presets,
    which are zap's. *)
Inductive time_encoder : Type := ISO8601TimeEncoder | PresetTimeEncoder.
Inductive level_encoder : Type := LowercaseLevelEncoder | PresetLevelEncoder.

Record EncoderConfig : Type := mkEncoderConfig {
  EncodeTime : time_encoder;
  EncodeLevel : level_encoder;
  MessageKey : string;
  CallerKey : string;
  other_keys : list (string * string)
}.

Inductive zap_encoder : Type :=
  | NewJSONEncoder (c : EncoderConfig)
  | NewConsoleEncoder (c : EncoderConfig).

Inductive zap_option : Type :=
  | AddCaller
  | AddCallerSkip (skip : Z)
  | AddStacktrace (from : Level)
  | Development.

(** A [*zap.Logger]: the encoder, where it writes, from which level, and its options. *)
Record ZapLogger : Type := mkZapLogger {
  zap_core : zap_encoder * list string * Level;
  zap_options : list zap_option
}.

(** What [NewLogger] and [InitTracer] call: the presets of zap, the parser of its
    levels, which refuses what it does not know, and the exporter of jaeger. *)
Class Telemetry_libs : Type := {
  zap_NewProductionEncoderConfig : EncoderConfig;
  zap_NewDevelopmentEncoderConfig : EncoderConfig;
  zapcore_Level_Set : string → result error Level;
  jaeger_New : nat → string → string → option error
}.

(** A tracer provider of the SDK: its sampler, the agent its exporter batches to, and
    the name of the service; and the propagators of a context. *)
Inductive otel_sampler : Type := AlwaysSample | OtherSampler.
Inductive otel_propagator : Type := TraceContext | Baggage.

Record Provider_ : Type := mkProvider {
  tp_sampler : otel_sampler;
  tp_agent : string * string;
  tp_service : string
}.

(** The global variables of the otel package. *)
Record OtelGlobals : Type := mkOtelGlobals {
  otel_provider : option Provider_;
  otel_propagators : list otel_propagator
}.

Record ProxyEntry : Type := mkProxyEntry {
  pe_Endpoint : string;
  pe_Target : string;
  pe_Parameters : ProxyConfig
}.

(** [os.ReadFile], and yaml decoding of the list of proxies. *)
Class Files : Type := {
  os_ReadFile : nat → string → result error string;
  yaml_Unmarshal : string → result error (list ProxyEntry)
}.

(** ** The singletons of the backends *)

(** A [sync.Once] and the package variable it initialises. *)
Record Once : Type := mkOnce { once_called : bool; once_instance : option SessionImpl }.

Definition Once_new : Once := mkOnce false None.

Record Boot : Type := mkBoot {
  b_sqlite : Once;
  b_pg : Once;
  b_otel : OtelGlobals;
  b_world : World
}.

Definition set_sqlite (o : Once) (b : Boot) : Boot := mkBoot o (b_pg b) (b_otel b) (b_world b).
Definition set_pg (o : Once) (b : Boot) : Boot := mkBoot (b_sqlite b) o (b_otel b) (b_world b).
Definition set_globals (f : OtelGlobals → OtelGlobals) (b : Boot) : Boot :=
  mkBoot (b_sqlite b) (b_pg b) (f (b_otel b)) (b_world b).

Definition lift {A} (m : IO A) : M Boot A := λ b,
  ((m (b_world b)).1, mkBoot (b_sqlite b) (b_pg b) (b_otel b) (m (b_world b)).2).

(** The methods of a nil [*sqlite] or [*postgresql], up to the field they read; [Update]
    calls [Get] with the context [inner] gives. *)
Definition nil_impl `{!Clock} `{!Uuid} (inner : Context → Context) : SessionImpl :=
  let name := "session.postgresql: INSERT" in
  let get ctx id : IO (SessionData * option error) :=
    with_optional_span ctx name (λ span,
      _ ← set_attributes span [("db.table", AttrString "sessions"); ("db.table.id", AttrString id)];
      panic nil_dereference) in
  mkSessionImpl
    (λ _, panic nil_dereference)
    (λ ctx s, with_optional_span ctx name (λ span,
       id ← interact uuid_New;
       _ ← set_attributes span [("db.table", AttrString "sessions"); ("db.table.id", AttrString id);
             ("db.table.subject", AttrString (Subject s));
             ("db.table.expires_at", AttrTime (ExpiresAt s))];
       panic nil_dereference))
    (λ ctx id, with_optional_span ctx name (λ span,
       _ ← set_attributes span [("db.table", AttrString "sessions"); ("db.table.id", AttrString id)];
       panic nil_dereference))
    get
    (λ ctx id s, with_optional_span ctx name (λ span,
       _ ← set_attributes span [("db.table", AttrString "sessions"); ("db.table.id", AttrString id);
             ("db.table.subject", AttrString (Subject s));
             ("db.table.expires_at", AttrTime (ExpiresAt s))];
       _ ← get (inner ctx) id;
       panic nil_dereference))
    (λ _, _ ← time_Now; panic nil_dereference).

Section Singletons.
Context `{!Clock} `{!Uuid} `{!SqlDriver} `{!Databases}.

(** The [CREATE TABLE IF NOT EXISTS sessions] statement on the database [dsn], whose
    rows become the table of the world; with the failures of its driver.  A process uses
    one database. *)
Definition db_Create (failing : nat → option error) (dsn : string) : IO (option error) :=
  failure ← interact failing;
  match failure with
  | Some e => mret (Some e)
  | None =>
      _ ← modify (set_table (default ∅ (stored_table dsn)));
      mret None
  end.

(** The function given to [sqliteOnce.Do]: the error it leaves in the variable of its
    caller, and the instance it makes. *)
Definition sqlite_init (cipher : option HexCipher) (database : string)
    : IO (option error * option SessionImpl) :=
  let dsn := "file:" +:+ database in
  err ← interact (λ n, sql_Open n "sqlite3" dsn);
  match err with
  | Some err => mret (Some err, None)
  | None =>
      _ ← modify (set_open true);
      err ← db_Create sql_failure dsn;
      match err with
      | Some err => mret (Some err, None)
      | None => mret (None, Some (sqlite_impl cipher))
      end
  end.

(** A constructor: [once.Do(init)], whose function sets the error and the package
    variable, then the return of the package variable.  An interface that holds a nil
    pointer is not the nil interface: the variable is returned as it is. *)
Definition singleton (get : Boot → Once) (set : Once → Boot → Boot) (nil : SessionImpl)
    (init : IO (option error * option SessionImpl)) : M Boot (option SessionImpl * option error) :=
  o ← gets get;
  err ← (if once_called o : bool then mret None
         else '(err, inst) ← lift init;
              _ ← modify (set (mkOnce true inst));
              mret err);
  match err with
  | Some err => mret (None, Some err)
  | None =>
      o ← gets get;
      mret (Some (default nil (once_instance o)), None)
  end.

Definition NewSQLiteSessionImpl (ctx : Context) (cipher : option HexCipher) (database : string)
    : M Boot (option SessionImpl * option error) :=
  singleton b_sqlite set_sqlite (nil_impl (λ _, [])) (sqlite_init cipher database).

(** The statement is given [context.TODO()]; an error is one, whether it has run or not. *)
Definition pgx_create_failure (n : nat) : option error :=
  match pgx_fate [] n with
  | Answered => None
  | Refused e | Lost e => Some e
  end.

Definition postgresql_init (cipher : option HexCipher) (host database username password : string)
    : IO (option error * option SessionImpl) :=
  let connStr := "postgresql://" +:+ username +:+ ":" +:+ password +:+ "@" +:+ host +:+ "/"
                   +:+ database +:+ "?sslmode=disable" in
  err ← interact (λ n, pgx_Connect n connStr);
  match err with
  | Some err => mret (Some err, None)
  | None =>
      _ ← modify (set_open true);
      err ← db_Create pgx_create_failure connStr;
      match err with
      | Some err => mret (Some err, None)
      | None => mret (None, Some (postgresql_impl cipher))
      end
  end.

Definition NewPostgresqlSessionImpl (ctx : Context) (cipher : option HexCipher)
    (host database username password : string) : M Boot (option SessionImpl * option error) :=
  singleton b_pg set_pg (nil_impl (λ ctx, ctx))
    (postgresql_init cipher host database username password).
End Singletons.

(** ** main *)

(** The process has ended in [os.Exit], without deferred calls; or goes on. *)
Inductive main_end (A : Type) : Type :=
  | Exited
  | Going (a : A).
Arguments Exited {A}.
Arguments Going {A} a.

Definition NewLogger `{!Telemetry_libs} (level : string) (production : bool)
    : result error ZapLogger :=
  let encoderConfig := if production then zap_NewProductionEncoderConfig
                       else zap_NewDevelopmentEncoderConfig in
  let encoderConfig := mkEncoderConfig ISO8601TimeEncoder LowercaseLevelEncoder "message" ""
                         (other_keys encoderConfig) in
  let encoder := if production then NewJSONEncoder encoderConfig else NewConsoleEncoder encoderConfig in
  match zapcore_Level_Set level with
  | Err err => Err err
  | Ok l =>
      let core := (encoder, ["stdout"], l) in
      Ok (if production then mkZapLogger core [AddCaller; AddCallerSkip 1; AddStacktrace ErrorLevel]
          else mkZapLogger core [AddCaller; AddCallerSkip 1; AddStacktrace ErrorLevel; Development])
  end.

(** [InitTracer(service, host, port)]: the provider it makes and registers. *)
Definition InitTracer `{!Telemetry_libs} (service host port : string) : M Boot (result error Provider_) :=
  err ← lift (interact (λ n, jaeger_New n host port));
  match err with
  | Some err => mret (Err err)
  | None =>
      let tp := mkProvider AlwaysSample (host, port) service in
      _ ← modify (set_globals (λ g, mkOtelGlobals (Some tp) (otel_propagators g)));
      _ ← modify (set_globals (λ g, mkOtelGlobals (otel_provider g) [TraceContext; Baggage]));
      mret (Ok tp)
  end.

(** [c.ReadProxyConfig()] *)
Definition ReadProxyConfig `{!Files} (c : Config) : IO (result error (list ProxyEntry)) :=
  pcFile ← interact (λ n, os_ReadFile n (ProxyConfig_ c));
  mret (match pcFile with
        | Err err => Err err
        | Ok pcFile => yaml_Unmarshal pcFile
        end).

(** What [main] has made once the manager is there: the deferred calls are all
    registered then. *)
Record Started : Type := mkStarted {
  st_config : Config;
  st_zlog : ZapLogger;
  st_tp : Provider_;
  st_ctx : Context;
  st_impl : SessionImpl;
  st_manager : Manager;
  st_oidc : oidc_Config
}.

(** [mux.Handle(pattern, handler)] *)
Definition mux_Handle (mux : list (string * Handler)) (pattern : string) (h : Handler)
    : M Boot (list (string * Handler)) :=
  if String.eqb pattern "" then panic "http: invalid pattern"
  else if existsb (λ ph, String.eqb pattern ph.1) mux then
    panic ("http: multiple registrations for " +:+ pattern)
  else mret (mux ++ [(pattern, h)])%list.

Section Main.
Context `{!Clock} `{!Uuid} `{!SqlDriver} `{!Databases} `{!CipherLib} `{!Telemetry_libs}.
Context `{!Files} `{!Viper} `{!Discovery} `{!UrlParser}.
Context `{!Network} `{!Otel} `{!Rand} `{!Redirector} `{!RealIP}.
Context `{!Gorilla} `{!OidcLib} `{!OAuth2} `{!BodyFault}.
Context `{!ReverseProxy} `{!Propagator} `{!MuxPaths}.

(** [zlog.Info(message)], and [zlog.Fatal(message, zap.Error(err))]. *)
Definition zlog_Info (message : string) : M Boot unit :=
  lift (modify (add_log (mkLogEntry InfoLevel message []))).

Definition zlog_Fatal {A} (message : string) (err : error) : M Boot (main_end A) :=
  _ ← lift (modify (add_log (mkLogEntry FatalLevel message [("error", FError err)])));
  mret Exited.

(** The switch on [c.DBType]; [err] is the error variable of [main] before it. *)
Definition open_database (ctx : Context) (c : Config) (cipher : option HexCipher)
    (err : option error) : M Boot (option SessionImpl * option error) :=
  if String.eqb (DBType c) "sqlite" then NewSQLiteSessionImpl ctx cipher (DBName c)
  else if String.eqb (DBType c) "postgresql" then
    NewPostgresqlSessionImpl ctx cipher (DBHost c) (DBName c) (DBUsername c) (DBPassword c)
  else mret (None, err).

(** The error of the cipher that [main] does not tolerate. *)
Definition cipher_refused (err : option error) : option error :=
  match err with
  | Some e => if errors_Is e ErrNoEncryptionKeys then None else Some e
  | None => None
  end.

(** [main], up to the deferred [WaitSessionCleaner]. *)
Definition start_up (src : Sources) (args : list string) : M Boot (main_end Started) :=
  match LoadConfig src args with
  | None | Some (_, Some _) => mret Exited
  | Some (c, None) =>
  match NewLogger (LogLevel c) (IsProduction c) with
  | Err _ => mret Exited
  | Ok zlog =>
  let ctx := zlogger_NewContext [] in
  tp ← InitTracer "token-handler" "localhost" "6831";
  match tp with
  | Err err => zlog_Fatal "error initializing the open-telemetry tracer" err
  | Ok tp =>
  let '(cipher, err) := NewXChaCha20Cipher (SessionDBKey c) (SessionOldDBKey c) in
  match cipher_refused err with
  | Some err => zlog_Fatal "error initializing encryption" err
  | None =>
  '(sessionImpl, err) ← open_database ctx c cipher err;
  match err with
  | Some err => zlog_Fatal "error creating a database connection" err
  | None =>
  '(oidcConfig, err) ← lift (NewConfiguration (OidcClientID c) (OidcClientSecret c) (OidcIssuer c)
                                              (OidcRedirectURL c));
  match oidcConfig, err with
  | _, Some err => zlog_Fatal "error creating a new oidc configuration" err
  | None, None => panic nil_dereference
  | Some oidcConfig, None =>
  match sessionImpl, NewManager 0 (session_configuration c sessionImpl) with
  | _, (_, Some err) => zlog_Fatal "error creating a new session manager" err
  | Some impl, (Some m, None) => mret (Going (mkStarted c zlog tp ctx impl m oidcConfig))
  | _, _ => panic nil_dereference
  end end end end end end end.

(** The loop on the proxies. *)
Fixpoint mount_proxies (st : Started) (mux : list (string * Handler)) (l : list ProxyEntry)
    : M Boot (main_end (list (string * Handler))) :=
  match l with
  | [] => mret (Going mux)
  | pe :: l =>
      _ ← zlog_Info ("creating proxy for service " +:+ pe_Target pe +:+ " on " +:+ pe_Endpoint pe);
      match NewProxy (st_ctx st) (pe_Target pe) (pe_Parameters pe) with
      | Err err =>
          zlog_Fatal ("error creating proxy service for " +:+ pe_Target pe +:+ " on "
                        +:+ pe_Endpoint pe) err
      | Ok proxy =>
          mux ← mux_Handle mux (pe_Endpoint pe)
                  (opentelemetry_Middleware
                     (AuthenticationMiddleware (st_manager st) (st_oidc st)
                        (ProxyRequestHandler proxy)) tracer_name_ "GET /proxy");
          mount_proxies st mux l
      end
  end.

(** The routes of the server, and the handler it listens with. *)
Definition mount (st : Started) : M Boot (main_end Handler) :=
  let c := st_config st in
  let traced h op := opentelemetry_Middleware h tracer_name_ op in
  mux ← mux_Handle [] "/login" (traced (LoginHandlerOidc (st_manager st) (st_oidc st)) "GET /login");
  mux ← mux_Handle mux "/callback"
          (traced (CallbackHandlerOidc (st_manager st) (st_oidc st) (OidcPostLoginRedirectURL c))
                  "GET /callback");
  mux ← mux_Handle mux "/logout"
          (traced (LogoutHandlerOidc (st_manager st) (st_oidc st) (OidcPostLogoutRedirectURL c))
                  "GET /logout");
  mux ← mux_Handle mux "/userinfo"
          (traced (UserInfoHandlerOidc (st_manager st) (st_oidc st)) "GET /userinfo");
  mux ← (if String.eqb (ProxyConfig_ c) "" then mret (Going mux)
         else proxyConfigs ← lift (ReadProxyConfig c);
              match proxyConfigs with
              | Err err => zlog_Fatal "cannot read the proxy configuration" err
              | Ok proxyConfigs => mount_proxies st mux proxyConfigs
              end);
  match mux with
  | Exited => mret Exited
  | Going mux =>
      mux ← mux_Handle mux "/" (traced rootHandler "GET /");
      _ ← zlog_Info ("main service is listening on " +:+ ListenAddr c);
      mret (Going (Logger_Middleware (mux_ServeHTTP mux)))
  end.
End Main.
