(* ===== verification/Shutdown.v ===== *)
(** * main.go: serving, and the shutdown

    What runs once the server listens: the requests, the background cleaner, the
    interrupt signals, and the main goroutine, which waits for a signal and then runs
    its deferred calls in reverse order.  The goroutines are the steps of a running
    process; the file ends with the simulation of these steps by the process of
    [Cleaner]. *)

From stdpp Require Import base gmap strings list option numbers relations.
From Stdlib Require Import ZArith Lia String.
From S2P Require Import Prelude GoBase Encoding World Telemetry Zlogger Database Sqlite.
From S2P Require Import Postgresql Oidc SessionConfig Sessions Config LoadConfig Manager.
From S2P Require Import Cleaner Handlers Server Startup.

#[local] Open Scope Z_scope.
#[local] Open Scope string_scope.

(** Where the main goroutine is: waiting for the signal; in the deferred
    [WaitSessionCleaner], [CloseConnection], [tp.Shutdown], [zlog.Sync] or [stop]; at
    its end; or the process was killed (a second signal, or [os.Exit]). *)
Inductive main_pc : Type :=
  | Serving
  | WaitingCleaner
  | ClosingConnection
  | ShuttingTracer
  | SyncingLogger
  | Stopping
  | Ended
  | Killed.

#[export] Instance main_pc_eq_dec : EqDecision main_pc.
Proof. solve_decision. Defined.

Inductive cleaner_state : Type :=
  | CleanerNew
  | CleanerRunning
  | CleanerStopped.

#[export] Instance cleaner_state_eq_dec : EqDecision cleaner_state.
Proof. solve_decision. Defined.

(** [rn_notified]: signals still go to the context, [stop] was not called;
    [rn_handler]: what the server listens with, if it was started. *)
Record Running : Type := mkRunning {
  rn_pc : main_pc;
  rn_notified : bool;
  rn_cancelled : bool;
  rn_cleaner : cleaner_state;
  rn_handler : option Handler;
  rn_world : World
}.

(** The state [mount] leaves: serving; or, after a panic, running the deferred calls;
    or killed by [os.Exit]. *)
Definition after_mount (r : outcome (main_end Handler) * Boot) : Running :=
  match r with
  | (Ret (Going h), b) => mkRunning Serving true false CleanerNew (Some h) (b_world b)
  | (Ret Exited, b) => mkRunning Killed true false CleanerNew None (b_world b)
  | (Panic _, b) => mkRunning WaitingCleaner true false CleanerNew None (b_world b)
  end.

(** [tp.Shutdown(ctx)], for a context that is cancelled or not, and
    [context.Canceled]. *)
Class TracerProvider : Type := { tp_Shutdown : nat → bool → option error }.

Definition context_Canceled : error := ErrVar "context" "Canceled" "context canceled".

Section Main.
Context `{!Otel} `{!SqlDriver} `{!TracerProvider}.
Context (ctx : Context) (impl : SessionImpl).

(** The deferred functions. *)
Definition close_connection : IO unit :=
  err ← CloseConnection impl ctx;
  match err with
  | Some err => modify (add_log (mkLogEntry ErrorLevel "error closing the database connection"
                                   [("error", FError err)]))
  | None => mret tt
  end.

Definition shutdown_tracer (cancelled : bool) : IO unit :=
  err ← interact (λ n, tp_Shutdown n cancelled);
  match err with
  | Some err =>
      if errors_Is err context_Canceled then mret tt
      else modify (add_log (mkLogEntry ErrorLevel "error shutting down open-telemetry provider"
                              [("error", FError err)]))
  | None => mret tt
  end.

(** [zlog.Sync()] *)
Definition Logger_Sync : IO unit :=
  modify (add_log (mkLogEntry DebugLevel "shutting down the logger" [])).

(** [<-ctx.Done()] has returned. *)
Definition graceful : IO unit :=
  modify (add_log (mkLogEntry InfoLevel "shutting down gracefully, press Ctrl+C again to force" [])).

(** The steps of the goroutines: a request; the cleaner starts, purges, stops; a signal
    arrives, while it is notified and after; the server cannot listen; and the steps
    of the main goroutine. *)
Inductive main_step : Running → Running → Prop :=
  | run_request pc nt can cl h w rw r :
      pc ≠ Ended → pc ≠ Killed →
      main_step (mkRunning pc nt can cl (Some h) w)
                (mkRunning pc nt can cl (Some h) (h rw r (new_exchange w)).2)
  | run_cleaner_starts pc nt can h w :
      pc ≠ Ended → pc ≠ Killed →
      main_step (mkRunning pc nt can CleanerNew h w) (mkRunning pc nt can CleanerRunning h w)
  | run_cleaner_purges pc nt can h w w' :
      pc ≠ Ended → pc ≠ Killed → cleaner_round ctx impl w = (Ret tt, w') →
      main_step (mkRunning pc nt can CleanerRunning h w) (mkRunning pc nt can CleanerRunning h w')
  | run_cleaner_stops pc nt h w w' :
      pc ≠ Ended → pc ≠ Killed → cleaner_stopping ctx w = (Ret tt, w') →
      main_step (mkRunning pc nt true CleanerRunning h w) (mkRunning pc nt true CleanerStopped h w')
  | run_signal pc can cl h w :
      pc ≠ Ended → pc ≠ Killed →
      main_step (mkRunning pc true can cl h w) (mkRunning pc true true cl h w)
  | run_second_signal pc can cl h w :
      pc ≠ Ended → pc ≠ Killed →
      main_step (mkRunning pc false can cl h w) (mkRunning Killed false can cl h w)
  | run_cannot_listen pc nt can cl h w err :
      pc ≠ Ended → pc ≠ Killed →
      main_step (mkRunning pc nt can cl (Some h) w)
                (mkRunning Killed nt can cl (Some h)
                   (add_log (mkLogEntry FatalLevel "error starting the api server"
                               [("error", FError err)]) w))
  | run_interrupted nt cl h w w' :
      graceful w = (Ret tt, w') →
      main_step (mkRunning Serving nt true cl h w) (mkRunning WaitingCleaner false true cl h w')
  | run_waited nt can h w w' :
      cleaner_stopped ctx w = (Ret tt, w') →
      main_step (mkRunning WaitingCleaner nt can CleanerStopped h w)
                (mkRunning ClosingConnection nt can CleanerStopped h w')
  | run_closed nt can cl h w w' :
      close_connection w = (Ret tt, w') →
      main_step (mkRunning ClosingConnection nt can cl h w) (mkRunning ShuttingTracer nt can cl h w')
  | run_tracer nt can cl h w w' :
      shutdown_tracer can w = (Ret tt, w') →
      main_step (mkRunning ShuttingTracer nt can cl h w) (mkRunning SyncingLogger nt can cl h w')
  | run_synced nt can cl h w w' :
      Logger_Sync w = (Ret tt, w') →
      main_step (mkRunning SyncingLogger nt can cl h w) (mkRunning Stopping nt can cl h w')
  | run_ended nt can cl h w :
      main_step (mkRunning Stopping nt can cl h w) (mkRunning Ended false true cl h w).

(** The connection was closed by the main goroutine. *)
Definition connection_closed (pc : main_pc) : bool :=
  match pc with
  | ShuttingTracer | SyncingLogger | Stopping | Ended => true
  | _ => false
  end.

(** Past [WaitSessionCleaner]. *)
Definition waited (pc : main_pc) : bool :=
  match pc with
  | ClosingConnection => true
  | pc => connection_closed pc
  end.

(** ** Invariant *)

Definition main_invariant (s : Running) : Prop :=
  (waited (rn_pc s) = true → rn_cleaner s = CleanerStopped) ∧
  (rn_cleaner s = CleanerStopped → rn_cancelled s = true) ∧
  (rn_notified s = false → rn_cancelled s = true).

Lemma main_invariant_step s s' : main_step s s' → main_invariant s → main_invariant s'.
Proof.
  unfold main_invariant. destruct 1; simpl; intuition congruence.
Qed.

Lemma main_invariant_steps s s' : rtc main_step s s' → main_invariant s → main_invariant s'.
Proof. induction 1; eauto using main_invariant_step. Qed.

Lemma main_invariant_start r : main_invariant (after_mount r).
Proof. destruct r as [[[|h]|e] b]; by split_and!. Qed.

Lemma cleaner_stays_stopped s s' :
  main_step s s' → rn_cleaner s = CleanerStopped → rn_cleaner s' = CleanerStopped.
Proof. by destruct 1. Qed.

(** ** The cleaner of this process is the one of [Cleaner] *)

(** The process of [Cleaner] behind a state: one manager, whose channel is 0. *)
Definition process_of (s : Running) : Process :=
  mkProcess 1 (match rn_cleaner s with CleanerNew => {[0%nat]} | _ => ∅ end)
    (match rn_cleaner s with
     | CleanerNew => OnceNew | CleanerRunning => OnceRunning 0 | CleanerStopped => OnceDone 0 end)
    (if rn_cancelled s then {[0%nat]} else ∅)
    (match rn_cleaner s with CleanerStopped => {[0%nat]} | _ => ∅ end)
    (match rn_pc s with WaitingCleaner => {[0%nat]} | _ => ∅ end)
    (rn_world s).
End Main.
