(* ===== verification/Invariance.v ===== *)
(** * What the whole program keeps of the database

    [safe P m R]: from a world that satisfies [P], the computation [m] ends, returning
    or panicking, in one that does, and a value it returns satisfies [R].  For a [P]
    that depends on the table and the connection only, everything but the storage is
    safe; so the handlers, the server and the running process keep every such [P] that
    the methods of the storage keep when they are called with what the program calls
    them with: ids and records of a known provenance. *)

From stdpp Require Import base gmap strings list option numbers relations.
From Stdlib Require Import ZArith Lia.
From S2P Require Import Prelude GoBase Encoding World Telemetry Zlogger Database Oidc.
From S2P Require Import SessionConfig Sessions SessionLemmas Cleaner Handlers Server Startup.
From S2P Require Import Shutdown.

#[local] Open Scope Z_scope.

Definition safe {W A : Type} (P : W → Prop) (m : M W A) (R : A → Prop) : Prop :=
  ∀ w, P w → P (m w).2 ∧ ∀ a, (m w).1 = Ret a → R a.

Abbreviation keeps P m := (safe P m (λ _, True)).

(** A world with the same database, maybe later. *)
Definition same_db (w w' : World) : Prop :=
  w_table w' = w_table w ∧ w_open w' = w_open w ∧ (w_tick w ≤ w_tick w')%nat.

Definition about_db (P : World → Prop) : Prop := ∀ w w', same_db w w' → P w → P w'.

Create HintDb safe.

Section Safe.
Context {W : Type} (P : W → Prop).

Lemma safe_ret {A} (a : A) (R : A → Prop) : R a → safe P (mret a) R.
Proof. intros HR w Hw. split; [done|]. by intros ? [= <-]. Qed.

Lemma safe_panic {A} why (R : A → Prop) : safe P (panic why) R.
Proof. intros w Hw. by split. Qed.

Lemma safe_bind {A B} (m : M W A) (k : A → M W B) R S :
  safe P m R → (∀ a, R a → safe P (k a) S) → safe P (m ≫= k) S.
Proof.
  intros Hm Hk w Hw. rewrite run_bind. specialize (Hm w Hw).
  destruct (m w) as [[a|e] w']; simpl in *; destruct Hm as [Hw' HR]; [|done].
  by apply (Hk a (HR a eq_refl)).
Qed.

Lemma keeps_bind {A B} (m : M W A) (k : A → M W B) S :
  keeps P m → (∀ a, safe P (k a) S) → safe P (m ≫= k) S.
Proof. intros Hm Hk. by eapply safe_bind; [exact Hm|]. Qed.

Lemma safe_defer {A} d (m : M W A) R : keeps P d → safe P m R → safe P (defer d m) R.
Proof.
  intros Hd Hm w Hw. unfold defer. specialize (Hm w Hw).
  destruct (m w) as [o w']; simpl in *. destruct Hm as [Hw' HR]. specialize (Hd w' Hw').
  destruct (d w') as [[u|e] w'']; simpl in *; by destruct Hd.
Qed.

Lemma safe_weaken {A} (m : M W A) (R S : A → Prop) :
  safe P m R → (∀ a, R a → S a) → safe P m S.
Proof. intros Hm HRS w Hw. destruct (Hm w Hw). eauto. Qed.

Lemma keeps_gets {A} (f : W → A) : keeps P (gets f).
Proof. intros w Hw. by split. Qed.

Lemma safe_modify (f : W → W) : (∀ w, P w → P (f w)) → keeps P (modify f).
Proof. intros Hf w Hw. by split; [apply Hf|]. Qed.
End Safe.

Section SafeWorld.
Context (P : World → Prop) (HP : about_db P).

Lemma keeps_modify (f : World → World) : (∀ w, same_db w (f w)) → keeps P (modify f).
Proof using HP. intros Hf w Hw. split; [|done]. by apply (HP w). Qed.

(** What the outside answers. *)
Definition answer_of {A} (f : nat → A) (a : A) : Prop := ∃ n, f n = a.

Lemma safe_interact {A} (f : nat → A) : safe P (interact f) (answer_of f).
Proof using HP.
  intros w Hw. split; [apply (HP w); [repeat split; simpl; lia|done]|].
  intros a [= <-]. by eexists.
Qed.

Lemma keeps_interact {A} (f : nat → A) : keeps P (interact f).
Proof using HP. eapply safe_weaken; [apply safe_interact|done]. Qed.
End SafeWorld.

#[export] Hint Resolve safe_panic keeps_gets : safe.

(** Walks through a computation; the leaves are in the [safe] database. *)
Ltac solve_safe :=
  repeat first
    [ match goal with |- ∀ _, _ => intro | |- _ → _ => intro end
    | solve [eauto with safe]
    | solve [apply keeps_modify; [assumption|]; intros; repeat split; simpl; lia]
    | solve [apply safe_ret; done]
    | apply keeps_interact; assumption
    | apply keeps_bind
    | apply safe_defer
    | match goal with
      | |- safe _ (match ?x with _ => _ end) _ => destruct x
      | |- safe _ (let _ := _ in _) _ => cbv zeta
      end ].

Section Telemetry.
Context (P : World → Prop) (HP : about_db P).

Lemma safe_with_span {A} ctx name (body : Context → IO A) R :
  (∀ c, safe P (body c) R) → safe P (with_span ctx name body) R.
Proof using HP.
  intros Hb. unfold with_span, Tracer_Start, Span_End. solve_safe.
Qed.

Lemma safe_with_optional_span {A} ctx name (body : option Span → IO A) R :
  (∀ s, safe P (body s) R) → safe P (with_optional_span ctx name body) R.
Proof using HP.
  intros Hb. unfold with_optional_span, NewSpanFromContext, Tracer_Start, Span_End. solve_safe.
Qed.

Lemma keeps_set_attributes s a : keeps P (set_attributes s a).
Proof using HP. unfold set_attributes, Span_SetAttributes. solve_safe. Qed.

Lemma keeps_set_error_status s d e : keeps P (set_error_status s d e).
Proof using HP. unfold set_error_status, Span_SetStatus, Span_SetAttributes. solve_safe. Qed.
End Telemetry.

#[export] Hint Resolve keeps_set_attributes keeps_set_error_status : safe.

Section Http.
Context `{!Clock} `{!Network} `{!Otel} (P : World → Prop) (HP : about_db P).

Lemma keeps_rw_WriteHeader rw code : keeps P (rw_WriteHeader rw code).
Proof using HP.
  induction rw as [|inner IH|inner IH]; simpl;
    [unfold net_http_WriteHeader, send_status|unfold StatusRecorder_WriteHeader
    |unfold OtelWriter_WriteHeader]; solve_safe.
Qed.

Lemma keeps_rw_Write rw b : keeps P (rw_Write rw b).
Proof using HP.
  induction rw as [|inner IH|inner IH]; simpl.
  - unfold net_http_Write, net_http_WriteHeader, send_status. solve_safe.
  - unfold StatusRecorder_Write. solve_safe.
  - pose proof keeps_rw_WriteHeader. unfold OtelWriter_Write, OtelWriter_WriteHeader. solve_safe.
Qed.

Lemma keeps_Header_Set rw k v : keeps P (rw_Header_Set rw k v).
Proof using HP. unfold rw_Header_Set. solve_safe. Qed.

Hint Resolve keeps_rw_WriteHeader keeps_rw_Write keeps_Header_Set : safe.

Lemma keeps_FromContext ctx : keeps P (zlogger_FromContext ctx).
Proof using HP. unfold zlogger_FromContext. solve_safe. Qed.

Lemma keeps_JsonError rw code d e : keeps P (Logger_JsonError rw code d e).
Proof using HP. unfold Logger_JsonError, time_Now. solve_safe. Qed.

Lemma keeps_http_Redirect `{!Redirector} rw r url code : keeps P (http_Redirect rw r url code).
Proof using HP. unfold http_Redirect. solve_safe. Qed.
End Http.

#[export] Hint Resolve keeps_rw_WriteHeader keeps_rw_Write keeps_Header_Set keeps_FromContext
  keeps_JsonError keeps_http_Redirect : safe.

(** ** The interface: a storage whose methods keep [P] *)

(** Where the data of a session comes from: what the program adds, what it finds under
    an id, what it updates the session of an id to, and what an update that has
    succeeded says of it. *)
Record Provenance : Type := mkProvenance {
  opened : SessionData → Prop;
  found : string → SessionData → Prop;
  renewed : string → SessionData → Prop;
  confirmed : string → SessionData → Prop
}.

Definition anything : Provenance :=
  mkProvenance (λ _, True) (λ _ _, True) (λ _ _, True) (λ _ _, True).

Class StorageKeepsAs (pv : Provenance) (P : World → Prop) (impl : SessionImpl) : Prop := {
  keeps_Add ctx d : opened pv d → keeps P (Add impl ctx d);
  keeps_Delete ctx id : keeps P (Delete impl ctx id);
  safe_Get ctx id : safe P (Get impl ctx id) (λ r, r.2 = None → found pv id r.1);
  safe_Update ctx id d :
    renewed pv id d → safe P (Update impl ctx id d) (λ e, e = None → confirmed pv id d);
  keeps_Purge ctx : keeps P (Purge impl ctx);
  keeps_CloseConnection ctx : keeps P (CloseConnection impl ctx)
}.

Abbreviation StorageKeeps := (StorageKeepsAs anything).

Lemma storage_keeps (P : World → Prop) impl :
  (∀ ctx d, keeps P (Add impl ctx d)) → (∀ ctx id, keeps P (Delete impl ctx id)) →
  (∀ ctx id, keeps P (Get impl ctx id)) → (∀ ctx id d, keeps P (Update impl ctx id d)) →
  (∀ ctx, keeps P (Purge impl ctx)) → (∀ ctx, keeps P (CloseConnection impl ctx)) →
  StorageKeeps P impl.
Proof. intros. split; auto; intros; by eapply safe_weaken. Qed.

Lemma keeps_Get {pv} {P : World → Prop} {impl} `{!StorageKeepsAs pv P impl} ctx id :
  keeps P (Get impl ctx id).
Proof. by eapply safe_weaken; [apply safe_Get|]. Qed.

(** Without a provenance, whatever is added or updated. *)
Lemma keeps_Add_any {P : World → Prop} {impl} `{!StorageKeeps P impl} ctx d : keeps P (Add impl ctx d).
Proof. by apply (keeps_Add (pv:=anything)). Qed.

Lemma keeps_Update_any {P : World → Prop} {impl} `{!StorageKeeps P impl} ctx id d :
  keeps P (Update impl ctx id d).
Proof. by eapply safe_weaken; [by apply (safe_Update (pv:=anything))|]. Qed.

#[export] Hint Resolve keeps_Add_any keeps_Update_any keeps_Delete keeps_Get keeps_Purge
  keeps_CloseConnection : safe.

(** The program only adds what it got for a code, and only renews what it found: with a
    token whose id-token it has verified. *)
Class Sound `{!OidcLib} `{!OAuth2} (config : oidc_Config) (pv : Provenance) : Prop := {
  opened_sound n code t sub raw :
    oauth2_Exchange n (oauth2_config config) code = Ok t → verified config t sub raw →
    opened pv (token_data sub raw t);
  renewed_sound n id d t sub raw :
    found pv id d ∨ d = SessionData_zero →
    oauth2_TokenSource_Token n (oauth2_config config) (Token_of_refresh (RefreshToken d)) = Ok t →
    verified config t sub raw → renewed pv id (token_data sub raw t)
}.

#[export] Instance anything_sound `{!OidcLib} `{!OAuth2} config : Sound config anything.
Proof. by split. Qed.

(** ** Sessions and handlers *)

Section Sessions.
Context `{!Clock} `{!Network} `{!Otel} `{!Rand} `{!Redirector}.
Context `{!Gorilla} `{!OidcLib} `{!OAuth2} `{!BodyFault}.
Context (P : World → Prop) (HP : about_db P) (pv : Provenance) (impl : SessionImpl).
Context `{!StorageKeepsAs pv P impl}.
Context (config : oidc_Config) `{!Sound config pv}.

(** What the sessions of a manager are: they have its storage, and the data that was
    found under their id, if any. *)
Definition stored_in (s : Session) : Prop :=
  s_sessionImpl s = impl ∧ s_oidcConfig s = config ∧
  ∀ id, value_string (s_session s) sessionIdName = Some id →
        found pv id (s_data s) ∨ s_data s = SessionData_zero.

Definition maybe_stored (r : option Session * option error) : Prop :=
  ∀ s, r.1 = Some s → stored_in s.

Lemma keeps_gs_Save g rw : keeps P (gs_Save g rw).
Proof using HP. unfold gs_Save, http_SetCookie. solve_safe. Qed.

Hint Resolve keeps_gs_Save : safe.

Lemma safe_GetIdToken c ctx token :
  safe P (GetIdToken c ctx token)
    (λ r, ∀ i, r.1 = Some i → verified c token (Token_Subject i) (RawToken i)).
Proof using HP.
  unfold GetIdToken. apply safe_with_span; [done|]. intros c1.
  destruct (t_Extra_id_token token) as [raw|] eqn:Hraw; [|by apply safe_ret].
  eapply safe_bind; [by apply safe_interact|]. intros [p|e] [n Hn]; [|by apply safe_ret].
  eapply safe_bind; [by apply safe_interact|]. intros [sub|e] [k Hk]; [|by apply safe_ret].
  apply safe_ret. intros i [= <-]. split; [done|]. by exists n, p, k.
Qed.

(** The data of a token is that of its verified id-token. *)
Lemma safe_newData s ctx token :
  safe P (newData s ctx token)
    (λ r, r.2 = None → ∃ sub raw, verified (s_oidcConfig s) token sub raw ∧
                                  r.1 = token_data sub raw token).
Proof using HP.
  unfold newData. apply safe_with_span; [done|]. intros c.
  eapply safe_bind; [apply safe_GetIdToken|]. intros [[i|] [e|]] Hi; try by apply safe_ret.
  2: apply safe_panic.
  apply safe_ret. intros _. by exists (Token_Subject i), (RawToken i); split; [apply Hi|].
Qed.

Lemma safe_dataFromDB s ctx :
  stored_in s → safe P (dataFromDB s ctx) (λ r, stored_in r.1 ∨ r.2 ≠ None).
Proof using HP StorageKeepsAs0.
  intros (Hi & Hc & Hs). unfold dataFromDB. apply safe_with_span; [done|]. intros c. rewrite Hi.
  destruct (value_string _ _) as [id|] eqn:Hid; [|apply safe_ret; by right].
  eapply safe_bind; [apply safe_Get|]. intros [d [e|]] Hd; cbv zeta.
  { destruct (error_eq _ _); apply safe_ret; by right. }
  apply safe_ret. left. split; [done|]. split; [done|]. simpl. intros id' Hid'.
  rewrite Hid in Hid'. injection Hid' as <-. left. by apply Hd.
Qed.

Lemma keeps_saveState s rw r state age : keeps P (saveState s rw r state age).
Proof using HP. unfold saveState. apply safe_with_span; [done|]. solve_safe. Qed.

Lemma keeps_getState s r : keeps P (getState s r).
Proof using HP. unfold getState. apply safe_with_span; [done|]. solve_safe. Qed.

Lemma keeps_saveSession s rw r id : keeps P (saveSession s rw r id).
Proof using HP. unfold saveSession. apply safe_with_span; [done|]. solve_safe. Qed.

Hint Resolve keeps_saveState keeps_getState keeps_saveSession : safe.

Lemma keeps_Save s rw r token n code :
  stored_in s → oauth2_Exchange n (oauth2_config config) code = Ok token →
  keeps P (Save s rw r token).
Proof using HP StorageKeepsAs0 Sound0.
  intros (Hi & Hc & _) Ht. unfold Save. apply safe_with_span; [done|]. intros c.
  eapply safe_bind; [apply safe_newData|]. intros [d [e|]] Hd; cbv zeta; [by apply safe_ret|].
  destruct (Hd eq_refl) as (sub & raw & Hv & Heq). simpl in Heq. subst d. simpl. rewrite Hi.
  apply keeps_bind; [|solve_safe]. apply keeps_Add. rewrite Hc in Hv.
  by eapply opened_sound.
Qed.

Lemma safe_Session_Update s rw r token n :
  stored_in s →
  oauth2_TokenSource_Token n (oauth2_config config) (Token_of_refresh (RefreshToken (s_data s)))
    = Ok token →
  safe P (Session_Update s rw r token)
    (λ a, a.2 = None → ∃ id sub raw,
       verified config token sub raw ∧ s_data a.1 = token_data sub raw token ∧
       value_string (s_session s) sessionIdName = Some id ∧
       confirmed pv id (token_data sub raw token)).
Proof using HP StorageKeepsAs0 Sound0.
  intros (Hi & Hc & Hs) Ht. unfold Session_Update. apply safe_with_span; [done|]. intros c.
  eapply safe_bind; [apply safe_newData|]. intros [d [e|]] Hd; cbv zeta; [by apply safe_ret|].
  destruct (Hd eq_refl) as (sub & raw & Hv & Heq). simpl in Heq. subst d.
  cbn [set_data s_session s_sessionImpl s_data]. rewrite Hi. rewrite Hc in Hv.
  destruct (value_string _ _) as [id|] eqn:Hid; [|by apply safe_ret].
  eapply safe_bind.
  { apply safe_Update. eapply renewed_sound; [by apply Hs|exact Ht|exact Hv]. }
  intros [e|] Hu; [by apply safe_ret|]. apply keeps_bind; [solve_safe|]. intros e. apply safe_ret.
  intros _. exists id, sub, raw. split_and!; auto.
Qed.

Lemma keeps_Session_Delete s rw r : stored_in s → keeps P (Session_Delete s rw r).
Proof using HP StorageKeepsAs0.
  intros [Hs _]. unfold Session_Delete. apply safe_with_span; [done|]. intros c. rewrite Hs.
  solve_safe.
Qed.

Context (m : Manager) (Hm : m_sessionImpl m = impl).

Lemma safe_NewSession r : safe P (NewSession m r config) maybe_stored.
Proof using HP Hm.
  unfold NewSession. apply safe_with_span; [done|]. intros c.
  apply keeps_bind; [solve_safe|]. intros [g [e|]]; apply safe_ret; [done|].
  intros s [= <-]. split; [exact Hm|]. split; [done|]. intros id _. by right.
Qed.

Lemma safe_GetSession r : safe P (GetSession m r config) maybe_stored.
Proof using HP Hm StorageKeepsAs0.
  unfold GetSession. apply safe_with_span; [done|]. intros c.
  apply keeps_bind; [solve_safe|]. intros [g [e|]]; [by apply safe_ret|].
  cbv zeta.
  assert (Hg : stored_in (mkSession (m_sessionImpl m) g config SessionData_zero (m_sessionTimeout m))).
  { split; [exact Hm|]. split; [done|]. intros id _. by right. }
  destruct (value_string g sessionStateName); [apply safe_ret; by intros s' [= <-]|].
  eapply safe_bind; [by apply safe_dataFromDB|]. intros [s [e|]] Hs; apply safe_ret; [done|].
  destruct Hs as [Hs|Hs]; [|done]. by intros s' [= <-].
Qed.

Lemma keeps_GenerateOAuthState : keeps P generateOAuthState.
Proof using HP. unfold generateOAuthState. solve_safe. Qed.

Hint Resolve keeps_GenerateOAuthState keeps_Session_Delete : safe.

(** [safe_session]: binds the session a manager gives. *)
Ltac safe_session lem s Hs :=
  eapply safe_bind; [apply lem|]; intros [[s|] ?] Hs;
  [specialize (Hs s eq_refl)|clear Hs].

Lemma keeps_authenticated next s rw r :
  (∀ rw r, keeps P (next rw r)) → (∀ s', s = Some s' → stored_in s') →
  keeps P (authenticated config next s rw r).
Proof using HP StorageKeepsAs0 Sound0.
  intros Hn Hs. unfold authenticated, SessionData_IsExpired, time_Now. destruct s as [s|]; [|solve_safe].
  specialize (Hs s eq_refl). apply keeps_bind; [solve_safe|]. intros [|]; [|solve_safe].
  eapply safe_bind; [by apply safe_interact|]. intros [t|e] [n Hn']; [|solve_safe].
  eapply safe_bind; [by eapply safe_Session_Update|]. solve_safe.
Qed.

Lemma keeps_AuthenticationMiddleware next rw r :
  (∀ rw r, keeps P (next rw r)) → keeps P (AuthenticationMiddleware m config next rw r).
Proof using HP Hm StorageKeepsAs0 Sound0.
  intros Hn. unfold AuthenticationMiddleware. apply keeps_bind; [solve_safe|]. intros _.
  eapply safe_bind; [apply safe_GetSession|]. intros [s e] Hs.
  assert (Ha : keeps P (authenticated config next s rw r)) by by apply keeps_authenticated.
  solve_safe.
Qed.

Lemma keeps_LoginHandlerOidc rw r : keeps P (LoginHandlerOidc m config rw r).
Proof using HP Hm pv.
  unfold LoginHandlerOidc. apply keeps_bind; [solve_safe|]. intros _.
  safe_session safe_NewSession s Hs; solve_safe.
Qed.

Lemma keeps_CallbackHandlerOidc post rw r : keeps P (CallbackHandlerOidc m config post rw r).
Proof using HP Hm StorageKeepsAs0 Sound0.
  unfold CallbackHandlerOidc. apply keeps_bind; [solve_safe|]. intros _.
  safe_session safe_GetSession s Hs; [|solve_safe].
  match goal with |- context [match ?e with Some _ => _ | None => _ end] => destruct e end; [solve_safe|].
  cbv zeta. apply keeps_bind; [solve_safe|]. intros state. destruct (negb _); [solve_safe|].
  eapply safe_bind; [by apply safe_interact|]. intros [token|e] [n Ht]; [|solve_safe].
  safe_session safe_NewSession s' Hs'; [|solve_safe].
  match goal with |- context [match ?e with Some _ => _ | None => _ end] => destruct e end; [solve_safe|].
  apply keeps_bind; [by eapply keeps_Save|]. solve_safe.
Qed.

Lemma keeps_LogoutHandlerOidc post rw r : keeps P (LogoutHandlerOidc m config post rw r).
Proof using HP Hm StorageKeepsAs0.
  unfold LogoutHandlerOidc. apply keeps_bind; [solve_safe|]. intros _.
  safe_session safe_GetSession s Hs; solve_safe.
Qed.

Lemma keeps_io_Copy rw body : keeps P (io_Copy rw body).
Proof using HP. induction body as [|chunk body IH]; cbn [io_Copy]; solve_safe. Qed.

Hint Resolve keeps_io_Copy : safe.

Lemma keeps_userInfo rw r : keeps P (userInfo config rw r).
Proof using HP. unfold userInfo, close_body, Logger_SetError. solve_safe. Qed.
End Sessions.

#[export] Hint Resolve keeps_LoginHandlerOidc keeps_CallbackHandlerOidc keeps_LogoutHandlerOidc
  keeps_AuthenticationMiddleware keeps_userInfo : safe.

(** ** The server *)

Section Server.
Context `{!Clock} `{!Network} `{!Otel} `{!Rand} `{!Redirector} `{!RealIP}.
Context `{!Gorilla} `{!OidcLib} `{!OAuth2} `{!BodyFault}.
Context `{!ReverseProxy} `{!Propagator} `{!MuxPaths}.
Context (P : World → Prop) (HP : about_db P) (pv : Provenance) (impl : SessionImpl).
Context `{!StorageKeepsAs pv P impl}.
Context (config : oidc_Config) `{!Sound config pv}.
Context (m : Manager) (Hm : m_sessionImpl m = impl).

Definition keeping (h : Handler) : Prop := ∀ rw r, keeps P (h rw r).

Lemma keeping_opentelemetry h name op : keeping h → keeping (opentelemetry_Middleware h name op).
Proof using HP. intros Hh rw r. unfold opentelemetry_Middleware, keeping in *. solve_safe. Qed.

Lemma keeping_Logger_Middleware h : keeping h → keeping (Logger_Middleware h).
Proof using HP.
  intros Hh rw r. unfold Logger_Middleware, clean_logger, time_Now. unfold keeping in Hh. solve_safe.
Qed.

Lemma keeping_rootHandler : keeping rootHandler.
Proof using HP. intros rw r. unfold rootHandler. solve_safe. Qed.

Lemma keeps_copyResponse rw body : keeps P (copyResponse rw body).
Proof using HP. induction body as [|chunk body IH]; cbn [copyResponse]; solve_safe. Qed.

Hint Resolve keeps_copyResponse : safe.

Lemma keeps_forward_interim rw interim : keeps P (forward_interim rw interim).
Proof using HP.
  induction interim as [|[code h] interim IH]; cbn [forward_interim]; unfold add_headers; solve_safe.
Qed.

Hint Resolve keeps_forward_interim : safe.

Lemma keeping_proxy p : keeping (ProxyRequestHandler p).
Proof using HP.
  intros rw r. unfold ProxyRequestHandler, proxy_ServeHTTP, proxy_ErrorHandler, add_headers. solve_safe.
Qed.

Lemma keeping_mux l : Forall (λ ph : string * Handler, keeping ph.2) l → keeping (mux_ServeHTTP l).
Proof using HP.
  intros Hl rw r. unfold mux_ServeHTTP. destruct (mux_redirect r); [solve_safe|].
  assert (Hex : ∀ l, Forall (λ ph : string * Handler, keeping ph.2) l →
    ∀ path h, mux_exact path l = Some h → keeping h).
  { induction 1 as [|[p h'] l' Hh _ IH]; simpl; [done|]. intros path h.
    destruct (String.eqb p path); [by intros [= <-]|apply IH]. }
  assert (Hpre : ∀ l, Forall (λ ph : string * Handler, keeping ph.2) l → ∀ path best,
    (∀ b, best = Some b → keeping b.2) → ∀ b, mux_prefix path l best = Some b → keeping b.2).
  { induction 1 as [|[p h'] l' Hh _ IH]; simpl; [auto|]. intros path best Hb b.
    match goal with |- context [if ?c then _ else _] => destruct c end; apply IH; [|done].
    by intros b' [= <-]. }
  unfold mux_match. destruct (mux_exact _ l) as [h|] eqn:He; [by eapply Hex|].
  destruct (mux_prefix _ l None) as [[p h]|] eqn:Hp; simpl.
  - by apply (Hpre l Hl _ None) in Hp; [apply Hp|].
  - unfold http_NotFound. solve_safe.
Qed.

Lemma keeping_server post_login post_logout proxies :
  keeping (server m config post_login post_logout proxies).
Proof using HP Hm StorageKeepsAs0 Sound0.
  apply keeping_Logger_Middleware, keeping_mux. unfold routes.
  assert (Hlogin : keeping (LoginHandlerOidc m config)) by (intros ??; eauto with safe).
  assert (Hcallback : keeping (CallbackHandlerOidc m config post_login)) by (intros ??; eauto with safe).
  assert (Hlogout : keeping (LogoutHandlerOidc m config post_logout)) by (intros ??; eauto with safe).
  assert (Hauth : ∀ next, keeping next → keeping (AuthenticationMiddleware m config next)).
  { intros next Hn rw r. by eapply keeps_AuthenticationMiddleware. }
  assert (Huser : keeping (UserInfoHandlerOidc m config)).
  { apply Hauth. intros rw r. by apply keeps_userInfo. }
  apply Forall_app. split; [repeat constructor; by apply keeping_opentelemetry|].
  apply Forall_app. split.
  - apply Forall_fmap, Forall_true. intros [ep p]. simpl.
    apply keeping_opentelemetry, Hauth, keeping_proxy.
  - constructor; [|constructor]. apply keeping_opentelemetry, keeping_rootHandler.
Qed.

Lemma keeps_cleaner_round ctx : keeps P (cleaner_round ctx impl).
Proof using HP StorageKeepsAs0. unfold cleaner_round, log_to. solve_safe. Qed.

Lemma keeps_cleaner_stopping ctx : keeps P (cleaner_stopping ctx).
Proof using HP. unfold cleaner_stopping, log_to. solve_safe. Qed.

Lemma keeps_cleaner_stopped ctx : keeps P (cleaner_stopped ctx).
Proof using HP. unfold cleaner_stopped, log_to. solve_safe. Qed.

Lemma keeps_run {A} (c : IO A) w o w' : keeps P c → c w = (o, w') → P w → P w'.
Proof. intros Hc Hr Hw. destruct (Hc w Hw) as [Hw' _]. by rewrite Hr in Hw'. Qed.

(** ** The running process *)

Context `{!SqlDriver} `{!TracerProvider} (ctx : Context).

Lemma keeps_close_connection : keeps P (close_connection ctx impl).
Proof using HP StorageKeepsAs0. unfold close_connection. solve_safe. Qed.

Lemma keeps_shutdown_tracer can : keeps P (shutdown_tracer can).
Proof using HP. unfold shutdown_tracer. solve_safe. Qed.

Definition keeping_handler (s : Running) : Prop := ∀ h, rn_handler s = Some h → keeping h.

Lemma keeps_main_step s s' :
  main_step ctx impl s s' → keeping_handler s ∧ P (rn_world s) →
  keeping_handler s' ∧ P (rn_world s').
Proof using HP StorageKeepsAs0.
  intros Hstep [Hh Hw]. unfold keeping_handler in *.
  destruct Hstep; simpl in *; (split; [done|]); try done;
    try (eapply keeps_run; [|eassumption|exact Hw]).
  - apply (Hh h eq_refl). by apply (HP w).
  - apply keeps_cleaner_round.
  - apply keeps_cleaner_stopping.
  - by apply (HP w).
  - unfold graceful. solve_safe.
  - apply keeps_cleaner_stopped.
  - apply keeps_close_connection.
  - apply keeps_shutdown_tracer.
  - unfold Logger_Sync. solve_safe.
Qed.

Lemma keeps_main_steps s s' :
  rtc (main_step ctx impl) s s' → keeping_handler s ∧ P (rn_world s) → P (rn_world s').
Proof using HP StorageKeepsAs0.
  induction 1 as [s|s s1 s2 Hs _ IH]; [by intros [_ ?]|]. intros Hk. apply IH.
  by eapply keeps_main_step.
Qed.
End Server.
