(* ===== verification/Typing.v ===== *)
(** * What the two backends and the start of the process keep of the database

    The instances of [StorageKeeps]: a backend keeps what its statements keep, whatever
    it is called with.  Two such properties are used: every row that the process has
    written is encrypted, and the connection is closed.  The file ends with [main]: what
    [start_up] and [mount] hand to the running process. *)

From stdpp Require Import base gmap strings list option numbers relations.
From Stdlib Require Import ZArith Lia String.
From S2P Require Import Prelude GoBase Encoding World Telemetry Zlogger Database Sqlite.
From S2P Require Import Postgresql Oidc SessionConfig Sessions Config LoadConfig Manager.
From S2P Require Import Cleaner Handlers Server Startup Shutdown Invariance.

#[local] Open Scope Z_scope.
#[local] Open Scope string_scope.

#[export] Typeclasses Opaque sqlite_impl postgresql_impl nil_impl.

(** A statement keeps [P] when an open connection executes it. *)
Definition stmt_keeps (P : World → Prop) (stmt : gmap string Row → result error (gmap string Row))
    : Prop :=
  ∀ w t, P w → w_open w = true → stmt (w_table w) = Ok t → P (set_table t w).

Section Statements.
Context `{!SqlDriver} (P : World → Prop) (HP : about_db P).

Lemma keeps_db_Exec stmt : stmt_keeps P stmt → keeps P (db_Exec stmt).
Proof using HP.
  intros Hs w Hw. split; [|done]. assert (Hw' : P (set_tick S w)) by (apply (HP w); [repeat split; simpl; lia|done]).
  unfold db_Exec. rewrite run_bind. cbn [interact].
  destruct (sql_failure (w_tick w)); [done|].
  rewrite run_bind. cbn [gets]. destruct (w_open (set_tick S w)) eqn:Ho; [|done].
  rewrite run_bind. cbn [gets]. destruct (stmt (w_table (set_tick S w))) eqn:Ht; [|done].
  by apply Hs.
Qed.

Lemma keeps_db_QueryRow e q : keeps P (db_QueryRow e q).
Proof using HP. unfold db_QueryRow. solve_safe. Qed.

Lemma keeps_pgx_Exec ctx stmt : stmt_keeps P stmt → keeps P (pgx_Exec ctx stmt).
Proof using HP.
  intros Hs w Hw. split; [|done]. assert (Hw' : P (set_tick S w)) by (apply (HP w); [repeat split; simpl; lia|done]).
  unfold pgx_Exec. rewrite run_bind. cbn [interact].
  destruct (pgx_fate ctx (w_tick w)) as [|e|e]; [|done|];
    (rewrite run_bind; cbn [gets]; destruct (w_open (set_tick S w)) eqn:Ho; [|done];
     rewrite run_bind; cbn [gets]; destruct (stmt (w_table (set_tick S w))) eqn:Ht; [|done];
     by apply Hs).
Qed.

Lemma keeps_pgx_QueryRow ctx q : keeps P (pgx_QueryRow ctx q).
Proof using HP. unfold pgx_QueryRow. solve_safe. Qed.

Lemma keeps_encryptArgs cipher s : keeps P (encryptArgs cipher s).
Proof using HP. unfold encryptArgs. solve_safe. Qed.
End Statements.

#[export] Hint Resolve keeps_db_Exec keeps_db_QueryRow keeps_pgx_Exec keeps_pgx_QueryRow
  keeps_encryptArgs : safe.

Section Backends.
Context `{!Clock} `{!Uuid} `{!SqlDriver} (P : World → Prop) (HP : about_db P).
Context (Hclose : ∀ w, P w → P (set_open false w)) (cipher : option HexCipher).

Lemma keeps_db_Close : keeps P db_Close.
Proof using HP Hclose.
  unfold db_Close. apply keeps_bind; [by apply keeps_interact|]. intros e.
  apply keeps_bind; [by apply safe_modify|]. intros _. by apply safe_ret.
Qed.

Lemma keeps_pgx_Close ctx : keeps P (pgx_Close ctx).
Proof using HP Hclose.
  unfold pgx_Close. apply keeps_bind; [by apply keeps_interact|]. intros e.
  apply keeps_bind; [by apply safe_modify|]. intros _. by apply safe_ret.
Qed.

Hint Resolve keeps_db_Close keeps_pgx_Close : safe.

(** What a new id satisfies. *)
Context (Q : string → Prop) (HQ : safe P (interact uuid_New) Q).

(** What a row that is written satisfies. *)
Section Rows.
Context (okr : Row → Prop).
Context (Hokr : ∀ d, safe P (encryptArgs cipher d) (λ r, r.2 = None → okr (row_of r.1))).

Ltac solve_rows :=
  repeat first
    [ progress intros
    | solve [solve_safe]
    | eapply safe_bind; [apply Hokr|intros [? [?|]] ?]
    | eapply safe_bind; [exact HQ|intros ? ?]
    | apply keeps_bind; [solve [eauto with safe]|]
    | match goal with Hok : ?e = ?e → okr _ |- _ => specialize (Hok eq_refl) end
    | match goal with |- safe _ (if ?b then _ else _) _ => destruct b end
    | match goal with |- safe _ (match ?x with _ => _ end) _ => destruct x end ].

Lemma sqlite_keeps_rows :
  (∀ id r, Q id → okr r → stmt_keeps P (querySQLiteInsert id r)) →
  (∀ id, stmt_keeps P (querySQLiteDelete id)) →
  (∀ id r, okr r → stmt_keeps P (querySQLiteUpdate r id)) →
  (∀ n, stmt_keeps P (querySQLitePurge n)) →
  StorageKeeps P (sqlite_impl cipher).
Proof using HP Hclose HQ Hokr.
  intros Hi Hd Hu Hp.
  assert (Hget : ∀ ctx id, keeps P (sqlite_Get cipher ctx id)).
  { intros ctx id. apply safe_with_optional_span; [done|]. solve_safe. }
  apply storage_keeps; intros; simpl; try (apply safe_with_optional_span; [done|]);
    [solve_rows|solve_safe|solve_safe|solve_rows|..];
    unfold sqlite_Purge, time_Now, sqlite_CloseConnection; solve_safe.
Qed.

Lemma postgresql_keeps_rows :
  (∀ id r, Q id → okr r → stmt_keeps P (queryPostgresqlInsert id r)) →
  (∀ id, stmt_keeps P (queryPostgresqlDelete id)) →
  (∀ id r, okr r → stmt_keeps P (queryPostgresqlUpdate r id)) →
  (∀ n, stmt_keeps P (queryPostgresqlPurge n)) →
  StorageKeeps P (postgresql_impl cipher).
Proof using HP Hclose HQ Hokr.
  intros Hi Hd Hu Hp.
  assert (Hget : ∀ ctx id, keeps P (postgresql_Get cipher ctx id)).
  { intros ctx id. apply safe_with_optional_span; [done|]. solve_safe. }
  apply storage_keeps; intros; simpl; try (apply safe_with_optional_span; [done|]);
    [solve_rows|solve_safe|solve_safe|solve_rows|..];
    unfold postgresql_Purge, time_Now, postgresql_CloseConnection; solve_safe.
Qed.
End Rows.

Lemma any_row d : safe P (encryptArgs cipher d) (λ r, r.2 = None → True).
Proof using HP. eapply safe_weaken; [by apply keeps_encryptArgs|done]. Qed.

Lemma sqlite_keeps :
  (∀ id r, Q id → stmt_keeps P (querySQLiteInsert id r)) → (∀ id, stmt_keeps P (querySQLiteDelete id)) →
  (∀ id r, stmt_keeps P (querySQLiteUpdate r id)) → (∀ n, stmt_keeps P (querySQLitePurge n)) →
  StorageKeeps P (sqlite_impl cipher).
Proof using HP Hclose HQ. intros. by apply (sqlite_keeps_rows (λ _, True) any_row); auto. Qed.

Lemma postgresql_keeps :
  (∀ id r, Q id → stmt_keeps P (queryPostgresqlInsert id r)) →
  (∀ id, stmt_keeps P (queryPostgresqlDelete id)) →
  (∀ id r, stmt_keeps P (queryPostgresqlUpdate r id)) →
  (∀ n, stmt_keeps P (queryPostgresqlPurge n)) →
  StorageKeeps P (postgresql_impl cipher).
Proof using HP Hclose HQ. intros. by apply (postgresql_keeps_rows (λ _, True) any_row); auto. Qed.
End Backends.

Section NilBackend.
Context `{!Clock} `{!Uuid} `{!SqlDriver} (P : World → Prop) (HP : about_db P).

Lemma any_id : safe P (interact uuid_New) (λ _, True).
Proof using HP. by apply keeps_interact. Qed.

Lemma nil_keeps inner : StorageKeeps P (nil_impl inner).
Proof using HP.
  assert (Hget : ∀ ctx id, keeps P (Get (nil_impl inner) ctx id)).
  { intros ctx id. apply safe_with_optional_span; [done|]. solve_safe. }
  apply storage_keeps; intros; try apply Hget; simpl; try (apply safe_with_optional_span; [done|]);
    [solve_safe..| |unfold time_Now; solve_safe|solve_safe].
  intros s. apply keeps_bind; [solve_safe|]. intros _. apply keeps_bind; [apply Hget|]. solve_safe.
Qed.
End NilBackend.

(** ** A closed connection stays closed *)

Definition closed (w : World) : Prop := w_open w = false.

Lemma closed_about_db : about_db closed.
Proof. intros w w' (_ & Ho & _) Hw. unfold closed in *. congruence. Qed.

Lemma stmt_keeps_closed stmt : stmt_keeps closed stmt.
Proof. intros w t Hw Ho. unfold closed in Hw. by rewrite Hw in Ho. Qed.

(** ** Tokens at rest *)

(** Each row is one that was there already, or the encryption of a record. *)
Definition at_rest (c : HexCipher) (old : gmap string Row) (w : World) : Prop :=
  map_Forall (λ id r, old !! id = Some r ∨ ∃ d, encrypted_by c d r) (w_table w).

Lemma at_rest_about_db c old : about_db (at_rest c old).
Proof. intros w w' [Ht _] Hw. unfold at_rest. by rewrite Ht. Qed.

Section AtRest.
Context `{!Clock} `{!Uuid} `{!SqlDriver} (c : HexCipher) (old : gmap string Row).

(** A row that may be written. *)
Definition sealed (r : Row) : Prop := ∃ d, encrypted_by c d r.

Lemma encryptArgs_seals d :
  safe (at_rest c old) (encryptArgs (Some c) d) (λ r, r.2 = None → sealed (row_of r.1)).
Proof.
  intros w Hw. split; [by apply (keeps_encryptArgs _ (at_rest_about_db c old))|].
  destruct (twp_encryptArgs_Some c d (λ r _, r.2 = None → sealed (row_of r.1)) w) as (a & Hrun & Ha).
  - intros w' enc err _ _ He Hn. exists d. by apply He.
  - rewrite Hrun. by intros a' [= <-].
Qed.

Lemma at_rest_insert id r : sealed r → stmt_keeps (at_rest c old) (sql_insert id r).
Proof.
  intros Hr w t Hw _ (_ & -> & _)%sql_insert_Ok. apply map_Forall_insert_2; [by right|done].
Qed.

Lemma at_rest_delete id : stmt_keeps (at_rest c old) (sql_delete id).
Proof. intros w t Hw _ [= <-]. by apply map_Forall_delete. Qed.

Lemma at_rest_purge n : stmt_keeps (at_rest c old) (sql_purge n).
Proof. by intros w t Hw _ [= <-] id r [Hid _]%map_lookup_filter_Some; apply Hw. Qed.

Lemma at_rest_update id r : sealed r → stmt_keeps (at_rest c old) (sql_update id r).
Proof.
  intros Hr w t Hw _. unfold sql_update. destruct (w_table w !! id); [|by intros [= <-]].
  destruct (row_checks r); [|done]. intros [= <-]. apply map_Forall_insert_2; [by right|done].
Qed.

#[export] Instance sqlite_keeps_at_rest : StorageKeeps (at_rest c old) (sqlite_impl (Some c)).
Proof.
  apply (sqlite_keeps_rows _ (at_rest_about_db _ _) (λ _ Hw, Hw) _ _ (any_id _ (at_rest_about_db _ _))
           sealed encryptArgs_seals).
  - intros id r _. apply at_rest_insert.
  - apply at_rest_delete.
  - intros id r. apply at_rest_update.
  - apply at_rest_purge.
Qed.

#[export] Instance postgresql_keeps_at_rest :
  StorageKeeps (at_rest c old) (postgresql_impl (Some c)).
Proof.
  apply (postgresql_keeps_rows _ (at_rest_about_db _ _) (λ _ Hw, Hw) _ _ (any_id _ (at_rest_about_db _ _))
           sealed encryptArgs_seals).
  - intros id r _ Hr w t Hw Ho. unfold queryPostgresqlInsert. repeat case_match; try done.
    by apply at_rest_insert.
  - intros id w t Hw Ho. unfold queryPostgresqlDelete. case_match; [done|]. by apply at_rest_delete.
  - intros id r Hr w t Hw Ho. unfold queryPostgresqlUpdate. repeat case_match; try done.
    by apply at_rest_update.
  - intros n w t Hw Ho. unfold queryPostgresqlPurge. case_match; [done|]. by apply at_rest_purge.
Qed.
End AtRest.

(** ** [main] *)

Section Mount.
Context `{!Clock} `{!Uuid} `{!SqlDriver} `{!Databases} `{!CipherLib} `{!Telemetry_libs}.
Context `{!Files} `{!Viper} `{!Discovery} `{!UrlParser}.
Context `{!Network} `{!Otel} `{!Rand} `{!Redirector} `{!RealIP}.
Context `{!Gorilla} `{!OidcLib} `{!OAuth2} `{!BodyFault}.
Context `{!ReverseProxy} `{!Propagator} `{!MuxPaths}.
(** What [mount] itself keeps, and what the handlers it registers keep. *)
Context (Q P : World → Prop) (HQ : about_db Q) (HP : about_db P).

Abbreviation boot_keeps m R := (safe (λ b, Q (b_world b)) m R).

Lemma safe_lift {A} (m : IO A) R : safe Q m R → boot_keeps (lift m) R.
Proof. intros Hm b Hb. apply (Hm (b_world b) Hb). Qed.

Lemma keeps_add_log e : keeps Q (modify (add_log e)).
Proof using HQ. by apply keeps_modify. Qed.

Lemma safe_zlog_Fatal {A} message err (R : main_end A → Prop) :
  R Exited → boot_keeps (zlog_Fatal message err) R.
Proof using HQ.
  intros HR. apply keeps_bind; [by apply safe_lift, keeps_add_log|]. intros _. by apply safe_ret.
Qed.

Definition keeping_mux_list (l : list (string * Handler)) : Prop :=
  Forall (λ ph : string * Handler, keeping P ph.2) l.

Lemma safe_mux_Handle mux p h :
  keeping_mux_list mux → keeping P h → boot_keeps (mux_Handle mux p h) keeping_mux_list.
Proof.
  intros Hm Hh. unfold mux_Handle. destruct (String.eqb p ""); [apply safe_panic|].
  destruct (existsb _ mux); [apply safe_panic|]. apply safe_ret.
  apply Forall_app. split; [done|]. by constructor.
Qed.

Context (st : Started) (pv : Provenance) `{!StorageKeepsAs pv P (st_impl st)}.
Context `{!Sound (st_oidc st) pv}.
Context (Hm : m_sessionImpl (st_manager st) = st_impl st).

Lemma keeping_protected next :
  keeping P next → keeping P (AuthenticationMiddleware (st_manager st) (st_oidc st) next).
Proof using HP Hm StorageKeepsAs0 Sound0.
  intros Hn rw r. by apply (keeps_AuthenticationMiddleware P HP pv (st_impl st)).
Qed.

(** The result of a part of [mount]: not yet a mux, or one whose handlers keep [P]. *)
Definition keeping_end (e : main_end (list (string * Handler))) : Prop :=
  ∀ l, e = Going l → keeping_mux_list l.

Lemma safe_mount_proxies l mux :
  keeping_mux_list mux → boot_keeps (mount_proxies st mux l) keeping_end.
Proof using HQ HP Hm StorageKeepsAs0 Sound0.
  revert mux. induction l as [|pe l IH]; intros mux Hmux; cbn [mount_proxies].
  { apply safe_ret. by intros l [= <-]. }
  apply keeps_bind; [by apply safe_lift, keeps_add_log|]. intros _.
  destruct (NewProxy _ _ _) as [p|err]; [|by apply safe_zlog_Fatal].
  eapply safe_bind; [|exact IH]. apply safe_mux_Handle; [done|].
  apply keeping_opentelemetry, keeping_protected; [done|]. by apply keeping_proxy.
Qed.

Lemma safe_mount : boot_keeps (mount st) (λ e, ∀ h, e = Going h → keeping P h).
Proof using HQ HP Hm StorageKeepsAs0 Sound0.
  assert (Hfixed : ∀ mux p h op, keeping P h → keeping_mux_list mux →
    boot_keeps (mux_Handle mux p (opentelemetry_Middleware h tracer_name_ op)) keeping_mux_list).
  { intros. apply safe_mux_Handle; [done|]. by apply keeping_opentelemetry. }
  unfold mount. cbv zeta.
  eapply safe_bind; [apply Hfixed; [|constructor]; intros ??; by eapply keeps_LoginHandlerOidc|].
  intros mux1 Hmux1.
  eapply safe_bind; [apply Hfixed; [|exact Hmux1]; intros ??; by eapply keeps_CallbackHandlerOidc|].
  intros mux2 Hmux2.
  eapply safe_bind; [apply Hfixed; [|exact Hmux2]; intros ??; by eapply keeps_LogoutHandlerOidc|].
  intros mux3 Hmux3.
  eapply safe_bind.
  { apply Hfixed; [|exact Hmux3]. apply keeping_protected. intros ??. by apply keeps_userInfo. }
  intros mux4 Hmux4. apply (safe_bind _ _ _ keeping_end).
  - destruct (String.eqb _ ""); [apply safe_ret; by intros l [= <-]|].
    apply keeps_bind; [apply safe_lift; unfold ReadProxyConfig; solve_safe|].
    intros [l|err]; [by apply safe_mount_proxies|by apply safe_zlog_Fatal].
  - intros [|mux] Hmux; [by apply safe_ret|].
    eapply safe_bind; [apply Hfixed; [by apply keeping_rootHandler|by apply Hmux]|].
    intros mux5 Hmux5. apply keeps_bind; [by apply safe_lift, keeps_add_log|]. intros _.
    apply safe_ret. intros h [= <-]. by apply keeping_Logger_Middleware, keeping_mux.
Qed.

Lemma keeping_after_mount b :
  Q (b_world b) → let s := after_mount (mount st b) in keeping_handler P s ∧ Q (rn_world s).
Proof using HQ HP Hm StorageKeepsAs0 Sound0.
  intros Hb. destruct (safe_mount b Hb) as [Hw Hh].
  destruct (mount st b) as [[[|h]|e] b']; (split; [|done]); intros h' [= <-]. by eapply Hh.
Qed.
End Mount.

Section StartUp.
Context `{!Clock} `{!Uuid} `{!SqlDriver} `{!Databases} `{!CipherLib} `{!Telemetry_libs}.
Context `{!Viper} `{!Discovery}.
(** What is wanted of the storage, and holds of all that the constructors make of
    [cipher]. *)
Context (K : SessionImpl → Prop) (cipher : option HexCipher).
Context (Hnil : ∀ inner, K (nil_impl inner)).
Context (Hsqlite : K (sqlite_impl cipher)) (Hpostgresql : K (postgresql_impl cipher)).

Definition made_well (o : Once) : Prop := ∀ i, once_instance o = Some i → K i.

Definition boot_well (b : Boot) : Prop := made_well (b_sqlite b) ∧ made_well (b_pg b).

Lemma safe_lift_well {A} (m : IO A) R : safe (λ _, True) m R → safe boot_well (lift m) R.
Proof using Type. intros Hm b Hb. destruct (Hm (b_world b) I). by split. Qed.

Lemma keeps_lift_well {A} (m : IO A) : keeps boot_well (lift m).
Proof using Type. by apply safe_lift_well. Qed.

Lemma sqlite_init_well database :
  safe (λ _, True) (sqlite_init cipher database) (λ r, ∀ i, r.2 = Some i → K i).
Proof using Hsqlite.
  unfold sqlite_init. cbv zeta. apply keeps_bind; [done|]. intros [e|]; [by apply safe_ret|].
  apply keeps_bind; [done|]. intros _. apply keeps_bind; [done|].
  intros [e|]; apply safe_ret; [done|]. by intros i [= <-].
Qed.

Lemma postgresql_init_well host database username password :
  safe (λ _, True) (postgresql_init cipher host database username password)
    (λ r, ∀ i, r.2 = Some i → K i).
Proof using Hpostgresql.
  unfold postgresql_init. cbv zeta. apply keeps_bind; [done|]. intros [e|]; [by apply safe_ret|].
  apply keeps_bind; [done|]. intros _. apply keeps_bind; [done|].
  intros [e|]; apply safe_ret; [done|]. by intros i [= <-].
Qed.

(** What a constructor returns, if anything. *)
Definition returns_well (r : option SessionImpl * option error) : Prop := ∀ i, r.1 = Some i → K i.

Lemma safe_singleton get set nil init :
  K nil → safe (λ _, True) init (λ r, ∀ i, r.2 = Some i → K i) →
  (∀ b, boot_well b → made_well (get b)) →
  (∀ b o, boot_well b → made_well o → boot_well (set o b)) →
  safe boot_well (singleton get set nil init) returns_well.
Proof using Type.
  intros Hn Hinit Hget Hset. unfold singleton. apply keeps_bind; [apply keeps_gets|].
  intros o. apply keeps_bind.
  { destruct (once_called o); [by apply safe_ret|].
    eapply safe_bind; [by apply safe_lift_well|]. intros [e inst] Hi.
    apply keeps_bind; [|intros _; by apply safe_ret]. apply safe_modify. intros b Hb. by apply Hset. }
  intros [e|]; [by apply safe_ret|].
  intros b Hb. split; [done|]. intros r [= <-] i [= <-].
  destruct (once_instance (get b)) as [i|] eqn:Hi; [by eapply Hget|done].
Qed.

Lemma open_database_well ctx c err : safe boot_well (open_database ctx c cipher err) returns_well.
Proof using All.
  unfold open_database. destruct (String.eqb _ _); [|destruct (String.eqb _ _); [|by apply safe_ret]].
  - apply safe_singleton; [done|apply sqlite_init_well|by intros b []|by intros b o [_ ?] ?].
  - apply safe_singleton; [done|apply postgresql_init_well|by intros b []|by intros b o [? _] ?].
Qed.

Lemma manager_has_storage n c m : (NewManager n c).1 = Some m → SessionImpl_ c = Some (m_sessionImpl m).
Proof using Type.
  unfold NewManager. destruct (SessionImpl_ c) as [i|]; [|done].
  destruct (keyPairsAsSlice c) as [s [e|]]; [done|]. by intros [= <-].
Qed.

(** What [start_up] gives: the configuration it has loaded, and a manager on the
    storage. *)
Definition started_well (c : Config) (e : main_end Started) : Prop :=
  ∀ st, e = Going st →
    st_config st = c ∧ m_sessionImpl (st_manager st) = st_impl st ∧ K (st_impl st).

Lemma Fatal_well {A} message err (R : main_end A → Prop) :
  R Exited → safe boot_well (zlog_Fatal message err) R.
Proof using Type. intros HR. apply keeps_bind; [apply keeps_lift_well|]. intros _. by apply safe_ret. Qed.

Lemma InitTracer_well service host port : keeps boot_well (InitTracer service host port).
Proof using Type.
  unfold InitTracer. apply keeps_bind; [apply keeps_lift_well|].
  intros [e|]; [by apply safe_ret|]. cbv zeta.
  apply keeps_bind; [by apply safe_modify|]. intros _.
  apply keeps_bind; [by apply safe_modify|]. intros _. by apply safe_ret.
Qed.

Lemma start_up_well src args c :
  LoadConfig src args = Some (c, None) →
  (NewXChaCha20Cipher (SessionDBKey c) (SessionOldDBKey c)).1 = cipher →
  safe boot_well (start_up src args) (started_well c).
Proof using All.
  intros Hc Hcipher. unfold start_up. rewrite Hc.
  destruct (NewLogger _ _); [|by apply safe_ret]. cbv zeta.
  apply keeps_bind; [apply InitTracer_well|]. intros [tp|e]; [|by apply Fatal_well].
  destruct (NewXChaCha20Cipher _ _) as [cipher' err]. simpl in Hcipher. subst cipher'.
  destruct (cipher_refused err) as [e|]; [by apply Fatal_well|].
  eapply safe_bind; [by apply open_database_well|]. intros [i e'] Hi.
  destruct e' as [e'|]; [by apply Fatal_well|].
  apply keeps_bind; [apply keeps_lift_well|].
  intros [o e]. destruct o as [o|], e as [e|]; try by apply Fatal_well. 2: apply safe_panic.
  pose proof (manager_has_storage 0 (session_configuration c i)) as Hm.
  destruct i as [i|]; destruct (NewManager 0 _) as [[m'|] [e|]];
    first [by apply Fatal_well | by apply safe_panic | apply safe_ret].
  intros st [= <-]. split; [done|]. specialize (Hm m' eq_refl). simpl in Hm.
  split; [simpl; congruence|]. by apply Hi.
Qed.
End StartUp.
