(* ===== verification/Interleaving.v ===== *)
(** * Concurrent requests on the shared logger

    [net/http] runs the handlers of concurrent requests in one goroutine each.  The
    response writer and the recorder of [Logger.Middleware] belong to the request; the
    [Logger] is one for the process, without a lock.  Here the requests run the parts
    of the middleware in any order. *)

From stdpp Require Import base gmap strings list option numbers relations.
From Stdlib Require Import ZArith Lia.
From S2P Require Import Prelude GoBase Encoding World Telemetry Zlogger.

#[local] Open Scope Z_scope.
#[local] Open Scope string_scope.
#[local] Open Scope list_scope.

(** Where a request is in [Logger.Middleware]: not begun; in the inner handler, since
    [start]; back from it; logged; or panicking, in which case the deferred function
    is still to come; done, with an entry in the log or without. *)
Inductive phase : Type :=
  | Arrived
  | Handling (start : Time)
  | Answered (start : Time)
  | Logged
  | Panicking
  | Finished
  | Aborted.

Record Exchange : Type := mkExchange {
  ex_request : Request;
  ex_resp : Response;
  ex_rec : Wrappers;
  ex_phase : phase
}.

Definition arrived (r : Request) : Exchange :=
  mkExchange r empty_response (mkWrappers (mkStatusRecorder 0 0) []) Arrived.

(** The world as the goroutine of an exchange sees it: its own response and writers. *)
Definition as_seen_by (e : Exchange) (w : World) : World :=
  mkWorld (w_tick w) (w_table w) (w_open w) (ex_resp e) (ex_rec e) (w_logger w) (w_log w) (w_trace w).

(** What it leaves in its exchange. *)
Definition after (e : Exchange) (p : phase) (w : World) : Exchange :=
  mkExchange (ex_request e) (w_resp w) (w_rec w) p.

Section Interleaving.
Context `{!Clock} `{!RealIP}.

(** The parts of the middleware: before the inner handler, and after it. *)
Definition begin_request : IO Time :=
  _ ← modify (set_rec (λ _, mkStatusRecorder 200 0));
  time_Now.

Definition log_request (start : Time) (r : Request) : IO unit :=
  stop ← time_Now;
  rec ← gets w_recorder;
  l ← gets w_logger;
  modify (add_log (mkLogEntry (log_level (sr_Status rec)) (log_message (sr_Status rec) l)
                     (log_fields rec (stop - start)%Z r l))).

Definition in_logger (r : Request) : Request :=
  WithContext r (context_WithValue (r_ctx r) zlogger_ctxKey AnyLogger).

Lemma Logger_Middleware_parts next rw r :
  Logger_Middleware next rw r =
  defer clean_logger (start ← begin_request; _ ← next (RecorderOf rw) (in_logger r);
                      log_request start r).
Proof. reflexivity. Qed.

Context (next : Handler).
Let handle (e : Exchange) : IO unit := next (RecorderOf NetHttpWriter) (in_logger (ex_request e)).

(** One step of the goroutine of exchange [i], or a write to the shared logger in the
    midst of the inner handler of one of them. *)
Inductive interleaved_step : list Exchange * World → list Exchange * World → Prop :=
  | il_begin es w i e start w' :
      es !! i = Some e → ex_phase e = Arrived →
      begin_request (as_seen_by e w) = (Ret start, w') →
      interleaved_step (es, w) (<[i := after e (Handling start) w']> es, w')
  | il_handle es w i e start w' :
      es !! i = Some e → ex_phase e = Handling start →
      handle e (as_seen_by e w) = (Ret tt, w') →
      interleaved_step (es, w) (<[i := after e (Answered start) w']> es, w')
  | il_panic es w i e start why w' :
      es !! i = Some e → ex_phase e = Handling start →
      handle e (as_seen_by e w) = (Panic why, w') →
      interleaved_step (es, w) (<[i := after e Panicking w']> es, w')
  | il_log es w i e start w' :
      es !! i = Some e → ex_phase e = Answered start →
      log_request start (ex_request e) (as_seen_by e w) = (Ret tt, w') →
      interleaved_step (es, w) (<[i := after e Logged w']> es, w')
  | il_clean es w i e w' :
      es !! i = Some e → ex_phase e = Logged →
      clean_logger (as_seen_by e w) = (Ret tt, w') →
      interleaved_step (es, w) (<[i := after e Finished w']> es, w')
  | il_abort es w i e w' :
      es !! i = Some e → ex_phase e = Panicking →
      clean_logger (as_seen_by e w) = (Ret tt, w') →
      interleaved_step (es, w) (<[i := after e Aborted w']> es, w')
  | il_logger es w i e start l :
      es !! i = Some e → ex_phase e = Handling start →
      interleaved_step (es, w) (es, set_logger (λ _, l) w).

(** ** What an entry of the log has of its own request *)

(** The level, and the fields that do not come from the logger or the clock. *)
Definition entry_core (x : LogEntry) : Level * list (string * FieldValue) :=
  (le_level x, filter (λ f : string * FieldValue, f.1 ≠ "latency") (take 6 (le_fields x))).

Definition core_of (e : Exchange) : Level * list (string * FieldValue) :=
  (log_level (sr_Status (wr_recorder (ex_rec e))),
   [("status", FInt (sr_Status (wr_recorder (ex_rec e)))); ("size", FInt (sr_Written (wr_recorder (ex_rec e))));
    ("method", FString (r_Method (ex_request e))); ("uri", FString (r_RequestURI (ex_request e)));
    ("host", FString (r_RemoteAddr (ex_request e)))]).

Definition was_logged (e : Exchange) : Prop := ex_phase e = Logged ∨ ex_phase e = Finished.

#[export] Instance phase_eq_dec : EqDecision phase.
Proof. solve_decision. Defined.

#[export] Instance was_logged_dec e : Decision (was_logged e).
Proof. unfold was_logged. apply _. Defined.

(** The inner handler leaves the log to the middleware. *)
Definition logs_nothing : Prop :=
  ∀ rw r w, ctx_Value (r_ctx r) zlogger_ctxKey = Some AnyLogger → w_log (next rw r w).2 = w_log w.

(** The entries added to [log0] are those of the exchanges that were logged. *)
Definition log_invariant (log0 : list LogEntry) (s : list Exchange * World) : Prop :=
  ∃ xs, w_log s.2 = (log0 ++ xs)%list ∧
    (entry_core <$> xs) ≡ₚ core_of <$> filter was_logged s.1.

Lemma filter_middle (l1 l2 : list Exchange) e :
  filter was_logged (l1 ++ e :: l2) ≡ₚ filter was_logged [e] ++ filter was_logged (l1 ++ l2).
Proof.
  rewrite <-(filter_app _ [e]). apply filter_Permutation. symmetry. apply (Permutation_middle l1 l2 e).
Qed.

Lemma filter_replace es i e e' :
  es !! i = Some e → ∃ l,
    filter was_logged es ≡ₚ filter was_logged [e] ++ l ∧
    filter was_logged (<[i := e']> es) ≡ₚ filter was_logged [e'] ++ l.
Proof.
  intros Hi. exists (filter was_logged (take i es ++ drop (S i) es)). split.
  - rewrite <-(take_drop_middle es i e Hi) at 1. apply filter_middle.
  - rewrite insert_take_drop by by eapply lookup_lt_Some. apply filter_middle.
Qed.

(** A step that adds the entry of an exchange. *)
Lemma invariant_logged log0 es i e e' w w' x :
  es !! i = Some e → w_log w' = w_log w ++ [x] →
  ¬ was_logged e → was_logged e' → entry_core x = core_of e' →
  log_invariant log0 (es, w) → log_invariant log0 (<[i := e']> es, w').
Proof.
  intros Hi Hw Hn Hy Hx (xs & Hxs & Hp). exists (xs ++ [x]). simpl in *.
  split; [by rewrite Hw, Hxs, app_assoc|].
  destruct (filter_replace es i e e' Hi) as (l & H1 & H2).
  rewrite fmap_app, Hp, H1, H2, !fmap_app, !filter_cons, !filter_nil.
  rewrite decide_False, decide_True by done. simpl. rewrite Hx. by rewrite Permutation_app_comm.
Qed.

(** A step that changes neither the log nor what was logged. *)
Lemma invariant_same log0 es i e e' w w' :
  es !! i = Some e → w_log w' = w_log w →
  (was_logged e' ↔ was_logged e) → core_of e' = core_of e ∨ ¬ was_logged e →
  log_invariant log0 (es, w) → log_invariant log0 (<[i := e']> es, w').
Proof.
  intros Hi Hw Hl Hc (xs & Hxs & Hp). exists xs. simpl in *. split; [congruence|].
  destruct (filter_replace es i e e' Hi) as (l & H1 & H2). rewrite Hp, H1, H2, !fmap_app.
  f_equiv. rewrite !filter_cons, !filter_nil. destruct (decide (was_logged e)) as [Hd|Hd].
  - rewrite decide_True by tauto. destruct Hc as [Hc|Hc]; [|done]. simpl. by rewrite Hc.
  - by rewrite decide_False by tauto.
Qed.
End Interleaving.
