(* ===== verification/MiddlewareSpec.v ===== *)
(** * The authentication middleware: abstract specification and refinement

    The verdicts the middleware may reach on a request, as a relation between the
    cookie, the stored session, the clock and the identity provider on one side,
    and the answer on the other; and the proof that the middleware always reaches
    one of them. *)

From stdpp Require Import base gmap strings list option numbers.
From Stdlib Require Import ZArith Lia.
From S2P Require Import Prelude GoBase Encoding World Telemetry Zlogger Database Oidc.
From S2P Require Import SessionConfig Sessions SessionLemmas Handlers.

#[local] Open Scope Z_scope.

(** What the middleware ends with: an error response, or the inner handler called
    with an access token in the context of the request. *)
Inductive verdict : Type :=
  | Rejected (code : Z) (description : string) (err : error)
  | Accepted (accessToken : string).

Definition with_access_token (r : Request) (tok : string) : Request :=
  WithContext r (context_WithValue (r_ctx r) ContextKeyAccessTokenName (AnyString tok)).

(** Nothing was answered yet, and no cookie was set. *)
Definition silent (w w' : World) : Prop :=
  (w_tick w ≤ w_tick w')%nat ∧ w_open w' = w_open w ∧ w_log w' = w_log w ∧
  w_rec w' = w_rec w ∧ w_resp w' = w_resp w.

(** As [silent], but a cookie may have been set. *)
Definition unsent (w w' : World) : Prop :=
  (w_tick w ≤ w_tick w')%nat ∧ w_open w' = w_open w ∧ w_log w' = w_log w ∧
  w_rec w' = w_rec w ∧ rs_header (w_resp w') = rs_header (w_resp w) ∧
  rs_sent (w_resp w') = rs_sent (w_resp w) ∧ rs_body (w_resp w') = rs_body (w_resp w).

Section MiddlewareSpec.
Context `{!Clock} `{!Network} `{!Otel}.
Context `{!Gorilla} `{!OidcLib} `{!OAuth2} `{!Uuid} `{!SqlDriver}.
Context (impl : SessionImpl) (view : gmap string Row → Store) (no_rows : string → error).
Context (m : Manager) (config : oidc_Config).

Definition finish (next : Handler) (rw : ResponseWriter) (r : Request) (v : verdict) : IO unit :=
  match v with
  | Rejected code d e => Logger_JsonError rw code d (Some e)
  | Accepted tok => next rw (with_access_token r tok)
  end.

Definition refresh (n : nat) (d : SessionData) : result error Token :=
  oauth2_TokenSource_Token n (oauth2_config config) (Token_of_refresh (RefreshToken d)).

(** The record behind the session of the request: none yet while a login is in
    progress. *)
Definition loaded (r : Request) (w : World) (g : GSession) (d : SessionData) : Prop :=
  (∃ state, cookie_lookup m r (w_tick w) = LoginInProgress g state ∧ d = SessionData_zero) ∨
  (∃ id, cookie_lookup m r (w_tick w) = SessionId g id ∧ view (w_table w) !! id = Some d).

Inductive auth_spec (r : Request) (w : World) : verdict → World → Prop :=
  (** the cookie cannot be decoded *)
  | auth_cookie_error e w1 :
      cookie_lookup m r (w_tick w) = CookieError e →
      silent w w1 → w_table w1 = w_table w →
      auth_spec r w (Rejected 500 "cannot retrieve the session" (cookie_error m e)) w1
  (** there is no cookie, or it carries neither a state nor a session id *)
  | auth_no_session g w1 :
      cookie_lookup m r (w_tick w) = NoSession g →
      silent w w1 → w_table w1 = w_table w →
      auth_spec r w (Rejected 401 "invalid or expired session" ErrSessionInvalid) w1
  (** the database reports [sql.ErrNoRows] *)
  | auth_not_found g id w1 :
      cookie_lookup m r (w_tick w) = SessionId g id →
      (db_up w → view (w_table w) !! id = None) →
      silent w w1 → w_table w1 = w_table w →
      auth_spec r w (Rejected 401 "no session found" ErrSessionNotFound) w1
  (** the database reports any other error *)
  | auth_not_read g id e w1 :
      cookie_lookup m r (w_tick w) = SessionId g id →
      (db_up w → view (w_table w) !! id = None) →
      (db_up w → w_table w !! id = None → e = no_rows id) →
      error_eq e sql_ErrNoRows = false →
      silent w w1 → w_table w1 = w_table w →
      auth_spec r w (Rejected 500 "cannot retrieve the session"
                       (Errorf_w_s ErrCannotRetrieveSessionData (Error e))) w1
  (** the access token is still valid *)
  | auth_valid g id d n w1 :
      cookie_lookup m r (w_tick w) = SessionId g id → view (w_table w) !! id = Some d →
      (w_tick w ≤ n)%nat → clock_now n ≤ ExpiresAt d →
      silent w w1 → w_table w1 = w_table w →
      auth_spec r w (Accepted (AccessToken d)) w1
  (** the access token is expired and was not renewed *)
  | auth_not_renewed g d n k e w1 :
      loaded r w g d →
      (w_tick w ≤ n)%nat → ExpiresAt d < clock_now n → refresh k d = Err e →
      silent w w1 → w_table w1 = w_table w →
      auth_spec r w (Rejected 401 "cannot renew the access token" e) w1
  (** it was renewed, but the session could not be updated *)
  | auth_not_updated g id d n k t e w1 :
      cookie_lookup m r (w_tick w) = SessionId g id → view (w_table w) !! id = Some d →
      (w_tick w ≤ n)%nat → ExpiresAt d < clock_now n → refresh k d = Ok t →
      silent w w1 →
      (view (w_table w1) = view (w_table w) ∨
       ∃ id old d', view (w_table w) !! id = Some old ∧ Subject old = Subject d' ∧
                    view (w_table w1) = <[id := d']> (view (w_table w))) →
      auth_spec r w (Rejected 500 "cannot update the session" e) w1
  (** it was renewed for the same subject, and stored *)
  | auth_renewed g id d n k t raw w1 :
      cookie_lookup m r (w_tick w) = SessionId g id → view (w_table w) !! id = Some d →
      (w_tick w ≤ n)%nat → ExpiresAt d < clock_now n → refresh k d = Ok t →
      verified config t (Subject d) raw →
      unsent w w1 →
      view (w_table w1) = <[id := truncate (token_data (Subject d) raw t)]> (view (w_table w)) →
      saved (with_id g id (m_sessionTimeout m)) w w1 →
      auth_spec r w (Accepted (t_AccessToken t)) w1.

(** ** Refinement *)

Context `{!LossyStore impl view no_rows}.
Hypothesis Hm : m_sessionImpl m = impl.
(** The oauth2 client does not renew without a refresh token. *)
Hypothesis refresh_needs_token : ∀ n c, ∃ e, oauth2_TokenSource_Token n c (Token_of_refresh "") = Err e.
(** It is later than the year 1. *)
Hypothesis clock_after_zero : ∀ n, Time_zero < clock_now n.

Lemma view_of_quiet w w' : quiet w w' → view (w_table w') = view (w_table w).
Proof. intros [_ ->]. done. Qed.

(** The part after the error switch, for a session that was loaded. *)
Lemma authenticated_refines next rw r g d w0 w :
  has_tracer (r_ctx r) → loaded r w0 g d → silent w0 w → w_table w = w_table w0 →
  ∃ v w1, auth_spec r w0 v w1 ∧
    authenticated config next (Some (session_of m config g d)) rw r w = finish next rw r v w1.
Proof.
  intros Ht Hl (Htick & ? & ? & ? & ?) Htab. unfold authenticated, SessionData_IsExpired, time_Now.
  rewrite !bind_assoc, run_bind. cbn [interact fst snd].
  rewrite bind_ret. cbn [session_of s_data]. unfold Time_After.
  destruct (Z.ltb_spec (ExpiresAt d) (clock_now (w_tick w))) as [Hexp|Hexp].
  2: { destruct Hl as [(state & Hl & ->)|(id & Hl & Hd)].
       { specialize (clock_after_zero (w_tick w)). simpl in Hexp. lia. }
       exists (Accepted (AccessToken d)), (set_tick S w). split; [|reflexivity].
       eapply auth_valid; [done|done|exact Htick|done| |done]. repeat split; [simpl; lia|done..]. }
  rewrite run_bind. cbn [interact w_tick set_tick].
  destruct (oauth2_TokenSource_Token (S (w_tick w)) (oauth2_config config) _) as [t|e] eqn:Hr.
  2: { eexists (Rejected _ _ _), _. split; [|reflexivity].
       eapply auth_not_renewed; [done|exact Htick|done|exact Hr| |done].
       repeat split; [simpl; lia|done..]. }
  destruct Hl as [(state & Hl & ->)|(id & Hl & Hd)].
  { destruct (refresh_needs_token (S (w_tick w)) (oauth2_config config)) as [e He].
    simpl in Hr. congruence. }
  set (w2 := set_tick S (set_tick S w)).
  destruct (twp_run_bind (Session_Update (session_of m config g d) rw r t)
    (λ a w', match a.2 with
             | Some _ => update_failed view w2 w'
             | None => update_done view (session_of m config g d) t a.1 w2 w'
             end) w2) as ([s' [e|]] & w3 & Hpost & Hrun).
  { eapply twp_Session_Update; eauto. }
  - rewrite Hrun. destruct Hpost as (Hstep & Hck & Hv).
    eexists (Rejected _ _ _), _. split; [|reflexivity].
    replace (w_table w2) with (w_table w0) in Hv by done.
    eapply auth_not_updated; [done|done|exact Htick|done|exact Hr| |exact Hv].
    pose proof (session_step_resp _ _ Hstep Hck). step_facts.
    repeat split; [lia|congruence..].
  - rewrite Hrun. cbn [fst snd] in Hpost.
    destruct Hpost as (sub & raw & id' & old & Hstep & Hver & Hid & Hold & Hsub & Hv & -> & Hsaved).
    replace (w_table w2) with (w_table w0) in Hold, Hv by done.
    cbn [session_of s_session s_timeout s_oidcConfig] in *.
    assert (id' = id) as -> by (eapply cookie_lookup_id; eauto).
    assert (old = d) as -> by congruence. subst sub.
    eexists (Accepted (t_AccessToken t)), _. split; [|reflexivity].
    eapply auth_renewed; [done|done|exact Htick|done|exact Hr|done| |done|].
    + step_facts. repeat split; [lia|congruence..].
    + destruct Hsaved as (n & c & Hn & Hc & Hcs). exists n, c.
      split; [simpl in Hn; step_facts; lia|]. split; [done|]. rewrite Hcs. simpl. congruence.
Qed.

Lemma AuthenticationMiddleware_refines next rw r w :
  has_tracer (r_ctx r) → has_logger (r_ctx r) →
  ∃ v w1, auth_spec r w v w1 ∧
    AuthenticationMiddleware m config next rw r w = finish next rw r v w1.
Proof.
  intros Ht Hl. unfold AuthenticationMiddleware.
  destruct (twp_run_bind (zlogger_FromContext (r_ctx r))
    (λ _ w', http_step w w' ∧ w_resp w' = w_resp w ∧ w_rec w' = w_rec w ∧ w_tick w' = w_tick w)
    w) as (u & w1 & (Hs & Hresp & Hrec & Htick) & Hrun).
  { by apply twp_zlogger_FromContext. }
  rewrite Hrun. clear Hrun.
  destruct (twp_run_bind (GetSession m r config)
    (λ a w', quiet w1 w' ∧ get_session_post view no_rows m config r w1 a) w1)
    as (a & w2 & (Hq & Hpost) & Hrun).
  { eapply twp_GetSession; eauto. }
  rewrite Hrun. clear Hrun. unfold get_session_post in Hpost. rewrite Htick in Hpost.
  assert (Htab : w_table w2 = w_table w) by (step_facts; congruence).
  assert (Htab1 : w_table w1 = w_table w) by (step_facts; congruence).
  assert (Hsil : silent w w2) by (step_facts; repeat split; [lia|congruence..]).
  assert (Hup : db_up w → db_up w1) by (intros [? ?]; split; [done|step_facts; congruence]).
  rewrite Htab1 in Hpost.
  destruct (cookie_lookup m r (w_tick w)) as [e|g state|g|g id] eqn:Hlook.
  - subst a. exists (Rejected 500 "cannot retrieve the session" (cookie_error m e)), w2.
    split; [by apply auth_cookie_error|reflexivity].
  - subst a. apply authenticated_refines; [done| |done|done]. left. eauto.
  - subst a. exists (Rejected 401 "invalid or expired session" ErrSessionInvalid), w2.
    split; [by eapply auth_no_session|reflexivity].
  - destruct Hpost as [(d & Hd & ->)|(e & -> & Hno & Hrows)].
    + apply authenticated_refines; [done| |done|done]. right. eauto.
    + unfold lookup_error. destruct (error_eq e sql_ErrNoRows) eqn:He.
      * eexists (Rejected 401 "no session found" ErrSessionNotFound), w2.
        split; [|reflexivity]. eapply auth_not_found; eauto.
      * eexists (Rejected 500 "cannot retrieve the session" _), w2.
        split; [|reflexivity]. eapply auth_not_read; eauto.
Qed.

(** A stored session that has not expired is let through. *)
Lemma AuthenticationMiddleware_valid next rw r w g id d :
  has_tracer (r_ctx r) → has_logger (r_ctx r) →
  cookie_lookup m r (w_tick w) = SessionId g id → db_up w →
  view (w_table w) !! id = Some d →
  (∀ n, (w_tick w ≤ n)%nat → clock_now n ≤ ExpiresAt d) →
  ∃ w1, silent w w1 ∧ w_table w1 = w_table w ∧
    AuthenticationMiddleware m config next rw r w
      = next rw (with_access_token r (AccessToken d)) w1.
Proof.
  intros Ht Hl Hlook Hup Hd Hfresh.
  destruct (AuthenticationMiddleware_refines next rw r w Ht Hl) as (v & w1 & Hv & ->).
  destruct Hv as [e ? Hlk|? ? Hlk|? ? ? Hlk Hno|? ? ? ? Hlk Hno|? ? d' ? ? Hlk Hd' ? ? Hs Ht1|
                  ? d' n ? ? ? Hload|? ? d' n ? ? ? ? Hlk Hd'|? ? d' n ? ? ? ? Hlk Hd'].
  all: try (rewrite Hlook in Hlk; simplify_eq).
  1,2: specialize (Hno Hup); congruence.
  - simplify_eq. eexists. by split.
  - destruct Hload as [(? & Hlk & _)|(? & Hlk & Hd')]; rewrite Hlook in Hlk; simplify_eq.
    simplify_eq. specialize (Hfresh n). lia.
  - simplify_eq. specialize (Hfresh n). lia.
  - simplify_eq. specialize (Hfresh n). lia.
Qed.

(** A session id without a row: the answer depends on the error of the backend. *)
Lemma AuthenticationMiddleware_missing next rw r w g id :
  has_tracer (r_ctx r) → has_logger (r_ctx r) →
  cookie_lookup m r (w_tick w) = SessionId g id → db_up w → w_table w !! id = None →
  ∃ w1, silent w w1 ∧ w_table w1 = w_table w ∧
    AuthenticationMiddleware m config next rw r w
      = if error_eq (no_rows id) sql_ErrNoRows
        then Logger_JsonError rw 401 "no session found" (Some ErrSessionNotFound) w1
        else Logger_JsonError rw 500 "cannot retrieve the session"
               (Some (Errorf_w_s ErrCannotRetrieveSessionData (Error (no_rows id)))) w1.
Proof.
  intros Ht Hl Hlook Hup Hmiss. unfold AuthenticationMiddleware.
  destruct (twp_run_bind (zlogger_FromContext (r_ctx r))
    (λ _ w', http_step w w' ∧ w_resp w' = w_resp w ∧ w_rec w' = w_rec w ∧ w_tick w' = w_tick w)
    w) as (u & w1 & (Hs & Hresp & Hrec & Htick) & Hrun).
  { by apply twp_zlogger_FromContext. }
  rewrite Hrun. clear Hrun.
  destruct (twp_run_bind (GetSession m r config)
    (λ a w', quiet w1 w' ∧ get_session_post view no_rows m config r w1 a) w1)
    as (a & w2 & (Hq & Hpost) & Hrun).
  { eapply twp_GetSession; eauto. }
  rewrite Hrun. clear Hrun. unfold get_session_post in Hpost. rewrite Htick, Hlook in Hpost.
  assert (Htab1 : w_table w1 = w_table w) by (step_facts; congruence). rewrite Htab1 in Hpost.
  assert (Hup1 : db_up w1) by (split; [apply Hup|destruct Hup; step_facts; congruence]).
  destruct Hpost as [(d & Hd & _)|(e & -> & _ & He)].
  { destruct (view_dom (view:=view) (impl:=impl) (w_table w) id) as [? ?]; [by eexists|congruence]. }
  rewrite (He Hup1 Hmiss). exists w2.
  split; [|split; [step_facts; congruence|]].
  - step_facts. repeat split; [lia|congruence..].
  - unfold lookup_error. by destruct (error_eq (no_rows id) sql_ErrNoRows).
Qed.
End MiddlewareSpec.
