(* ===== verification/Closed.v ===== *)
(** * Requests that meet a closed connection

    [main] closes the database while the server still accepts requests.  A storage
    whose connection is closed answers every call with an error; a request that
    presents a session is then rejected by the middleware. *)

From stdpp Require Import base gmap strings list option numbers relations.
From Stdlib Require Import ZArith Lia String.
From S2P Require Import Prelude GoBase Encoding World Telemetry Zlogger Database Sqlite.
From S2P Require Import Postgresql Oidc SessionConfig Sessions Config LoadConfig Manager.
From S2P Require Import Cleaner SessionLemmas Handlers Server Startup Shutdown Invariance.
From S2P Require Import Typing MiddlewareSpec.

#[local] Open Scope Z_scope.
#[local] Open Scope string_scope.

Create HintDb closed.

(** ** The interface: what a closed storage answers *)

Class ClosedStorage (impl : SessionImpl) : Prop := {
  closed_keeps :: StorageKeeps closed impl;
  closed_Add ctx d : safe closed (Add impl ctx d) (λ r, r.2 ≠ None);
  closed_Delete ctx id : safe closed (Delete impl ctx id) (λ e, e ≠ None);
  closed_Get ctx id : safe closed (Get impl ctx id) (λ r, r.2 ≠ None);
  closed_Update ctx id d : safe closed (Update impl ctx id d) (λ e, e ≠ None);
  closed_Purge ctx : safe closed (Purge impl ctx) (λ e, e ≠ None);
  close_closes ctx w : ∃ e w', CloseConnection impl ctx w = (Ret e, w') ∧ closed w'
}.

Section Statements.
Context `{!SqlDriver}.

Lemma closed_db_Exec stmt : safe closed (db_Exec stmt) (λ e, e ≠ None).
Proof.
  intros w Hw. split; [by apply keeps_db_Exec; [apply closed_about_db|apply stmt_keeps_closed|]|].
  unfold db_Exec. rewrite run_bind. cbn [interact].
  destruct (sql_failure (w_tick w)); [by intros a [= <-]|].
  rewrite run_bind. cbn [gets set_tick w_open]. rewrite Hw. by intros a [= <-].
Qed.

Lemma closed_db_QueryRow e q : safe closed (db_QueryRow e q) (λ r, ∃ e, r = Err e).
Proof.
  intros w Hw. split; [by apply keeps_db_QueryRow; [apply closed_about_db|]|].
  unfold db_QueryRow. rewrite run_bind. cbn [interact].
  destruct (sql_failure (w_tick w)); [by intros a [= <-]; eexists|].
  rewrite run_bind. cbn [gets set_tick w_open]. rewrite Hw. intros a [= <-]. by eexists.
Qed.

Lemma db_Close_closes w : ∃ e w', db_Close w = (Ret e, w') ∧ closed w'.
Proof. by eexists _, _. Qed.

Lemma closed_pgx_Exec ctx stmt : safe closed (pgx_Exec ctx stmt) (λ e, e ≠ None).
Proof.
  intros w Hw. split; [by apply keeps_pgx_Exec; [apply closed_about_db|apply stmt_keeps_closed|]|].
  unfold pgx_Exec. rewrite run_bind. cbn [interact].
  destruct (pgx_fate ctx (w_tick w)); [|by intros a [= <-]|];
    (rewrite run_bind; cbn [gets set_tick w_open]; rewrite Hw; by intros a [= <-]).
Qed.

Lemma closed_pgx_QueryRow ctx q : safe closed (pgx_QueryRow ctx q) (λ r, ∃ e, r = Err e).
Proof.
  intros w Hw. split; [by apply keeps_pgx_QueryRow; [apply closed_about_db|]|].
  unfold pgx_QueryRow. rewrite run_bind. cbn [interact].
  destruct (pgx_fate ctx (w_tick w)); [|intros a [= <-]; by eexists..].
  rewrite run_bind. cbn [gets set_tick w_open]. rewrite Hw. intros a [= <-]. by eexists.
Qed.

Lemma pgx_Close_closes ctx w : ∃ e w', pgx_Close ctx w = (Ret e, w') ∧ closed w'.
Proof. by eexists _, _. Qed.
End Statements.

(** Walks through a method of a closed backend up to its statement. *)
Ltac solve_closed :=
  pose proof closed_about_db;
  repeat first
    [ solve [apply safe_ret; done]
    | eapply safe_bind; [solve [apply closed_pgx_Exec]|intros [?|] ?; [|done]]
    | eapply safe_bind; [solve [apply closed_pgx_QueryRow]|intros ? [? ->]]
    | eapply safe_bind; [solve [apply closed_db_Exec]|intros [?|] ?; [|done]]
    | eapply safe_bind; [solve [apply closed_db_QueryRow]|intros ? [? ->]]
    | eapply safe_bind; [solve [auto with closed]|intros [? [?|]] ?; [|done]]
    | apply keeps_bind; [solve [solve_safe]|intros ?; repeat case_match] ].

Section ClosedBackends.
Context `{!Clock} `{!Uuid} `{!SqlDriver} (cipher : option HexCipher).

Lemma closed_sqlite_Get ctx id : safe closed (sqlite_Get cipher ctx id) (λ r, r.2 ≠ None).
Proof.
  apply safe_with_optional_span; [apply closed_about_db|]. intros span. solve_closed.
Qed.

Lemma closed_postgresql_Get ctx id : safe closed (postgresql_Get cipher ctx id) (λ r, r.2 ≠ None).
Proof.
  apply safe_with_optional_span; [apply closed_about_db|]. intros span. solve_closed.
Qed.

Hint Resolve closed_sqlite_Get closed_postgresql_Get : closed.

#[export] Instance sqlite_closed : ClosedStorage (sqlite_impl cipher).
Proof.
  split; [|intros; simpl..].
  - apply (sqlite_keeps closed closed_about_db (λ _ _, eq_refl) cipher _ (any_id _ closed_about_db));
      intros; apply stmt_keeps_closed.
  - apply safe_with_optional_span; [apply closed_about_db|]. intros span. solve_closed.
  - apply safe_with_optional_span; [apply closed_about_db|]. intros span. solve_closed.
  - apply closed_sqlite_Get.
  - apply safe_with_optional_span; [apply closed_about_db|]. intros span. solve_closed.
  - apply keeps_bind; [apply keeps_interact, closed_about_db|]. intros now. apply closed_db_Exec.
  - apply db_Close_closes.
Qed.

#[export] Instance postgresql_closed : ClosedStorage (postgresql_impl cipher).
Proof.
  split; [|intros; simpl..].
  - apply (postgresql_keeps closed closed_about_db (λ _ _, eq_refl) cipher _ (any_id _ closed_about_db));
      intros; apply stmt_keeps_closed.
  - apply safe_with_optional_span; [apply closed_about_db|]. intros span. solve_closed.
  - apply safe_with_optional_span; [apply closed_about_db|]. intros span. solve_closed.
  - apply closed_postgresql_Get.
  - apply safe_with_optional_span; [apply closed_about_db|]. intros span. solve_closed.
  - apply keeps_bind; [apply keeps_interact, closed_about_db|]. intros now. apply closed_pgx_Exec.
  - apply pgx_Close_closes.
Qed.
End ClosedBackends.

(** ** The middleware *)

Section Middleware.
Context `{!Clock} `{!Network} `{!Otel}.
Context `{!Gorilla} `{!OidcLib} `{!OAuth2} `{!Uuid} `{!SqlDriver}.
Context (impl : SessionImpl) (view : gmap string Row → Store) (no_rows : string → error).
Context `{!LossyStore impl view no_rows} `{!ClosedStorage impl}.
Context (m : Manager) (config : oidc_Config) (Hm : m_sessionImpl m = impl).

(** The only session a closed storage lets a manager give is one whose login is in
    progress. *)
Lemma closed_GetSession r :
  safe closed (GetSession m r config)
    (λ a, ∀ s, a = (Some s, None) → value_string (s_session s) sessionStateName ≠ None).
Proof using Hm ClosedStorage0.
  pose proof closed_about_db as HP. unfold GetSession. apply safe_with_span; [done|]. intros c.
  apply keeps_bind; [solve_safe|]. intros [g [e|]]; [by apply safe_ret|]. cbv zeta.
  destruct (value_string g sessionStateName) eqn:Hg.
  { apply safe_ret. intros s' [= <-]. simpl. congruence. }
  eapply (safe_bind _ _ _ (λ r : Session * option error, r.2 ≠ None)).
  - unfold dataFromDB. apply safe_with_span; [done|]. intros c'. simpl.
    destruct (value_string g sessionIdName); [|by apply safe_ret]. rewrite Hm.
    eapply safe_bind; [apply closed_Get|]. intros [d [e|]] He; [|done]. cbv zeta.
    destruct (error_eq _ _); by apply safe_ret.
  - intros [s [e|]] He; [by apply safe_ret|done].
Qed.

Lemma closed_middleware next rw r w g id :
  has_tracer (r_ctx r) → has_logger (r_ctx r) → closed w →
  cookie_lookup m r (w_tick w) = SessionId g id →
  ∃ code d e w1, (code = 401 ∨ code = 500) ∧ w_table w1 = w_table w ∧
    AuthenticationMiddleware m config next rw r w = Logger_JsonError rw code d (Some e) w1.
Proof using All.
  intros Ht Hl Hw Hlook. unfold AuthenticationMiddleware.
  destruct (twp_run_bind (zlogger_FromContext (r_ctx r))
    (λ _ w', http_step w w' ∧ w_resp w' = w_resp w ∧ w_rec w' = w_rec w ∧ w_tick w' = w_tick w)
    w) as (u & w1 & (Hs & Hresp & Hrec & Htick) & Hrun); [by apply twp_zlogger_FromContext|].
  rewrite Hrun. clear Hrun.
  assert (Hw1 : closed w1) by (apply (closed_about_db w); [split_and!; step_facts; [congruence..|lia]|done]).
  destruct (closed_GetSession r w1 Hw1) as [_ Hfail].
  destruct (twp_GetSession impl view no_rows m config r
    (λ a w', quiet w1 w' ∧ get_session_post view no_rows m config r w1 a) w1)
    as (a & Ha & Hq & Hpost); [done|done|by intros|].
  specialize (Hfail a Ha). rewrite run_bind. destruct (GetSession m r config w1) as [o w2] eqn:Hrun.
  simpl in Ha, Hq. subst o. unfold get_session_post in Hpost. rewrite Htick, Hlook in Hpost.
  destruct Hpost as [(d & _ & ->)|(e & -> & _)].
  { destruct (Hfail _ eq_refl). simpl. unfold cookie_lookup in Hlook. repeat case_match; by simplify_eq. }
  assert (Htab : w_table w2 = w_table w) by (step_facts; congruence).
  unfold lookup_error. destruct (error_eq e sql_ErrNoRows).
  - exists 401, "no session found", ErrSessionNotFound, w2. split_and!; [by left|done|reflexivity].
  - exists 500, "cannot retrieve the session", (Errorf_w_s ErrCannotRetrieveSessionData (Error e)), w2.
    split_and!; [by right|done|reflexivity].
Qed.
End Middleware.
