(* ===== verification/Race.v ===== *)
(** * The two statements of [Update], and the goroutines that run between them

    [Update] reads the session, compares the subject, and writes: two statements
    without a transaction.  Here its two halves are computations of their own, put
    together again they are the method, and the calls of concurrent goroutines are
    interleaved between statements. *)

From stdpp Require Import base gmap strings list option numbers relations.
From Stdlib Require Import ZArith Lia String.
From S2P Require Import Prelude GoBase Encoding World Telemetry Zlogger Database Sqlite.
From S2P Require Import Postgresql Oidc SessionConfig Sessions Config LoadConfig Manager.
From S2P Require Import Cleaner Handlers Server Startup Shutdown Invariance Typing.

#[local] Open Scope Z_scope.
#[local] Open Scope string_scope.

(** ** The halves *)

Definition end_span (span : option Span) : IO unit :=
  match span with Some s => Span_End s | None => mret tt end.

(** Gives back a result of [Update] and its span ended. *)
Definition return_error (span : option Span) (err : option error) : IO (option error) :=
  _ ← end_span span;
  mret err.

Section Halves.
(** What the two backends differ by: the texts of the spans, the [Get] of the session
    (with the context it is called with), and the write of a row. *)
Context (text : string) (get : Context → string → IO (SessionData * option error)).
Context (write : Context → Row → string → IO (option error)) (cipher : option HexCipher).

(** Up to the comparison of the subjects: the span, and the result if the method is
    over. *)
Definition Update_read (ctx : Context) (id : string) (s : SessionData)
    : IO (option Span * option (option error)) :=
  '(_, span) ← NewSpanFromContext ctx "session.postgresql: INSERT";
  _ ← set_attributes span [("db.table", AttrString "sessions"); ("db.table.id", AttrString id);
        ("db.table.subject", AttrString (Subject s));
        ("db.table.expires_at", AttrTime (ExpiresAt s))];
  '(oldSession, err) ← get ctx id;
  match err with
  | Some err =>
      _ ← set_error_status span (text +:+ ": UPDATE -> Get") err;
      r ← return_error span (Some err);
      mret (span, Some r)
  | None =>
      if negb (String.eqb (Subject s) (Subject oldSession)) then
        _ ← (match span with
             | Some sp => Span_SetStatus sp (text +:+ ": subject mismatch")
             | None => mret tt
             end);
        r ← return_error span (Some ErrSessionsMismatch);
        mret (span, Some r)
      else mret (span, None)
  end.

(** The rest: encryption and the statement. *)
Definition Update_write (ctx : Context) (span : option Span) (id : string) (s : SessionData) : IO (option error) :=
  '(enc, err) ← encryptArgs cipher s;
  match err with
  | Some err =>
      _ ← set_error_status span (text +:+ ": UPDATE -> encryptArgs") err;
      return_error span (Some err)
  | None =>
      err ← write ctx (row_of enc) id;
      match err with
      | Some err =>
          _ ← set_error_status span (text +:+ ": UPDATE -> db.conn.Exec") err;
          return_error span (Some err)
      | None => return_error span None
      end
  end.

(** The method, with [f] between its statements: what other goroutines do. *)
Definition Update_around (f : World → World) (ctx : Context) (id : string) (s : SessionData)
    : IO (option error) :=
  '(span, over) ← Update_read ctx id s;
  match over with
  | Some err => mret err
  | None => _ ← modify f; Update_write ctx span id s
  end.
End Halves.

Section Backends.
Context `{!Clock} `{!Uuid} `{!SqlDriver} (cipher : option HexCipher).

(** The writes of the two backends. *)
Definition sqlite_write (ctx : Context) (r : Row) (id : string) : IO (option error) :=
  db_Exec (querySQLiteUpdate r id).

Definition postgresql_write (ctx : Context) (r : Row) (id : string) : IO (option error) :=
  pgx_Exec ctx (queryPostgresqlUpdate r id).

(** The storage of a process in which [f] happens between the two statements. *)
Definition sqlite_around (f : World → World) : SessionImpl :=
  mkSessionImpl sqlite_CloseConnection (sqlite_Add cipher) sqlite_Delete (sqlite_Get cipher)
    (Update_around "session.sqlite" (λ _, sqlite_Get cipher []) sqlite_write cipher f)
    sqlite_Purge.

Definition postgresql_around (f : World → World) : SessionImpl :=
  mkSessionImpl postgresql_CloseConnection (postgresql_Add cipher) postgresql_Delete
    (postgresql_Get cipher)
    (Update_around "session.postgresql" (postgresql_Get cipher) postgresql_write cipher f)
    postgresql_Purge.
End Backends.

(** ** Their spans *)

Lemma twp_NewSpanFromContext ctx n (Q : Context * option Span → World → Prop) w :
  (∀ c span w', w' ≡ w → Q (c, span) w') → twp (NewSpanFromContext ctx n) Q w.
Proof.
  intros HQ. unfold NewSpanFromContext.
  destruct (ctx_Value ctx opentelemetry_ctxKey) as [[]|];
    first [by apply twp_ret, HQ
          |apply twp_bind, twp_Tracer_Start; intros span w' Hw'; by apply twp_ret, HQ].
Qed.

Lemma twp_return_error span err (Q : option error → World → Prop) w :
  (∀ w', w' ≡ w → Q err w') → twp (return_error span err) Q w.
Proof.
  intros HQ. apply twp_bind. destruct span; [apply twp_modify|apply twp_ret]; apply twp_ret, HQ; [|done].
  apply add_trace_equiv.
Qed.

(** ** Together they are the method *)

Definition returns {A : Type} (m : IO A) : Prop := ∀ w, ∃ a w', m w = (Ret a, w').

Lemma encryptArgs_returns cipher s : returns (encryptArgs cipher s).
Proof.
  intros w. unfold encryptArgs. destruct cipher as [c|]; [|by eexists _, _].
  rewrite run_bind. cbn [interact]. destruct (EncryptToHexString _ _ _); [|by eexists _, _].
  rewrite run_bind. cbn [interact]. destruct (EncryptToHexString _ _ _); [|by eexists _, _].
  rewrite run_bind. cbn [interact]. destruct (EncryptToHexString _ _ _); by eexists _, _.
Qed.

Lemma db_Exec_returns `{!SqlDriver} stmt : returns (db_Exec stmt).
Proof.
  intros w. unfold db_Exec. rewrite run_bind. cbn [interact].
  destruct (sql_failure _); [by eexists _, _|]. rewrite run_bind. cbn [gets].
  destruct (w_open _); [|by eexists _, _]. rewrite run_bind. cbn [gets].
  destruct (stmt _); by eexists _, _.
Qed.

Lemma pgx_Exec_returns `{!SqlDriver} ctx stmt : returns (pgx_Exec ctx stmt).
Proof.
  intros w. unfold pgx_Exec. rewrite run_bind. cbn [interact].
  destruct (pgx_fate _ _); [|by eexists _, _|];
    (rewrite run_bind; cbn [gets]; destruct (w_open _); [|by eexists _, _];
     rewrite run_bind; cbn [gets]; destruct (stmt _); by eexists _, _).
Qed.

Section Together.
Context `{!Clock} `{!Uuid} `{!SqlDriver} (cipher : option HexCipher).

Lemma twp_returns {A} (m : IO A) (Q : A → World → Prop) w : twp m Q w → ∃ a w', m w = (Ret a, w').
Proof. intros (a & Ha & _). destruct (m w) as [o w']. simpl in Ha. subst o. by eexists _, _. Qed.

Lemma sqlite_Get_returns ctx id : returns (sqlite_Get cipher ctx id).
Proof. intros w. eapply twp_returns, twp_sqlite_Get. Qed.

Lemma postgresql_Get_returns ctx id : returns (postgresql_Get cipher ctx id).
Proof. intros w. eapply twp_returns, twp_postgresql_Get. Qed.

End Together.

Section Whole.
Context (text : string) (get : Context → string → IO (SessionData * option error)).
Context (write : Context → Row → string → IO (option error)) (cipher : option HexCipher).
Context (Hget : ∀ ctx id, returns (get ctx id)) (Hwrite : ∀ ctx r id, returns (write ctx r id)).

(** The body of [Update], under its span. *)
Definition Update_body (ctx : Context) (id : string) (s : SessionData) (span : option Span)
    : IO (option error) :=
  _ ← set_attributes span [("db.table", AttrString "sessions"); ("db.table.id", AttrString id);
        ("db.table.subject", AttrString (Subject s));
        ("db.table.expires_at", AttrTime (ExpiresAt s))];
  '(oldSession, err) ← get ctx id;
  match err with
  | Some err =>
      _ ← set_error_status span (text +:+ ": UPDATE -> Get") err;
      mret (Some err)
  | None =>
      if negb (String.eqb (Subject s) (Subject oldSession)) then
        _ ← (match span with
             | Some sp => Span_SetStatus sp (text +:+ ": subject mismatch")
             | None => mret tt
             end);
        mret (Some ErrSessionsMismatch)
      else
        '(enc, err) ← encryptArgs cipher s;
        match err with
        | Some err =>
            _ ← set_error_status span (text +:+ ": UPDATE -> encryptArgs") err;
            mret (Some err)
        | None =>
            err ← write ctx (row_of enc) id;
            match err with
            | Some err =>
                _ ← set_error_status span (text +:+ ": UPDATE -> db.conn.Exec") err;
                mret (Some err)
            | None => mret None
            end
        end
  end.

Lemma Update_around_nothing ctx id s w :
  Update_around text get write cipher (λ w, w) ctx id s w
  = with_optional_span ctx "session.postgresql: INSERT" (Update_body ctx id s) w.
Proof using Hget Hwrite.
  unfold Update_around, Update_read, Update_body, Update_write, with_optional_span, return_error,
    set_error_status, set_attributes, Span_SetStatus, Span_SetAttributes, Span_End, defer, modify, mbind,
    M_bind, mret, M_ret.
  destruct (NewSpanFromContext _ _ w) as [[[c span]|e] w1]; [|done].
  assert (Hrun : ∀ w2, (∃ d e w3, get ctx id w2 = (Ret (d, e), w3))).
  { intros w2. destruct (Hget ctx id w2) as ([d e] & w3 & ->). by eexists _, _, _. }
  assert (Henc : ∀ w2, (∃ d e w3, encryptArgs cipher s w2 = (Ret (d, e), w3))).
  { intros w2. destruct (encryptArgs_returns cipher s w2) as ([d e] & w3 & ->). by eexists _, _, _. }
  destruct span as [sp|]; cbv beta iota zeta;
    (match goal with |- context [get ctx id ?w2] => destruct (Hrun w2) as (old & err & w3 & ->) end;
     destruct err as [err|]; [reflexivity|]; destruct (negb _); [reflexivity|];
     destruct (Henc w3) as (enc & err & w4 & ->); destruct err as [err|]; [reflexivity|];
     destruct (Hwrite ctx (row_of enc) id w4) as (err & w5 & ->); by destruct err).
Qed.
End Whole.

(** Nothing in between: the methods of the backends. *)
Lemma sqlite_Update_parts `{!Clock} `{!Uuid} `{!SqlDriver} cipher ctx id s w :
  Update (sqlite_around cipher (λ w, w)) ctx id s w = sqlite_Update cipher ctx id s w.
Proof.
  simpl. rewrite Update_around_nothing; [reflexivity|..].
  - intros ctx' id'. apply sqlite_Get_returns.
  - intros ctx' r id'. apply db_Exec_returns.
Qed.

Lemma postgresql_Update_parts `{!Clock} `{!Uuid} `{!SqlDriver} cipher ctx id s w :
  Update (postgresql_around cipher (λ w, w)) ctx id s w = postgresql_Update cipher ctx id s w.
Proof.
  simpl. rewrite Update_around_nothing; [reflexivity|..].
  - intros ctx' id'. apply postgresql_Get_returns.
  - intros ctx' r id'. apply pgx_Exec_returns.
Qed.

(** ** Goroutines that call one storage *)

(** A storage with its [Update] in halves. *)
Record Halves : Type := mkHalves {
  hv_impl : SessionImpl;
  hv_read : Context → string → SessionData → IO (option Span * option (option error));
  hv_write : Context → option Span → string → SessionData → IO (option error)
}.

Definition sqlite_halves `{!Clock} `{!Uuid} `{!SqlDriver} (cipher : option HexCipher) : Halves :=
  mkHalves (sqlite_impl cipher) (Update_read "session.sqlite" (λ _, sqlite_Get cipher []))
    (Update_write "session.sqlite" sqlite_write cipher).

Definition postgresql_halves `{!Clock} `{!Uuid} `{!SqlDriver} (cipher : option HexCipher) : Halves :=
  mkHalves (postgresql_impl cipher) (Update_read "session.postgresql" (postgresql_Get cipher))
    (Update_write "session.postgresql" postgresql_write cipher).

Inductive call : Type :=
  | CallAdd (ctx : Context) (d : SessionData)
  | CallDelete (ctx : Context) (id : string)
  | CallGet (ctx : Context) (id : string)
  | CallUpdate (ctx : Context) (id : string) (d : SessionData)
  | CallPurge (ctx : Context).

(** A call that was not made yet; an [Update] between its statements; a call that has
    returned this error. *)
Inductive goroutine : Type :=
  | Calling (c : call)
  | Renewing (ctx : Context) (span : option Span) (id : string) (d : SessionData)
  | Returned (c : call) (err : option error).

Section Goroutines.
Context (hv : Halves).

(** The error of a call, whose one statement is atomic; an [Update] is not. *)
Definition call_error (c : call) : IO (option error) :=
  match c with
  | CallAdd ctx d => r ← Add (hv_impl hv) ctx d; mret r.2
  | CallDelete ctx id => Delete (hv_impl hv) ctx id
  | CallGet ctx id => r ← Get (hv_impl hv) ctx id; mret r.2
  | CallUpdate ctx id d => Update (hv_impl hv) ctx id d
  | CallPurge ctx => Purge (hv_impl hv) ctx
  end.

Definition is_update (c : call) : bool := if c is CallUpdate _ _ _ then true else false.

(** One statement of goroutine [i], with the Go code around it; or anything else that
    leaves the database as it is. *)
Inductive race_step : list goroutine * World → list goroutine * World → Prop :=
  | race_call gs w i c err w' :
      gs !! i = Some (Calling c) → is_update c = false → call_error c w = (Ret err, w') →
      race_step (gs, w) (<[i := Returned c err]> gs, w')
  | race_read gs w i ctx id d span w' :
      gs !! i = Some (Calling (CallUpdate ctx id d)) →
      hv_read hv ctx id d w = (Ret (span, None), w') →
      race_step (gs, w) (<[i := Renewing ctx span id d]> gs, w')
  | race_refused gs w i ctx id d span err w' :
      gs !! i = Some (Calling (CallUpdate ctx id d)) →
      hv_read hv ctx id d w = (Ret (span, Some err), w') →
      race_step (gs, w) (<[i := Returned (CallUpdate ctx id d) err]> gs, w')
  | race_write gs w i ctx span id d err w' :
      gs !! i = Some (Renewing ctx span id d) → hv_write hv ctx span id d w = (Ret err, w') →
      race_step (gs, w) (<[i := Returned (CallUpdate ctx id d) err]> gs, w')
  | race_elsewhere gs w w' :
      same_db w w' → race_step (gs, w) (gs, w').
End Goroutines.

(** ** A session that is gone *)

(** Session [id] has no row, and the ids to come differ from it. *)
Definition absent `{!Uuid} (id : string) (w : World) : Prop :=
  w_table w !! id = None ∧ ∀ n, (w_tick w ≤ n)%nat → uuid_New n ≠ id.

Definition fresh `{!Uuid} (id : string) (w : World) : Prop :=
  ∀ n, (w_tick w ≤ n)%nat → uuid_New n ≠ id.

Section Absent.
Context `{!Clock} `{!Uuid} `{!SqlDriver} (id : string).

Lemma fresh_about_db : about_db (fresh id).
Proof. intros w w' (_ & _ & Hle) Hn n ?. apply Hn. lia. Qed.

#[export] Instance sqlite_keeps_fresh cipher : StorageKeeps (fresh id) (sqlite_impl cipher).
Proof.
  by apply (sqlite_keeps _ fresh_about_db (λ w Hw, Hw) cipher _ (any_id _ fresh_about_db)); intros;
    intros w t Hw _ _.
Qed.

#[export] Instance postgresql_keeps_fresh cipher : StorageKeeps (fresh id) (postgresql_impl cipher).
Proof.
  by apply (postgresql_keeps _ fresh_about_db (λ w Hw, Hw) cipher _ (any_id _ fresh_about_db)); intros;
    intros w t Hw _ _.
Qed.

Lemma absent_about_db : about_db (absent id).
Proof.
  intros w w' (Ht & _ & Hle) [Hid Hn]. split; [congruence|]. intros n ?. apply Hn. lia.
Qed.

Lemma absent_fresh : safe (absent id) (interact uuid_New) (λ id', id' ≠ id).
Proof.
  intros w Hw. split; [by apply (keeps_interact _ absent_about_db uuid_New w Hw)|].
  intros a [= <-]. by apply Hw.
Qed.

Lemma stmt_keeps_absent stmt :
  (∀ t t', stmt t = Ok t' → t !! id = None → t' !! id = None) → stmt_keeps (absent id) stmt.
Proof. intros Hs w t [Hid Hn] _ Ht. split; [by eapply Hs|exact Hn]. Qed.

Lemma absent_insert id' r t t' :
  id' ≠ id → sql_insert id' r t = Ok t' → t !! id = None → t' !! id = None.
Proof. intros Hne (_ & -> & _)%sql_insert_Ok Hid. by rewrite lookup_insert_ne. Qed.

Lemma absent_update id' r t t' : sql_update id' r t = Ok t' → t !! id = None → t' !! id = None.
Proof.
  unfold sql_update. destruct (t !! id') eqn:Hid'; [|by intros [= <-]].
  destruct (row_checks r); [|done]. intros [= <-] Hid. rewrite lookup_insert_ne; [done|congruence].
Qed.

Lemma absent_delete id' t t' : sql_delete id' t = Ok t' → t !! id = None → t' !! id = None.
Proof. intros [= <-] Hid. apply lookup_delete_None. by right. Qed.

Lemma absent_purge n t t' : sql_purge n t = Ok t' → t !! id = None → t' !! id = None.
Proof. intros [= <-] Hid. apply map_lookup_filter_None. by left. Qed.

Lemma absent_postgresql_update id' r t t' :
  queryPostgresqlUpdate r id' t = Ok t' → t !! id = None → t' !! id = None.
Proof. unfold queryPostgresqlUpdate. repeat case_match; [done..|apply absent_update]. Qed.

#[export] Instance sqlite_keeps_absent cipher : StorageKeeps (absent id) (sqlite_impl cipher).
Proof.
  apply (sqlite_keeps _ absent_about_db (λ w Hw, Hw) cipher _ absent_fresh); intros;
    apply stmt_keeps_absent; intros t t';
    [by apply absent_insert|apply absent_delete|apply absent_update|apply absent_purge].
Qed.

#[export] Instance postgresql_keeps_absent cipher : StorageKeeps (absent id) (postgresql_impl cipher).
Proof.
  apply (postgresql_keeps _ absent_about_db (λ w Hw, Hw) cipher _ absent_fresh); intros;
    apply stmt_keeps_absent; intros t t'.
  - unfold queryPostgresqlInsert. repeat case_match; [done..|]. by apply absent_insert.
  - unfold queryPostgresqlDelete. case_match; [done|]. apply absent_delete.
  - apply absent_postgresql_update.
  - unfold queryPostgresqlPurge. case_match; [done|]. apply absent_purge.
Qed.

(** The halves keep what their [Get] and their statement keep, for the rows that are
    written. *)
Lemma keeps_halves_rows (P : World → Prop) (okr : Row → Prop) text get write cipher :
  about_db P → (∀ d, safe P (encryptArgs cipher d) (λ r, r.2 = None → okr (row_of r.1))) →
  (∀ ctx id, keeps P (get ctx id)) → (∀ ctx r id, okr r → keeps P (write ctx r id)) →
  (∀ ctx id d, keeps P (Update_read text get ctx id d)) ∧
  (∀ ctx span id d, keeps P (Update_write text write cipher ctx span id d)).
Proof.
  intros HP Hokr Hget Hwrite. split; intros.
  - unfold Update_read, return_error, end_span, NewSpanFromContext, Tracer_Start, Span_End, Span_SetStatus.
    solve_safe.
  - unfold Update_write, return_error, end_span, Span_End.
    eapply safe_bind; [apply Hokr|]. intros [enc [e|]] Hok; [solve_safe|].
    pose proof (λ ctx i, Hwrite ctx _ i (Hok eq_refl)). solve_safe.
Qed.

Lemma keeps_halves (P : World → Prop) text get write cipher :
  about_db P → (∀ ctx id, keeps P (get ctx id)) → (∀ ctx r id, keeps P (write ctx r id)) →
  (∀ ctx id d, keeps P (Update_read text get ctx id d)) ∧
  (∀ ctx span id d, keeps P (Update_write text write cipher ctx span id d)).
Proof.
  intros HP Hget Hwrite. apply (keeps_halves_rows P (λ _, True)); [exact HP| |exact Hget|intros; apply Hwrite].
  intros d. by apply any_row.
Qed.
End Absent.

(** ** The interface of the halves *)

Class SafeHalves `{!Uuid} (hv : Halves) : Prop := {
  halves_Update ctx id d w :
    Update (hv_impl hv) ctx id d w
    = ('(span, over) ← hv_read hv ctx id d;
       match over with Some err => mret err | None => hv_write hv ctx span id d end) w;
  halves_fresh id :: StorageKeeps (fresh id) (hv_impl hv);
  halves_absent id :: StorageKeeps (absent id) (hv_impl hv);
  read_fresh id ctx id' d : keeps (fresh id) (hv_read hv ctx id' d);
  write_fresh id ctx span id' d : keeps (fresh id) (hv_write hv ctx span id' d);
  read_absent id ctx id' d : keeps (absent id) (hv_read hv ctx id' d);
  write_absent id ctx span id' d : keeps (absent id) (hv_write hv ctx span id' d);
  delete_deletes ctx id w w' :
    Delete (hv_impl hv) ctx id w = (Ret None, w') → w_table w' !! id = None
}.

Section Instances.
Context `{!Clock} `{!Uuid} `{!SqlDriver} (cipher : option HexCipher) (Hc : cipher_ok cipher).

Lemma around_nothing text get write f ctx id d w :
  (∀ w, f w = w) →
  Update_around text get write cipher f ctx id d w
  = ('(span, over) ← Update_read text get ctx id d;
     match over with
     | Some err => mret err
     | None => Update_write text write cipher ctx span id d
     end) w.
Proof.
  intros Hf. unfold Update_around. rewrite !run_bind.
  destruct (Update_read text get ctx id d w) as [[[span [err|]]|e] w1]; [done| |done].
  rewrite run_bind. cbn [modify]. by rewrite Hf.
Qed.

Lemma twp_result {A} (m : IO A) (Q : A → World → Prop) w a w' :
  twp m Q w → m w = (Ret a, w') → Q a w'.
Proof. intros (a' & Ha & HQ) Hr. rewrite Hr in Ha, HQ. by injection Ha as <-. Qed.

Lemma sqlite_Delete_deletes ctx id w :
  twp (sqlite_Delete ctx id) (λ err w', err = None → w_table w' !! id = None) w.
Proof.
  unfold sqlite_Delete. db_run; try done.
  match goal with Hs : querySQLiteDelete _ _ = Ok _ |- _ => injection Hs as <- end.
  match goal with Hw : _ ≡ set_table _ _ |- _ => rewrite (w_table_proper _ _ Hw) end.
  apply lookup_delete_eq.
Qed.

Lemma postgresql_Delete_deletes ctx id w :
  twp (postgresql_Delete ctx id) (λ err w', err = None → w_table w' !! id = None) w.
Proof.
  unfold postgresql_Delete. db_run; try done.
  match goal with Hs : queryPostgresqlDelete _ _ = Ok _ |- _ =>
    apply queryPostgresqlDelete_Ok in Hs as [-> _] end.
  match goal with Hw : _ ≡ set_table _ _ |- _ => rewrite (w_table_proper _ _ Hw) end.
  apply lookup_delete_eq.
Qed.

#[export] Instance sqlite_halves_safe : SafeHalves (sqlite_halves cipher).
Proof.
  assert (Hk : ∀ (P : World → Prop), about_db P → StorageKeeps P (sqlite_impl cipher) →
    (∀ r id, stmt_keeps P (querySQLiteUpdate r id)) →
    (∀ ctx id d, keeps P (hv_read (sqlite_halves cipher) ctx id d)) ∧
    (∀ ctx span id d, keeps P (hv_write (sqlite_halves cipher) ctx span id d))).
  { intros P HP Hi Hs. apply keeps_halves; [done| |intros; by apply keeps_db_Exec].
    intros ctx id. apply (keeps_Get (impl:=sqlite_impl cipher)). }
  pose proof (λ id, Hk _ (fresh_about_db id) _ (λ r id' w t Hw _ _, Hw)) as Hf.
  assert (Ha : ∀ id r id', stmt_keeps (absent id) (querySQLiteUpdate r id')).
  { intros. apply stmt_keeps_absent. intros t t'. apply absent_update. }
  pose proof (λ id, Hk _ (absent_about_db id) _ (Ha id)) as Hab.
  split; try apply _; try (intros id; apply Hf); try (intros id; apply Hab).
  - intros ctx id d w. etrans; [symmetry; apply sqlite_Update_parts|].
    by apply (around_nothing _ _ _ (λ w, w)).
  - intros ctx id w w' Hr. by apply (twp_result _ _ _ _ _ (sqlite_Delete_deletes ctx id w) Hr).
Qed.

#[export] Instance postgresql_halves_safe : SafeHalves (postgresql_halves cipher).
Proof.
  assert (Hk : ∀ (P : World → Prop), about_db P → StorageKeeps P (postgresql_impl cipher) →
    (∀ r id, stmt_keeps P (queryPostgresqlUpdate r id)) →
    (∀ ctx id d, keeps P (hv_read (postgresql_halves cipher) ctx id d)) ∧
    (∀ ctx span id d, keeps P (hv_write (postgresql_halves cipher) ctx span id d))).
  { intros P HP Hi Hs. apply keeps_halves; [done| |intros; by apply keeps_pgx_Exec].
    intros ctx id. apply (keeps_Get (impl:=postgresql_impl cipher)). }
  pose proof (λ id, Hk _ (fresh_about_db id) _ (λ r id' w t Hw _ _, Hw)) as Hf.
  assert (Ha : ∀ id r id', stmt_keeps (absent id) (queryPostgresqlUpdate r id')).
  { intros. apply stmt_keeps_absent. intros t t'. apply absent_postgresql_update. }
  pose proof (λ id, Hk _ (absent_about_db id) _ (Ha id)) as Hab.
  split; try apply _; try (intros id; apply Hf); try (intros id; apply Hab).
  - intros ctx id d w. etrans; [symmetry; apply postgresql_Update_parts|].
    by apply (around_nothing _ _ _ (λ w, w)).
  - intros ctx id w w' Hr. by apply (twp_result _ _ _ _ _ (postgresql_Delete_deletes ctx id w) Hr).
Qed.
End Instances.
