(* ===== verification/HandlerSpec.v ===== *)
(** * The login, callback and logout handlers: abstract specifications

    As for the middleware: the answers each handler may give, as a relation, and
    the proof that the handler always gives one of them. *)

From stdpp Require Import base gmap strings list option numbers.
From Stdlib Require Import ZArith Lia String.
From S2P Require Import Prelude GoBase Encoding World Telemetry Zlogger Database Oidc.
From S2P Require Import SessionConfig Sessions SessionLemmas Handlers Invariance MiddlewareSpec.

#[local] Open Scope Z_scope.

(** What these handlers end with. *)
Inductive answer : Type :=
  | Failed (code : Z) (description : string) (err : option error)
  | Redirected (url : string).

Section HandlerSpec.
Context `{!Clock} `{!Network} `{!Otel} `{!Rand} `{!Redirector}.
Context `{!Gorilla} `{!OidcLib} `{!OAuth2} `{!Uuid} `{!SqlDriver}.
Context (impl : SessionImpl) (view : gmap string Row → Store) (no_rows : string → error).
Context (m : Manager) (config : oidc_Config).

Definition give (rw : ResponseWriter) (r : Request) (a : answer) : IO unit :=
  match a with
  | Failed code d e => Logger_JsonError rw code d e
  | Redirected url => http_Redirect rw r url 302
  end.

(** The outcome of [store.New] for the request. *)
Definition new_cookie (r : Request) (n : nat) : GSession * option error :=
  store_New n (m_store m) r (m_cookieName m).

(** [session_or_error r w a]: [GetSession] hands [a] to its caller. *)
Definition session_or_error (r : Request) (w : World) (a : option Session * option error)
    : Prop := get_session_post view no_rows m config r w a.

Definition same_view (w w' : World) : Prop := view (w_table w') = view (w_table w).

(** ** Login *)
Inductive login_spec (r : Request) (w : World) : answer → World → Prop :=
  (** the cookie of the request cannot be decoded *)
  | login_no_session e g err w1 :
      new_cookie r (w_tick w) = (g, Some e) → errors_Is err ErrCannotCreateCookie = true →
      silent w w1 → w_table w1 = w_table w →
      login_spec r w (Failed 500 "cannot create a new session" (Some err)) w1
  (** the cookie with the state cannot be made *)
  | login_not_saved g err w1 :
      new_cookie r (w_tick w) = (g, None) → silent w w1 → w_table w1 = w_table w →
      login_spec r w (Failed 500 "cannot save the oauth state in the session" (Some err)) w1
  (** the state is in the cookie and in the url of the provider *)
  | login_redirected g n read err w1 :
      let state := base64_URLEncoding (fill 128 read) in
      new_cookie r (w_tick w) = (g, None) → rand_Read n 128 = (read, err) →
      unsent w w1 → w_table w1 = w_table w →
      saved (with_state g state (m_loginTimeout m)) w w1 →
      login_spec r w (Redirected (oauth2_AuthCodeURL (oauth2_config config) state)) w1.

(** ** Callback *)
Definition session_state (s : Session) : string :=
  default "" (value_string (s_session s) sessionStateName).

Inductive callback_spec (post_login : string) (r : Request) (w : World) : answer → World → Prop :=
  | callback_no_session err w1 :
      session_or_error r w (None, Some err) → silent w w1 → w_table w1 = w_table w →
      callback_spec post_login r w
        (Failed 500 "cannot retrieve the session for oidc callback" (Some err)) w1
  | callback_wrong_state s w1 :
      session_or_error r w (Some s, None) → session_state s ≠ Query_Get r sessionStateName →
      silent w w1 → w_table w1 = w_table w →
      callback_spec post_login r w
        (Failed 401 "cannot validate state value for oidc callback" None) w1
  | callback_no_token s k err w1 :
      session_or_error r w (Some s, None) → session_state s = Query_Get r sessionStateName →
      oauth2_Exchange k (oauth2_config config) (FormValue r "code") = Err err →
      silent w w1 → w_table w1 = w_table w →
      callback_spec post_login r w
        (Failed 401 "cannot validate oauth code for oidc callback" (Some err)) w1
  | callback_no_new_session s k t n g e err w1 :
      session_or_error r w (Some s, None) → session_state s = Query_Get r sessionStateName →
      oauth2_Exchange k (oauth2_config config) (FormValue r "code") = Ok t →
      new_cookie r n = (g, Some e) → silent w w1 → w_table w1 = w_table w →
      callback_spec post_login r w
        (Failed 500 "cannot reinitialize the existing session for oidc callback" (Some err)) w1
  | callback_not_saved s k t err w1 :
      session_or_error r w (Some s, None) → session_state s = Query_Get r sessionStateName →
      oauth2_Exchange k (oauth2_config config) (FormValue r "code") = Ok t →
      silent w w1 →
      (same_view w w1 ∨ ∃ id d, fresh_id id w w1 ∧ view (w_table w) !! id = None ∧
                                view (w_table w1) = <[id := d]> (view (w_table w))) →
      callback_spec post_login r w
        (Failed 500 "cannot save the new session for oidc callback" (Some err)) w1
  | callback_done s k t n g sub raw id w1 :
      session_or_error r w (Some s, None) → session_state s = Query_Get r sessionStateName →
      oauth2_Exchange k (oauth2_config config) (FormValue r "code") = Ok t →
      new_cookie r n = (g, None) → verified config t sub raw →
      fresh_id id w w1 → view (w_table w) !! id = None → unsent w w1 →
      view (w_table w1) = <[id := truncate (token_data sub raw t)]> (view (w_table w)) →
      saved (with_id g id (m_sessionTimeout m)) w w1 →
      callback_spec post_login r w (Redirected post_login) w1.

(** ** Logout *)
Inductive logout_spec (post_logout : string) (r : Request) (w : World) : answer → World → Prop :=
  | logout_no_session err w1 :
      session_or_error r w (None, Some err) → silent w w1 → w_table w1 = w_table w →
      logout_spec post_logout r w
        (Failed 500 "cannot retrieve session for logout handler" (Some err)) w1
  | logout_not_deleted s err w1 :
      session_or_error r w (Some s, None) → silent w w1 →
      (same_view w w1 ∨ ∃ id, view (w_table w1) = delete id (view (w_table w))) →
      logout_spec post_logout r w
        (Failed 500 "cannot delete the session for logout handler" (Some err)) w1
  | logout_done s id w1 :
      session_or_error r w (Some s, None) →
      value_string (s_session s) sessionIdName = Some id → unsent w w1 →
      view (w_table w1) = delete id (view (w_table w)) →
      saved (set_Values (s_session s) (gs_Values (s_session s)) (-1)) w w1 →
      logout_spec post_logout r w
        (Redirected (EndSessionEndpoint (OidcEndpoints config) +:+ "?"
                     +:+ logout_query (IDToken (s_data s)) post_logout)) w1.

(** ** Refinement *)

Context `{!LossyStore impl view no_rows}.
Hypothesis Hm : m_sessionImpl m = impl.
Implicit Types (rw : ResponseWriter) (r : Request) (w : World).

(** What both the specification and its proof say of a part that answers nothing. *)
Definition calm (w w' : World) : Prop := silent w w' ∧ w_table w' = w_table w.

Lemma calm_trans w1 w2 w3 : calm w1 w2 → calm w2 w3 → calm w1 w3.
Proof.
  unfold calm, silent. intros. destruct_and!. split; [|congruence].
  split; [lia|]. split; [congruence|]. split; [congruence|]. split; congruence.
Qed.

Lemma calm_quiet w w' : quiet w w' → calm w w'.
Proof.
  intros. step_facts. unfold calm, silent. split; [|done].
  split; [lia|]. split; [congruence|]. split; [congruence|]. split; congruence.
Qed.

Lemma calm_tick w : calm w (set_tick S w).
Proof. split; [|done]. split; [simpl; lia|done]. Qed.

Lemma run_FromContext r w :
  has_logger (r_ctx r) →
  ∃ w1, calm w w1 ∧ w_tick w1 = w_tick w ∧
    ∀ B (k : unit → IO B), (zlogger_FromContext (r_ctx r) ≫= k) w = k tt w1.
Proof.
  intros Hl.
  destruct (twp_run_bind (zlogger_FromContext (r_ctx r))
    (λ _ w', calm w w' ∧ w_tick w' = w_tick w) w)
    as ([] & w1 & (? & ?) & Hrun); [|by exists w1].
  apply twp_zlogger_FromContext; [done|]. intros. step_facts.
  split; [|done]. unfold calm, silent. split; [|congruence].
  split; [lia|]. split; [congruence|]. split; [congruence|]. split; congruence.
Qed.

Lemma session_or_error_cases r w a :
  session_or_error r w a →
  (∃ err, a = (None, Some err)) ∨ (∃ g d, a = (Some (session_of m config g d), None)).
Proof.
  unfold session_or_error, get_session_post.
  destruct (cookie_lookup _ _ _); [eauto|eauto|eauto|].
  intros [(d & _ & ->)|(e & -> & _)]; eauto.
Qed.

Lemma session_or_error_read r w s :
  session_or_error r w (Some s, None) →
  ∃ g d, s = session_of m config g d ∧
         store_Get (w_tick w) (m_store m) r (m_cookieName m) = (g, None).
Proof.
  unfold session_or_error, get_session_post, cookie_lookup.
  destruct (store_Get _ _ _ _) as [g [e|]]; [done|].
  destruct (value_string g sessionStateName); [intros ?; simplify_eq; eauto|].
  destruct (value_string g sessionIdName); [|done].
  intros [(d & _ & ?)|(e & ? & _)]; simplify_eq. eauto.
Qed.

(** The session of a cookie that holds a login in progress. *)
Lemma session_or_error_state r w g a state :
  store_Get (w_tick w) (m_store m) r (m_cookieName m) = (g, None) →
  value_string g sessionStateName = Some state →
  session_or_error r w a →
  a = (Some (session_of m config g SessionData_zero), None).
Proof.
  unfold session_or_error, get_session_post, cookie_lookup. by intros -> ->.
Qed.

(** The common start of the handlers that read the session. *)
Lemma run_GetSession r w :
  has_tracer (r_ctx r) → has_logger (r_ctx r) →
  ∃ a w1, session_or_error r w a ∧ calm w w1 ∧
    ∀ B (k : _ → IO B),
      (zlogger_FromContext (r_ctx r) ≫= λ _, GetSession m r config ≫= k) w = k a w1.
Proof.
  intros Ht Hl. destruct (run_FromContext r w Hl) as (w0 & Hc & Htick & Hrun).
  destruct (twp_run_bind (GetSession m r config)
    (λ a w', get_session_post view no_rows m config r w0 a ∧ calm w0 w') w0)
    as (a & w1 & (Hp & Hw1) & Hrun1).
  { eapply twp_GetSession; [done..|]. intros. split; [done|by apply calm_quiet]. }
  exists a, w1. split; [|split; [by eapply calm_trans|intros; by rewrite Hrun, Hrun1]].
  destruct Hc as [Hs Htab]. unfold session_or_error, get_session_post in *.
  rewrite Htick, Htab in Hp. destruct (cookie_lookup m r (w_tick w)); try done.
  destruct Hp as [?|(e & ? & Hno & Hrows)]; [by left|]. right. exists e. split; [done|].
  unfold silent in Hs. destruct_and! Hs.
  assert (Hup : db_up w → db_up w0) by (intros [? ?]; split; [done|congruence]).
  split; auto.
Qed.

Lemma run_NewSession r w :
  has_tracer (r_ctx r) →
  ∃ a w1, calm w w1 ∧
    ((∃ e g err, new_cookie r (w_tick w) = (g, Some e) ∧ a = (None, Some err) ∧
                 errors_Is err ErrCannotCreateCookie = true) ∨
     (∃ g, new_cookie r (w_tick w) = (g, None) ∧
           a = (Some (session_of m config g SessionData_zero), None))) ∧
    ∀ B (k : _ → IO B), (NewSession m r config ≫= k) w = k a w1.
Proof.
  intros Ht. destruct (twp_run_bind (NewSession m r config) (λ a w', calm w w' ∧
    ((∃ e g err, new_cookie r (w_tick w) = (g, Some e) ∧ a = (None, Some err) ∧
                 errors_Is err ErrCannotCreateCookie = true) ∨
     (∃ g, new_cookie r (w_tick w) = (g, None) ∧
           a = (Some (session_of m config g SessionData_zero), None)))) w)
    as (a & w1 & (Hw1 & Hp) & Hrun); [|by exists a, w1].
  apply twp_NewSession; [done|..].
  - intros w' e g Hq Hg. split; [by apply calm_quiet|]. left. eexists e, g, _.
    split; [done|]. split; [done|]. reflexivity.
  - intros w' g Hq Hg. split; [by apply calm_quiet|]. right. by exists g.
Qed.

Lemma saved_after g w w1 w2 : calm w w1 → saved g w1 w2 → saved g w w2.
Proof.
  intros [Hs _] (n & c & Hn & Hc & Hcs). destruct Hs as (Hle & _ & _ & _ & Hr).
  rewrite Hr in Hcs. exists n, c. split; [lia|done].
Qed.

Lemma unsent_after w w1 w2 : calm w w1 → session_step w1 w2 → unsent w w2.
Proof.
  unfold calm, silent, session_step, unsent. intros. destruct_and!.
  assert (w_resp w1 = w_resp w) by done.
  split; [lia|]. split; [congruence|]. split; [congruence|]. split; [congruence|].
  split; [congruence|]. split; congruence.
Qed.

(** A failed step that set no cookie leaves the response as it was. *)
Lemma silent_after w w1 w2 :
  calm w w1 → session_step w1 w2 → rs_cookies (w_resp w2) = rs_cookies (w_resp w1) →
  silent w w2.
Proof.
  intros Hc Hs Hck. pose proof (session_step_resp _ _ Hs Hck) as Hr.
  unfold calm, silent, session_step in *. destruct_and!.
  split; [lia|]. split; [congruence|]. split; [congruence|]. split; congruence.
Qed.

Lemma cookie_session_step w w' : cookie_step w w' → session_step w w'.
Proof.
  intros. unfold session_step. step_facts.
  split; [lia|]. repeat split; congruence.
Qed.

Lemma LoginHandlerOidc_refines rw r w :
  has_tracer (r_ctx r) → has_logger (r_ctx r) →
  ∃ a w1, login_spec r w a w1 ∧ LoginHandlerOidc m config rw r w = give rw r a w1.
Proof.
  intros Ht Hl. unfold LoginHandlerOidc.
  destruct (run_FromContext r w Hl) as (w1 & Hc1 & Htick & Hrun). rewrite Hrun. clear Hrun.
  destruct (run_NewSession r w1 Ht) as (a & w2 & Hc2 & Ha & Hrun). rewrite Hrun. clear Hrun.
  rewrite Htick in Ha. pose proof (calm_trans _ _ _ Hc1 Hc2) as Hc. clear Hc1 Hc2 Htick w1.
  destruct Ha as [(e & g & err & Hg & -> & Herr)|(g & Hg & ->)]; cbn beta iota.
  { eexists (Failed _ _ _), w2. split; [|reflexivity].
    eapply login_no_session; [done|done|apply Hc|apply Hc]. }
  unfold generateOAuthState. rewrite bind_assoc, run_bind. cbn [interact].
  destruct (rand_Read (w_tick w2) 128) as [read rerr] eqn:Hrand. cbn beta iota. rewrite bind_ret.
  pose proof (calm_trans _ _ _ Hc (calm_tick w2)) as Hc3. set (w3 := set_tick S w2) in *.
  set (state := base64_URLEncoding (fill 128 read)).
  destruct (twp_run_bind (saveState (session_of m config g SessionData_zero) rw r state
                            (m_loginTimeout m))
    (λ e w', match e with
             | Some _ => quiet w3 w'
             | None => cookie_step w3 w' ∧ saved (with_state g state (m_loginTimeout m)) w3 w'
             end) w3) as ([err|] & w4 & Hpost & Hrun).
  { apply twp_saveState; [done|by intros|by intros]. }
  all: rewrite Hrun; clear Hrun.
  - apply calm_quiet in Hpost. pose proof (calm_trans _ _ _ Hc3 Hpost) as Hc4.
    eexists (Failed _ _ _), w4. split; [|reflexivity].
    eapply login_not_saved; [done|apply Hc4|apply Hc4].
  - destruct Hpost as [Hstep Hsaved]. eexists (Redirected _), w4. split; [|reflexivity].
    eapply login_redirected; [done|exact Hrand| |..].
    + eapply unsent_after; [exact Hc3|by apply cookie_session_step].
    + destruct Hc3 as [_ <-]. step_facts. congruence.
    + by eapply saved_after.
Qed.

Lemma session_step_view w1 w2 : view (w_table w2) = view (w_table w1) →
  ∀ w, calm w w1 → same_view w w2.
Proof. unfold same_view. intros Hv w [_ Htab]. congruence. Qed.

Lemma LogoutHandlerOidc_refines post_logout rw r w :
  has_tracer (r_ctx r) → has_logger (r_ctx r) →
  ∃ a w1, logout_spec post_logout r w a w1 ∧
    LogoutHandlerOidc m config post_logout rw r w = give rw r a w1.
Proof.
  intros Ht Hl. unfold LogoutHandlerOidc.
  destruct (run_GetSession r w Ht Hl) as (a & w1 & Hpost & Hc & Hrun). rewrite Hrun. clear Hrun.
  destruct (session_or_error_cases r w a Hpost) as [[err ->]|(g & d & ->)]; cbn beta iota.
  { eexists (Failed _ _ _), w1. split; [|reflexivity].
    eapply logout_no_session; [done|apply Hc|apply Hc]. }
  set (s := session_of m config g d) in *.
  destruct (twp_run_bind (Session_Delete s rw r)
    (λ e w', match e with
             | Some _ => delete_failed view w1 w'
             | None => delete_done view s w1 w'
             end) w1) as ([err|] & w2 & Hdel & Hrun).
  { eapply twp_Session_Delete; eauto. }
  all: rewrite Hrun; clear Hrun.
  - destruct Hdel as (Hstep & Hck & Hv). eexists (Failed _ _ _), w2. split; [|reflexivity].
    eapply logout_not_deleted; [exact Hpost|by eapply silent_after|].
    destruct Hv as [Hv|[id Hv]]; [left; by eapply session_step_view|right].
    exists id. by rewrite Hv, (proj2 Hc).
  - destruct Hdel as (id & Hstep & Hid & Hv & Hsaved).
    eexists (Redirected _), w2. split; [|reflexivity].
    eapply logout_done; [exact Hpost|exact Hid|by eapply unsent_after| |by eapply saved_after].
    by rewrite Hv, (proj2 Hc).
Qed.

Lemma save_not_done w w1 w2 :
  calm w w1 → save_failed view w1 w2 →
  silent w w2 ∧
  (same_view w w2 ∨ ∃ id d, fresh_id id w w2 ∧ view (w_table w) !! id = None ∧
                            view (w_table w2) = <[id := d]> (view (w_table w))).
Proof.
  intros Hc (Hstep & Hck & Hv). split; [by eapply silent_after|].
  destruct Hv as [Hv|(id & d & Hf & Hn & Hv)]; [left; by eapply session_step_view|right].
  exists id, d. destruct Hc as [(Htk & _) Htab]. rewrite Htab in Hn, Hv.
  split; [|done]. destruct Hf as (n & -> & Hn1). exists n. split; [done|lia].
Qed.

Lemma run_getState s r w :
  has_tracer (r_ctx r) →
  ∃ w1, calm w w1 ∧ ∀ B (k : _ → IO B), (getState s r ≫= k) w = k (session_state s) w1.
Proof.
  intros Ht. destruct (twp_run_bind (getState s r)
    (λ a w', a = session_state s ∧ calm w w') w) as (a & w1 & (-> & Hc) & Hrun);
    [|by exists w1].
  apply twp_getState; [done|]. intros. split; [done|by apply calm_quiet].
Qed.

Lemma CallbackHandlerOidc_refines post_login rw r w :
  has_tracer (r_ctx r) → has_logger (r_ctx r) →
  ∃ a w1, callback_spec post_login r w a w1 ∧
    CallbackHandlerOidc m config post_login rw r w = give rw r a w1.
Proof.
  intros Ht Hl. unfold CallbackHandlerOidc.
  destruct (run_GetSession r w Ht Hl) as (a & w1 & Hpost & Hc & Hrun). rewrite Hrun. clear Hrun.
  destruct (session_or_error_cases r w a Hpost) as [[err ->]|(g & d & ->)]; cbn beta iota.
  { eexists (Failed _ _ _), w1. split; [|reflexivity].
    eapply callback_no_session; [done|apply Hc|apply Hc]. }
  set (s := session_of m config g d) in *.
  destruct (run_getState s r w1 Ht) as (w2 & Hc2 & Hrun). rewrite Hrun. clear Hrun.
  pose proof (calm_trans _ _ _ Hc Hc2) as Hc'. clear Hc Hc2 w1. rename Hc' into Hc.
  destruct (String.eqb_spec (session_state s) (Query_Get r sessionStateName)) as [Heq|Hne];
    cbn [negb].
  2: { eexists (Failed _ _ _), w2. split; [|reflexivity].
       eapply callback_wrong_state; [done|done|apply Hc|apply Hc]. }
  rewrite run_bind. cbn [interact].
  pose proof (calm_trans _ _ _ Hc (calm_tick w2)) as Hc3.
  destruct (oauth2_Exchange (w_tick w2) (oauth2_config config) (FormValue r "code"))
    as [t|err] eqn:Hex.
  2: { eexists (Failed _ _ _), _. split; [|reflexivity].
       eapply callback_no_token; [done|done|exact Hex|apply Hc3|apply Hc3]. }
  destruct (run_NewSession r (set_tick S w2) Ht) as (a & w3 & Hc4 & Ha & Hrun). rewrite Hrun.
  clear Hrun. pose proof (calm_trans _ _ _ Hc3 Hc4) as Hc5.
  destruct Ha as [(e & g' & err & Hg & -> & _)|(g' & Hg & ->)]; cbn beta iota.
  { eexists (Failed _ _ _), w3. split; [|reflexivity].
    eapply callback_no_new_session; [done|done|exact Hex|exact Hg|apply Hc5|apply Hc5]. }
  set (s' := session_of m config g' SessionData_zero).
  destruct (twp_run_bind (Save s' rw r t)
    (λ a w', match a.2 with
             | Some _ => save_failed view w3 w'
             | None => save_done view s' t w3 w'
             end) w3) as ([s1 [err|]] & w4 & Hsave & Hrun).
  { eapply twp_Save; eauto. }
  all: rewrite Hrun; clear Hrun; cbn [snd] in Hsave.
  - destruct (save_not_done _ _ _ Hc5 Hsave) as [Hsil Hv].
    eexists (Failed _ _ _), w4. split; [|reflexivity].
    by eapply callback_not_saved; [done|done|exact Hex|..].
  - destruct Hsave as (sub & raw & id & Hstep & Hver & Hfresh & Hn & Hv & Hsaved).
    rewrite (proj2 Hc5) in Hn, Hv.
    eexists (Redirected _), w4. split; [|reflexivity].
    eapply callback_done; [done|done|exact Hex|exact Hg|exact Hver| |exact Hn| |exact Hv|].
    + destruct Hfresh as (n & -> & Hn1). exists n. split; [done|].
      destruct Hc5 as [(Htk & _) _]. lia.
    + by eapply unsent_after.
    + by eapply saved_after.
Qed.

(** ** What the answer changes *)

Definition answer_step (w0 w : World) : Prop :=
  http_step w0 w ∧ rs_cookies (w_resp w) = rs_cookies (w_resp w0).

(** Walks through an answer. *)
Ltac solve_answer_step :=
  repeat first
    [ progress intros
    | solve [auto]
    | solve [apply keeps_gets | apply safe_panic | by apply safe_ret]
    | solve [apply safe_modify; intros; unfold answer_step, http_step in *; destruct_and!;
             simpl in *; split_and!; first [lia|congruence]]
    | apply keeps_bind
    | match goal with |- safe _ (match ?x with _ => _ end) _ => destruct x end ].

Lemma keeps_step_tick {A} w0 (f : nat → A) : keeps (answer_step w0) (interact f).
Proof using Type.
  intros w ((?&?&?&?)&?). split; [|done]. repeat split; simpl; [lia|congruence..].
Qed.

Hint Resolve keeps_step_tick : core.

Lemma rw_WriteHeader_step w0 rw code : keeps (answer_step w0) (rw_WriteHeader rw code).
Proof using Type.
  revert code. induction rw as [|inner IH|inner IH]; intros code; simpl.
  - unfold net_http_WriteHeader, send_status. solve_answer_step.
  - unfold StatusRecorder_WriteHeader. solve_answer_step.
  - unfold OtelWriter_WriteHeader. solve_answer_step.
Qed.

Lemma rw_Write_step w0 rw b : keeps (answer_step w0) (rw_Write rw b).
Proof using Type.
  induction rw as [|inner IH|inner IH]; simpl.
  - unfold net_http_Write, net_http_WriteHeader, send_status. solve_answer_step.
  - unfold StatusRecorder_Write. solve_answer_step.
  - pose proof (rw_WriteHeader_step w0 (OtelWriterOf inner) 200). unfold OtelWriter_Write.
    solve_answer_step.
Qed.

Hint Resolve rw_WriteHeader_step rw_Write_step : core.

Lemma give_step rw r a w : answer_step w (give rw r a w).2.
Proof using Type.
  assert (Hk : keeps (answer_step w) (give rw r a)); [|by apply Hk].
  destruct a as [code d e|url]; simpl.
  - unfold Logger_JsonError, rw_Header_Set, time_Now. solve_answer_step.
  - unfold http_Redirect, rw_Header_Set. cbv zeta. solve_answer_step.
Qed.
End HandlerSpec.
