(* ===== verification/Concrete.v ===== *)
(** * A concrete environment

    One executable instance of every library class, used to run the handlers on
    concrete requests and to show that the hypotheses of the theorems can hold.
    The cookie codec prints the values of the session as bits after the
    authentication key; it is injective, and refuses what it did not print. *)

From stdpp Require Import base gmap strings list option numbers pretty countable.
From Stdlib Require Import ZArith Lia Ascii String.
From S2P Require Import Prelude GoBase Encoding World Telemetry Zlogger Database Sqlite.
From S2P Require Import Postgresql Oidc SessionConfig Sessions SessionLemmas CookieLaws.
From S2P Require Import Handlers.

#[local] Open Scope Z_scope.
#[local] Open Scope string_scope.

(** ** Time, randomness, network *)

(** Calls are one second apart, starting in 2023. *)
#[export] Instance toy_clock : Clock := {|
  clock_now := λ n, (1680000000 + Z.of_nat n) * Second;
  time_MarshalJSON := λ t, json_string (pretty t)
|}.

#[export] Instance toy_uuid : Uuid := {| uuid_New := λ n, "id-" +:+ pretty n |}.

#[export] Instance toy_rand : Rand := {|
  rand_Read := λ n len, (fold_right (λ k s, String (ascii_of_nat (k + n)) s) "" (seq 0 len), None)
|}.

#[export] Instance toy_network : Network := {| write_error := λ _, None |}.
#[export] Instance toy_sql : SqlDriver := {|
  sql_failure := λ _, None; pgx_failure := λ _, None; pgx_lost := λ _, None; ctx_Err := λ _ _, None
|}.
#[export] Instance toy_otel : Otel := {|
  SpanContext_TraceID := λ s, (λ s, "trace-" +:+ pretty (span_id s)) <$> s;
  SpanContext_SpanID := λ s, (λ s, "span-" +:+ pretty (span_id s)) <$> s;
  otelhttp_context := λ _ _ ctx, ctx;
  otelhttp_passes_late := false
|}.
#[export] Instance toy_realip : RealIP := {| realip_Get := λ r, Ok (r_RemoteAddr r) |}.
#[export] Instance toy_redirector : Redirector := {| redirect_location := λ _ url, url |}.
#[export] Instance toy_body : BodyFault := {|
  body_read_error := λ _, None; body_close_error := λ _, None
|}.

(** ** The cookie codec *)

#[export] Instance value_eq_dec : EqDecision value.
Proof. solve_decision. Defined.

#[export] Instance value_countable : Countable value.
Proof.
  refine (inj_countable' (λ v, match v with VString s => Some s | VOther => None end)
                         (λ o, match o with Some s => VString s | None => VOther end) _).
  by intros [].
Defined.

Fixpoint string_of_pos (p : positive) : string :=
  match p with
  | xH => ""
  | xO p => String "0" (string_of_pos p)
  | xI p => String "1" (string_of_pos p)
  end.

Fixpoint pos_of_string (s : string) : option positive :=
  match s with
  | EmptyString => Some xH
  | String "0" s => xO <$> pos_of_string s
  | String "1" s => xI <$> pos_of_string s
  | String _ _ => None
  end.

Definition toy_print (key : string) (vs : gmap string value) : string :=
  key +:+ "." +:+ string_of_pos (encode vs).

(** What follows the prefix [pre]. *)
Fixpoint strip (pre s : string) : option string :=
  match pre, s with
  | EmptyString, s => Some s
  | String a pre, String b s => if Ascii.eqb a b then strip pre s else None
  | String _ _, EmptyString => None
  end.

Definition toy_parse (key : string) (c : string) : option (gmap string value) :=
  (strip (key +:+ ".") c ≫= pos_of_string) ≫= decode.

(** The authentication keys are the even elements of the key pairs. *)
Fixpoint auth_keys (l : list string) : list string :=
  match l with
  | a :: _ :: l => a :: auth_keys l
  | _ => []
  end.

Fixpoint assoc (k : string) (l : list (string * string)) : option string :=
  match l with
  | [] => None
  | (k', v) :: l => if String.eqb k k' then Some v else assoc k l
  end.

Fixpoint first_some {A B} (f : A → option B) (l : list A) : option B :=
  match l with
  | [] => None
  | a :: l => match f a with Some b => Some b | None => first_some f l end
  end.

Definition toy_new (st : CookieStore) (r : Request) (name : string) : GSession * option error :=
  match assoc name (r_Cookies r) with
  | None => (mkGSession name ∅ (cs_Options st) true st, None)
  | Some c =>
      match first_some (λ k, toy_parse k c) (auth_keys (cs_keyPairs st)) with
      | Some vs => (mkGSession name vs (cs_Options st) false st, None)
      | None => (mkGSession name ∅ (cs_Options st) true st,
                 Some (ErrorString "securecookie: the value is not valid"))
      end
  end.

#[export] Instance toy_gorilla : Gorilla := {|
  store_New := λ _, toy_new;
  store_Get := λ _, toy_new;
  session_cookie := λ _ s,
    match auth_keys (cs_keyPairs (gs_store s)) with
    | [] => Err (ErrorString "securecookie: no codecs provided")
    | k :: _ => Ok (mkCookie (gs_Name s) (toy_print k (gs_Values s)) (gs_Options s))
    end
|}.

Lemma strip_app pre s : strip pre (pre +:+ s) = Some s.
Proof. induction pre as [|a pre IH]; [reflexivity|]. simpl. by rewrite Ascii.eqb_refl. Qed.

Lemma pos_of_string_of_pos p : pos_of_string (string_of_pos p) = Some p.
Proof. induction p as [p IH|p IH|]; simpl; by rewrite ?IH. Qed.

Lemma string_app_assoc (a b c : string) : (a +:+ b) +:+ c = a +:+ (b +:+ c).
Proof.
  induction a as [|x a IH]; [done|].
  change (String x ((a +:+ b) +:+ c) = String x (a +:+ (b +:+ c))). by rewrite IH.
Qed.

Lemma toy_parse_print key vs : toy_parse key (toy_print key vs) = Some vs.
Proof.
  unfold toy_parse, toy_print. rewrite <-string_app_assoc, strip_app. simpl.
  rewrite pos_of_string_of_pos. simpl. apply decode_encode.
Qed.

Lemma toy_new_fields st r name g e :
  toy_new st r name = (g, e) → gs_Name g = name ∧ gs_store g = st ∧ gs_Options g = cs_Options st.
Proof.
  unfold toy_new. destruct (assoc _ _); [destruct (first_some _ _)|]; intros ?; by simplify_eq.
Qed.

#[export] Instance toy_cookie_laws : CookieLaws.
Proof.
  split; simpl.
  - intros n st r name g. apply toy_new_fields.
  - intros n st r name g. apply toy_new_fields.
  - intros _ g c. destruct (auth_keys _); [done|]. intros ?; by simplify_eq.
  - intros n n' g c r Hc _ _ Hr. unfold toy_new. rewrite Hr.
    destruct (auth_keys (cs_keyPairs (gs_store g))) as [|k ks]; simplify_eq. simpl.
    rewrite String.eqb_refl, toy_parse_print. by eexists.
  - intros _ st r name Hr. unfold toy_new. rewrite Hr. by eexists.
Qed.

(** ** The identity provider

    Codes and refresh tokens are names of users; the id-token of a user is its
    name, tokens last an hour. *)
Definition toy_token (n : nat) (user : string) : Token :=
  mkToken ("at-" +:+ user +:+ "-" +:+ pretty n) ("rt-" +:+ user)
          (clock_now n + 3600 * Second)%Z (Some ("it-" +:+ user)).

Definition after (pre s : string) : string :=
  String.substring (String.length pre) (String.length s) s.

#[export] Instance toy_oauth2 : OAuth2 := {|
  oauth2_Exchange := λ n _ code,
    if String.prefix "code-" code then Ok (toy_token n (after "code-" code))
    else Err (ErrorString "oauth2: cannot fetch token: invalid_grant");
  oauth2_TokenSource_Token := λ n _ t,
    if String.prefix "rt-" (t_RefreshToken t) then Ok (toy_token n (after "rt-" (t_RefreshToken t)))
    else Err (ErrorString "oauth2: token expired and refresh token is not set");
  oauth2_AuthCodeURL := λ c state, AuthURL c +:+ "?state=" +:+ QueryEscape state;
  oauth2_Client_Get := λ _ _ t _,
    if String.prefix "at-" (t_AccessToken t) then Ok (200, ["{"; "}"])
    else Ok (401, ["unauthorized"])
|}.

#[export] Instance toy_oidc : OidcLib := {|
  Provider := string;
  oidc_NewProvider := λ _ issuer, Ok issuer;
  Verifier_Verify := λ _ _ _ raw,
    if String.prefix "it-" raw then Ok (after "it-" raw)
    else Err (ErrorString "oidc: malformed jwt")
|}.

(** ** A deployment *)

Definition toy_config : oidc_Config :=
  mkOidcConfig (mkOauth2Config "client" "secret" "https://idp/auth" "https://idp/token"
                  ["openid"; "profile"; "email"] "https://app/callback")
    "https://idp"
    (mkEndpoints "https://idp/auth" "https://idp/logout" "" "" "" "https://idp/token"
       "https://idp/userinfo").

Definition toy_store_ : CookieStore :=
  mkCookieStore ["0123456789abcdef0123456789abcdef"; ""]
    (mkOptions "/" "app" 0 true true SameSiteStrictMode).

Definition toy_manager_of (impl : SessionImpl) : Manager :=
  mkManager "session" 300 (30 * Minute) toy_store_ impl 0.

Definition toy_manager : Manager := toy_manager_of (sqlite_impl None).
Definition toy_pg_manager : Manager := toy_manager_of (postgresql_impl None).

(** The context of a request inside the two middlewares. *)
Definition toy_ctx : Context :=
  [(opentelemetry_ctxKey, AnyTracer (mkTracer "t")); (zlogger_ctxKey, AnyLogger)].

Definition toy_request (path query : string) (cookies : list (string * string)) : Request :=
  mkRequest "GET" (mkURL "" "" path query) [] cookies ∅ "app" "10.0.0.1:4000" path "HTTP/1.1" toy_ctx.

Definition toy_world (t : gmap string Row) : World :=
  mkWorld 0 t true empty_response (mkWrappers (mkStatusRecorder 200 0) []) (mkLogger None "" "" "") [] [].

(** The value a client sends back for a cookie it was given. *)
Definition toy_cookie (vs : gmap string value) : list (string * string) :=
  [("session", toy_print "0123456789abcdef0123456789abcdef" vs)].

Definition toy_row (user : string) (exp : Z) : Row :=
  mkRow user ("at-" +:+ user) ("rt-" +:+ user) ("it-" +:+ user) exp.

(** A handler that records the access token it finds in its context. *)
Definition toy_next : Handler := λ w r,
  match ctx_Value (r_ctx r) ContextKeyAccessTokenName with
  | Some (AnyString t) => _ ← rw_Write w t; mret tt
  | _ => _ ← rw_Write w "no token"; mret tt
  end.

#[export] Instance toy_sqlite_store : LossyStore (sqlite_impl None) (store_view None) sqlite_no_rows :=
  sqlite_lossy_store None I.
#[export] Instance toy_postgresql_store :
  LossyStore (postgresql_impl None) (store_view None) pgx_no_rows := postgresql_lossy_store None I.

Lemma toy_answering : answering.
Proof. by intros n. Qed.

(** The status line that was sent, if one was. *)
Definition status (w : World) : option Z := (λ s, s.1.1) <$> rs_sent (w_resp w).

(** The request of a client that sends back the last cookie of [w]. *)
Definition toy_next_request (path query : string) (w : World) : Request :=
  toy_request path query
    (match rev (rs_cookies (w_resp w)) with
     | c :: _ => [(c_Name c, c_Value c)]
     | [] => []
     end).

(** The next exchange on the same database. *)
Definition next_exchange (w : World) : World :=
  mkWorld (w_tick w) (w_table w) (w_open w) empty_response
    (mkWrappers (mkStatusRecorder 200 0) []) (mkLogger None "" "" "") [] [].

(** A cipher: the text after a mark. *)
Definition toy_cipher : HexCipher := {|
  EncryptToHexString := λ n x, Ok ("0c" +:+ x);
  DecryptFromHexString := λ y,
    match strip "0c" y with Some x => Ok x | None => Err (ErrorString "cipher: bad text") end
|}.

Lemma toy_cipher_ok : cipher_ok (Some toy_cipher).
Proof. intros n x y Hy. simpl in *. by simplify_eq. Qed.

Lemma toy_cipher_nonempty n x : ∃ y, EncryptToHexString toy_cipher n x = Ok y ∧ y ≠ "".
Proof. eexists. by split. Qed.
