(* ===== verification/MiddlewareProps.v ===== *)
(** * Properties of the authentication middleware *)

From stdpp Require Import base gmap strings list option numbers.
From Stdlib Require Import ZArith Lia.
From S2P Require Import Prelude GoBase Encoding World Telemetry Zlogger Database Sqlite.
From S2P Require Import Postgresql Oidc SessionConfig Sessions SessionLemmas Handlers.
From S2P Require Import MiddlewareSpec Concrete.

#[local] Open Scope Z_scope.

(** ** The laws of the concrete environment *)

Lemma toy_refresh_needs_token n c :
  ∃ e, oauth2_TokenSource_Token n c (Token_of_refresh "") = Err e.
Proof. eexists. reflexivity. Qed.

Lemma toy_clock_after_zero n : Time_zero < clock_now n.
Proof. unfold Time_zero, clock_now, toy_clock, Second. lia. Qed.

Lemma toy_db_up t : db_up (toy_world t).
Proof. split; [exact toy_answering|reflexivity]. Qed.

Lemma toy_has_tracer path q c : has_tracer (r_ctx (toy_request path q c)).
Proof. eexists. reflexivity. Qed.

Lemma toy_has_logger path q c : has_logger (r_ctx (toy_request path q c)).
Proof. reflexivity. Qed.

Section Middleware.
Context `{!Clock} `{!Network} `{!Otel}.
Context `{!Gorilla} `{!OidcLib} `{!OAuth2} `{!Uuid} `{!SqlDriver}.
Context (impl : SessionImpl) (view : gmap string Row → Store) (no_rows : string → error).
Context `{!LossyStore impl view no_rows}.
Context (m : Manager) (config : oidc_Config) (Hm : m_sessionImpl m = impl).
Context (refresh_needs_token :
  ∀ n c, ∃ e, oauth2_TokenSource_Token n c (Token_of_refresh "") = Err e).
Context (clock_after_zero : ∀ n, Time_zero < clock_now n).
Implicit Types (next : Handler) (rw : ResponseWriter) (r : Request) (w : World).

(** C1: the inner handler only runs for an authorised request.  Whatever the inner
    handler, a run of the middleware either is an error response of status 401 or
    500, from a world where nothing was answered and no cookie set, or it is a run
    of the inner handler with an access token in the context; and then the cookie of
    the request decodes to a session id, the database holds a session under that
    id, and the token is the one of that session, not expired when the clock was
    read, or one the identity provider issued for the refresh token of that
    session, with a verified id-token of the same subject, now stored under the
    same id. *)
Theorem middleware_runs_next_only_when_authorised next rw r w :
  has_tracer (r_ctx r) → has_logger (r_ctx r) →
  (∃ code d e w1, (code = 401 ∨ code = 500) ∧ silent w w1 ∧
     AuthenticationMiddleware m config next rw r w = Logger_JsonError rw code d (Some e) w1) ∨
  (∃ tok w1 g id d n,
     AuthenticationMiddleware m config next rw r w = next rw (with_access_token r tok) w1 ∧
     cookie_lookup m r (w_tick w) = SessionId g id ∧ view (w_table w) !! id = Some d ∧
     ((clock_now n ≤ ExpiresAt d ∧ tok = AccessToken d ∧ w_table w1 = w_table w) ∨
      (ExpiresAt d < clock_now n ∧ ∃ k t raw,
         oauth2_TokenSource_Token k (oauth2_config config)
           (Token_of_refresh (RefreshToken d)) = Ok t ∧
         verified config t (Subject d) raw ∧ tok = t_AccessToken t ∧
         view (w_table w1)
           = <[id := truncate (token_data (Subject d) raw t)]> (view (w_table w))))).
Proof.
  intros Ht Hl.
  destruct (AuthenticationMiddleware_refines impl view no_rows m config Hm
              refresh_needs_token clock_after_zero next rw r w Ht Hl) as (v & w1 & Hv & ->).
  destruct Hv as [| | | |g id d n w1 Hlook Hd _ Hexp _ Htab| |
                  |g id d n k t raw w1 Hlook Hd _ Hexp Hr Hver _ Hview _].
  5: { right. exists (AccessToken d), w1, g, id, d, n. repeat (split; [done|]). by left. }
  7: { right. exists (t_AccessToken t), w1, g, id, d, n. repeat (split; [done|]).
       right. split; [done|]. exists k, t, raw. repeat (split; [done|]). done. }
  all: left; eexists _, _, _, _; split; [|split; [|reflexivity]]; [lia|done].
Qed.

(** C15: the middleware implements its abstract specification [auth_spec]: on every
    request it reaches one of the eight verdicts, and ends as the verdict says. *)
Theorem middleware_implements_spec next rw r w :
  has_tracer (r_ctx r) → has_logger (r_ctx r) →
  ∃ v w1, auth_spec view no_rows m config r w v w1 ∧
    AuthenticationMiddleware m config next rw r w = finish next rw r v w1.
Proof. intros Ht Hl. by apply (AuthenticationMiddleware_refines impl). Qed.

(** A cookie that still carries the state of a login in progress never reaches
    the inner handler: the answer is 401, and the table is unchanged. *)
Theorem login_in_progress_is_rejected next rw r w g state :
  has_tracer (r_ctx r) → has_logger (r_ctx r) →
  cookie_lookup m r (w_tick w) = LoginInProgress g state →
  ∃ e w1, silent w w1 ∧ w_table w1 = w_table w ∧
    AuthenticationMiddleware m config next rw r w
      = Logger_JsonError rw 401 "cannot renew the access token" (Some e) w1.
Proof.
  intros Ht Hl Hlook.
  destruct (AuthenticationMiddleware_refines impl view no_rows m config Hm
              refresh_needs_token clock_after_zero next rw r w Ht Hl) as (v & w1 & Hv & ->).
  destruct Hv; try congruence. eexists _, _. by split.
Qed.

(** A session that is stored and not expired is let through with its access
    token, and the table is unchanged. *)
Theorem valid_session_is_accepted next rw r w g id d :
  has_tracer (r_ctx r) → has_logger (r_ctx r) →
  cookie_lookup m r (w_tick w) = SessionId g id → db_up w →
  view (w_table w) !! id = Some d →
  (∀ n, (w_tick w ≤ n)%nat → clock_now n ≤ ExpiresAt d) →
  ∃ w1, silent w w1 ∧ w_table w1 = w_table w ∧
    AuthenticationMiddleware m config next rw r w
      = next rw (with_access_token r (AccessToken d)) w1.
Proof.
  intros. by eapply (AuthenticationMiddleware_valid impl view no_rows m config Hm
                       refresh_needs_token clock_after_zero).
Qed.

(** A cookie that cannot be decoded (a wrong key, a forged or an expired value)
    is answered 500, not the 401 that the first case of the error switch is written
    for: [GetSession] wraps [ErrCannotGetCookie], and the switch compares with
    [==]. *)
Theorem undecodable_cookie_is_internal_error next rw r w e :
  has_tracer (r_ctx r) → has_logger (r_ctx r) →
  cookie_lookup m r (w_tick w) = CookieError e →
  errors_Is (cookie_error m e) ErrCannotGetCookie = true ∧
  ∃ w1, silent w w1 ∧ w_table w1 = w_table w ∧
    AuthenticationMiddleware m config next rw r w
      = Logger_JsonError rw 500 "cannot retrieve the session" (Some (cookie_error m e)) w1.
Proof.
  intros Ht Hl Hlook. split; [reflexivity|].
  destruct (AuthenticationMiddleware_refines impl view no_rows m config Hm
              refresh_needs_token clock_after_zero next rw r w Ht Hl) as (v & w1 & Hv & ->).
  destruct Hv as [e' ? Hlk| | | | |? ? ? ? ? ? Hload| |]; try congruence.
  - assert (e' = e) as -> by congruence. eexists. by split.
  - destruct Hload as [(? & ? & _)|(? & ? & _)]; congruence.
Qed.
End Middleware.

Section Missing.
Context `{!Clock} `{!Network} `{!Otel}.
Context `{!Gorilla} `{!OidcLib} `{!OAuth2} `{!Uuid} `{!SqlDriver}.
Context (cipher : option HexCipher) (Hc : cipher_ok cipher).
Context (m : Manager) (config : oidc_Config).
Implicit Types (next : Handler) (rw : ResponseWriter) (r : Request) (w : World).

(** With the sqlite backend, a cookie whose session is not in the table (it was
    logged out, or purged) is answered 401 "no session found". *)
Theorem missing_session_is_unauthorised_on_sqlite next rw r w g id :
  m_sessionImpl m = sqlite_impl cipher →
  has_tracer (r_ctx r) → has_logger (r_ctx r) →
  cookie_lookup m r (w_tick w) = SessionId g id → db_up w → w_table w !! id = None →
  ∃ w1, silent w w1 ∧ w_table w1 = w_table w ∧
    AuthenticationMiddleware m config next rw r w
      = Logger_JsonError rw 401 "no session found" (Some ErrSessionNotFound) w1.
Proof.
  intros Hm Ht Hl Hlook Hup Hmiss. pose proof (sqlite_lossy_store cipher Hc).
  by eapply (AuthenticationMiddleware_missing (sqlite_impl cipher) (store_view cipher)
               sqlite_no_rows m config Hm).
Qed.

(** With the postgresql backend the same request is answered 500: the driver
    reports [pgx.ErrNoRows], which the session code does not know (or, for an id that is
    not a text, the error of the server). *)
Theorem missing_session_is_internal_error_on_postgresql next rw r w g id :
  m_sessionImpl m = postgresql_impl cipher →
  has_tracer (r_ctx r) → has_logger (r_ctx r) →
  cookie_lookup m r (w_tick w) = SessionId g id → db_up w → w_table w !! id = None →
  ∃ w1, silent w w1 ∧ w_table w1 = w_table w ∧
    AuthenticationMiddleware m config next rw r w
      = Logger_JsonError rw 500 "cannot retrieve the session"
          (Some (Errorf_w_s ErrCannotRetrieveSessionData (Error (pgx_no_rows id)))) w1.
Proof.
  intros Hm Ht Hl Hlook Hup Hmiss. pose proof (postgresql_lossy_store cipher Hc).
  destruct (AuthenticationMiddleware_missing (postgresql_impl cipher) (store_view cipher)
              pgx_no_rows m config Hm next rw r w g id) as (w1 & Hs & Htab & Hrun); [done..|].
  exists w1. split; [done|]. split; [done|]. by rewrite Hrun; unfold pgx_no_rows; destruct (text_ok id).
Qed.
End Missing.

(** ** The hypotheses can hold: runs on concrete requests *)

Definition bob_table : gmap string Row := {["A" := toy_row "bob" 1690000000]}.
Definition old_table : gmap string Row := {["A" := toy_row "bob" 1670000000]}.
Definition cookie_A : list (string * string) := toy_cookie {["session_id" := VString "A"]}.
Definition cookie_login : list (string * string) := toy_cookie {["state" := VString "xyz"]}.

Definition toy_middleware (cookies : list (string * string)) (w : World) : outcome () * World :=
  AuthenticationMiddleware toy_manager toy_config toy_next NetHttpWriter
    (toy_request "/proxy" "" cookies) w.

(** The session "A" of bob, its access token still valid, then expired. *)
Definition get_proxy (cookies : list (string * string)) : Request :=
  toy_request "/proxy" "" cookies.

Ltac instance_of t := let T := type of t in exact T.

Lemma middleware_runs_next_only_when_authorised_witness :
  rs_body (w_resp (toy_middleware cookie_A (toy_world old_table)).2) = ["at-bob-3"] ∧
  ltac:(instance_of (middleware_runs_next_only_when_authorised
    (sqlite_impl None) (store_view None) sqlite_no_rows toy_manager toy_config eq_refl
    toy_refresh_needs_token toy_clock_after_zero toy_next NetHttpWriter (get_proxy cookie_A)
    (toy_world old_table) (toy_has_tracer _ _ _) (toy_has_logger _ _ _))).
Proof.
  split; [vm_compute; reflexivity|].
  apply (middleware_runs_next_only_when_authorised (sqlite_impl None) (store_view None)
    sqlite_no_rows toy_manager toy_config eq_refl toy_refresh_needs_token toy_clock_after_zero);
    [apply toy_has_tracer|apply toy_has_logger].
Defined.

Lemma middleware_implements_spec_witness :
  ∃ v w1, auth_spec (store_view None) sqlite_no_rows toy_manager toy_config (get_proxy cookie_A)
            (toy_world bob_table) v w1 ∧
    toy_middleware cookie_A (toy_world bob_table)
      = finish toy_next NetHttpWriter (get_proxy cookie_A) v w1.
Proof.
  apply (middleware_implements_spec (sqlite_impl None) (store_view None) sqlite_no_rows
    toy_manager toy_config eq_refl toy_refresh_needs_token toy_clock_after_zero);
    [apply toy_has_tracer|apply toy_has_logger].
Defined.

Lemma login_in_progress_is_rejected_witness :
  ∃ e w1, silent (toy_world bob_table) w1 ∧ w_table w1 = bob_table ∧
    toy_middleware cookie_login (toy_world bob_table)
      = Logger_JsonError NetHttpWriter 401 "cannot renew the access token" (Some e) w1.
Proof.
  eapply (login_in_progress_is_rejected (sqlite_impl None) (store_view None) sqlite_no_rows
    toy_manager toy_config eq_refl toy_refresh_needs_token toy_clock_after_zero);
    [apply toy_has_tracer|apply toy_has_logger|vm_compute; reflexivity].
Defined.

(** A clock that stands still, so that the session stays valid forever. *)
Definition still_clock : Clock := {|
  clock_now := λ _, 1680000000 * Second; time_MarshalJSON := λ t, "" |}.

Section StillClock.
#[local] Existing Instance still_clock.

Lemma still_clock_after_zero n : Time_zero < clock_now n.
Proof. reflexivity. Qed.

#[local] Instance still_store :
  LossyStore (sqlite_impl None) (store_view None) sqlite_no_rows := sqlite_lossy_store None I.

Definition bob_data : SessionData := data_of (toy_row "bob" 1690000000).

Lemma valid_session_is_accepted_witness :
  let m := toy_manager_of (sqlite_impl None) in
  ∃ w1, silent (toy_world bob_table) w1 ∧ w_table w1 = w_table (toy_world bob_table) ∧
    AuthenticationMiddleware m toy_config toy_next NetHttpWriter
      (get_proxy cookie_A) (toy_world bob_table)
      = toy_next NetHttpWriter (with_access_token (get_proxy cookie_A) (AccessToken bob_data)) w1.
Proof.
  intros m.
  apply (valid_session_is_accepted (sqlite_impl None) (store_view None) sqlite_no_rows
    m toy_config eq_refl toy_refresh_needs_token still_clock_after_zero toy_next NetHttpWriter
    (get_proxy cookie_A) (toy_world bob_table)
    (toy_new toy_store_ (get_proxy cookie_A) "session").1 "A" bob_data
    (toy_has_tracer _ _ _) (toy_has_logger _ _ _));
    [vm_compute; reflexivity|apply toy_db_up|vm_compute; reflexivity
    |intros; vm_compute; discriminate].
Defined.
End StillClock.

Lemma undecodable_cookie_is_internal_error_witness :
  errors_Is (cookie_error toy_manager (ErrorString "securecookie: the value is not valid"))
    ErrCannotGetCookie = true ∧
  ∃ w1, silent (toy_world bob_table) w1 ∧ w_table w1 = bob_table ∧
    toy_middleware [("session", "forged")] (toy_world bob_table)
      = Logger_JsonError NetHttpWriter 500 "cannot retrieve the session"
          (Some (cookie_error toy_manager (ErrorString "securecookie: the value is not valid"))) w1.
Proof.
  apply (undecodable_cookie_is_internal_error (sqlite_impl None) (store_view None) sqlite_no_rows
    toy_manager toy_config eq_refl toy_refresh_needs_token toy_clock_after_zero toy_next
    NetHttpWriter (get_proxy [("session", "forged")]));
    [apply toy_has_tracer|apply toy_has_logger|vm_compute; reflexivity].
Defined.

Lemma missing_session_is_unauthorised_on_sqlite_witness :
  ∃ w1, silent (toy_world ∅) w1 ∧ w_table w1 = ∅ ∧
    toy_middleware cookie_A (toy_world ∅)
      = Logger_JsonError NetHttpWriter 401 "no session found" (Some ErrSessionNotFound) w1.
Proof.
  apply (missing_session_is_unauthorised_on_sqlite None I toy_manager toy_config toy_next
    NetHttpWriter (get_proxy cookie_A) (toy_world ∅)
    (toy_new toy_store_ (get_proxy cookie_A) "session").1 "A" eq_refl);
    [apply toy_has_tracer|apply toy_has_logger|vm_compute; reflexivity|apply toy_db_up
    |apply lookup_empty].
Defined.

Lemma missing_session_is_internal_error_on_postgresql_witness :
  ∃ w1, silent (toy_world ∅) w1 ∧ w_table w1 = ∅ ∧
    AuthenticationMiddleware toy_pg_manager toy_config toy_next NetHttpWriter
      (get_proxy cookie_A) (toy_world ∅)
      = Logger_JsonError NetHttpWriter 500 "cannot retrieve the session"
          (Some (Errorf_w_s ErrCannotRetrieveSessionData (Error pgx_ErrNoRows))) w1.
Proof.
  apply (missing_session_is_internal_error_on_postgresql None I toy_pg_manager toy_config toy_next
    NetHttpWriter (get_proxy cookie_A) (toy_world ∅)
    (toy_new toy_store_ (get_proxy cookie_A) "session").1 "A" eq_refl);
    [apply toy_has_tracer|apply toy_has_logger|vm_compute; reflexivity|apply toy_db_up
    |apply lookup_empty].
Defined.
