(* ===== verification/HandlerProps.v ===== *)
(** * Properties of the login, callback and logout handlers *)

From stdpp Require Import base gmap strings list option numbers.
From Stdlib Require Import ZArith Lia.
From S2P Require Import Prelude GoBase Encoding World Telemetry Zlogger Database Sqlite.
From S2P Require Import Postgresql Oidc SessionConfig Sessions SessionLemmas CookieLaws.
From S2P Require Import Handlers MiddlewareSpec HandlerSpec Concrete MiddlewareProps.

#[local] Open Scope Z_scope.

(** ** The state of a login *)

Lemma fill_length n read : String.length (fill n read) = n.
Proof.
  unfold fill. assert (Hz : String.length (zero_bytes n) = n).
  { induction n as [|n IH]; [done|]. simpl. by rewrite IH. }
  assert (Hsub : ∀ k s, (k ≤ String.length s)%nat → String.length (String.substring 0 k s) = k).
  { induction k as [|k IH]; intros [|a s] Hk; simpl in *; [done|done|lia|]. f_equal.
    apply IH. lia. }
  apply Hsub. rewrite length_append, Hz. lia.
Qed.

(** C35: the state of a login is the URL-safe base64 text of 128 bytes: 172
    characters, that decode to the bytes of the random source followed by zero
    bytes, so that two different draws give two different states. *)
Theorem oauth_state_encodes_the_draw `{!Rand} w :
  ∃ state, generateOAuthState w = (Ret state, set_tick S w) ∧
    String.length state = 172%nat ∧
    base64_decode state = Some (fill 128 (rand_Read (w_tick w) 128).1).
Proof.
  unfold generateOAuthState. rewrite run_bind. cbn [interact].
  destruct (rand_Read (w_tick w) 128) as [read err]. eexists. split; [reflexivity|].
  split; [|apply base64_decode_encode]. rewrite base64_length, fill_length. reflexivity.
Qed.

(** When the random source fails, the login goes on with the bytes it already
    has: with no byte at all, the state is the same constant for every login. *)
Theorem failed_draw_gives_a_constant_state `{!Rand} w e :
  rand_Read (w_tick w) 128 = ("", Some e) →
  (generateOAuthState w).1 = Ret (base64_URLEncoding (zero_bytes 128)).
Proof.
  intros Hr. unfold generateOAuthState. rewrite run_bind. cbn [interact]. rewrite Hr.
  by vm_compute.
Qed.

Section Handlers.
Context `{!Clock} `{!Network} `{!Otel} `{!Rand} `{!Redirector}.
Context `{!Gorilla} `{!OidcLib} `{!OAuth2} `{!Uuid} `{!SqlDriver}.
Context (impl : SessionImpl) (view : gmap string Row → Store) (no_rows : string → error).
Context `{!LossyStore impl view no_rows}.
Context (m : Manager) (config : oidc_Config) (Hm : m_sessionImpl m = impl).
Implicit Types (rw : ResponseWriter) (r : Request) (w : World).

(** C17: the login handler implements [login_spec]: it redirects to the provider
    with a state that it has put in a cookie of [LoginTimeout] seconds, or it
    answers 500 and sets no cookie; it never touches the database. *)
Theorem login_implements_spec rw r w :
  has_tracer (r_ctx r) → has_logger (r_ctx r) →
  ∃ a w1, login_spec m config r w a w1 ∧
    LoginHandlerOidc m config rw r w = give rw r a w1.
Proof. apply LoginHandlerOidc_refines. Qed.

(** C16: the callback handler implements [callback_spec]: it redirects only after
    the state of the session is the one of the request, the code was exchanged for
    a token whose id-token is verified, and a record with that token was stored
    under a fresh id that the cookie now carries instead of the state. *)
Theorem callback_implements_spec post_login rw r w :
  has_tracer (r_ctx r) → has_logger (r_ctx r) →
  ∃ a w1, callback_spec view no_rows m config post_login r w a w1 ∧
    CallbackHandlerOidc m config post_login rw r w = give rw r a w1.
Proof. intros Ht Hl. by apply (CallbackHandlerOidc_refines impl). Qed.

(** C18: the logout handler implements [logout_spec]: it redirects to the provider's
    end of session only after the record of the session is gone and the cookie was
    set to expire. *)
Theorem logout_implements_spec post_logout rw r w :
  has_tracer (r_ctx r) → has_logger (r_ctx r) →
  ∃ a w1, logout_spec view no_rows m config post_logout r w a w1 ∧
    LogoutHandlerOidc m config post_logout rw r w = give rw r a w1.
Proof. intros Ht Hl. by apply (LogoutHandlerOidc_refines impl). Qed.

(** C36: the state check passes when both states are empty.  A request that carries
    the cookie of a session already logged in and no [state] parameter gets its
    code exchanged: nothing ties that code to a login this client has started. *)
Theorem callback_without_state_is_exchanged post_login rw r w g id d :
  has_tracer (r_ctx r) → has_logger (r_ctx r) →
  cookie_lookup m r (w_tick w) = SessionId g id → db_up w →
  view (w_table w) !! id = Some d → Query_Get r sessionStateName = "" →
  ∃ k a w1, CallbackHandlerOidc m config post_login rw r w = give rw r a w1 ∧
    match oauth2_Exchange k (oauth2_config config) (FormValue r "code") with
    | Err e => a = Failed 401 "cannot validate oauth code for oidc callback" (Some e)
    | Ok _ => a = Redirected post_login ∨ ∃ d e, a = Failed 500 d (Some e)
    end.
Proof.
  intros Ht Hl Hlook Hup Hd Hq.
  destruct (CallbackHandlerOidc_refines impl view no_rows m config Hm post_login rw r w Ht Hl)
    as (a & w1 & Hspec & ->).
  assert (Hs : ∀ a, session_or_error view no_rows m config r w a →
                 a = (Some (session_of m config g d), None)).
  { unfold session_or_error, get_session_post. rewrite Hlook. intros a' [(d' & Hd' & ->)|(e & _ & Hno & _)].
    - congruence.
    - specialize (Hno Hup). congruence. }
  assert (Hst : session_state (session_of m config g d) = "").
  { unfold session_state. simpl. unfold cookie_lookup in Hlook.
    destruct (store_Get _ _ _ _) as [g' [e|]]; [done|].
    destruct (value_string g' sessionStateName) eqn:Hv; [done|].
    destruct (value_string g' sessionIdName); simplify_eq. by rewrite Hv. }
  destruct Hspec as [err w1 Hse|s w1 Hse Hne|s k err w1 Hse Heq Hex|
    s k t n g' e err w1 Hse Heq Hex|s k t err w1 Hse Heq Hex|s k t n g' sub raw id' w1 Hse Heq Hex].
  - by specialize (Hs _ Hse).
  - specialize (Hs _ Hse). congruence.
  - exists k. eexists _, _. split; [reflexivity|]. by rewrite Hex.
  - exists k. eexists _, _. split; [reflexivity|]. rewrite Hex. right. by eexists _, _.
  - exists k. eexists _, _. split; [reflexivity|]. rewrite Hex. right. by eexists _, _.
  - exists k. eexists _, _. split; [reflexivity|]. rewrite Hex. by left.
Qed.
End Handlers.

(** The query of the logout redirect reads back as the two parameters that were
    put in it, whatever characters the id-token and the return address contain. *)
Theorem logout_query_roundtrip id_token uri :
  ParseQuery (logout_query id_token uri)
    = [("id_token_hint", id_token); ("post_logout_redirect_uri", uri)].
Proof.
  unfold logout_query.
  apply (ParseQuery_two "id_token_hint" id_token "post_logout_redirect_uri" uri);
    by apply plain_keyb_spec.
Qed.

(** ** The hypotheses can hold: a login, its callback and the logout *)

Definition login_request : Request := toy_request "/auth/login" "" [].
Definition after_login : World :=
  (LoginHandlerOidc toy_manager toy_config NetHttpWriter login_request (toy_world ∅)).2.

(** The state of that login, and the request the provider sends the client to. *)
Definition toy_state : string := base64_URLEncoding (fill 128 (rand_Read 1 128).1).
Definition callback_request (state : string) : Request :=
  toy_next_request "/auth/callback" ("state=" +:+ QueryEscape state +:+ "&code=code-bob") after_login.
Definition after_callback : World :=
  (CallbackHandlerOidc toy_manager toy_config "/home" NetHttpWriter (callback_request toy_state)
     (next_exchange after_login)).2.

Definition logout_request : Request := toy_next_request "/auth/logout" "" after_callback.

Lemma toy_next_tracer p q w : has_tracer (r_ctx (toy_next_request p q w)).
Proof. eexists. reflexivity. Qed.

Lemma toy_next_logger p q w : has_logger (r_ctx (toy_next_request p q w)).
Proof. reflexivity. Qed.

Lemma login_implements_spec_witness :
  status after_login = Some 302 ∧
  ltac:(instance_of (login_implements_spec toy_manager toy_config NetHttpWriter login_request
    (toy_world ∅) (toy_has_tracer _ _ _) (toy_has_logger _ _ _))).
Proof.
  split; [vm_compute; reflexivity|].
  exact (login_implements_spec toy_manager toy_config NetHttpWriter login_request
    (toy_world ∅) (toy_has_tracer _ _ _) (toy_has_logger _ _ _)).
Defined.

Lemma callback_implements_spec_witness :
  status after_callback = Some 302 ∧ size (w_table after_callback) = 1%nat ∧
  ltac:(instance_of (callback_implements_spec (sqlite_impl None) (store_view None) sqlite_no_rows
    toy_manager toy_config eq_refl "/home" NetHttpWriter (callback_request toy_state)
    (next_exchange after_login) (toy_next_tracer _ _ _) (toy_next_logger _ _ _))).
Proof.
  split; [vm_compute; reflexivity|]. split; [vm_compute; reflexivity|].
  exact (callback_implements_spec (sqlite_impl None) (store_view None) sqlite_no_rows
    toy_manager toy_config eq_refl "/home" NetHttpWriter (callback_request toy_state)
    (next_exchange after_login) (toy_next_tracer _ _ _) (toy_next_logger _ _ _)).
Defined.

Lemma logout_implements_spec_witness :
  w_table (LogoutHandlerOidc toy_manager toy_config "/bye" NetHttpWriter logout_request
             (next_exchange after_callback)).2 = ∅ ∧
  ltac:(instance_of (logout_implements_spec (sqlite_impl None) (store_view None) sqlite_no_rows
    toy_manager toy_config eq_refl "/bye" NetHttpWriter logout_request
    (next_exchange after_callback) (toy_next_tracer _ _ _) (toy_next_logger _ _ _))).
Proof.
  split; [vm_compute; reflexivity|].
  exact (logout_implements_spec (sqlite_impl None) (store_view None) sqlite_no_rows
    toy_manager toy_config eq_refl "/bye" NetHttpWriter logout_request
    (next_exchange after_callback) (toy_next_tracer _ _ _) (toy_next_logger _ _ _)).
Defined.

(** Mallory's code, sent by bob's browser: bob now works in mallory's session. *)
Definition stateless_request : Request :=
  toy_next_request "/auth/callback" "code=code-mallory" after_callback.

Lemma callback_without_state_is_exchanged_witness :
  row_subject <$> w_table (CallbackHandlerOidc toy_manager toy_config "/home" NetHttpWriter
     stateless_request (next_exchange after_callback)).2 !! "id-19" = Some "mallory" ∧
  ∃ k a w1, CallbackHandlerOidc toy_manager toy_config "/home" NetHttpWriter stateless_request
              (next_exchange after_callback) = give NetHttpWriter stateless_request a w1 ∧
    match oauth2_Exchange k (oauth2_config toy_config) (FormValue stateless_request "code") with
    | Err e => a = Failed 401 "cannot validate oauth code for oidc callback" (Some e)
    | Ok _ => a = Redirected "/home" ∨ ∃ d e, a = Failed 500 d (Some e)
    end.
Proof.
  split; [vm_compute; reflexivity|].
  apply (callback_without_state_is_exchanged (sqlite_impl None) (store_view None) sqlite_no_rows
    toy_manager toy_config eq_refl "/home" NetHttpWriter stateless_request
    (next_exchange after_callback)
    (toy_new toy_store_ stateless_request "session").1 "id-9"
    (default SessionData_zero (store_view None (w_table after_callback) !! "id-9")));
    [apply toy_next_tracer|apply toy_next_logger|vm_compute; reflexivity
    |split; [exact toy_answering|vm_compute; reflexivity]|vm_compute; reflexivity
    |vm_compute; reflexivity].
Defined.
