(* ===== verification/DatabaseProps.v ===== *)
(** * Properties of the session storage *)

From stdpp Require Import base gmap strings list option numbers.
From Stdlib Require Import ZArith Lia.
From S2P Require Import Prelude GoBase Encoding World Telemetry Database Sqlite Postgresql.
From S2P Require Import Backends Concrete.

#[local] Open Scope Z_scope.

(** ** The two backends *)

Section Storage.
Context `{!Clock} `{!Uuid} `{!SqlDriver}.

(** C19: the sqlite backend implements the abstract store: each method never panics
    and has the effect and the results that [spec_Add], [spec_Delete], [spec_Get],
    [spec_Update] and [spec_Purge] allow on the map of decrypted sessions, failures
    of the database and of the cipher included; a missing id is reported as
    [sql.ErrNoRows]. *)
Theorem sqlite_implements_the_store cipher :
  cipher_ok cipher → SessionStore (sqlite_impl cipher) (store_view cipher) sqlite_no_rows.
Proof. apply sqlite_store. Qed.

(** C20: so does the postgresql backend, but for the answers that get lost: the context
    of the request goes to every statement, and one that the server has run may be
    reported as failed (the connection broke, or the request was cancelled meanwhile).
    Each method never panics and has the effect and the results of the abstract store,
    or, when answers may be lost, reports a failure and has had the effect of a
    successful call; without lost answers an error means that nothing has changed.  A
    missing id is reported as [pgx.ErrNoRows]. *)
Theorem postgresql_implements_the_store cipher :
  cipher_ok cipher →
  StoreUnder answers_get_lost (postgresql_impl cipher) (store_view cipher) pgx_no_rows ∧
  ((∀ n, pgx_lost n = None) →
   SessionStore (postgresql_impl cipher) (store_view cipher) pgx_no_rows).
Proof.
  intros Hc. split; [by apply postgresql_store|]. intros Hn.
  eapply store_under_mono; [|by apply postgresql_store]. intros (n & e & He). by rewrite Hn in He.
Qed.


(** Past 2038 they are not: a session that expires after 2^31 - 1 seconds is
    never stored by the postgresql backend, whose column is a 32-bit integer: [Add]
    fails and leaves the table as it was. *)
Theorem postgresql_rejects_sessions_after_2038 cipher ctx s w :
  2147483647 < Time_Unix (ExpiresAt s) →
  twp (postgresql_Add cipher ctx s)
      (λ r w', r.1 = "" ∧ r.2 ≠ None ∧ w_table w' = w_table w) w.
Proof.
  intros Hs. unfold postgresql_Add. apply twp_with_optional_span. intros sp w1 Hw1.
  apply twp_bind, twp_interact, twp_bind, twp_set_attributes. intros w2 Hw2.
  assert (Htab : w_table w2 = w_table w) by (world_facts; congruence).
  apply twp_bind. unfold encryptArgs. destruct cipher as [c|].
  all: repeat first
    [ apply twp_bind | apply twp_interact | apply twp_ret | apply twp_set_error_status
    | match goal with
      | |- twp (match EncryptToHexString ?a ?b ?c with _ => _ end) _ _ =>
          destruct (EncryptToHexString a b c)
      | |- ∀ _, _ => intro | |- _ → _ => intro
      end
    | apply twp_pgx_Exec ].
  all: try (split; [done|]; split; [done|]; world_facts; congruence).
  all: exfalso; match goal with H : _ = Ok _ |- _ =>
    apply queryPostgresqlInsert_Ok in H as (_ & _ & _ & Hr) end;
    unfold int4_ok in Hr; simpl in Hr; apply andb_true_iff in Hr as [_ Hr%Z.leb_le]; lia.
Qed.
(** *** Encryption and the constraints of the table *)

(** With a cipher, what [Add] puts in the table is one new row under the id it
    returns, whose three tokens are the results of three encryptions of the
    tokens, each with a draw of its own; only the subject and the expiration are in
    clear.  When it fails the table is as it was. *)
Theorem sqlite_Add_encrypts_the_tokens c ctx d w :
  twp (sqlite_Add (Some c) ctx d) (λ r w',
    match r.2 with
    | None => ∃ row, encrypted_by c d row ∧ w_table w !! r.1 = None ∧
                     w_table w' = <[r.1 := row]> (w_table w)
    | Some _ => w_table w' = w_table w
    end) w.
Proof.
  unfold sqlite_Add. apply twp_with_optional_span. intros sp w1 Hw1.
  apply twp_bind, twp_interact, twp_bind, twp_set_attributes. intros w2 Hw2.
  apply twp_bind, twp_encryptArgs_Some. intros w3 enc [e|] Hw3 Htab Henc.
  { apply twp_bind, twp_set_error_status. intros w4 Hw4. apply twp_ret. intros w5 Hw5.
    world_facts. congruence. }
  apply twp_bind, twp_db_Exec.
  { intros e. apply twp_bind, twp_set_error_status. intros w4 Hw4. apply twp_ret.
    intros w5 Hw5. world_facts. congruence. }
  intros t [Hn [-> _]]%sql_insert_Ok Hopen. apply twp_ret. intros w5 Hw5. exists (row_of enc).
  split; [auto|]. world_facts. split; congruence.
Qed.

Lemma twp_db_Exec_up stmt t (Q : option error → World → Prop) w :
  db_up w → stmt (w_table w) = Ok t → Q None (set_table t (set_tick S w)) →
  twp (db_Exec stmt) Q w.
Proof.
  intros [Hf Ho] Hs HQ. unfold db_Exec. apply twp_bind, twp_interact.
  destruct (Hf (w_tick w)) as [-> _].
  apply twp_bind, twp_gets. simpl. rewrite Ho. apply twp_bind, twp_gets. simpl. rewrite Hs.
  by apply twp_bind, twp_modify, twp_ret.
Qed.

(** The table refuses a session with an empty token only when the tokens are
    stored in clear.  Without a cipher, [Add] of such a session fails and changes
    nothing; with a cipher whose texts are not empty, it succeeds when the
    database is up: the constraint sees the encrypted text. *)
Theorem empty_tokens_are_refused_only_in_clear c ctx d w :
  Subject d ≠ "" → RefreshToken d = "" → db_up w →
  (∀ n x, ∃ y, EncryptToHexString c n x = Ok y ∧ y ≠ "") →
  (∀ n, w_table w !! uuid_New n = None) →
  twp (sqlite_Add None ctx d) (λ r w', r.2 ≠ None ∧ w_table w' = w_table w) w ∧
  twp (sqlite_Add (Some c) ctx d) (λ r w', r.2 = None ∧ is_Some (w_table w' !! r.1)) w.
Proof.
  intros Hsub Href Hup Hc Hfresh. split; unfold sqlite_Add;
    apply twp_with_optional_span; intros sp w1 Hw1;
    apply twp_bind, twp_interact, twp_bind, twp_set_attributes; intros w2 Hw2;
    apply twp_bind.
  - apply twp_ret, twp_bind, twp_db_Exec.
    { intros e. apply twp_bind, twp_set_error_status. intros w3 Hw3. apply twp_ret.
      intros w4 Hw4. split; [done|]. world_facts. congruence. }
    intros t [_ [_ Hchk]]%sql_insert_Ok. unfold row_checks, row_of in Hchk. simpl in Hchk.
    rewrite Href, andb_false_r in Hchk. done.
  - unfold encryptArgs.
    destruct (Hc (w_tick w2) (AccessToken d)) as (a & Ha & Hane).
    destruct (Hc (S (w_tick w2)) (RefreshToken d)) as (b & Hb & Hbne).
    destruct (Hc (S (S (w_tick w2))) (IDToken d)) as (i & Hi & Hine).
    apply twp_bind, twp_interact. rewrite Ha. apply twp_bind, twp_interact.
    cbn [w_tick set_tick]. rewrite Hb. apply twp_bind, twp_interact.
    cbn [w_tick set_tick]. rewrite Hi. apply twp_ret, twp_bind.
    apply String.eqb_neq in Hsub, Hane, Hbne, Hine.
    eapply twp_db_Exec_up.
    + split; [apply Hup|]. world_facts. destruct Hup. congruence.
    + unfold querySQLiteInsert, sql_insert, row_checks. simpl.
      rewrite Hsub, Hane, Hbne, Hine. simpl.
      replace (w_table w2) with (w_table w) by (world_facts; congruence).
      rewrite Hfresh. reflexivity.
    + apply twp_ret. intros w3 Hw3. split; [done|]. world_facts.
      eexists. simpl. match goal with H : w_table w3 = _ |- _ => rewrite H end.
      apply lookup_insert_eq.
Qed.
End Storage.

(** ** Properties of any backend *)

Section AnyBackend.
Context `{!Clock} `{!Uuid} `{!SqlDriver}.
Context (impl : SessionImpl) (view : gmap string Row → Store) (no_rows : string → error).
Context `{!SessionStore impl view no_rows}.

(** A session that was added is read back: the same subject and tokens, and
    the expiration rounded down to a whole second; and every other session is left
    as it was. *)
Theorem added_session_is_read_back ctx d w :
  twp (Add impl ctx d) (λ r w', r.2 = None →
    (∀ id, id ≠ r.1 → view (w_table w') !! id = view (w_table w) !! id) ∧
    ∀ ctx' w2, db_up w2 → w_table w2 = w_table w' →
      twp (Get impl ctx' r.1) (λ g _, g = (truncate d, None)) w2) w.
Proof.
  eapply twp_mono; [apply (Add_refines (view:=view))|].
  intros [id err] w' [_ Hs%unless_lost_False] Herr. simpl in Herr. subst err. destruct Hs as [Hn Hv]. simpl in Hn, Hv.
  split; [intros id' Hid; by rewrite Hv, lookup_insert_ne by done|].
  intros ctx' w2 Hup Htab. apply Get_found; [done|]. rewrite Htab, Hv. apply lookup_insert_eq.
Qed.

(** A deleted session cannot be read back. *)
Theorem deleted_session_is_gone ctx id w :
  twp (Delete impl ctx id) (λ e w', e = None →
    (∀ id', id' ≠ id → view (w_table w') !! id' = view (w_table w) !! id') ∧
    ∀ ctx' w2, w_table w2 = w_table w' →
      twp (Get impl ctx' id) (λ g _, g.1 = SessionData_zero ∧ g.2 ≠ None) w2) w.
Proof.
  eapply twp_mono; [apply (Delete_refines (view:=view))|].
  intros err w' [_ Hs%unless_lost_False] ->. unfold spec_Delete in Hs.
  split; [intros id' Hid; by rewrite Hs, lookup_delete_ne by done|].
  intros ctx' w2 Htab. eapply twp_mono; [apply (Get_refines (view:=view))|].
  intros [d [e|]] w3 [_ [_ Hg]]; simpl in *; [done|].
  by rewrite Htab, Hs, lookup_delete_eq in Hg.
Qed.

(** [Update] replaces the tokens and the expiration of an existing session of
    the same subject, or it fails and leaves every session as it was: it never
    makes a session, and never hands one to another subject. *)
Theorem update_keeps_the_subjects ctx id d w :
  twp (Update impl ctx id d) (λ e w',
    (∀ id', Subject <$> view (w_table w') !! id' = Subject <$> view (w_table w) !! id') ∧
    (e = None → view (w_table w') !! id = Some (truncate d)) ∧
    (e ≠ None → view (w_table w') = view (w_table w))) w.
Proof.
  eapply twp_mono; [apply (Update_refines (view:=view))|].
  intros [e|] w' [_ Hs%unless_lost_False]; unfold spec_Update in Hs; [by rewrite Hs|].
  destruct Hs as (old & Ho & Hsub & Hv). rewrite Hv.
  split; [|split; [intros _; apply lookup_insert_eq|done]].
  intros id'. destruct (decide (id' = id)) as [->|Hne].
  - rewrite lookup_insert_eq, Ho. simpl. by rewrite Hsub.
  - by rewrite lookup_insert_ne.
Qed.

(** A purge removes exactly the sessions whose access token has expired when
    the clock was read, to the second; in particular it removes sessions that hold
    a refresh token and could still be renewed. *)
Theorem purge_removes_exactly_the_expired ctx w :
  twp (Purge impl ctx) (λ e w',
    match e with
    | Some _ => view (w_table w') = view (w_table w)
    | None => ∃ n, ∀ id d,
        view (w_table w') !! id = Some d ↔
        view (w_table w) !! id = Some d ∧ Time_Unix (clock_now n) ≤ Time_Unix (ExpiresAt d)
    end) w.
Proof.
  eapply twp_mono; [apply (Purge_refines (view:=view))|].
  intros [e|] w' [_ Hs%unless_lost_False]; [exact Hs|]. destruct Hs as [n ->]. exists n. intros id d.
  rewrite map_lookup_filter_Some. simpl. by rewrite Z.nlt_ge.
Qed.
End AnyBackend.

(** The expiration that is read back errs on the safe side: a session that is
      expired when it is stored is expired when it is read, and one that is found
      expired has less than a second left. *)
Theorem stored_expiration_is_conservative `{!Clock} d w :
  ((SessionData_IsExpired d w).1 = Ret true →
   (SessionData_IsExpired (truncate d) w).1 = Ret true) ∧
  ((SessionData_IsExpired (truncate d) w).1 = Ret true →
   ExpiresAt d - Second < clock_now (w_tick w)).
Proof.
  unfold SessionData_IsExpired, Time_After, time_Now. rewrite !run_bind. cbn [interact fst].
  pose proof (time_Unix_Time_Unix (ExpiresAt d)) as [H1 H2]. unfold truncate.
  cbn [ExpiresAt mret M_ret fst]. split.
  - intros Hr. injection Hr as Hr%Z.ltb_lt. f_equal. apply Z.ltb_lt. lia.
  - intros Hr. injection Hr as Hr%Z.ltb_lt. lia.
Qed.

(** ** The hypotheses can hold *)

Lemma toy_up t : db_up (toy_world t).
Proof. split; [exact toy_answering|reflexivity]. Qed.

#[local] Instance toy_sure_store :
  SessionStore (sqlite_impl None) (store_view None) sqlite_no_rows := sqlite_store None I.

Definition bob (exp : Z) : SessionData :=
  mkSessionData "bob" "at-bob" "rt-bob" "it-bob" (exp * Second).

Lemma sqlite_implements_the_store_witness :
  cipher_ok (Some toy_cipher) ∧
  SessionStore (sqlite_impl (Some toy_cipher)) (store_view (Some toy_cipher)) sqlite_no_rows.
Proof.
  split; [exact toy_cipher_ok|].
  exact (sqlite_implements_the_store (Some toy_cipher) toy_cipher_ok).
Defined.

Lemma postgresql_implements_the_store_witness :
  cipher_ok (Some toy_cipher) ∧
  SessionStore (postgresql_impl (Some toy_cipher)) (store_view (Some toy_cipher)) pgx_no_rows.
Proof.
  split; [exact toy_cipher_ok|].
  apply (postgresql_implements_the_store (Some toy_cipher) toy_cipher_ok). intros n. reflexivity.
Defined.

(** A server that has run every statement, and whose answers never come. *)
Definition mute_sql : SqlDriver := {|
  sql_failure := λ _, None; pgx_failure := λ _, None;
  pgx_lost := λ _, Some (ErrorString "unexpected EOF"); ctx_Err := λ _ _, None |}.

(** The row is gone, and the call reports an error. *)
Example lost_delete :
  let r := @postgresql_Delete mute_sql [] "A" (toy_world {["A" := row_of (mkSessionData "bob" "a" "r" "i" 0)]}) in
  r.1 = Ret (Some (ErrorString "unexpected EOF")) ∧ w_table r.2 = ∅.
Proof. vm_compute. split; reflexivity. Qed.




Lemma postgresql_rejects_sessions_after_2038_witness :
  2147483647 < Time_Unix (ExpiresAt (bob 2147483648)) ∧
  twp (postgresql_Add None [] (bob 2147483648))
      (λ r w', r.1 = "" ∧ r.2 ≠ None ∧ w_table w' = ∅) (toy_world ∅).
Proof.
  split; [vm_compute; reflexivity|].
  apply (postgresql_rejects_sessions_after_2038 None [] (bob 2147483648) (toy_world ∅)).
  vm_compute. reflexivity.
Defined.

(** An expired refresh token is empty: the same session, in clear and encrypted. *)
Definition no_refresh : SessionData :=
  mkSessionData "bob" "at-bob" "" "it-bob" (1690000000 * Second).

Lemma empty_tokens_are_refused_only_in_clear_witness :
  twp (sqlite_Add None [] no_refresh) (λ r w', r.2 ≠ None ∧ w_table w' = ∅) (toy_world ∅) ∧
  twp (sqlite_Add (Some toy_cipher) [] no_refresh)
      (λ r w', r.2 = None ∧ is_Some (w_table w' !! r.1)) (toy_world ∅).
Proof.
  apply (empty_tokens_are_refused_only_in_clear toy_cipher [] no_refresh (toy_world ∅));
    [discriminate|reflexivity|exact (toy_up ∅)|exact toy_cipher_nonempty
    |intros n; apply lookup_empty].
Defined.

Lemma added_session_is_read_back_witness :
  (sqlite_Add None [] (bob 5) (toy_world ∅)).1 = Ret ("id-0", None) ∧
  ltac:(let T := type of (added_session_is_read_back (sqlite_impl None) (store_view None)
          sqlite_no_rows [] (bob 5) (toy_world ∅)) in exact T).
Proof.
  split; [vm_compute; reflexivity|].
  exact (added_session_is_read_back (sqlite_impl None) (store_view None) sqlite_no_rows
           [] (bob 5) (toy_world ∅)).
Defined.

Definition bob_world : World := toy_world {["A" := row_of (bob 5)]}.

Lemma deleted_session_is_gone_witness :
  (sqlite_Delete [] "A" bob_world).1 = Ret None ∧
  ltac:(let T := type of (deleted_session_is_gone (sqlite_impl None) (store_view None)
          sqlite_no_rows [] "A" bob_world) in exact T).
Proof.
  split; [vm_compute; reflexivity|].
  exact (deleted_session_is_gone (sqlite_impl None) (store_view None) sqlite_no_rows
           [] "A" bob_world).
Defined.

Lemma update_keeps_the_subjects_witness :
  (sqlite_Update None [] "A" (bob 7) bob_world).1 = Ret None ∧
  ltac:(let T := type of (update_keeps_the_subjects (sqlite_impl None) (store_view None)
          sqlite_no_rows [] "A" (bob 7) bob_world) in exact T).
Proof.
  split; [vm_compute; reflexivity|].
  exact (update_keeps_the_subjects (sqlite_impl None) (store_view None) sqlite_no_rows
           [] "A" (bob 7) bob_world).
Defined.

(** Bob's access token expired in 1970; his refresh token is lost too. *)
Lemma purge_removes_exactly_the_expired_witness :
  w_table (sqlite_Purge [] bob_world).2 = ∅ ∧
  ltac:(let T := type of (purge_removes_exactly_the_expired (sqlite_impl None) (store_view None)
          sqlite_no_rows [] bob_world) in exact T).
Proof.
  split; [vm_compute; reflexivity|].
  exact (purge_removes_exactly_the_expired (sqlite_impl None) (store_view None) sqlite_no_rows
           [] bob_world).
Defined.
