(* ===== verification/ZloggerProps.v ===== *)
(** * Properties of the error responses and of the access log *)

From stdpp Require Import base gmap strings list option numbers.
From Stdlib Require Import ZArith Lia.
From S2P Require Import Prelude GoBase Encoding World Telemetry Zlogger Oidc Database.
From S2P Require Import SessionConfig Sessions Handlers Concrete.

#[local] Open Scope Z_scope.

(** The writer the handlers get: a recorder around the one of net/http. *)
Definition recorded : ResponseWriter := RecorderOf NetHttpWriter.

Section Recorded.
Context `{!Clock} `{!Network} `{!Otel} `{!RealIP}.
Implicit Types (w : World) (r : Request).

Lemma run_WriteHeader code w :
  final_status code →
  rw_WriteHeader recorded code w
    = (Ret tt, set_resp (λ rs, match rs_sent rs with
                               | Some _ => rs
                               | None => mkResponse (rs_header rs) (rs_cookies rs)
                                   (Some (code, rs_header rs, rs_cookies rs)) (rs_body rs)
                               end)
                 (set_rec (λ rec, mkStatusRecorder code (sr_Written rec)) w)).
Proof.
  intros [Hlo Hhi]. simpl. unfold StatusRecorder_WriteHeader, net_http_WriteHeader.
  rewrite run_bind. cbn [modify]. rewrite run_bind. cbn [gets].
  change (w_resp (set_rec ?f w)) with (w_resp w). unfold set_resp. cbn [w_resp set_rec set_wrappers].
  destruct (rs_sent (w_resp w)); [done|]. unfold informational.
  rewrite (proj2 (Z.ltb_ge code 100)), (proj2 (Z.ltb_ge 999 code)), (proj2 (Z.leb_gt code 199)) by lia.
  by rewrite andb_false_r.
Qed.

(** A write after the status line: the chunk goes out, or its error comes back;
    the recorder keeps the size of this write. *)
Lemma twp_Write_sent b (Q : Z * option error → World → Prop) w s :
  rs_sent (w_resp w) = Some s →
  (∀ n e w', rs_sent (w_resp w') = Some s →
     sr_Status (w_recorder w') = sr_Status (w_recorder w) → w_log w' = w_log w →
     w_logger w' = w_logger w → Q (n, e) w') →
  twp (rw_Write recorded b) Q w.
Proof.
  intros Hs HQ. simpl. unfold StatusRecorder_Write, net_http_Write.
  apply twp_bind, twp_bind. unfold net_http_WriteHeader. apply twp_bind, twp_gets. rewrite Hs.
  apply twp_ret, twp_bind, twp_interact.
  destruct (write_error _); [|apply twp_bind, twp_modify]; apply twp_ret, twp_bind, twp_modify,
    twp_ret, HQ; simpl; rewrite ?Hs; done.
Qed.

(** An error response.  When nothing was sent yet and the connection works,
    [JsonError] sends its code with the two headers and the cookies set so far, and
    the JSON document as the only chunk; the recorder holds the code and the size
    of the document, and the logger the error and its description. *)
Theorem JsonError_answers code d e w :
  final_status code → rs_sent (w_resp w) = None → (∀ n, write_error n = None) →
  twp (Logger_JsonError recorded code d e) (λ _ w',
    let doc := json_error_document code d (clock_now (w_tick w)) in
    rs_sent (w_resp w') = Some (code, error_headers (rs_header (w_resp w)), rs_cookies (w_resp w)) ∧
    rs_body (w_resp w') = rs_body (w_resp w) ++ [doc] ∧
    w_recorder w' = mkStatusRecorder code (Z.of_nat (String.length doc)) ∧
    lastErr (w_logger w') = e ∧ lastErrDescription (w_logger w') = d) w.
Proof.
  intros Hcode Hs Hn. unfold Logger_JsonError.
  apply twp_bind, twp_modify, twp_bind, twp_modify, twp_bind, twp_modify, twp_bind.
  eexists. rewrite run_WriteHeader by done. split; [reflexivity|]. cbn [snd].
  apply twp_bind, twp_interact. apply twp_bind.
  simpl rw_Write. unfold StatusRecorder_Write, net_http_Write, net_http_WriteHeader.
  apply twp_bind, twp_bind, twp_bind, twp_gets. simpl. rewrite Hs. simpl.
  apply twp_ret, twp_bind, twp_interact.
  rewrite Hn. apply twp_bind, twp_modify, twp_ret, twp_bind, twp_modify, twp_ret, twp_ret.
  simpl. rewrite ?Hs. simpl. done.
Qed.

(** The world in which [Logger_Middleware] calls the inner handler. *)
Definition logged_start (w : World) : World :=
  set_tick S (set_rec (λ _, mkStatusRecorder 200 0) w).

Definition logged_request (r : Request) : Request :=
  WithContext r (context_WithValue (r_ctx r) zlogger_ctxKey AnyLogger).

(** A run of the logger middleware, from the run of the inner handler. *)
Lemma logger_middleware_run next rw r w o w1 :
  next (RecorderOf rw) (logged_request r) (logged_start w) = (o, w1) →
  ∃ w2, Logger_Middleware next rw r w = (o, w2) ∧
    lastErr (w_logger w2) = None ∧ lastErrDescription (w_logger w2) = "" ∧
    w_resp w2 = w_resp w1 ∧ w_table w2 = w_table w1 ∧
    w_log w2 = w_log w1 ++
      match o with
      | Ret _ =>
          let status := sr_Status (w_recorder w1) in
          [mkLogEntry (log_level status) (log_message status (w_logger w1))
             (log_fields (w_recorder w1) (clock_now (w_tick w1) - clock_now (w_tick w)) r (w_logger w1))]
      | Panic _ => []
      end.
Proof.
  intros Hn. unfold Logger_Middleware, defer. rewrite run_bind. cbn [modify].
  unfold time_Now. rewrite run_bind. cbn [interact]. rewrite run_bind.
  unfold logged_start, logged_request in Hn.
  change (w_tick (set_rec (λ _, mkStatusRecorder 200 0) w)) with (w_tick w).
  rewrite Hn. destruct o as [[]|e].
  - eexists. split; [reflexivity|]. repeat (split; [done|]). done.
  - eexists. split; [reflexivity|]. simpl. by rewrite app_nil_r.
Qed.

(** The access log.  Behind the logger middleware a request that is answered
    leaves exactly one entry, whose level, message and fields come from the last
    status and error the inner handler has recorded, and whose latency is the time
    it took; one that panics leaves none, and the panic goes on.  In both cases the
    error of the shared logger is cleared. *)
Theorem logger_middleware_logs_once next rw r w o w1 :
  next (RecorderOf rw) (logged_request r) (logged_start w) = (o, w1) →
  ∃ w2, Logger_Middleware next rw r w = (o, w2) ∧
    lastErr (w_logger w2) = None ∧ lastErrDescription (w_logger w2) = "" ∧
    w_resp w2 = w_resp w1 ∧ w_table w2 = w_table w1 ∧
    w_log w2 = w_log w1 ++
      match o with
      | Ret _ =>
          let status := sr_Status (w_recorder w1) in
          [mkLogEntry (log_level status) (log_message status (w_logger w1))
             (log_fields (w_recorder w1) (clock_now (w_tick w1) - clock_now (w_tick w)) r (w_logger w1))]
      | Panic _ => []
      end.
Proof. apply logger_middleware_run. Qed.

(** The recorder holds the code of an error response. *)
Lemma JsonError_status code d e w :
  final_status code → sr_Status (w_recorder (Logger_JsonError recorded code d e w).2) = code.
Proof.
  intros Hcode. assert (Htwp : twp (Logger_JsonError recorded code d e)
    (λ _ w', sr_Status (w_recorder w') = code) w); [|by destruct Htwp as (_ & _ & ?)].
  unfold Logger_JsonError.
  apply twp_bind, twp_modify, twp_bind, twp_modify, twp_bind, twp_modify, twp_bind.
  eexists. rewrite run_WriteHeader by done. split; [reflexivity|]. cbn [snd].
  apply twp_bind, twp_interact. apply twp_bind.
  match goal with |- twp (rw_Write _ _) _ ?w1 =>
    assert (Hs : is_Some (rs_sent (w_resp w1))) by (simpl; by destruct (rs_sent (w_resp w)));
    destruct Hs as [s Hs]; assert (Hw1 : sr_Status (w_recorder w1) = code) by done end.
  eapply twp_Write_sent; [exact Hs|]. intros n err w' _ Hst _ _. apply twp_ret. congruence.
Qed.

(** A request rejected by a handler is logged at the level of its code with the
    error behind it: an inner handler that ends with [JsonError code d (Some e)] on
    a fresh response gives one entry, at level error from 500 on, warning from 400
    on, with message "<status text>: <description>", the status and the error among
    its fields. *)
Theorem rejected_request_is_logged next r w w1 code d e :
  final_status code → d ≠ "" → w_log w1 = w_log w →
  next recorded (logged_request r) (logged_start w) = Logger_JsonError recorded code d (Some e) w1 →
  ∃ entry, w_log (Logger_Middleware next NetHttpWriter r w).2 = w_log w ++ [entry] ∧
    (500 ≤ code → le_level entry = ErrorLevel) ∧
    (400 ≤ code < 500 → le_level entry = WarnLevel) ∧
    le_message entry = StatusText code +:+ ": " +:+ d ∧
    ("status", FInt code) ∈ le_fields entry ∧ ("error", FError e) ∈ le_fields entry.
Proof.
  intros Hcode Hd Hlog Hrun. pose proof (JsonError_status code d (Some e) w1 Hcode) as Hst.
  unfold w_recorder in Hst.
  destruct (twp_Logger_JsonError recorded code d (Some e)
    (λ _ w', http_step w1 w' ∧ lastErr (w_logger w') = Some e ∧
             lastErrDescription (w_logger w') = d) w1) as ([] & Ho & Hstep & He & Hdesc).
  { done. }
  { intros w' Hs _ Hl _ _ _. by rewrite Hl. }
  destruct (Logger_JsonError recorded code d (Some e) w1) as [o w2] eqn:Hj.
  simpl in *. subst o.
  unfold Logger_Middleware, defer. rewrite run_bind. cbn [modify].
  unfold time_Now. rewrite run_bind. cbn [interact]. rewrite run_bind.
  unfold logged_start, logged_request, recorded in *. rewrite Hrun. eexists.
  assert (Hlog2 : w_log w2 = w_log w) by (destruct Hstep as (_ & _ & _ & ?); congruence).
  split; [simpl; rewrite Hlog2; reflexivity|]. simpl.
  unfold w_recorder. simpl. rewrite Hst. unfold log_level.
  split; [intros; by rewrite (proj2 (Z.leb_le 500 code)) by lia|].
  split; [intros; rewrite (proj2 (Z.leb_gt 500 code)) by lia; by rewrite (proj2 (Z.leb_le 400 code)) by lia|].
  split.
  { unfold log_message. rewrite Hdesc. destruct (String.eqb_spec d ""); [done|done]. }
  unfold log_fields. rewrite Hst, He. split; [by left|].
  rewrite !elem_of_app. do 6 right. apply list_elem_of_singleton. done.
Qed.
End Recorded.

Section UserInfo.
Context `{!Clock} `{!Network} `{!Otel} `{!OAuth2} `{!BodyFault}.
Implicit Types (w : World) (r : Request).

Lemma twp_io_Copy rw body s (Q : option error → World → Prop) w :
  rs_sent (w_resp w) = Some s → (∀ e w', rs_sent (w_resp w') = Some s → Q e w') →
  twp (io_Copy rw body) Q w.
Proof.
  revert w. induction body as [|chunk body IH]; intros w Hs HQ; cbn [io_Copy].
  { by apply twp_interact, HQ. }
  apply twp_bind, twp_rw_Write. intros [n [e|]] w' _ _ _ _ Hs'; unfold sent_by in Hs'; rewrite Hs in Hs'.
  - by apply twp_ret, HQ.
  - by apply IH.
Qed.

(** The userinfo page answers 200 with the body of the provider whatever status
    the provider gave, and even when that body cannot be copied: the error 500 of a
    failed copy comes after the status line. *)
Theorem userinfo_always_answers_200 config rw r w tok st body :
  has_logger (r_ctx r) →
  ctx_Value (r_ctx r) ContextKeyAccessTokenName = Some (AnyString tok) →
  (∀ n, oauth2_Client_Get n (oauth2_config config) (Token_of_access tok)
          (UserInfoEndpoint (OidcEndpoints config)) = Ok (st, body)) →
  rs_sent (w_resp w) = None → writable rw w →
  twp (userInfo config rw r) (λ _ w',
    rs_sent (w_resp w') = Some (200, Header_Set (rs_header (w_resp w)) "Content-Type"
                                       "application/json", rs_cookies (w_resp w))) w.
Proof.
  intros Hl Htok Hget Hs Hwr. unfold userInfo.
  apply twp_bind, twp_zlogger_FromContext; [done|]. intros w1 _ Hr1 Hw1 _ _ _ _.
  rewrite Htok. apply twp_bind, twp_interact. rewrite Hget. apply twp_defer.
  set (s := (200, Header_Set _ _ _, _)).
  assert (Hclose : ∀ w2, rs_sent (w_resp w2) = Some s →
      twp close_body (λ _ w', rs_sent (w_resp w') = Some s) w2).
  { intros w2 ?. unfold close_body. apply twp_bind, twp_interact.
    destruct (body_close_error _); [by apply twp_modify|by apply twp_ret]. }
  apply twp_bind, twp_modify, twp_bind, twp_rw_WriteHeader; [done|]. intros w2 _ _ _ _ _ Hs2 _.
  specialize (Hs2 ltac:(eapply (writable_same rw w); [done|simpl; by rewrite Hr1|done])).
  apply twp_bind, (twp_io_Copy rw body s).
  { rewrite Hs2. unfold sent_by. simpl. by rewrite Hr1, Hs. }
  intros [e|] w3 Hs3; [|by apply twp_ret, Hclose].
  apply twp_Logger_JsonError; [done|]. intros w4 _ _ _ _ _ Hs4. apply Hclose.
  rewrite Hs4 by (apply writable_sent; by eexists). by rewrite Hs3.
Qed.
End UserInfo.

(** ** The hypotheses can hold *)

Definition page : Request := toy_request "/proxy" "" [].

Lemma unauthorized_final : final_status 401.
Proof. unfold final_status. lia. Qed.

Lemma JsonError_answers_witness :
  ltac:(let T := type of (JsonError_answers 401 "no session found" (Some (ErrorString "e"))
          (toy_world ∅) unauthorized_final eq_refl (λ n, eq_refl)) in exact T).
Proof.
  exact (JsonError_answers 401 "no session found" (Some (ErrorString "e"))
          (toy_world ∅) unauthorized_final eq_refl (λ n, eq_refl)).
Defined.

Lemma logger_middleware_logs_once_witness :
  let w1 := (toy_next recorded (logged_request page) (logged_start (toy_world ∅))).2 in
  ∃ w2, Logger_Middleware toy_next NetHttpWriter page (toy_world ∅) = (Ret tt, w2) ∧
    lastErr (w_logger w2) = None ∧ lastErrDescription (w_logger w2) = "" ∧
    w_resp w2 = w_resp w1 ∧ w_table w2 = w_table w1 ∧
    w_log w2 = w_log w1 ++
      [mkLogEntry (log_level (sr_Status (w_recorder w1)))
         (log_message (sr_Status (w_recorder w1)) (w_logger w1))
         (log_fields (w_recorder w1)
            (clock_now (w_tick w1) - clock_now (w_tick (toy_world ∅))) page (w_logger w1))].
Proof.
  intros w1.
  exact (logger_middleware_logs_once toy_next NetHttpWriter page (toy_world ∅) (Ret tt) w1 eq_refl).
Defined.

(** A handler that rejects every request. *)
Definition rejecting : Handler := λ rw r, Logger_JsonError rw 401 "no session found" (Some ErrSessionNotFound).

Lemma rejected_request_is_logged_witness :
  ∃ entry, w_log (Logger_Middleware rejecting NetHttpWriter page (toy_world ∅)).2 = [] ++ [entry] ∧
    (500 ≤ 401 → le_level entry = ErrorLevel) ∧ (400 ≤ 401 < 500 → le_level entry = WarnLevel) ∧
    le_message entry = StatusText 401 +:+ ": " +:+ "no session found" ∧
    ("status", FInt 401) ∈ le_fields entry ∧ ("error", FError ErrSessionNotFound) ∈ le_fields entry.
Proof.
  apply (rejected_request_is_logged rejecting page (toy_world ∅)
           (logged_start (toy_world ∅)) 401 "no session found" ErrSessionNotFound);
    [exact unauthorized_final|discriminate|reflexivity|reflexivity].
Defined.

(** The provider refuses the token: its 401 becomes a 200. *)
Definition user_page : Request :=
  WithContext page (context_WithValue toy_ctx ContextKeyAccessTokenName (AnyString "revoked")).

Lemma userinfo_always_answers_200_witness :
  oauth2_Client_Get 0 (oauth2_config toy_config) (Token_of_access "revoked") "" = Ok (401, ["unauthorized"]) ∧
  twp (userInfo toy_config (OtelWriterOf recorded) user_page) (λ _ w',
    rs_sent (w_resp w') = Some (200, Header_Set ∅ "Content-Type" "application/json", []))
    (toy_world ∅).
Proof.
  split; [reflexivity|].
  apply (userinfo_always_answers_200 toy_config (OtelWriterOf recorded) user_page (toy_world ∅)
           "revoked" 401 ["unauthorized"]);
    [reflexivity|reflexivity|intros n; reflexivity|reflexivity|].
  intros k _ Hk. inversion Hk.
Defined.
