(* ===== verification/ConfigProps.v ===== *)
(** * Properties of the configuration and of the session manager it makes *)

From stdpp Require Import base gmap strings list option numbers.
From Stdlib Require Import ZArith Lia String.
From S2P Require Import Prelude GoBase Encoding World Telemetry Database Sqlite Oidc.
From S2P Require Import SessionConfig Sessions SessionLemmas CookieLaws Config Manager.
From S2P Require Import Concrete.

#[local] Open Scope string_scope.

(** ** What a valid configuration is *)

Definition size_in (s : string) (ns : list nat) : Prop := String.length s ∈ ns.

Record valid_config (c : Config) : Prop := {
  valid_oidc : OidcIssuer c ≠ "" ∧ OidcClientID c ≠ "" ∧ OidcClientSecret c ≠ "" ∧
    OidcRedirectURL c ≠ "" ∧ OidcPostLoginRedirectURL c ≠ "" ∧
    OidcPostLogoutRedirectURL c ≠ "";
  valid_server : ListenAddr c ≠ "" ∧ c_CookieDomain c ≠ "" ∧ c_CookieName c ≠ "";
  valid_production : IsProduction c = true →
    c_CookieDomain c ≠ defaultCookieDomain ∧ SessionAuthSecret c ≠ defaultSessionAuthSecret;
  valid_auth : size_in (SessionAuthSecret c) [32; 64];
  valid_enc : SessionEncSecret c = "" ∨ size_in (SessionEncSecret c) [16; 24; 32];
  valid_old_auth : SessionOldAuthSecret c = "" ∨ size_in (SessionOldAuthSecret c) [32; 64];
  valid_old_enc : SessionOldEncSecret c = "" ∨ size_in (SessionOldEncSecret c) [16; 24; 32];
  valid_db_keys : (SessionDBKey c = "" ∨ size_in (SessionDBKey c) [32]) ∧
    (SessionOldDBKey c = "" ∨ size_in (SessionOldDBKey c) [32]);
  valid_db : (DBType c = "sqlite" ∧ DBName c ≠ "") ∨
    (DBType c = "postgresql" ∧ DBHost c ≠ "" ∧ DBName c ≠ "" ∧ DBUsername c ≠ "" ∧
     DBPassword c ≠ "")
}.

Lemma len_not_in_false s ns : len_not_in s ns = false ↔ size_in s ns.
Proof.
  unfold len_not_in, size_in. rewrite <-not_true_iff_false, forallb_forall. split.
  - intros H. destruct (decide (String.length s ∈ ns)) as [|Hn]; [done|]. destruct H.
    intros n Hin. apply negb_true_iff, Nat.eqb_neq. intros <-. by apply Hn, list_elem_of_In.
  - intros H%list_elem_of_In Hall. specialize (Hall _ H). by rewrite Nat.eqb_refl in Hall.
Qed.

Lemma optional_size_false s ns :
  negb (missing s) && len_not_in s ns = false ↔ s = "" ∨ size_in s ns.
Proof.
  rewrite andb_false_iff, negb_false_iff, String.eqb_eq, len_not_in_false. done.
Qed.

(** The checks as a table: what is refused, and with which error. *)
Definition config_checks (c : Config) : list (bool * error) :=
  let param p := Errorf_w_s ErrMissingParameter p in
  let pg := String.eqb (DBType c) "postgresql" in
  [ (missing (OidcIssuer c), param "oidc-issuer");
    (missing (OidcClientID c), param "oidc-client-id");
    (missing (OidcClientSecret c), param "oidc-client-secret");
    (missing (OidcRedirectURL c), param "oidc-redirect-url");
    (missing (OidcPostLoginRedirectURL c), param "oidc-post-login-redirect-url");
    (missing (OidcPostLogoutRedirectURL c), param "oidc-post-logout-redirect-url");
    (missing (ListenAddr c), param "listen-addr");
    (missing (c_CookieDomain c), param "cookie-domain");
    (missing (c_CookieName c), param "cookie-name");
    (missing (SessionAuthSecret c), param "session-secret");
    (String.eqb (c_CookieDomain c) defaultCookieDomain && IsProduction c,
       ErrDefaultCookieDomainInProduction);
    (String.eqb (SessionAuthSecret c) defaultSessionAuthSecret && IsProduction c,
       ErrDefaultAuthSecretInProduction);
    (len_not_in (SessionAuthSecret c) [32; 64],
       Errorf_w_s config_ErrWrongAuthSecretSize "session-auth-secret");
    (negb (missing (SessionEncSecret c)) && len_not_in (SessionEncSecret c) [16; 24; 32],
       Errorf_w_s config_ErrWrongEncSecretSize "session-enc-secret");
    (negb (missing (SessionOldAuthSecret c)) && len_not_in (SessionOldAuthSecret c) [32; 64],
       Errorf_w_s config_ErrWrongAuthSecretSize "session-old-auth-secret");
    (negb (missing (SessionOldEncSecret c)) && len_not_in (SessionOldEncSecret c) [16; 24; 32],
       Errorf_w_s config_ErrWrongEncSecretSize "session-old-enc-secret");
    (negb (missing (SessionDBKey c)) && len_not_in (SessionDBKey c) [32],
       Errorf_w_s ErrWrongEncDBKey "session-db-key");
    (negb (missing (SessionOldDBKey c)) && len_not_in (SessionOldDBKey c) [32],
       Errorf_w_s ErrWrongEncDBKey "session-old-db-key");
    (negb (String.eqb (DBType c) "sqlite") && negb pg, ErrWrongDBType);
    (String.eqb (DBType c) "sqlite" && missing (DBName c), ErrMissingSQLiteDatabase);
    (pg && missing (DBHost c), ErrMissingDBServerHost);
    (pg && missing (DBName c), ErrMissingDBServerDatabase);
    (pg && missing (DBUsername c), ErrMissingDBServerUsername);
    (pg && missing (DBPassword c), ErrMissingDBServerPassword) ].

Fixpoint first_error (l : list (bool * error)) : option error :=
  match l with
  | [] => None
  | (refused, err) :: l => if refused : bool then Some err else first_error l
  end.

Lemma first_error_None l : first_error l = None ↔ Forall (λ p, p.1 = false) l.
Proof.
  induction l as [|[b e] l IH]; simpl; [by split|].
  rewrite Forall_cons_iff, <-IH. simpl. destruct b; [by split; [|intros [? _]]|tauto].
Qed.

Lemma configValidate_first_error c : configValidate c = (c, first_error (config_checks c)).
Proof.
  unfold configValidate, config_checks. cbn [first_error].
  repeat match goal with
    | |- context [if ?b then (c, _) else _] => destruct b; [reflexivity|]
    end.
  destruct (String.eqb (DBType c) "postgresql"); simpl; [|done].
  repeat (match goal with |- context [if ?b then _ else _] => destruct b end; [reflexivity|]).
  reflexivity.
Qed.

Lemma production_false s d (p : bool) : String.eqb s d && p = false ↔ (p = true → s ≠ d).
Proof. rewrite andb_false_iff, String.eqb_neq. destruct p; intuition congruence. Qed.

Lemma backend_false (t u s : string) :
  String.eqb t u && missing s = false ↔ (t = u → s ≠ "").
Proof.
  rewrite andb_false_iff, !String.eqb_neq. destruct (decide (t = u)); tauto.
Qed.

Lemma db_type_false (t : string) :
  negb (String.eqb t "sqlite") && negb (String.eqb t "postgresql") = false
  ↔ t = "sqlite" ∨ t = "postgresql".
Proof. by rewrite andb_false_iff, !negb_false_iff, !String.eqb_eq. Qed.

Lemma valid_of_checks c : first_error (config_checks c) = None ↔ valid_config c.
Proof.
  rewrite first_error_None. unfold config_checks.
  rewrite !Forall_cons_iff. cbn [fst].
  rewrite !optional_size_false, !backend_false, !production_false, db_type_false,
    len_not_in_false, !String.eqb_neq.
  split.
  - intros (?&?&?&?&?&?&?&?&?&?&Hdom&Hsec&?&?&?&?&?&?&Htype&?&Hhost&Hname&Huser&Hpass&_).
    split; [by split_and!|by split_and!|auto|done|done|done|done|done|].
    destruct Htype as [Ht|Ht]; [left|right]; split_and!; auto.
  - intros [(?&?&?&?&?&?) (?&?&?) Hprod Hauth ? ? ? [? ?] Hdb].
    assert (SessionAuthSecret c ≠ "").
    { intros He. unfold size_in in Hauth. rewrite He in Hauth.
      apply list_elem_of_In in Hauth as [|[|[]]]; done. }
    split_and!; try done; try (intros Hp; by apply Hprod).
    all: destruct Hdb as [[Ht ?]|(Ht&?&?&?&?)]; rewrite Ht; auto; discriminate.
Qed.

(** C25: [configValidate] accepts exactly the valid configurations: every mandatory
    parameter is there, no default secret or domain is left in production, the
    secrets have the sizes the messages announce, and the chosen backend has its
    parameters.  It returns the configuration unchanged; and when it refuses, the
    error is the one of the first check that fails, in the order of the table.  (So not
    every value is good as a secret, whatever test/README.md says.) *)
Theorem configValidate_accepts_exactly_the_valid c :
  (configValidate c).1 = c ∧ (configValidate c).2 = first_error (config_checks c) ∧
  ((configValidate c).2 = None ↔ valid_config c).
Proof.
  rewrite configValidate_first_error. split; [done|]. split; [done|]. apply valid_of_checks.
Qed.

(** The secret of the example in test/README.md, which says that any value will do, is
    refused. *)
Example random_value_is_refused c :
  SessionAuthSecret c = "A_RANDOM_VALUE" → (configValidate c).2 ≠ None.
Proof.
  intros Ha. rewrite configValidate_first_error. intros [_ _ _ Hs]%valid_of_checks.
  unfold size_in in Hs. rewrite Ha in Hs. apply list_elem_of_In in Hs as [|[|[]]]; discriminate.
Qed.

(** ** From the configuration to the manager *)

(** The sizes [appendSlice] accepts. *)
Definition pair_ok (kp : KeyPair) : Prop :=
  size_in (Authentication kp) [32; 64] ∧ size_in (Encryption kp) [0; 16; 32; 64].

Definition pair_of (mc : Configuration) (pt : parseType) : KeyPair :=
  match pt with
  | parseCurrent => NewKeyPair mc
  | parseOld => OldKeyPair mc
  end.

Lemma size_in_cases s ns : size_in s ns → ∃ n, n ∈ ns ∧ String.length s = n.
Proof. intros H. by eexists. Qed.

Lemma appendSlice_ok mc slice pt :
  pair_ok (pair_of mc pt) →
  appendSlice mc slice pt
    = ((slice ++ [Authentication (pair_of mc pt); Encryption (pair_of mc pt)])%list, None).
Proof.
  intros [Ha He]. unfold appendSlice. fold (pair_of mc pt).
  apply list_elem_of_In in Ha. simpl in Ha. apply list_elem_of_In in He. simpl in He.
  destruct Ha as [<-|[<-|[]]], He as [<-|[<-|[<-|[<-|[]]]]]; cbn; by rewrite <-app_assoc.
Qed.

Lemma appendSlice_bad_encryption mc slice pt :
  size_in (Authentication (pair_of mc pt)) [32; 64] →
  String.length (Encryption (pair_of mc pt)) = 24 →
  appendSlice mc slice pt
    = ([], Some (Errorf_w_s ErrWrongEncSecretSize (parseType_string pt +:+ " encryption key"))).
Proof.
  intros Ha He. unfold appendSlice. fold (pair_of mc pt). rewrite He.
  apply list_elem_of_In in Ha. simpl in Ha. destruct Ha as [<-|[<-|[]]]; reflexivity.
Qed.

Lemma auth_not_empty s : size_in s [32; 64] → String.eqb s "" = false.
Proof.
  intros Hs%list_elem_of_In. apply String.eqb_neq. intros ->. by destruct Hs as [|[|[]]].
Qed.

(** The secrets a valid configuration hands to the manager. *)
Definition valid_secrets (mc : Configuration) : Prop :=
  size_in (Authentication (NewKeyPair mc)) [32; 64] ∧
  (Authentication (OldKeyPair mc) = "" ∨ size_in (Authentication (OldKeyPair mc)) [32; 64]).

Lemma keyPairsAsSlice_ok mc :
  pair_ok (NewKeyPair mc) →
  (Authentication (OldKeyPair mc) = "" ∨ pair_ok (OldKeyPair mc)) →
  keyPairsAsSlice mc
    = (let kp := if missing (Authentication (OldKeyPair mc)) then NewKeyPair mc else OldKeyPair mc in
       [Authentication kp; Encryption kp], None).
Proof.
  intros Hn Ho. unfold keyPairsAsSlice.
  rewrite auth_not_empty by apply Hn.
  rewrite (appendSlice_ok mc [] parseCurrent Hn). simpl.
  destruct Ho as [->|Ho]; [done|].
  rewrite auth_not_empty by apply Ho.
  by rewrite (appendSlice_ok mc [] parseOld Ho).
Qed.

(** Key rotation does not work.  With a new and an old key pair, both of the right
    sizes, the store gets the old pair only: cookies are still made with the old
    keys, and the new ones are ignored. *)
Theorem rotation_drops_the_new_keys mc :
  pair_ok (NewKeyPair mc) → pair_ok (OldKeyPair mc) →
  keyPairsAsSlice mc = ([Authentication (OldKeyPair mc); Encryption (OldKeyPair mc)], None).
Proof.
  intros Hn Ho. rewrite keyPairsAsSlice_ok by auto.
  by rewrite auth_not_empty by apply Ho.
Qed.

(** What the configuration must also satisfy for the manager to take it. *)
Definition no_24_byte_key (c : Config) : Prop :=
  String.length (SessionEncSecret c) ≠ 24 ∧
  (SessionOldAuthSecret c = "" ∨ String.length (SessionOldEncSecret c) ≠ 24).

Lemma enc_size s :
  s = "" ∨ size_in s [16; 24; 32] → String.length s ≠ 24 → size_in s [0; 16; 32; 64].
Proof.
  unfold size_in. intros [->|H] Hne; [by left|]. apply list_elem_of_In in H. simpl in H.
  apply list_elem_of_In. simpl. intuition congruence.
Qed.

Lemma valid_config_makes_a_manager ch c impl :
  (configValidate c).2 = None → no_24_byte_key c →
  NewManager ch (session_configuration c (Some impl)) =
    (Some (mkManager (c_CookieName c) 300%Z (30 * Minute)%Z
       (mkCookieStore
          (if missing (SessionOldAuthSecret c) then [SessionAuthSecret c; SessionEncSecret c]
           else [SessionOldAuthSecret c; SessionOldEncSecret c])
          (mkOptions "/" (c_CookieDomain c) 0%Z true true SameSiteStrictMode)) impl ch), None).
Proof.
  intros Hc [Hn Ho]. assert (Hv : valid_config c).
  { rewrite configValidate_first_error in Hc. by apply valid_of_checks. }
  destruct Hv as [_ _ _ Ha He Hoa Hoe _ _]. unfold NewManager. simpl.
  rewrite keyPairsAsSlice_ok; simpl.
  - by destruct (missing (SessionOldAuthSecret c)).
  - split; [done|]. by apply enc_size.
  - destruct Hoa as [?|Hoa]; [by left|]. right. split; [done|]. simpl.
    destruct Ho as [Hz|?]; [|by apply enc_size].
    apply auth_not_empty in Hoa. by rewrite Hz in Hoa.
Qed.

(** C24: a configuration that was accepted, with no 24-byte key, makes a manager: its
    cookies are [Secure], [HttpOnly] and [SameSite=Strict], for the path "/" and the
    configured domain; a login lasts 300 seconds, a session 30 minutes.  The store has
    one pair of keys: the old one alone when there is an old authentication key (a
    rotation drops the current keys), the current one otherwise. *)
Theorem accepted_config_makes_a_manager ch c impl :
  (configValidate c).2 = None → no_24_byte_key c →
  NewManager ch (session_configuration c (Some impl)) =
    (Some (mkManager (c_CookieName c) 300%Z (30 * Minute)%Z
       (mkCookieStore
          (if missing (SessionOldAuthSecret c) then [SessionAuthSecret c; SessionEncSecret c]
           else [SessionOldAuthSecret c; SessionOldEncSecret c])
          (mkOptions "/" (c_CookieDomain c) 0%Z true true SameSiteStrictMode)) impl ch), None).
Proof. apply valid_config_makes_a_manager. Qed.

(** A 24-byte encryption secret, which the configuration accepts and the messages
    announce, is refused by the manager: the process does not start. *)
Theorem accepted_24_byte_key_is_refused ch c impl :
  (configValidate c).2 = None → String.length (SessionEncSecret c) = 24 →
  NewManager ch (session_configuration c (Some impl))
    = (None, Some (Errorf_w_s ErrWrongEncSecretSize "current encryption key")).
Proof.
  intros Hc Hlen. assert (Hv : valid_config c).
  { rewrite configValidate_first_error in Hc. by apply valid_of_checks. }
  destruct Hv as [_ _ _ Ha _ _ _ _ _]. unfold NewManager. simpl. unfold keyPairsAsSlice. simpl.
  rewrite auth_not_empty by done.
  by rewrite (appendSlice_bad_encryption (session_configuration c (Some impl)) [] parseCurrent).
Qed.

(** ** The hypotheses can hold *)

Definition secret32 : string := "0123456789abcdef0123456789abcdef".
Definition old32 : string := "fedcba9876543210fedcba9876543210".

Definition conf (enc old_auth old_enc : string) : Config :=
  mkConfig true "info" "https://idp" "client" "secret" "https://app/callback" "/" "/bye" ":9080"
    "app" "session" secret32 enc old_auth old_enc "" "" "" "sqlite" "" "sessions.db" "" "".

Lemma rotation_drops_the_new_keys_witness :
  let mc := session_configuration (conf "0123456789abcdef" old32 "") None in
  keyPairsAsSlice mc = ([old32; ""], None).
Proof.
  intros mc.
  apply (rotation_drops_the_new_keys mc); split; apply list_elem_of_In; simpl; tauto.
Defined.

Lemma accepted_config_makes_a_manager_witness :
  NewManager 7 (session_configuration (conf secret32 "" "") (Some (sqlite_impl None))) =
    (Some (mkManager "session" 300%Z (30 * Minute)%Z
       (mkCookieStore [secret32; secret32] (mkOptions "/" "app" 0%Z true true SameSiteStrictMode))
       (sqlite_impl None) 7), None).
Proof.
  apply (accepted_config_makes_a_manager 7 (conf secret32 "" "") (sqlite_impl None));
    [reflexivity|split; [discriminate|left; reflexivity]].
Defined.

Lemma accepted_24_byte_key_is_refused_witness :
  NewManager 7 (session_configuration (conf "0123456789abcdef01234567" "" "") (Some (sqlite_impl None)))
    = (None, Some (Errorf_w_s ErrWrongEncSecretSize "current encryption key")).
Proof.
  apply (accepted_24_byte_key_is_refused 7 (conf "0123456789abcdef01234567" "" "") (sqlite_impl None));
    reflexivity.
Defined.
