(* ===== verification/CleanerProps.v ===== *)
(** * Properties of the background cleaner *)

From stdpp Require Import base gmap strings list option numbers relations.
From Stdlib Require Import ZArith Lia.
From S2P Require Import Prelude GoBase Encoding World Telemetry Zlogger Database Sqlite Oidc.
From S2P Require Import SessionConfig Sessions Manager Cleaner Concrete.

#[local] Open Scope Z_scope.

Section Owner.
Context `{!Otel}.
Context (ctx : nat → Context) (c : nat → Configuration) (impl : nat → SessionImpl).

(** C34: one cleaner per process.  In every reachable state at most one channel is
    closed, the one of the manager whose goroutine entered [once.Do] first, and never
    while its cleaner runs, so that no channel is closed twice; and once a manager
    owns the cleaner, the channel of any other manager stays open for ever, so that
    its [WaitSessionCleaner] never returns. *)
Theorem only_one_cleaner_ever_stops p i :
  reachable ctx c impl p → owner p = Some i →
  (i ∉ p_pending p) ∧ (p_once p = OnceRunning i → p_closed p = ∅) ∧
  ∀ p', rtc (process_step ctx c impl) p p' →
    owner p' = Some i ∧ p_closed p' ⊆ {[i]} ∧
    ∀ j p'', j ≠ i → j ∈ p_waiting p' → process_step ctx c impl p' p'' → j ∈ p_waiting p''.
Proof.
  intros Hp Ho. destruct (reachable_invariant ctx c impl p Hp) as (Hclo & _ & Hown).
  split; [by apply Hown|]. split; [intros Hr; by rewrite Hclo, Hr|].
  intros p' Hrtc. pose proof (owner_steps ctx c impl p p' i Hrtc Ho) as Ho'.
  split; [done|].
  destruct (reachable_invariant ctx c impl p' (reachable_step ctx c impl p p' Hp Hrtc))
    as (Hclo' & _ & _).
  assert (Hsub : p_closed p' ⊆ {[i]}).
  { rewrite Hclo'. unfold owner in Ho'. destruct (p_once p'); simplify_eq; set_solver. }
  split; [done|]. intros j p'' Hj Hw Hstep. destruct Hstep; simpl in *; try done.
  - apply elem_of_union. by right.
  - apply elem_of_difference. split; [done|]. intros ->%elem_of_singleton.
    match goal with H : ?k ∈ _, H' : _ ⊆ _ |- _ => specialize (H' k H) end.
    set_solver.
Qed.

End Owner.

Section CleanerProps.
Context `{!Clock} `{!Otel} `{!Uuid} `{!SqlDriver}.
Context (ctx : nat → Context) (c : nat → Configuration) (impl : nat → SessionImpl).
Context (view : nat → gmap string Row → Store) (no_rows : nat → string → error).
Context (stores : ∀ i, LossyStore (impl i) (view i) (no_rows i)).
Context (loggers : ∀ i, has_logger (ctx i)).

(** A round of the cleaner returns, and purges what the storage purges. *)
Lemma cleaner_round_returns i w :
  twp (cleaner_round (ctx i) (impl i)) (λ _ w',
    view i (w_table w') = view i (w_table w) ∨
    ∃ n, view i (w_table w') = filter (λ kd : string * SessionData,
           ¬ (Time_Unix (ExpiresAt kd.2) < Time_Unix (clock_now n))) (view i (w_table w))) w.
Proof using All.
  unfold cleaner_round. apply twp_bind.
  eapply twp_mono; [apply (Purge_refines (view:=view i) (impl:=impl i))|].
  intros [e|] w' [_ Hs%spec_Purge_effect].
  - unfold log_to. apply twp_bind, twp_zlogger_FromContext; [done|].
    intros w1 (_ & Ht & _) _ _ _ _ _ _. apply twp_modify. simpl. by rewrite Ht.
  - by apply twp_ret.
Qed.

Lemma log_to_returns i l msg fields w : ∃ w', log_to (ctx i) l msg fields w = (Ret tt, w').
Proof using loggers.
  assert (Htwp : twp (log_to (ctx i) l msg fields) (λ _ _, True) w).
  { apply twp_bind, twp_zlogger_FromContext; [done|]. intros. by apply twp_modify. }
  destruct Htwp as ([] & Hr & _). destruct (log_to (ctx i) l msg fields w) as [o w'].
  simpl in Hr. subst o. by exists w'.
Qed.

(** The cleaner never gets stuck.  From every reachable state in which the cleaner
    of manager [i] runs, a round of purge can happen and leads to a state in which
    the expired sessions are gone or all are still there; and once
    its context is cancelled, the cleaner can stop, and then the caller that waits
    for manager [i] can return. *)
Theorem cleaner_makes_progress p i :
  reachable ctx c impl p → p_once p = OnceRunning i →
  (∃ p', process_step ctx c impl p p' ∧ p_once p' = OnceRunning i ∧
     (view i (w_table (p_world p')) = view i (w_table (p_world p)) ∨
      ∃ n, view i (w_table (p_world p')) = filter (λ kd : string * SessionData,
             ¬ (Time_Unix (ExpiresAt kd.2) < Time_Unix (clock_now n))) (view i (w_table (p_world p))))) ∧
  (i ∈ p_cancelled p →
   ∃ p1, process_step ctx c impl p p1 ∧ p_once p1 = OnceDone i ∧ p_closed p1 = {[i]} ∧
     p_waiting p1 = p_waiting p ∧
     (i ∈ p_waiting p1 →
      ∃ p2, process_step ctx c impl p1 p2 ∧ p_waiting p2 = p_waiting p1 ∖ {[i]})).
Proof using All.
  intros Hp Ho. destruct (reachable_invariant ctx c impl p Hp) as (Hclo & _ & _).
  destruct p as [n pend o can clo wai w]. simpl in *. subst o.
  split.
  - destruct (cleaner_round_returns i w) as ([] & Hr & Hv).
    destruct (cleaner_round (ctx i) (impl i) w) as [oc w'] eqn:Hrun. simpl in *. subst oc.
    eexists. split; [by eapply step_tick|]. done.
  - intros Hc.
    destruct (log_to_returns i DebugLevel "session manager: stopping the expired sessions cleaner job"
                [] w) as [w1 Hw1].
    eexists. split; [by eapply step_stop|]. simpl. subst clo.
    split; [done|]. split; [by rewrite union_empty_r_L|]. split; [done|]. intros Hw.
    destruct (log_to_returns i DebugLevel "session manager: the expired sessions cleaner is now stopped"
                [] w1) as [w2 Hw2].
    eexists. split; [eapply step_wait_returns; [done|set_solver|exact Hw2]|]. done.
Qed.
End CleanerProps.

(** ** The hypotheses can hold: two managers on one process *)

Definition toy_configuration (_ : nat) : Configuration :=
  mkConfiguration "session" "app" (mkKeyPair "0123456789abcdef0123456789abcdef" "") (mkKeyPair "" "")
    (5 * Minute) (30 * Minute) (Some (sqlite_impl None)).

(** Manager 0 owns the cleaner, and its context is cancelled; the goroutine of
    manager 1 is blocked on the [once]; both are waited for. *)
Definition two_managers : Process :=
  mkProcess 2 {[1%nat]} (OnceRunning 0) {[0%nat]} ∅ {[0%nat; 1%nat]} (toy_world ∅).

Lemma two_managers_reachable :
  reachable (λ _, toy_ctx) toy_configuration (λ _, sqlite_impl None) two_managers.
Proof.
  exists (toy_world ∅). unfold process_start.
  eapply rtc_l; [apply (step_new _ _ _ 0 ∅ OnceNew ∅ ∅ ∅); [reflexivity|reflexivity]|].
  eapply rtc_l; [apply (step_new _ _ _ 1); [reflexivity|reflexivity]|].
  eapply rtc_l; [apply (step_once_run _ _ _ 2 _ ∅ ∅ ∅ _ 0); set_solver|].
  eapply rtc_l; [apply (step_cancel _ _ _ 2 _ _ ∅ ∅ ∅ _ 0)|].
  eapply rtc_l; [apply (step_wait _ _ _ 2 _ _ _ ∅ ∅ _ 1)|].
  eapply rtc_l; [apply (step_wait _ _ _ 2 _ _ _ ∅ _ _ 0)|].
  match goal with |- rtc _ ?p _ => assert (p = two_managers) as ->; [|done] end.
  unfold two_managers. f_equal; set_solver.
Qed.

Lemma only_one_cleaner_ever_stops_witness :
  (1%nat ∈ p_waiting two_managers) ∧
  ltac:(let T := type of (only_one_cleaner_ever_stops (λ _, toy_ctx) toy_configuration
          (λ _, sqlite_impl None) two_managers 0 two_managers_reachable eq_refl) in exact T).
Proof.
  split; [apply elem_of_union; right; apply elem_of_singleton; reflexivity|].
  exact (only_one_cleaner_ever_stops (λ _, toy_ctx) toy_configuration
          (λ _, sqlite_impl None) two_managers 0 two_managers_reachable eq_refl).
Defined.

Lemma cleaner_makes_progress_witness :
  (0%nat ∈ p_cancelled two_managers) ∧
  ltac:(let T := type of (cleaner_makes_progress (λ _, toy_ctx) toy_configuration
          (λ _, sqlite_impl None) (λ _, store_view None) (λ _, sqlite_no_rows)
          (λ _, toy_sqlite_store) (λ _, eq_refl) two_managers 0 two_managers_reachable eq_refl) in exact T).
Proof.
  split; [change (0%nat ∈ ({[0%nat]} : gset nat)); apply elem_of_singleton_2; reflexivity|].
  exact (cleaner_makes_progress (λ _, toy_ctx) toy_configuration
          (λ _, sqlite_impl None) (λ _, store_view None) (λ _, sqlite_no_rows)
          (λ _, toy_sqlite_store) (λ _, eq_refl) two_managers 0 two_managers_reachable eq_refl).
Defined.
