(* ===== verification/ServerProps.v ===== *)
(** * Properties of the server and of the reverse proxy *)

From stdpp Require Import base gmap strings list option numbers pretty.
From Stdlib Require Import ZArith Lia String.
From S2P Require Import Prelude GoBase Encoding World Telemetry Zlogger Database Sqlite.
From S2P Require Import Postgresql Oidc SessionConfig Sessions SessionLemmas CookieLaws Handlers.
From S2P Require Import GoStrings Httputil Server MiddlewareSpec HandlerSpec Concrete.
From S2P Require Import MiddlewareProps ZloggerProps.

#[local] Open Scope Z_scope.

(** ** Handlers that serve *)

(** Nothing has been answered through this writer. *)
Definition unanswered (rw : ResponseWriter) (w : World) : Prop :=
  rs_sent (w_resp w) = None ∧ ∀ k, (k ≤ otel_level rw)%nat → k ∉ wr_otel (w_rec w).

Lemma unanswered_writable rw w : unanswered rw w → writable rw w.
Proof. intros [_ Hn] k Hk Hin. by destruct (Hn k Hk). Qed.

Lemma unanswered_same rw w w' :
  w_rec w' = w_rec w → rs_sent (w_resp w') = rs_sent (w_resp w) → unanswered rw w → unanswered rw w'.
Proof. unfold unanswered. by intros -> ->. Qed.

(** A target has sent interim responses, and they were forwarded. *)
Definition interim_forwarded `{!ReverseProxy} : Prop :=
  ∃ n cfg out, (proxy_RoundTrip n cfg out).1 ≠ [].

Definition invalid_code (code : Z) : Prop := code < 100 ∨ 999 < code.

(** The panic of [net/http] for the status of a target. *)
Definition invalid_status `{!ReverseProxy} (o : outcome unit) : Prop :=
  ∃ n cfg out interim code h body,
    proxy_RoundTrip n cfg out = (interim, Ok (code, h, body)) ∧ invalid_code code ∧
    o = Panic (String.append "invalid WriteHeader code " (pretty code)).

(** A handler answers: it logs nothing, and either returns or aborts the connection,
    with a status line sent unless a target has sent interim responses; or it panics
    on the status of a target, and nothing was sent. *)
Definition answered `{!ReverseProxy} (w : World) (o : outcome unit) (w' : World) : Prop :=
  w_log w' = w_log w ∧
  (((is_Some (rs_sent (w_resp w')) ∨ interim_forwarded) ∧ (o = Ret tt ∨ o = Panic ErrAbortHandler)) ∨
   (rs_sent (w_resp w') = None ∧ invalid_status o)).


(** The middleware of the tracing library keeps the values of the context. *)
Definition otelhttp_keeps_values `{!Otel} : Prop :=
  ∀ n op ctx, has_logger ctx → has_logger (otelhttp_context n op ctx).

(** The transport takes the interim responses for what they are. *)
Definition transport_skips_interim `{!ReverseProxy} : Prop :=
  ∀ n cfg out interim resp, proxy_RoundTrip n cfg out = (interim, resp) →
    Forall (λ ch : Z * Header, informational ch.1 = true) interim ∧
    ∀ code h body, resp = Ok (code, h, body) → informational code = false.

(** A computation that logs nothing, and answers when nothing has been answered yet. *)
Definition quietly_served `{!ReverseProxy} (rw : ResponseWriter) (m : IO unit) (w : World) : Prop :=
  w_log (m w).2 = w_log w ∧ (transport_skips_interim → unanswered rw w → wp m (answered w) w).

Definition serves `{!ReverseProxy} (h : Handler) : Prop :=
  ∀ rw r w, has_tracer (r_ctx r) → has_logger (r_ctx r) → quietly_served rw (h rw r) w.

(** As [serves], for a request that has been given no tracer yet. *)
Definition serves_logged `{!ReverseProxy} (h : Handler) : Prop :=
  ∀ rw r w, has_logger (r_ctx r) → quietly_served rw (h rw r) w.

Lemma answered_trans `{!ReverseProxy} w w1 o w' :
  w_log w1 = w_log w → answered w1 o w' → answered w o w'.
Proof. intros Hl [? ?]. split; [congruence|done]. Qed.

Section Serves.
Context `{!Clock} `{!Network} `{!Otel} `{!Rand} `{!Redirector}.
Context `{!Gorilla} `{!OidcLib} `{!OAuth2} `{!BodyFault} `{!Uuid} `{!SqlDriver}.
Context `{!ReverseProxy} `{!Propagator} `{!MuxPaths}.
Implicit Types (rw : ResponseWriter) (r : Request) (w : World).

(** What a computation that returns has done when the handler is served. *)
Definition sent_quietly w w' : Prop := w_log w' = w_log w ∧ is_Some (rs_sent (w_resp w')).

Lemma twp_wp {A} (m : IO A) (Q : A → World → Prop) (R : outcome A → World → Prop) w :
  twp m Q w → (∀ a w', Q a w' → R (Ret a) w') → wp m R w.
Proof.
  intros (a & Ha & HQ) HR. unfold wp. destruct (m w) as [o w']. simpl in *. subst o. auto.
Qed.

Lemma twp_answered (m : IO unit) w : twp m (λ _, sent_quietly w) w → wp m (answered w) w.
Proof.
  intros Hm. eapply twp_wp; [exact Hm|]. intros [] w' [? ?]. split; [done|]. left.
  split; [by left|by left].
Qed.

Lemma JsonError_answered rw code d e w :
  final_status code → wp (Logger_JsonError rw code d e) (answered w) w.
Proof.
  intros Hcode. apply twp_answered, twp_Logger_JsonError; [done|].
  by intros w' (_ & _ & _ & Hlog) _ _ _ Hs _.
Qed.

Lemma Redirect_answered rw r url code w :
  final_status code → unanswered rw w → wp (http_Redirect rw r url code) (answered w) w.
Proof.
  intros Hcode Hu%unanswered_writable. apply twp_answered.
  unfold http_Redirect. apply twp_bind, twp_gets, twp_bind, twp_modify, twp_bind.
  match goal with |- twp (if ?b then _ else _) _ _ => destruct b end;
    [apply twp_modify|apply twp_ret];
    (apply twp_bind, twp_rw_WriteHeader; [done|]; intros w1 (_ & _ & _ & Hl1) _ _ _ _ Hs1 _;
     specialize (Hs1 ltac:(eapply (writable_same rw w); done));
     match goal with |- twp (if ?b then _ else _) _ _ => destruct b end;
     [apply twp_bind, twp_rw_Write; intros ? w2 (_ & _ & _ & Hl2) _ _ _ Hs2|]; apply twp_ret);
    simpl in *; (split; [congruence|]); first [rewrite Hs2|rewrite Hs1]; by eexists.
Qed.

(** The codes of the handlers are the ones of errors. *)
Definition final_answer (a : answer) : Prop :=
  match a with Failed code _ _ => final_status code | Redirected _ => True end.

Lemma give_answered rw r a w :
  final_answer a → unanswered rw w → wp (give rw r a) (answered w) w.
Proof. destruct a; intros; [by apply JsonError_answered|by apply Redirect_answered]. Qed.

Lemma wp_run {A} (m : IO A) Q w w1 m1 : m w = m1 w1 → wp m1 Q w1 → wp m Q w.
Proof. unfold wp. by intros ->. Qed.

(** What the handlers have done before they answer. *)
Definition still_to_answer w w1 : Prop :=
  w_log w1 = w_log w ∧ w_rec w1 = w_rec w ∧ rs_sent (w_resp w1) = rs_sent (w_resp w).

Lemma silent_still w w1 : silent w w1 → still_to_answer w w1.
Proof. intros (_ & _ & ? & ? & Hr). split_and!; [done..|by rewrite Hr]. Qed.

Lemma unsent_still w w1 : unsent w w1 → still_to_answer w w1.
Proof. by intros (_ & _ & ? & ? & _ & ? & _). Qed.

Lemma served_run rw (m m1 : IO unit) w w1 :
  m w = m1 w1 → still_to_answer w w1 → quietly_served rw m1 w1 → quietly_served rw m w.
Proof.
  intros Hrun (Hlog & Hrec & Hsent) [Hl Hs]. unfold quietly_served. rewrite Hrun. split; [congruence|].
  intros Hskip Hu. apply (wp_run _ _ _ w1 _ Hrun). eapply wp_mono.
  - apply Hs; [done|]. by apply (unanswered_same rw w).
  - intros o w'. by apply answered_trans.
Qed.

(** Writing an answer logs nothing. *)
Lemma rw_WriteHeader_log rw code : preserves w_log (rw_WriteHeader rw code).
Proof.
  revert code. induction rw as [|inner IH|inner IH]; intros code; simpl.
  - unfold net_http_WriteHeader, send_status. solve_frame.
  - unfold StatusRecorder_WriteHeader. solve_frame; auto.
  - unfold OtelWriter_WriteHeader. solve_frame; auto.
Qed.

Lemma interact_log {A} (f : nat → A) : preserves w_log (interact f).
Proof. by apply preserves_interact. Qed.

Hint Resolve interact_log rw_WriteHeader_log : frame.

Lemma rw_Write_log rw b : preserves w_log (rw_Write rw b).
Proof.
  induction rw as [|inner IH|inner IH]; simpl.
  - pose proof (rw_WriteHeader_log NetHttpWriter). unfold net_http_Write. simpl in *. solve_frame; auto.
  - unfold StatusRecorder_Write. apply preserves_bind; [exact IH|]. intros [n e]. solve_frame.
  - pose proof (rw_WriteHeader_log (OtelWriterOf inner) 200). unfold OtelWriter_Write.
    solve_frame; auto.
Qed.

Hint Resolve rw_Write_log : frame.

Lemma JsonError_log rw code d e : preserves w_log (Logger_JsonError rw code d e).
Proof. unfold Logger_JsonError, rw_Header_Set, time_Now. solve_frame. Qed.

Lemma Redirect_log rw r url code : preserves w_log (http_Redirect rw r url code).
Proof. unfold http_Redirect, rw_Header_Set. solve_frame. Qed.

Lemma FromContext_log ctx : preserves w_log (zlogger_FromContext ctx).
Proof. unfold zlogger_FromContext. destruct (ctx_Value _ _) as [[]|]; solve_frame. Qed.

Hint Resolve JsonError_log Redirect_log FromContext_log : frame.

Lemma JsonError_served rw code d e w :
  final_status code → quietly_served rw (Logger_JsonError rw code d e) w.
Proof. intros. split; [apply JsonError_log|]. intros _ _. by apply JsonError_answered. Qed.

Lemma Redirect_served rw r url code w :
  final_status code → quietly_served rw (http_Redirect rw r url code) w.
Proof. intros. split; [apply Redirect_log|]. intros _ ?. by apply Redirect_answered. Qed.

Lemma give_served rw r a w : final_answer a → quietly_served rw (give rw r a) w.
Proof. destruct a; intros; [by apply JsonError_served|by apply Redirect_served]. Qed.

Lemma root_serves : serves rootHandler.
Proof.
  intros rw r w _ Hl. unfold rootHandler.
  destruct (run_FromContext r w Hl) as (w1 & [Hsil _] & _ & Hrun).
  eapply served_run; [apply Hrun|by apply silent_still|]. by apply JsonError_served.
Qed.

Lemma proxy_error_answered ctx rw r err w :
  has_logger ctx → wp (proxy_ErrorHandler ctx rw r err) (answered w) w.
Proof.
  intros Hl. unfold proxy_ErrorHandler. apply wp_bind.
  eapply twp_wp; [apply (twp_zlogger_FromContext _ (λ _ w', w_log w' = w_log w)); [done|]|].
  { by intros w' (_ & _ & _ & ?). }
  intros [] w1 Hlog. eapply wp_mono; [by apply JsonError_answered|].
  intros o w'. by apply answered_trans.
Qed.

Lemma copyResponse_answered rw body w :
  is_Some (rs_sent (w_resp w)) ∨ interim_forwarded → wp (copyResponse rw body) (answered w) w.
Proof.
  revert w. induction body as [|chunk body IH]; intros w Hs; cbn [copyResponse].
  - apply wp_bind. unfold wp. cbn [interact fst snd].
    destruct (proxy_body_error (w_tick w)); (split; [done|]); left; auto.
  - apply wp_bind. eapply (twp_wp _ (λ _, sent_quietly w)).
    + apply twp_rw_Write. intros x w' (_ & _ & _ & Hl) _ _ _ Hs'. split; [done|].
      rewrite Hs'. by eexists.
    + intros [n [e|]] w' [Hl Hs']; [split; [done|]; left; auto|].
      eapply wp_mono; [apply IH; by left|]. intros o w2. by apply answered_trans.
Qed.

(** An interim status leaves the status line to come. *)
Lemma twp_rw_WriteHeader_interim rw code (Q : unit → World → Prop) w :
  informational code = true →
  (∀ w', w_log w' = w_log w → rs_sent (w_resp w') = rs_sent (w_resp w) → Q tt w') →
  twp (rw_WriteHeader rw code) Q w.
Proof.
  intros Hc. revert w. induction rw as [|inner IH|inner IH]; intros w HQ; simpl.
  - unfold net_http_WriteHeader. apply twp_bind, twp_gets.
    destruct (rs_sent (w_resp w)) eqn:Hs; [by apply twp_ret, HQ|].
    pose proof Hc as [[Hlo%Z.leb_le Hhi%Z.leb_le]%andb_true_iff _]%andb_true_iff.
    rewrite (proj2 (Z.ltb_ge code 100)), (proj2 (Z.ltb_ge 999 code)) by lia. rewrite Hc.
    by apply twp_ret, HQ.
  - apply twp_bind, twp_modify, IH. intros w' ? ?. by apply HQ.
  - unfold OtelWriter_WriteHeader. apply twp_bind, twp_gets. destruct (_ && _); [by apply twp_ret, HQ|].
    apply twp_bind, twp_modify, IH. intros w' ? ?. by apply HQ.
Qed.

Lemma twp_forward_interim rw interim w :
  Forall (λ ch : Z * Header, informational ch.1 = true) interim →
  twp (forward_interim rw interim) (λ _ w',
    w_log w' = w_log w ∧ rs_sent (w_resp w') = rs_sent (w_resp w) ∧
    (interim = [] → w_rec w' = w_rec w)) w.
Proof.
  intros Hi. revert w. induction Hi as [|[code h] interim Hc _ IH]; intros w; cbn [forward_interim].
  { by apply twp_ret. }
  apply twp_bind, twp_modify, twp_bind, twp_rw_WriteHeader_interim; [done|]. intros w1 Hl1 Hs1.
  apply twp_bind, twp_modify. eapply twp_mono; [apply IH|]. intros [] w2 (Hl2 & Hs2 & _).
  simpl in *. split; [congruence|]. split; [congruence|done].
Qed.

(** A status that [net/http] refuses: a panic, unless the tracer has seen one before. *)
Lemma rw_WriteHeader_invalid rw code w :
  invalid_code code → rs_sent (w_resp w) = None →
  wp (rw_WriteHeader rw code) (λ o w',
    w_log w' = w_log w ∧ rs_sent (w_resp w') = None ∧
    (o = Panic (String.append "invalid WriteHeader code " (pretty code)) ∨
     (o = Ret tt ∧ ¬ unanswered rw w))) w.
Proof.
  intros Hc. revert w. induction rw as [|inner IH|inner IH]; intros w Hs; simpl.
  - unfold wp, net_http_WriteHeader. rewrite run_bind. cbn [gets]. rewrite Hs.
    assert (((code <? 100) || (999 <? code)) = true) as ->.
    { apply orb_true_iff. destruct Hc; [left|right]; by apply Z.ltb_lt. }
    simpl. auto.
  - unfold StatusRecorder_WriteHeader. apply wp_bind. unfold wp at 1. cbn [modify fst snd].
    eapply wp_mono; [by apply IH|]. intros o w' (Hl & Hs' & Ho).
    split; [done|]. split; [done|]. destruct Ho as [?|[? Hn]]; [by left|right].
    split; [done|]. exact Hn.
  - unfold OtelWriter_WriteHeader. apply wp_bind. unfold wp at 1. cbn [gets fst snd].
    destruct (existsb _ _ && _) eqn:Hw.
    { apply andb_true_iff in Hw as [Hw%wrote_spec _]. unfold wp. cbn. split; [done|].
      split; [done|]. right. split; [done|]. intros [_ Hn]. by apply (Hn _ (le_n _)). }
    apply wp_bind. unfold wp at 1. cbn [modify fst snd].
    eapply wp_mono; [by apply IH|]. intros o w' (Hl & Hs' & Ho).
    split; [done|]. split; [done|]. destruct Ho as [?|[? Hn]]; [by left|right].
    split; [done|]. intros [_ Hu]. apply Hn. split; [done|]. intros k Hk Hin.
    simpl in Hin. apply elem_of_cons in Hin as [->|Hin]; [lia|]. by apply (Hu k); [simpl; lia|].
Qed.

(** The answer of a target is passed on. *)
Lemma forwarded_answered rw interim (resp : result error (Z * Header * list string)) status h body n cfg out w w1 :
  proxy_RoundTrip n cfg out = (interim, resp) → resp = Ok (status, h, body) →
  informational status = false → status ≠ 101 →
  unanswered rw w → rs_sent (w_resp w1) = None → w_log w1 = w_log w →
  (interim = [] → w_rec w1 = w_rec w) →
  wp (rw_WriteHeader rw status ≫= λ _, copyResponse rw body) (answered w) w1.
Proof.
  intros Hrt -> Hf Hne [Hn Hu] Hs Hl Hrec.
  assert (Hfwd : interim = [] ∨ interim_forwarded).
  { destruct interim eqn:Hi; [by left|right]. exists n, cfg, out. by rewrite Hrt. }
  assert (Hcode : invalid_code status ∨ final_status status).
  { unfold informational in Hf. unfold invalid_code, final_status.
    destruct (Z.leb_spec 100 status), (Z.leb_spec status 199); simpl in Hf; lia. }
  apply wp_bind. destruct Hcode as [Hcode|Hcode].
  - eapply wp_mono; [by apply rw_WriteHeader_invalid|]. intros o w' (Hl' & Hs' & [-> | [-> Hm]]).
    + split; [congruence|]. right. split; [done|]. by exists n, cfg, out, interim, status, h, body.
    + destruct Hfwd as [Hi|Hfwd].
      { destruct Hm. split; [done|]. by rewrite (Hrec Hi). }
      eapply wp_mono; [by apply copyResponse_answered; right|]. intros o w2. apply answered_trans. congruence.
  - eapply (twp_wp _ (λ _ w', w_log w' = w_log w ∧
      (is_Some (rs_sent (w_resp w')) ∨ interim_forwarded))).
    + apply twp_rw_WriteHeader; [done|]. intros w' (_ & _ & _ & Hlog) _ _ _ _ Hsent _.
      split; [congruence|]. destruct Hfwd as [Hi|Hfwd]; [left|by right].
      rewrite Hsent; [by eexists|]. apply unanswered_writable. split; [done|]. by rewrite (Hrec Hi).
    + intros [] w' [Hlog Hsent]. eapply wp_mono; [by apply copyResponse_answered|].
      intros o w2. by apply answered_trans.
Qed.

Lemma forward_interim_log rw interim : preserves w_log (forward_interim rw interim).
Proof.
  induction interim as [|[code h] interim IH]; cbn [forward_interim]; unfold add_headers; solve_frame.
Qed.

Lemma copyResponse_log rw body : preserves w_log (copyResponse rw body).
Proof. induction body as [|chunk body IH]; cbn [copyResponse]; solve_frame. Qed.

Lemma proxy_log p rw r : preserves w_log (ProxyRequestHandler p rw r).
Proof.
  pose proof forward_interim_log. pose proof copyResponse_log.
  unfold ProxyRequestHandler, proxy_ServeHTTP, proxy_ErrorHandler, add_headers. solve_frame.
Qed.

Lemma proxy_answered p rw r w :
  transport_skips_interim → has_logger (px_ctx p) → unanswered rw w →
  wp (ProxyRequestHandler p rw r) (answered w) w.
Proof.
  intros skips Hl Hu. unfold ProxyRequestHandler, proxy_ServeHTTP.
  destruct (outgoing_request p r) as [out|e]; [|by apply proxy_error_answered].
  apply wp_bind. unfold wp at 1. cbn [interact fst snd].
  destruct (proxy_RoundTrip _ _ _) as [interim resp] eqn:Hrt.
  destruct (skips _ _ _ _ _ Hrt) as [Hi Hfinal]. apply wp_bind.
  eapply twp_wp; [by apply twp_forward_interim|]. intros [] w1 (Hl1 & Hs1 & Hrec).
  destruct resp as [[[status h] body]|e];
    [|eapply wp_mono; [by apply proxy_error_answered|]; intros o w2; by apply answered_trans].
  destruct (Z.eqb_spec status 101) as [_|Hne].
  { eapply wp_mono; [by apply proxy_error_answered|]. intros o w2. by apply answered_trans. }
  apply wp_bind. unfold wp at 1, add_headers. cbn [modify fst snd].
  eapply forwarded_answered; [exact Hrt|done|by eapply Hfinal|done|exact Hu| |done|done].
  destruct Hu as [Hn _]. simpl in *. congruence.
Qed.

Lemma proxy_served p rw r w : has_logger (px_ctx p) → quietly_served rw (ProxyRequestHandler p rw r) w.
Proof. intros Hl. split; [apply proxy_log|]. intros Hs Hu. by apply proxy_answered. Qed.

Lemma userInfo_log config rw r : preserves w_log (userInfo config rw r).
Proof.
  assert (Hcopy : ∀ body, preserves w_log (io_Copy rw body)).
  { induction body as [|chunk body IH]; cbn [io_Copy]; solve_frame. }
  unfold userInfo, close_body, rw_Header_Set. solve_frame.
Qed.

Lemma userInfo_answered config rw r w :
  has_logger (r_ctx r) → unanswered rw w → wp (userInfo config rw r) (answered w) w.
Proof.
  intros Hl Hu. unfold userInfo.
  destruct (run_FromContext r w Hl) as (w1 & [(_ & _ & Hlog & Hrec & Hresp) _] & _ & Hrun).
  apply (wp_run _ _ _ w1 _ (Hrun _ _)). clear Hrun.
  eapply (wp_mono _ (answered w1)); [|intros o w'; by apply answered_trans].
  destruct (ctx_Value _ _) as [[]|]; try by apply JsonError_answered.
  apply wp_bind. unfold wp at 1. cbn [interact fst snd].
  destruct (oauth2_Client_Get _ _ _ _) as [[st body]|e];
    [|eapply wp_mono; [by apply JsonError_answered|]; intros o w'; by apply answered_trans].
  eapply (wp_mono _ (answered (set_tick S w1))); [|intros o w'; by apply answered_trans].
  apply twp_answered, twp_defer. set (w2 := set_tick S w1).
  assert (Hclose : ∀ w3, sent_quietly w2 w3 → twp close_body (λ _, sent_quietly w2) w3).
  { intros w3 ?. unfold close_body. apply twp_bind, twp_interact.
    destruct (body_close_error _); [by apply twp_modify|by apply twp_ret]. }
  assert (Hcopy : ∀ Q w3, sent_quietly w2 w3 → (∀ e w', sent_quietly w2 w' → Q e w') →
    twp (io_Copy rw body) Q w3).
  { clear Hclose. induction body as [|chunk body IH]; intros Q w3 [Hl3 Hs3] HQ; cbn [io_Copy].
    - by apply twp_interact, HQ.
    - apply twp_bind, twp_rw_Write. intros [n [e|]] w4 (_ & _ & _ & Hl4) _ _ _ Hs4.
      + apply twp_ret, HQ. split; [congruence|rewrite Hs4; by eexists].
      + apply IH; [|done]. split; [congruence|rewrite Hs4; by eexists]. }
  apply twp_bind, twp_modify, twp_bind, twp_rw_WriteHeader; [done|].
  intros w3 (_ & _ & _ & Hl3) _ _ _ _ Hs3 _.
  assert (Hq3 : sent_quietly w2 w3).
  { split; [done|]. rewrite Hs3; [by eexists|]. apply unanswered_writable.
    eapply unanswered_same; [| |exact Hu]; [done|]. simpl. congruence. }
  apply twp_bind, Hcopy; [done|]. intros [e|] w4 [Hl4 Hs4]; [|by apply twp_ret, Hclose].
  apply twp_Logger_JsonError; [done|]. intros w5 (_ & _ & _ & Hl5) _ _ _ Hs5 _.
  apply Hclose. split; [congruence|done].
Qed.

Lemma userInfo_served config rw r w : has_logger (r_ctx r) → quietly_served rw (userInfo config rw r) w.
Proof. intros Hl. split; [apply userInfo_log|]. intros _ Hu. by apply userInfo_answered. Qed.
End Serves.

Section Routes.
Context `{!Clock} `{!Network} `{!Otel} `{!Rand} `{!Redirector} `{!RealIP}.
Context `{!Gorilla} `{!OidcLib} `{!OAuth2} `{!BodyFault} `{!Uuid} `{!SqlDriver}.
Context `{!ReverseProxy} `{!Propagator} `{!MuxPaths}.
Context (impl : SessionImpl) (view : gmap string Row → Store) (no_rows : string → error).
Context `{!LossyStore impl view no_rows}.
Context (m : Manager) (config : oidc_Config) (Hm : m_sessionImpl m = impl).
Context (refresh_needs_token :
  ∀ n c, ∃ e, oauth2_TokenSource_Token n c (Token_of_refresh "") = Err e).
Context (clock_after_zero : ∀ n, Time_zero < clock_now n).
Implicit Types (rw : ResponseWriter) (r : Request) (w : World).

Definition final_verdict (v : verdict) : Prop :=
  match v with Rejected code _ _ => final_status code | Accepted _ => True end.

Lemma auth_spec_still r w v w1 :
  auth_spec view no_rows m config r w v w1 → still_to_answer w w1 ∧ final_verdict v.
Proof using Type.
  intros Hspec; destruct Hspec; (split; [|done]); first [by apply silent_still|by apply unsent_still].
Qed.

Lemma middleware_serves next :
  (∀ rw r w, has_logger (r_ctx r) → quietly_served rw (next rw r) w) →
  serves (AuthenticationMiddleware m config next).
Proof using LossyStore0 Hm clock_after_zero refresh_needs_token.
  intros Hn rw r w Ht Hl.
  destruct (AuthenticationMiddleware_refines impl view no_rows m config Hm
    refresh_needs_token clock_after_zero next rw r w Ht Hl) as (v & w1 & Hv & Hrun).
  apply auth_spec_still in Hv as [Hs Hf]. apply (served_run _ _ (finish next rw r v) _ w1); [done..|].
  destruct v; [by apply JsonError_served|]. apply Hn.
  unfold with_access_token, has_logger. simpl r_ctx. rewrite ctx_Value_WithValue_ne; done.
Qed.

(** A handler that gives an answer of its specification. *)
Lemma spec_serves (h : Handler) (spec : Request → World → answer → World → Prop) :
  (∀ rw r w, has_tracer (r_ctx r) → has_logger (r_ctx r) →
     ∃ a w1, spec r w a w1 ∧ h rw r w = give rw r a w1) →
  (∀ r w a w1, spec r w a w1 → still_to_answer w w1 ∧ final_answer a) →
  serves h.
Proof using Type.
  intros Hh Hspec rw r w Ht Hl. destruct (Hh rw r w Ht Hl) as (a & w1 & Ha & Hrun).
  destruct (Hspec _ _ _ _ Ha) as [Hs Hf].
  apply (served_run _ _ (give rw r a) _ w1); [done..|]. by apply give_served.
Qed.

Ltac spec_still :=
  intros ? ? ? ? Hspec; destruct Hspec; (split; [|done]); first [by apply silent_still|by apply unsent_still].

Lemma login_serves : serves (LoginHandlerOidc m config).
Proof using Type.
  eapply (spec_serves _ (login_spec m config)); [apply LoginHandlerOidc_refines|spec_still].
Qed.

Lemma callback_serves post : serves (CallbackHandlerOidc m config post).
Proof using LossyStore0 Hm.
  eapply (spec_serves _ (callback_spec view no_rows m config post));
    [by apply (CallbackHandlerOidc_refines impl)|spec_still].
Qed.

Lemma logout_serves post : serves (LogoutHandlerOidc m config post).
Proof using LossyStore0 Hm.
  eapply (spec_serves _ (logout_spec view no_rows m config post));
    [by apply (LogoutHandlerOidc_refines impl)|spec_still].
Qed.

(** The span middleware gives the handler the tracer, and keeps the logger. *)
Context (keeps : otelhttp_keeps_values).

Lemma traced_serves h name op : serves h → serves_logged (opentelemetry_Middleware h name op).
Proof using keeps.
  intros Hh rw r w Hl. unfold quietly_served, wp, opentelemetry_Middleware.
  rewrite run_bind. cbn [interact]. rewrite run_bind. cbn [modify].
  match goal with |- w_log (h ?rw1 ?r1 ?w1).2 = _ ∧ _ => destruct (Hh rw1 r1 w1) as [Hlog Hans] end.
  - eexists. unfold TracerFromContext. simpl r_ctx. by rewrite ctx_Value_WithValue_eq.
  - unfold has_logger. simpl r_ctx. rewrite ctx_Value_WithValue_ne by done. by apply keeps.
  - split; [exact Hlog|]. intros Hskip [Hs Hu]. eapply wp_mono; [apply Hans; [done|]|].
    + split; [done|]. intros k Hk Hin. cbn in Hin. apply list_elem_of_In in Hin.
      apply in_remove in Hin as [Hin Hne]. apply list_elem_of_In in Hin. apply (Hu k); [|done].
      simpl in Hk, Hne. lia.
    + intros o w'. by apply answered_trans.
Qed.

Lemma routes_serve post_login post_logout proxies :
  Forall (λ ep, has_logger (px_ctx ep.2)) proxies →
  Forall (λ ph, serves_logged ph.2) (routes m config post_login post_logout proxies).
Proof using All.
  intros Hp. unfold routes. apply Forall_app. split.
  { constructor; [by apply traced_serves, login_serves|].
    constructor; [by apply traced_serves, callback_serves|].
    constructor; [by apply traced_serves, logout_serves|].
    constructor; [|constructor].
    apply traced_serves, middleware_serves. intros. by apply userInfo_served. }
  apply Forall_app. split.
  - apply Forall_fmap. eapply Forall_impl; [exact Hp|]. intros [ep p] Hl. simpl.
    apply traced_serves, middleware_serves. intros. by apply proxy_served.
  - constructor; [apply traced_serves, root_serves|constructor].
Qed.

Lemma mux_match_Forall (P : Handler → Prop) path l h :
  Forall (λ ph, P ph.2) l → mux_match path l = Some h → P h.
Proof.
  assert (Hex : ∀ l, Forall (λ ph, P ph.2) l → ∀ h, mux_exact path l = Some h → P h).
  { induction 1 as [|[p h'] l' Hh _ IH]; simpl; [done|]. intros h0.
    destruct (String.eqb p path); [by intros [= <-]|apply IH]. }
  assert (Hpre : ∀ l, Forall (λ ph, P ph.2) l → ∀ best, (∀ b, best = Some b → P b.2) →
    ∀ b, mux_prefix path l best = Some b → P b.2).
  { induction 1 as [|[p h'] l' Hh _ IH]; intros best Hb b; simpl; [apply Hb|].
    match goal with |- context [if ?c then _ else _] => destruct c end; apply IH; [|done].
    by intros b' [= <-]. }
  intros Hall. unfold mux_match. destruct (mux_exact path l) as [h0|] eqn:He.
  - intros [= <-]. by eapply Hex.
  - destruct (mux_prefix path l None) as [[p h0]|] eqn:Hp; [|done]. intros [= <-].
    by apply (Hpre l Hall None) in Hp.
Qed.

Lemma mux_serves l : Forall (λ ph, serves_logged ph.2) l → serves_logged (mux_ServeHTTP l).
Proof using Type.
  intros Hall rw r w Hl. unfold mux_ServeHTTP.
  destruct (mux_redirect r); [by apply Redirect_served|].
  destruct (mux_match _ l) as [h|] eqn:Hh.
  { by apply (mux_match_Forall serves_logged _ _ _ Hall Hh). }
  assert (Htwp : twp (http_NotFound rw r) (λ _, sent_quietly w) w).
  { unfold http_NotFound. apply twp_bind, twp_modify, twp_bind, twp_modify, twp_bind.
    apply twp_rw_WriteHeader; [done|]. intros w1 (_ & _ & _ & Hl1) _ _ _ _ _ _.
    apply twp_bind, twp_rw_Write. intros x w2 (_ & _ & _ & Hl2) _ _ _ Hs2. apply twp_ret.
    simpl in *. split; [congruence|]. rewrite Hs2. by eexists. }
  split; [by destruct Htwp as (? & _ & ? & _)|]. intros _ _. by apply twp_answered.
Qed.

Context (skips : transport_skips_interim).

Lemma server_answers post_login post_logout proxies rw r w :
  Forall (λ ep, has_logger (px_ctx ep.2)) proxies →
  wp (mux_ServeHTTP (routes m config post_login post_logout proxies) (RecorderOf rw)
        (logged_request r))
    (answered (logged_start (new_exchange w))) (logged_start (new_exchange w)).
Proof using All.
  intros Hp. apply mux_serves; [by apply routes_serve|apply ctx_Value_WithValue_eq|exact skips|].
  split; [done|]. intros k _ Hk. inversion Hk.
Qed.

(** C11: every request is answered, and logged once.  [http_serve] is what [net/http]
    does with a request: it runs the handler of the server on a response of its own, and
    sends 200 when the handler returns without a status line.  Whatever the request and
    the failures of the database, the provider, the proxied service and the network:
    - the handler returns, a status line was sent, and the access log has gained exactly
      one entry; or
    - the reverse proxy has aborted the connection, because it could not copy a body to
      the end; the status line was sent before (unless the target has sent interim
      responses), and nothing is logged; or
    - a target has answered with a status outside of 100 to 999, which [net/http] refuses
      with a panic: nothing was sent, and nothing is logged.
    No other panic leaves the handlers. *)
Theorem every_request_is_answered_and_logged post_login post_logout proxies r w :
  Forall (λ ep, has_logger (px_ctx ep.2)) proxies →
  ∃ o w', http_serve (server m config post_login post_logout proxies) r (new_exchange w) = (o, w') ∧
    ((o = Ret tt ∧ is_Some (rs_sent (w_resp w')) ∧ ∃ entry, w_log w' = w_log w ++ [entry]) ∨
     (o = Panic ErrAbortHandler ∧ (is_Some (rs_sent (w_resp w')) ∨ interim_forwarded) ∧
      w_log w' = w_log w) ∨
     (invalid_status o ∧ rs_sent (w_resp w') = None ∧ w_log w' = w_log w)).
Proof using All.
  intros Hp. pose proof (server_answers post_login post_logout proxies NetHttpWriter r w Hp) as Hans.
  unfold http_serve, server, wp in *. rewrite run_bind.
  destruct (mux_ServeHTTP (routes m config post_login post_logout proxies) (RecorderOf NetHttpWriter)
              (logged_request r) (logged_start (new_exchange w))) as [o1 w1] eqn:Hrun.
  destruct (logger_middleware_run _ NetHttpWriter r (new_exchange w) o1 w1 Hrun)
    as (w2 & -> & _ & _ & Hresp & _ & Hlog2).
  destruct Hans as (Hlog & [[Hsent Ho]|[Hsent Ho]]); simpl in Hlog, Hsent, Ho.
  - destruct Ho as [-> | ->].
    + rewrite run_bind. cbn [gets fst snd]. rewrite Hlog in Hlog2.
      destruct (rs_sent (w_resp w2)) eqn:Hs2; (eexists _, _; split; [reflexivity|]); cbn;
        left; (split; [done|]).
      * rewrite Hs2. split; [by eexists|by eexists].
      * split; [by eexists|by eexists].
    + eexists _, _. split; [reflexivity|]. right; left.
      rewrite Hresp, Hlog2, app_nil_r. by rewrite Hlog.
  - destruct Ho as (n & cfg & out & i & code & h & body & Hrt & Hc & ->).
    eexists _, _. split; [reflexivity|]. right; right.
    rewrite Hresp, Hlog2, app_nil_r. split; [|done].
    by exists n, cfg, out, i, code, h, body.
Qed.
End Routes.

(** ** The reverse proxy *)

(** The propagator writes the headers of the trace, and no other. *)
Definition inject_keeps `{!Propagator} (k : string) : Prop :=
  ∀ ctx h, propagator_Inject ctx h !! k = h !! k.

Section ProxyProps.
Context `{!Clock} `{!Network} `{!Otel}.
Context `{!Gorilla} `{!OidcLib} `{!OAuth2} `{!Uuid} `{!SqlDriver}.
Context `{!ReverseProxy} `{!Propagator}.
Context (inject_auth : inject_keeps "Authorization") (inject_conn : inject_keeps "Connection").
Context (impl : SessionImpl) (view : gmap string Row → Store) (no_rows : string → error).
Context `{!LossyStore impl view no_rows}.
Context (m : Manager) (config : oidc_Config) (Hm : m_sessionImpl m = impl).
Context (refresh_needs_token :
  ∀ n c, ∃ e, oauth2_TokenSource_Token n c (Token_of_refresh "") = Err e).
Context (clock_after_zero : ∀ n, Time_zero < clock_now n).

Lemma Director_authorization target r tok :
  r_Header (Director target (with_access_token r tok)) !! "Authorization" = Some ["Bearer " +:+ tok].
Proof using inject_auth.
  unfold Director, set_request, with_access_token. cbn [r_Header r_ctx WithContext].
  rewrite inject_auth, ctx_Value_WithValue_eq. unfold Header_Add, Header_Set, Header.
  rewrite lookup_insert_ne by done. apply lookup_insert_eq.
Qed.

Lemma Director_drops target r tok k :
  drops (r_Header (Director target (with_access_token r tok))) k = drops (r_Header r) k.
Proof using inject_conn.
  unfold drops, connection_names, Header_Values. do 4 f_equal.
  unfold Director, set_request, with_access_token. cbn [r_Header r_ctx WithContext].
  rewrite inject_conn, ctx_Value_WithValue_eq. unfold Header_Add, Header_Set, Header.
  by rewrite !lookup_insert_ne.
Qed.

(** The [Authorization] header of the request the transport is given. *)
Lemma outgoing_authorization p r tok out :
  outgoing_request p (with_access_token r tok) = Ok out →
  r_Header out !! "Authorization"
    = (if drops (r_Header r) "Authorization" then None else Some ["Bearer " +:+ tok]) ∧
  r_URL out = px_target p ∧ r_Host out = URL_Host (px_target p).
Proof using inject_auth inject_conn.
  unfold outgoing_request. cbv zeta. destruct (outgoing_headers _ _) as [h|] eqn:Hh; [|done].
  intros [= <-]. split; [|done]. cbn [r_Header set_request].
  rewrite (lookup_outgoing_headers _ _ _ "Authorization" Hh) by (split; [reflexivity|done]).
  by rewrite Director_drops, Director_authorization.
Qed.

(** C12: what reaches the proxied service.  Behind the middleware, a request is either
    answered 401 or 500, or handed to the reverse proxy with the access token of the
    session of the cookie, or of the token it was just renewed to.  The request that the
    transport is then given, after the Director and the treatment of the hop-by-hop
    headers, goes to the URL of the target, with its host (the path and the query of the
    request are dropped), and has exactly one [Authorization] header, [Bearer] with that
    token, whatever header the client has sent; unless the [Connection] header of the
    client names it, in which case it has none. *)
Theorem proxied_request_carries_the_session_token p rw r w :
  has_tracer (r_ctx r) → has_logger (r_ctx r) →
  (∃ code d e w1, (code = 401 ∨ code = 500) ∧
     AuthenticationMiddleware m config (ProxyRequestHandler p) rw r w
       = Logger_JsonError rw code d (Some e) w1) ∨
  (∃ tok w1 g id d,
     AuthenticationMiddleware m config (ProxyRequestHandler p) rw r w
       = proxy_ServeHTTP p rw (with_access_token r tok) w1 ∧
     cookie_lookup m r (w_tick w) = SessionId g id ∧ view (w_table w) !! id = Some d ∧
     (tok = AccessToken d ∨
      ∃ k t, oauth2_TokenSource_Token k (oauth2_config config)
               (Token_of_refresh (RefreshToken d)) = Ok t ∧ tok = t_AccessToken t) ∧
     match outgoing_request p (with_access_token r tok) with
     | Ok out =>
         r_Header out !! "Authorization"
           = (if drops (r_Header r) "Authorization" then None else Some ["Bearer " +:+ tok]) ∧
         r_URL out = px_target p ∧ r_Host out = URL_Host (px_target p)
     | Err e =>
         proxy_ServeHTTP p rw (with_access_token r tok) w1
           = proxy_ErrorHandler (px_ctx p) rw (with_access_token r tok) e w1
     end).
Proof using All.
  intros Ht Hl.
  destruct (AuthenticationMiddleware_refines impl view no_rows m config Hm
    refresh_needs_token clock_after_zero (ProxyRequestHandler p) rw r w Ht Hl) as (v & w1 & Hv & ->).
  assert (Hout : ∀ tok, match outgoing_request p (with_access_token r tok) with
    | Ok out =>
        r_Header out !! "Authorization"
          = (if drops (r_Header r) "Authorization" then None else Some ["Bearer " +:+ tok]) ∧
        r_URL out = px_target p ∧ r_Host out = URL_Host (px_target p)
    | Err e =>
        proxy_ServeHTTP p rw (with_access_token r tok) w1
          = proxy_ErrorHandler (px_ctx p) rw (with_access_token r tok) e w1
    end).
  { intros tok. destruct (outgoing_request _ _) as [out|e] eqn:Ho; [by apply outgoing_authorization|].
    unfold proxy_ServeHTTP. by rewrite Ho. }
  destruct Hv as [| | | |g id d n w1 Hlook Hd| | |g id d n k t raw w1 Hlook Hd _ _ Hr].
  5: { right. exists (AccessToken d), w1, g, id, d. split; [done|]. split; [done|]. split; [done|].
       split; [by left|apply Hout]. }
  7: { right. exists (t_AccessToken t), w1, g, id, d. split; [done|]. split; [done|].
       split; [done|]. split; [right; by exists k, t|apply Hout]. }
  all: left; eexists _, _, _, _; split; [|reflexivity]; lia.
Qed.
End ProxyProps.

(** ** The hypotheses can hold *)

#[local] Instance toy_mux_paths : MuxPaths := {| mux_redirect := λ _, None |}.
#[local] Instance toy_propagator : Propagator := {|
  propagator_Inject := λ _ h, Header_Set h "Traceparent" "00-trace-span-01" |}.

(** A service that answers with the [Authorization] header it was sent. *)
#[local] Instance toy_reverse_proxy : ReverseProxy := {|
  proxy_RoundTrip := λ _ _ r, ([], Ok (200, ∅, [Header_Get (r_Header r) "Authorization"]));
  proxy_body_error := λ _, None |}.

Lemma toy_keeps_values : otelhttp_keeps_values.
Proof. by intros n op ctx. Qed.

Lemma toy_inject : inject_keeps "Authorization".
Proof. intros ctx h. simpl. unfold Header_Set, Header in *. by rewrite lookup_insert_ne. Qed.

Lemma toy_inject_connection : inject_keeps "Connection".
Proof. intros ctx h. simpl. unfold Header_Set, Header in *. by rewrite lookup_insert_ne. Qed.

Lemma toy_skips : transport_skips_interim.
Proof. intros n cfg out i resp [= <- <-]. split; [constructor|]. by intros code h body [= <- _ _]. Qed.

Definition toy_proxy : Proxy := mkProxy toy_ctx (mkURL "http" "backend:8080" "/" "") (mkProxyConfig 0 0 0 0).

Lemma toy_proxies : Forall (λ ep : string * Proxy, has_logger (px_ctx ep.2)) [("/proxy", toy_proxy)].
Proof. constructor; [reflexivity|constructor]. Qed.

(** A request with headers of its own, for the proxied service. *)
Definition forging (h : Header) : Request :=
  let r := get_proxy cookie_A in
  mkRequest (r_Method r) (r_URL r) (r_PostForm r) (r_Cookies r) h (r_Host r) (r_RemoteAddr r)
    (r_RequestURI r) (r_Proto r) (r_ctx r).

Definition forged_request : Request := forging {["Authorization" := ["Bearer forged"]]}.

Definition toy_server : Handler := server toy_manager toy_config "/home" "/bye" [("/proxy", toy_proxy)].

(** The [Connection] header of the client names the one of the token: the service gets
    none. *)
Example connection_drops_the_token :
  rs_body (w_resp (http_serve toy_server (forging {["Connection" := ["close, authorization"]]})
    (toy_world bob_table)).2) = [""].
Proof. vm_compute. reflexivity. Qed.

(** The address of the client is sent twice: with its port by the Director, and without
    it by the reverse proxy. *)
Example forwarded_twice :
  match outgoing_request toy_proxy (get_proxy cookie_A) with
  | Ok out => Header_Get (r_Header out) "X-Forwarded-For"
  | Err _ => ""
  end = "10.0.0.1:4000, 10.0.0.1".
Proof. vm_compute. reflexivity. Qed.

(** A target whose status line says 099. *)
Definition odd_target : ReverseProxy := {|
  proxy_RoundTrip := λ _ _ _, ([], Ok (99, ∅, []));
  proxy_body_error := λ _, None |}.

Example odd_status_panics :
  let r := http_serve (@server _ _ _ _ _ _ _ _ _ _ odd_target _ _ toy_manager toy_config "/home" "/bye"
             [("/proxy", toy_proxy)]) (get_proxy cookie_A) (toy_world bob_table) in
  r.1 = Panic "invalid WriteHeader code 99" ∧ rs_sent (w_resp r.2) = None ∧ w_log r.2 = [].
Proof. vm_compute. split; [reflexivity|]. split; reflexivity. Qed.

Lemma every_request_is_answered_and_logged_witness :
  rs_body (w_resp (http_serve toy_server forged_request (toy_world bob_table)).2) = ["Bearer at-bob"] ∧
  ltac:(instance_of (every_request_is_answered_and_logged (sqlite_impl None) (store_view None)
    sqlite_no_rows toy_manager toy_config eq_refl toy_refresh_needs_token toy_clock_after_zero
    toy_keeps_values toy_skips "/home" "/bye" [("/proxy", toy_proxy)] forged_request
    (toy_world bob_table) toy_proxies)).
Proof.
  split; [vm_compute; reflexivity|].
  exact (every_request_is_answered_and_logged (sqlite_impl None) (store_view None)
    sqlite_no_rows toy_manager toy_config eq_refl toy_refresh_needs_token toy_clock_after_zero
    toy_keeps_values toy_skips "/home" "/bye" [("/proxy", toy_proxy)] forged_request
    (toy_world bob_table) toy_proxies).
Defined.

Lemma proxied_request_carries_the_session_token_witness :
  Header_Get (r_Header forged_request) "Authorization" = "Bearer forged" ∧
  ltac:(instance_of (proxied_request_carries_the_session_token toy_inject toy_inject_connection
    (sqlite_impl None) (store_view None) sqlite_no_rows toy_manager toy_config eq_refl
    toy_refresh_needs_token toy_clock_after_zero toy_proxy NetHttpWriter forged_request
    (toy_world bob_table) (toy_has_tracer "/proxy" "" cookie_A) (toy_has_logger "/proxy" "" cookie_A))).
Proof.
  split; [vm_compute; reflexivity|].
  exact (proxied_request_carries_the_session_token toy_inject toy_inject_connection
    (sqlite_impl None) (store_view None) sqlite_no_rows toy_manager toy_config eq_refl
    toy_refresh_needs_token toy_clock_after_zero toy_proxy NetHttpWriter forged_request
    (toy_world bob_table) (toy_has_tracer "/proxy" "" cookie_A) (toy_has_logger "/proxy" "" cookie_A)).
Defined.
