(* ===== verification/LoadConfigProps.v ===== *)
(** * Properties of the loading of the configuration *)

From stdpp Require Import base gmap strings list option.
From Stdlib Require Import ZArith Lia String.
From S2P Require Import Prelude GoBase Config LoadConfig ConfigProps.

#[local] Open Scope string_scope.

(** The tags of the fields. *)
Definition tags : list string := defaults.*1.

Lemma viper_Unmarshal_ext get get' :
  (∀ k, k ∈ tags → get k = get' k) → viper_Unmarshal get = viper_Unmarshal get'.
Proof.
  intros H. unfold viper_Unmarshal, field_string, field_bool.
  repeat rewrite H by (unfold tags; cbn [fmap list_fmap defaults fst]; set_solver).
  reflexivity.
Qed.

Lemma find_named (P : Flag → bool) fs k :
  (∀ f, same_key (f_name f) k = false → P f = false) →
  forallb (λ n, negb (same_key n k)) (f_name <$> fs) = true → find P fs = None.
Proof.
  intros HP. induction fs as [|f fs IH]; simpl; [done|].
  intros [Hf Hfs]%andb_prop. apply negb_true_iff in Hf. rewrite (HP _ Hf). by apply IH.
Qed.

(** No flag has the tag of a field for its name: the flags are spelled with dashes. *)
Lemma flags_are_not_tags k :
  k ∈ tags → forallb (λ n, negb (same_key n k)) (f_name <$> declared_flags) = true.
Proof.
  assert (Hall : forallb (λ k, forallb (λ n, negb (same_key n k)) (f_name <$> declared_flags)) tags
                 = true) by (vm_compute; reflexivity).
  rewrite forallb_forall in Hall. intros Hk. by apply Hall, list_elem_of_In.
Qed.

(** What the environment and the file give for a tag, whatever the flags. *)
Lemma viper_find_tag src ds fs k :
  k ∈ tags → f_name <$> fs = f_name <$> declared_flags →
  viper_find src ds fs k = viper_find src ds [] k.
Proof.
  intros Hk Hfs. pose proof (flags_are_not_tags k Hk) as Hn. rewrite <- Hfs in Hn.
  unfold viper_find.
  rewrite (find_named (λ f, f_changed f && same_key (f_name f) k) fs k)
    by (first [done | intros f ->; apply andb_false_r]).
  by rewrite (find_named (λ f, same_key (f_name f) k) fs k) by done.
Qed.

Section Load.
Context `{!Viper} `{!ViperLaws}.

(** [LoadConfig] is the validation of what the environment and the file give. *)
Lemma LoadConfig_sources src args r :
  LoadConfig src args = Some r →
  r = match viper_Unmarshal (viper_find src defaults []) with
      | Err err => (Config_zero, Some err)
      | Ok config => configValidate config
      end.
Proof.
  unfold LoadConfig. destruct (pflag_Parse declared_flags args) as [fs|] eqn:Hp; [|done].
  intros [= <-]. destruct (viper_BindPFlags_ok defaults fs) as [v Hv].
  unfold set_defaults. rewrite Hv.
  rewrite (viper_Unmarshal_ext (viper_Get src v) (viper_find src defaults [])); [done|].
  intros k Hk. rewrite (viper_Get_find _ _ _ _ _ Hv).
  apply viper_find_tag; [done|]. by eapply pflag_Parse_names.
Qed.

(** C37: the command line has no effect.  Two command lines the program accepts give
    the same configuration, or the same error, from the same environment and file:
    the flags are bound to keys with dashes, and the fields are read from keys with
    underscores. *)
Theorem command_line_has_no_effect src args args' r r' :
  LoadConfig src args = Some r → LoadConfig src args' = Some r' → r = r'.
Proof. intros ->%LoadConfig_sources ->%LoadConfig_sources. done. Qed.
End Load.

(** The environment that spells a configuration. *)
Definition environment_of (c : Config) : gmap string string :=
  list_to_map
   [("IS_PRODUCTION", if IsProduction c then "true" else "false"); ("LOG_LEVEL", LogLevel c);
    ("OIDC_ISSUER", OidcIssuer c); ("OIDC_CLIENT_ID", OidcClientID c);
    ("OIDC_CLIENT_SECRET", OidcClientSecret c); ("OIDC_REDIRECT_URL", OidcRedirectURL c);
    ("OIDC_POST_LOGIN_REDIRECT_URL", OidcPostLoginRedirectURL c);
    ("OIDC_POST_LOGOUT_REDIRECT_URL", OidcPostLogoutRedirectURL c);
    ("LISTEN_ADDR", ListenAddr c); ("COOKIE_DOMAIN", c_CookieDomain c);
    ("COOKIE_NAME", c_CookieName c); ("SESSION_AUTH_SECRET", SessionAuthSecret c);
    ("SESSION_ENC_SECRET", SessionEncSecret c); ("SESSION_OLD_AUTH_SECRET", SessionOldAuthSecret c);
    ("SESSION_OLD_ENC_SECRET", SessionOldEncSecret c); ("SESSION_DB_KEY", SessionDBKey c);
    ("SESSION_OLD_DB_KEY", SessionOldDBKey c); ("PROXY_CONFIG", ProxyConfig_ c);
    ("DB_TYPE", DBType c); ("DB_HOST", DBHost c); ("DB_NAME", DBName c);
    ("DB_USERNAME", DBUsername c); ("DB_PASSWORD", DBPassword c)].

(** A field, from a variable that is empty only if its default is. *)
Lemma field_string_env c k s :
  environment_of c !! ToUpper k = Some s →
  (s ≠ "" ∨ find (λ kx, same_key kx.1 k) (rev defaults) = Some (k, SString "")) →
  field_string (viper_find (mkSources (environment_of c) ∅) defaults []) k = Ok s.
Proof.
  intros Hs Hd. unfold field_string, viper_find. cbn [src_env src_file find].
  rewrite Hs, lookup_empty. simpl default.
  destruct s as [|a s]; [|done]. destruct Hd as [Hd|Hd]; [done|by rewrite Hd].
Qed.

Lemma field_bool_env c :
  field_bool (viper_find (mkSources (environment_of c) ∅) defaults []) "IS_PRODUCTION"
  = Ok (IsProduction c).
Proof.
  unfold field_bool, viper_find. cbn [src_env src_file find].
  assert (environment_of c !! ToUpper "IS_PRODUCTION"
          = Some (if IsProduction c then "true" else "false")) as -> by reflexivity.
  by destruct (IsProduction c).
Qed.

(** The fields whose default is not the empty string. *)
Lemma valid_not_empty c :
  valid_config c → ListenAddr c ≠ "" ∧ c_CookieDomain c ≠ "" ∧ c_CookieName c ≠ "" ∧
  SessionAuthSecret c ≠ "" ∧ DBType c ≠ "".
Proof.
  intros [_ (?&?&?) _ Ha _ _ _ _ Hd]. split_and!; [done..| |].
  - intros He. apply auth_not_empty in Ha. by rewrite He in Ha.
  - destruct Hd as [[-> _]|[-> _]]; done.
Qed.

Lemma Unmarshal_environment c :
  valid_config c → LogLevel c ≠ "" →
  viper_Unmarshal (viper_find (mkSources (environment_of c) ∅) defaults []) = Ok c.
Proof.
  intros (?&?&?&?&?)%valid_not_empty Hl. unfold viper_Unmarshal. rewrite field_bool_env.
  cbn [mbind result_bind].
  repeat (erewrite field_string_env;
    [cbn [mbind result_bind]|reflexivity|first [by left | by right]]).
  by destruct c.
Qed.

Section Roundtrip.
Context `{!Viper} `{!ViperLaws}.

(** C32: a configuration survives the environment: every valid configuration with a log
    level, spelled in the variables the fields are named after, is loaded back as it
    was, when there is no file. *)
Theorem environment_roundtrip c args r :
  valid_config c → LogLevel c ≠ "" →
  LoadConfig (mkSources (environment_of c) ∅) args = Some r → r = (c, None).
Proof.
  intros Hv Hl ->%LoadConfig_sources. rewrite Unmarshal_environment by done.
  by rewrite configValidate_first_error, (proj2 (valid_of_checks c) Hv).
Qed.
End Roundtrip.

(** ** The laws can hold: a small viper *)

(** Flags are written as pairs of words. *)
Fixpoint toy_parse_args (fs : list Flag) (args : list string) : option (list Flag) :=
  match args with
  | [] => Some fs
  | name :: value :: args =>
      if existsb (λ f, String.eqb ("--" +:+ f_name f) name) fs then
        toy_parse_args ((λ f, if String.eqb ("--" +:+ f_name f) name
                              then mkFlag (f_name f) (SString value) true else f) <$> fs) args
      else None
  | _ => None
  end.

#[local] Instance toy_viper : Viper := {|
  viper := list (string * setting) * list Flag;
  viper_New := ([], []);
  viper_SetDefault := λ v k x, ((v.1 ++ [(k, x)])%list, v.2);
  viper_BindPFlags := λ v fs, Ok (v.1, (v.2 ++ fs)%list);
  viper_Get := λ src v k, viper_find src v.1 v.2 k;
  pflag_Parse := toy_parse_args
|}.

Lemma toy_viper_of ds : viper_of ds = (ds, []).
Proof.
  assert (Hgen : ∀ ds ds0, fold_left (λ v kx, viper_SetDefault v kx.1 kx.2) ds (ds0, [])
                           = ((ds0 ++ ds)%list, [])); [|apply (Hgen ds [])].
  clear ds. induction ds as [|[k x] ds IH]; intros ds0; simpl; [by rewrite app_nil_r|].
  by rewrite IH, <-app_assoc.
Qed.

Lemma toy_parse_names fs args fs' :
  toy_parse_args fs args = Some fs' → f_name <$> fs' = f_name <$> fs.
Proof.
  revert args fs. fix IH 1. intros [|a [|v args]] fs; cbn [toy_parse_args]; [by intros [= ->]|done|].
  destruct (existsb _ _); [|done]. intros Hp. rewrite (IH _ _ Hp).
  rewrite <-list_fmap_compose. apply list_fmap_ext. intros i f _. cbn [compose]. by destruct (String.eqb _ _).
Qed.

#[local] Instance toy_viper_laws : ViperLaws.
Proof.
  split.
  - intros ds fs. by eexists.
  - intros src ds fs v k Hv. rewrite toy_viper_of in Hv. simpl in *. by simplify_eq/=.
  - intros fs args fs'. apply toy_parse_names.
Qed.

(** A valid configuration in the environment but for the issuer, which is given on the
    command line. *)
Definition without_issuer : Sources :=
  mkSources (delete "OIDC_ISSUER" (environment_of (conf "" "" ""))) ∅.

Lemma command_line_has_no_effect_witness :
  let r := LoadConfig without_issuer ["--oidc-issuer"; "https://idp"] in
  r = LoadConfig without_issuer [] ∧
  (snd <$> r) = Some (Some (Errorf_w_s ErrMissingParameter "oidc-issuer")).
Proof.
  intros r. split; [|vm_compute; reflexivity].
  destruct r as [c|] eqn:Hr; [|vm_compute in Hr; discriminate].
  destruct (LoadConfig without_issuer []) as [c'|] eqn:Hr'; [|vm_compute in Hr'; discriminate].
  f_equal. exact (command_line_has_no_effect without_issuer ["--oidc-issuer"; "https://idp"] [] c c' Hr Hr').
Defined.

Lemma conf_valid : valid_config (conf "" "" "").
Proof. apply valid_of_checks. vm_compute. reflexivity. Qed.

Lemma environment_roundtrip_witness :
  ∃ r, LoadConfig (mkSources (environment_of (conf "" "" "")) ∅) [] = Some r ∧
       r = (conf "" "" "", None).
Proof.
  destruct (LoadConfig (mkSources (environment_of (conf "" "" "")) ∅) []) as [r|] eqn:Hr;
    [|vm_compute in Hr; discriminate].
  exists r. split; [reflexivity|].
  refine (environment_roundtrip (conf "" "" "") [] r conf_valid _ Hr). discriminate.
Defined.
