(* ===== verification/StartupProps.v ===== *)
(** * Properties of the start of the process *)

From stdpp Require Import base gmap strings list option numbers.
From Stdlib Require Import ZArith Lia String.
From S2P Require Import Prelude GoBase Encoding World Telemetry Zlogger Database Sqlite.
From S2P Require Import Postgresql Oidc SessionConfig Sessions Config LoadConfig Manager.
From S2P Require Import Handlers Server Startup Concrete ConfigProps LoadConfigProps ServerProps.

#[local] Open Scope Z_scope.
#[local] Open Scope string_scope.

(** ** The singletons *)

(** Every method ends in the panic of a nil pointer. *)
Definition panics {A} (m : IO A) : Prop := ∀ w, (m w).1 = Panic nil_dereference.

Record unusable (impl : SessionImpl) : Prop := {
  unusable_Close ctx : panics (CloseConnection impl ctx);
  unusable_Add ctx s : panics (Add impl ctx s);
  unusable_Delete ctx id : panics (Delete impl ctx id);
  unusable_Get ctx id : panics (Get impl ctx id);
  unusable_Update ctx id s : panics (Update impl ctx id s);
  unusable_Purge ctx : panics (Purge impl ctx)
}.

Lemma panics_panic {A} : panics (panic (A:=A) nil_dereference).
Proof. by intros w. Qed.

Lemma panics_bind {A B} (m : IO A) (k : A → IO B) :
  no_panic m → (∀ a, panics (k a)) → panics (m ≫= k).
Proof.
  intros Hm Hk w. rewrite run_bind. destruct (Hm w) as [a Ha].
  destruct (m w) as [o w']; simpl in *. subst o. apply Hk.
Qed.

Lemma panics_bind_l {A B} (m : IO A) (k : A → IO B) : panics m → panics (m ≫= k).
Proof.
  intros Hm w. specialize (Hm w). rewrite run_bind.
  destruct (m w) as [o w']; simpl in *. by subst o.
Qed.

Lemma panics_span {A} ctx name (body : option Span → IO A) :
  (∀ s, panics (body s)) → panics (with_optional_span ctx name body).
Proof.
  intros Hb w. unfold with_optional_span, NewSpanFromContext.
  destruct (ctx_Value ctx opentelemetry_ctxKey) as [[]|]; try apply Hb.
  rewrite run_bind. simpl. unfold defer.
  match goal with |- context [body ?s ?w1] => pose proof (Hb s w1) as Hp; destruct (body s w1) end.
  simpl in *. by subst.
Qed.

Lemma no_panic_set_attributes span attrs : no_panic (set_attributes span attrs).
Proof. intros w. destruct span; by eexists. Qed.

Lemma nil_impl_unusable `{!Clock} `{!Uuid} inner : unusable (nil_impl inner).
Proof.
  split; intros; unfold nil_impl; cbn [CloseConnection Add Delete Get Update Purge];
    repeat first [ apply panics_panic
                 | apply panics_span; intros
                 | apply panics_bind; [by first [apply no_panic_set_attributes | apply no_panic_interact]|intros]
                 | apply panics_bind_l ].
Qed.

(** [made_once get make impl]: the first call makes [impl args], or fails; every later
    call, whatever its arguments, returns the instance of the first without an error;
    if the first has failed that instance is a nil pointer, whose methods panic. *)
Definition made_once {Args : Type} (get : Boot → Once)
    (make : Args → M Boot (option SessionImpl * option error)) (impl : Args → SessionImpl) : Prop :=
  ∀ args b, get b = Once_new →
  ∃ i err b1, make args b = (Ret (i, err), b1) ∧
    ∀ args' b2, get b2 = get b1 →
    ∃ j, make args' b2 = (Ret (Some j, None), b2) ∧
      match err with
      | None => i = Some (impl args) ∧ j = impl args
      | Some _ => i = None ∧ unusable j
      end.

(** The two ends of the function of a [once]. *)
Definition makes (init : IO (option error * option SessionImpl)) (impl : SessionImpl) : Prop :=
  ∀ w, (∃ e w', init w = (Ret (Some e, None), w')) ∨ (∃ w', init w = (Ret (None, Some impl), w')).

Lemma singleton_made_once {Args : Type} get set nil (init : Args → _) make impl :
  (∀ o b, get (set o b) = o) → unusable nil → (∀ args, makes (init args) (impl args)) →
  (∀ args : Args, make args = singleton get set nil (init args)) →
  made_once get make impl.
Proof.
  intros Hgs Hnil Hinit Hmake args b Hb. rewrite Hmake. unfold singleton at 1.
  rewrite run_bind. cbn [gets]. rewrite Hb. cbn [once_called Once_new].
  rewrite run_bind, run_bind. unfold lift.
  destruct (Hinit args (b_world b)) as [(e & w' & ->)|(w' & ->)]; cbn [fst snd].
  - eexists _, _, _. split; [reflexivity|]. intros args' b2 Hb2.
    rewrite Hmake. unfold singleton. rewrite run_bind. cbn [gets]. rewrite Hb2, Hgs. cbn. eexists. split; [reflexivity|].
    by rewrite Hb2, Hgs.
  - eexists _, _, _. split; [reflexivity|]. cbn. rewrite Hgs. cbn. intros args' b2 Hb2.
    rewrite Hmake. unfold singleton. rewrite run_bind. cbn [gets]. rewrite Hb2.
    cbn. eexists. split; [reflexivity|]. by rewrite Hb2.
Qed.

Section Constructors.
Context `{!Clock} `{!Uuid} `{!SqlDriver} `{!Databases}.

Lemma db_Create_returns failing dsn w : ∃ r w', db_Create failing dsn w = (Ret r, w').
Proof. unfold db_Create. rewrite run_bind. simpl. destruct (failing _); by eexists _, _. Qed.

Lemma sqlite_init_makes cipher database : makes (sqlite_init cipher database) (sqlite_impl cipher).
Proof.
  intros w. unfold sqlite_init. rewrite run_bind. cbn [interact].
  destruct (sql_Open _ _ _); [left; by eexists _, _|]. rewrite run_bind. cbn [modify].
  rewrite run_bind. edestruct db_Create_returns as (r & w' & ->).
  destruct r; [left|right]; repeat eexists.
Qed.

Lemma postgresql_init_makes cipher host database username password :
  makes (postgresql_init cipher host database username password) (postgresql_impl cipher).
Proof.
  intros w. unfold postgresql_init. rewrite run_bind. cbn [interact].
  destruct (pgx_Connect _ _); [left; by eexists _, _|]. rewrite run_bind. cbn [modify].
  rewrite run_bind. edestruct db_Create_returns as (r & w' & ->).
  destruct r; [left|right]; repeat eexists.
Qed.

(** C33: the constructors of the backends make one instance per process: a later call
    returns the instance of the first whatever database and cipher it asks for; and
    after a first call that failed, a second one reports no error and returns a nil
    pointer, whose first use panics. *)
Theorem constructors_are_singletons :
  made_once b_sqlite
    (λ '(ctx, cipher, database), NewSQLiteSessionImpl ctx cipher database)
    (λ '(ctx, cipher, database), sqlite_impl cipher) ∧
  made_once b_pg
    (λ '(ctx, cipher, host, database, username, password),
       NewPostgresqlSessionImpl ctx cipher host database username password)
    (λ '(ctx, cipher, host, database, username, password), postgresql_impl cipher).
Proof.
  split.
  - apply (singleton_made_once b_sqlite set_sqlite (nil_impl (λ _, []))
             (λ '(ctx, cipher, database), sqlite_init cipher database));
      [done|apply nil_impl_unusable|intros [[??]?]; apply sqlite_init_makes|by intros [[??]?]].
  - apply (singleton_made_once b_pg set_pg (nil_impl (λ ctx, ctx))
             (λ '(ctx, cipher, host, database, username, password),
                postgresql_init cipher host database username password));
      [done|apply nil_impl_unusable|intros [[[[[??]?]?]?]?]; apply postgresql_init_makes
      |by intros [[[[[??]?]?]?]?]].
Qed.
End Constructors.

(** ** The routes *)

Section Mount.
Context `{!Clock} `{!Uuid} `{!SqlDriver} `{!Databases} `{!CipherLib} `{!Telemetry_libs}.
Context `{!Files} `{!Viper} `{!Discovery} `{!UrlParser}.
Context `{!Network} `{!Otel} `{!Rand} `{!Redirector} `{!RealIP}.
Context `{!Gorilla} `{!OidcLib} `{!OAuth2} `{!BodyFault}.
Context `{!ReverseProxy} `{!Propagator} `{!MuxPaths}.
Implicit Types (mux : list (string * Handler)) (b : Boot).

Ltac not_listed :=
  first [ discriminate
        | let Hin := fresh in
          intros Hin%list_elem_of_In; simpl in Hin; repeat destruct Hin as [Hin|Hin]; done ].

Lemma mux_Handle_ok mux p h b :
  p ≠ "" → p ∉ mux.*1 → mux_Handle mux p h b = (Ret (mux ++ [(p, h)])%list, b).
Proof.
  intros Hp Hn. unfold mux_Handle. rewrite (proj2 (String.eqb_neq p "")) by done.
  destruct (existsb _ mux) eqn:He; [|done]. destruct Hn.
  apply existsb_exists in He as ([q k] & Hin & ->%String.eqb_eq).
  apply list_elem_of_fmap. exists (q, k). split; [done|by apply list_elem_of_In].
Qed.

Lemma mux_Handle_bad mux p h b :
  ¬ (p ≠ "" ∧ p ∉ mux.*1) → ∃ why, mux_Handle mux p h b = (Panic why, b).
Proof.
  intros Hbad. unfold mux_Handle. destruct (String.eqb_spec p ""); [by eexists|].
  destruct (existsb _ mux) eqn:He; [by eexists|]. destruct Hbad. split; [done|].
  intros ([q k] & -> & Hin)%list_elem_of_fmap. apply list_elem_of_In in Hin.
  rewrite <-not_true_iff_false, existsb_exists in He. destruct He.
  exists (q, k). split; [done|]. apply String.eqb_refl.
Qed.

(** The proxies of the configuration, by their endpoints; the ones whose target is not
    a URL are left out. *)
Definition proxies_of (ctx : Context) (l : list ProxyEntry) : list (string * Proxy) :=
  omap (λ pe, match NewProxy ctx (pe_Target pe) (pe_Parameters pe) with
              | Ok p => Some (pe_Endpoint pe, p)
              | Err _ => None
              end) l.

Definition targets_parse (l : list ProxyEntry) : Prop :=
  Forall (λ pe, ∃ u, url_Parse (pe_Target pe) = Ok u) l.

Definition proxy_route (st : Started) (ep : string * Proxy) : string * Handler :=
  (ep.1, opentelemetry_Middleware
           (AuthenticationMiddleware (st_manager st) (st_oidc st) (ProxyRequestHandler ep.2))
           tracer_name_ "GET /proxy").

(** [used] are the patterns registered before. *)
Fixpoint endpoints_ok (used : list string) (l : list string) : bool :=
  match l with
  | [] => true
  | p :: l => bool_decide (p ≠ "" ∧ p ∉ used) && endpoints_ok (used ++ [p])%list l
  end.

Lemma mount_proxies_run st mux l b :
  targets_parse l →
  if endpoints_ok mux.*1 (pe_Endpoint <$> l) then
    ∃ b', mount_proxies st mux l b
          = (Ret (Going (mux ++ (proxy_route st <$> proxies_of (st_ctx st) l))%list), b')
  else ∃ why b', mount_proxies st mux l b = (Panic why, b').
Proof.
  intros Hl. revert mux b. induction Hl as [|pe l [u Hu] _ IH]; intros mux b.
  { simpl. rewrite app_nil_r. by eexists. }
  cbn [endpoints_ok fmap list_fmap mount_proxies]. unfold zlog_Info, lift.
  rewrite run_bind. cbn [modify fst snd]. unfold proxies_of, NewProxy. cbn [omap list_omap].
  rewrite Hu. fold (proxies_of (st_ctx st) l). rewrite run_bind.
  case_bool_decide as Hp; cbn [andb].
  - destruct Hp as [Hne Hn]. rewrite mux_Handle_ok by done.
    match goal with |- context [mount_proxies st ?m l ?b1] => specialize (IH m b1) end.
    rewrite fmap_app in IH. cbn [fmap list_fmap fst] in IH.
    rewrite <-app_assoc in IH. exact IH.
  - match goal with |- context [mux_Handle mux ?p ?h ?b1] =>
      destruct (mux_Handle_bad mux p h b1 Hp) as [why ->] end.
    by eexists _, _.
Qed.

(** The configuration file gives the entries [l]. *)
Definition configured_proxies (c : Config) (l : list ProxyEntry) : Prop :=
  if String.eqb (ProxyConfig_ c) "" then l = []
  else ∀ n, ∃ file, os_ReadFile n (ProxyConfig_ c) = Ok file ∧ yaml_Unmarshal file = Ok l.

Lemma endpoints_ok_app used l l' :
  endpoints_ok used (l ++ l')%list = endpoints_ok used l && endpoints_ok (used ++ l)%list l'.
Proof.
  revert used. induction l as [|p l IH]; intros used; simpl; [by rewrite app_nil_r|].
  rewrite IH, <-app_assoc. by destruct (bool_decide _).
Qed.

Definition fixed_routes : list string := ["/login"; "/callback"; "/logout"; "/userinfo"].

Lemma mount_run st l b :
  configured_proxies (st_config st) l → targets_parse l →
  if endpoints_ok fixed_routes ((pe_Endpoint <$> l) ++ ["/"])%list then
    ∃ b', mount st b
      = (Ret (Going (server (st_manager st) (st_oidc st)
                       (OidcPostLoginRedirectURL (st_config st))
                       (OidcPostLogoutRedirectURL (st_config st)) (proxies_of (st_ctx st) l))), b')
  else ∃ why b', mount st b = (Panic why, b').
Proof.
  intros Hc Hl. unfold mount. do 4 (rewrite run_bind, mux_Handle_ok by not_listed; cbn [app]).
  rewrite run_bind. rewrite endpoints_ok_app.
  set (mux := [_; _; _; _]).
  assert (Hloop : ∃ b1,
    (if (ProxyConfig_ (st_config st) =? "")%string then mret (Going mux)
     else proxyConfigs ← lift (ReadProxyConfig (st_config st));
          match proxyConfigs with
          | Err err => zlog_Fatal "cannot read the proxy configuration" err
          | Ok proxyConfigs => mount_proxies st mux proxyConfigs
          end) b = mount_proxies st mux l b1).
  { unfold configured_proxies in Hc. destruct (String.eqb _ _); [subst l; by exists b|].
    destruct (Hc (w_tick (b_world b))) as (file & Hf & Hy).
    rewrite run_bind. unfold lift, ReadProxyConfig. rewrite run_bind. cbn [interact fst snd].
    rewrite Hf. cbn. rewrite Hy. by eexists. }
  destruct Hloop as [b1 ->]. pose proof (mount_proxies_run st mux l b1 Hl) as Hrun.
  change (mux.*1) with fixed_routes in Hrun.
  destruct (endpoints_ok fixed_routes (pe_Endpoint <$> l)); cbn [andb].
  - destruct Hrun as [b2 ->]. cbn [endpoints_ok]. rewrite andb_true_r.
    assert (Hkeys : (mux ++ (proxy_route st <$> proxies_of (st_ctx st) l))%list.*1
                    = (fixed_routes ++ (pe_Endpoint <$> l))%list).
    { rewrite fmap_app. f_equal. clear -Hl. induction Hl as [|pe l [u Hu] _ IH]; [done|].
      unfold proxies_of, NewProxy in *. cbn [omap list_omap]. rewrite Hu. cbn. by f_equal. }
    rewrite run_bind. case_bool_decide as Hp.
    + destruct Hp as [? Hn]. rewrite mux_Handle_ok by (rewrite ?Hkeys; done).
      rewrite run_bind. eexists. unfold zlog_Info, lift. cbn [modify fst snd].
      unfold server, routes. rewrite <-app_assoc. reflexivity.
    + rewrite <-Hkeys in Hp.
      match goal with |- context [mux_Handle ?mx ?p ?h ?b3] =>
        destruct (mux_Handle_bad mx p h b3 Hp) as [why ->] end. by eexists _, _.
  - destruct Hrun as (why & b2 & ->). by eexists _, _.
Qed.

Lemma mount_panics st l b :
  configured_proxies (st_config st) l → targets_parse l →
  endpoints_ok fixed_routes ((pe_Endpoint <$> l) ++ ["/"])%list = false →
  ∃ why b', mount st b = (Panic why, b').
Proof. intros Hc Hl Hbad. pose proof (mount_run st l b Hc Hl) as Hrun. by rewrite Hbad in Hrun. Qed.

(** C26: the routes.  When the configured targets are URLs, [main] serves the routes of
    the configuration if their endpoints are not empty, all different, and different
    from the fixed ones; otherwise the registration of a route panics, after every
    deferred call of [main] was registered. *)
Theorem main_mounts_the_routes st l b :
  configured_proxies (st_config st) l → targets_parse l →
  if endpoints_ok fixed_routes ((pe_Endpoint <$> l) ++ ["/"])%list then
    ∃ b', mount st b
      = (Ret (Going (server (st_manager st) (st_oidc st)
                       (OidcPostLoginRedirectURL (st_config st))
                       (OidcPostLogoutRedirectURL (st_config st)) (proxies_of (st_ctx st) l))), b')
  else ∃ why b', mount st b = (Panic why, b').
Proof. apply mount_run. Qed.
End Mount.

(** ** Up to the manager *)

Section StartUp.
Context `{!Clock} `{!Uuid} `{!SqlDriver} `{!Databases} `{!CipherLib} `{!Telemetry_libs}.
Context `{!Viper} `{!Discovery}.

(** The address of the database of a configuration. *)
Definition address (c : Config) : string :=
  if String.eqb (DBType c) "sqlite" then "file:" +:+ DBName c
  else "postgresql://" +:+ DBUsername c +:+ ":" +:+ DBPassword c +:+ "@" +:+ DBHost c +:+ "/"
         +:+ DBName c +:+ "?sslmode=disable".

Definition backend (c : Config) (cipher : option HexCipher) : SessionImpl :=
  if String.eqb (DBType c) "sqlite" then sqlite_impl cipher else postgresql_impl cipher.

(** Everything the start depends on answers. *)
Record environment_up (c : Config) (cipher : option HexCipher) (ep : Endpoints) : Prop := {
  up_level : ∃ l, zapcore_Level_Set (LogLevel c) = Ok l;
  up_tracer n host port : jaeger_New n host port = None;
  up_cipher : ∃ err, NewXChaCha20Cipher (SessionDBKey c) (SessionOldDBKey c) = (cipher, err) ∧
    cipher_refused err = None;
  up_sqlite n driver dsn : sql_Open n driver dsn = None;
  up_postgresql n dsn : pgx_Connect n dsn = None;
  up_statements : answering;
  up_provider n : ∃ body, http_Get n (OidcIssuer c +:+ openIDConfigurationPath) = Ok body ∧
    json_Decode_Endpoints body = Ok ep
}.

Lemma LoadConfig_validated src args c :
  LoadConfig src args = Some (c, None) → (configValidate c).2 = None.
Proof.
  unfold LoadConfig. destruct (pflag_Parse _ _) as [fs|]; [|done]. cbn.
  destruct (viper_BindPFlags _ _) as [v|]; [|done]. destruct (viper_Unmarshal _) as [c'|]; [|done].
  rewrite configValidate_first_error. intros [= <- Hv]. by rewrite configValidate_first_error.
Qed.

Lemma open_database_up ctx c cipher err ep b :
  environment_up c cipher ep → valid_config c → b_sqlite b = Once_new → b_pg b = Once_new →
  ∃ b', open_database ctx c cipher err b = (Ret (Some (backend c cipher), None), b') ∧
    b_otel b' = b_otel b ∧ w_table (b_world b') = default ∅ (stored_table (address c)) ∧
    w_open (b_world b') = true ∧ w_log (b_world b') = w_log (b_world b).
Proof.
  intros [_ _ _ Hs Hp Hq _] Hv Hbs Hbp. unfold open_database, backend, address.
  assert (Hdb : DBType c = "sqlite" ∨ DBType c = "postgresql") by (destruct Hv; tauto).
  destruct Hdb as [-> | ->]; cbn [String.eqb Ascii.eqb Bool.eqb].
  - unfold NewSQLiteSessionImpl, singleton. rewrite run_bind. cbn [gets]. rewrite Hbs.
    cbn [once_called Once_new]. rewrite run_bind, run_bind. unfold lift, sqlite_init.
    rewrite run_bind. cbn [interact]. rewrite Hs, run_bind. cbn [modify]. rewrite run_bind.
    unfold db_Create. rewrite run_bind. cbn [interact]. rewrite (proj1 (Hq _)). cbn.
    eexists. by split.
  - unfold NewPostgresqlSessionImpl, singleton. rewrite run_bind. cbn [gets]. rewrite Hbp.
    cbn [once_called Once_new]. rewrite run_bind, run_bind. unfold lift, postgresql_init.
    rewrite run_bind. cbn [interact]. rewrite Hp, run_bind. cbn [modify]. rewrite run_bind.
    unfold db_Create, pgx_create_failure. rewrite run_bind. cbn [interact].
    rewrite (proj2 (Hq _)). cbn. eexists. by split.
Qed.

(** The state a call that left the process leaves. *)
Definition ticked (b : Boot) : Boot :=
  mkBoot (b_sqlite b) (b_pg b) (b_otel b) (set_tick S (b_world b)).

Definition tracer_setup (service host port : string) : Provider_ :=
  mkProvider AlwaysSample (host, port) service.

Definition otel_globals (tp : Provider_) : OtelGlobals :=
  mkOtelGlobals (Some tp) [TraceContext; Baggage].

Lemma InitTracer_run service host port b :
  InitTracer service host port b
  = match jaeger_New (w_tick (b_world b)) host port with
    | Some err => (Ret (Err err), ticked b)
    | None =>
        let tp := tracer_setup service host port in
        (Ret (Ok tp), set_globals (λ _, otel_globals tp) (ticked b))
    end.
Proof. unfold InitTracer. rewrite run_bind. unfold lift. cbn. by destruct (jaeger_New _ _ _). Qed.

(** [quiet m]: [m] returns, and logs nothing. *)
Definition quiet {A} (m : M Boot A) : Prop :=
  ∀ b, ∃ a b', m b = (Ret a, b') ∧ w_log (b_world b') = w_log (b_world b).

Lemma quiet_ret {A} (a : A) : quiet (mret a).
Proof. intros b. by eexists _, _. Qed.

Lemma quiet_gets {A} (f : Boot → A) : quiet (gets f).
Proof. intros b. by eexists _, _. Qed.

Lemma quiet_modify f : (∀ b, w_log (b_world (f b)) = w_log (b_world b)) → quiet (modify f).
Proof. intros Hf b. eexists _, _. split; [done|]. apply Hf. Qed.

Lemma quiet_bind {A B} (m : M Boot A) (k : A → M Boot B) :
  quiet m → (∀ a, quiet (k a)) → quiet (m ≫= k).
Proof.
  intros Hm Hk b. destruct (Hm b) as (a & b1 & Hb1 & Hl1).
  destruct (Hk a b1) as (a2 & b2 & Hb2 & Hl2).
  exists a2, b2. rewrite run_bind, Hb1. split; [done|congruence].
Qed.

Lemma quiet_lift {A} (m : IO A) :
  no_panic m → preserves w_log m → quiet (lift m).
Proof.
  intros Hn Hl b. destruct (Hn (b_world b)) as [a Ha]. unfold lift. rewrite Ha.
  eexists _, _. split; [done|]. apply Hl.
Qed.

Lemma makes_no_panic init impl : makes init impl → no_panic init.
Proof. intros Hm w. destruct (Hm w) as [(e & w' & ->)|(w' & ->)]; by eexists. Qed.

Lemma db_Create_log failing dsn : preserves w_log (db_Create failing dsn).
Proof. intros w. unfold db_Create. rewrite run_bind. simpl. by destruct (failing _). Qed.

Lemma quiet_singleton get set nil init impl :
  makes init impl → preserves w_log init →
  (∀ o b, b_world (set o b) = b_world b) → quiet (singleton get set nil init).
Proof.
  intros Hm Hl Hs. unfold singleton. apply quiet_bind; [apply quiet_gets|]. intros o.
  apply quiet_bind.
  - destruct (once_called o); [apply quiet_ret|].
    apply quiet_bind; [by apply quiet_lift; [eapply makes_no_panic|]|]. intros [e inst].
    apply quiet_bind; [|intros _; apply quiet_ret]. apply quiet_modify. intros b. by rewrite Hs.
  - intros [e|]; [apply quiet_ret|]. apply quiet_bind; [apply quiet_gets|]. intros ?. apply quiet_ret.
Qed.

Lemma sqlite_init_log cipher database : preserves w_log (sqlite_init cipher database).
Proof.
  intros w. unfold sqlite_init. rewrite run_bind. cbn [interact].
  destruct (sql_Open _ _ _); [done|]. rewrite run_bind. cbn [modify]. rewrite run_bind.
  edestruct db_Create_returns as (r & w' & Hc). rewrite Hc.
  pose proof (db_Create_log sql_failure ("file:" +:+ database) (set_open true (set_tick S w))) as Hl.
  rewrite Hc in Hl. by destruct r.
Qed.

Lemma postgresql_init_log cipher host database username password :
  preserves w_log (postgresql_init cipher host database username password).
Proof.
  intros w. unfold postgresql_init. set (dsn := "postgresql://" +:+ _).
  rewrite run_bind. cbn [interact].
  destruct (pgx_Connect _ _); [done|]. rewrite run_bind. cbn [modify]. rewrite run_bind.
  edestruct db_Create_returns as (r & w' & Hc). rewrite Hc.
  pose proof (db_Create_log pgx_create_failure dsn (set_open true (set_tick S w))) as Hl.
  rewrite Hc in Hl. by destruct r.
Qed.

Lemma quiet_open_database ctx c cipher err : quiet (open_database ctx c cipher err).
Proof.
  unfold open_database. destruct (String.eqb _ _); [|destruct (String.eqb _ _); [|apply quiet_ret]].
  - eapply quiet_singleton; [apply sqlite_init_makes|apply sqlite_init_log|done].
  - eapply quiet_singleton; [apply postgresql_init_makes|apply postgresql_init_log|done].
Qed.

Lemma NewConfiguration_cases a b c d w :
  ∃ w', w_log w' = w_log w ∧
    ((∃ e, NewConfiguration a b c d w = (Ret (None, Some e), w')) ∨
     (∃ o, NewConfiguration a b c d w = (Ret (Some o, None), w'))).
Proof.
  unfold NewConfiguration, getOidcEndpoints. rewrite run_bind, run_bind. cbn [interact].
  destruct (http_Get _ _) as [body|e]; [destruct (json_Decode_Endpoints body) as [ep|e]|];
    (eexists; split; [|first [by left; eexists | by right; eexists]]; reflexivity).
Qed.

Lemma NewManager_cases n c :
  (∃ e, NewManager n c = (None, Some e)) ∨
  (∃ m i, NewManager n c = (Some m, None) ∧ SessionImpl_ c = Some i).
Proof.
  unfold NewManager. destruct (SessionImpl_ c) as [i|]; [|by left; eexists].
  destruct (keyPairsAsSlice c) as [s [e|]]; [by left; eexists|right; by eexists _, _].
Qed.

(** The log gains at most one entry, at level fatal. *)
Definition fatal_log (b b' : Boot) : Prop :=
  ∃ message err, w_log (b_world b')
    = (w_log (b_world b) ++ [mkLogEntry FatalLevel message [("error", FError err)]])%list.

(** Whatever fails during the start, [main] does not panic: it goes on with a
    manager on the session storage it has opened, and has logged nothing; or ends the
    process, and has logged nothing (before there is a logger) or one fatal entry. *)
Theorem start_up_never_panics src args b :
  ∃ r b', start_up src args b = (Ret r, b') ∧
    match r with
    | Going st => w_log (b_world b') = w_log (b_world b)
    | Exited => w_log (b_world b') = w_log (b_world b) ∨ fatal_log b b'
    end.
Proof.
  unfold start_up. destruct (LoadConfig src args) as [[c [e|]]|];
    [eexists _, _; split; [reflexivity|by left]| |eexists _, _; split; [reflexivity|by left]].
  destruct (NewLogger _ _); [|eexists _, _; split; [reflexivity|by left]].
  rewrite run_bind, InitTracer_run.
  destruct (jaeger_New _ _ _) as [e|]; [eexists _, _; split; [reflexivity|by right; eexists _, _]|].
  cbv beta iota zeta. destruct (NewXChaCha20Cipher _ _) as [cipher err].
  destruct (cipher_refused err) as [e|]; [eexists _, _; split; [reflexivity|by right; eexists _, _]|].
  rewrite run_bind.
  match goal with |- context [open_database ?ctx c cipher err ?b1] =>
    destruct (quiet_open_database ctx c cipher err b1) as ([impl err2] & b2 & -> & Hl2) end.
  cbn [b_world w_log set_tick set_globals ticked] in Hl2.
  destruct err2 as [e|].
  { eexists _, _. split; [reflexivity|]. right. eexists _, _. simpl. by rewrite Hl2. }
  rewrite run_bind. unfold lift at 1.
  match goal with |- context [NewConfiguration ?x ?y ?z ?t ?w] =>
    destruct (NewConfiguration_cases x y z t w) as (w3 & Hl3 & [[e ->]|[o ->]]) end; cbn [fst snd].
  { eexists _, _. split; [reflexivity|]. right. eexists _, _. simpl. by rewrite Hl3, Hl2. }
  destruct impl as [i|].
  all: match goal with |- context [session_configuration ?cf ?impl] =>
    destruct (NewManager_cases 0 (session_configuration cf impl)) as [[e ->]|(m & j & -> & Hj)] end.
  all: first [discriminate | eexists _, _; split; [reflexivity|]; simpl].
  1, 3: right; eexists _, _; simpl; by rewrite Hl3, Hl2.
  by rewrite Hl3, Hl2.
Qed.

(** The logger of a level: what is written is the preset of zap under the four fields. *)
Definition zap_logger (l : Level) (production : bool) : ZapLogger :=
  if production then
    mkZapLogger (NewJSONEncoder (mkEncoderConfig ISO8601TimeEncoder LowercaseLevelEncoder "message" ""
                   (other_keys zap_NewProductionEncoderConfig)), ["stdout"], l)
      [AddCaller; AddCallerSkip 1; AddStacktrace ErrorLevel]
  else
    mkZapLogger (NewConsoleEncoder (mkEncoderConfig ISO8601TimeEncoder LowercaseLevelEncoder "message" ""
                   (other_keys zap_NewDevelopmentEncoderConfig)), ["stdout"], l)
      [AddCaller; AddCallerSkip 1; AddStacktrace ErrorLevel; Development].

Lemma NewLogger_made level production l :
  zapcore_Level_Set level = Ok l → NewLogger level production = Ok (zap_logger l production).
Proof. intros Hl. unfold NewLogger. rewrite Hl. by destruct production. Qed.

(** C27: the start.  In a new process whose configuration is accepted, with no 24-byte
    key (which the validation accepts, and the creation of the manager does not), and
    whose environment answers, [main] reaches the point where its deferred
    calls are registered: the manager has the backend the configuration names, over
    the rows stored at its address, one pair of keys, and the endpoints the
    provider has published.  The pair is the old one when the configuration has an old
    authentication key, and the current one is then not used at all; it is the current
    one otherwise.  The logger writes JSON or text to the standard output, from
    the configured level; the global tracer samples everything; and nothing was logged. *)
Theorem start_up_makes_the_manager src args c cipher ep l b :
  LoadConfig src args = Some (c, None) → no_24_byte_key c → environment_up c cipher ep →
  zapcore_Level_Set (LogLevel c) = Ok l → b_sqlite b = Once_new → b_pg b = Once_new →
  ∃ b', start_up src args b = (Ret (Going (mkStarted c (zap_logger l (IsProduction c))
      (tracer_setup "token-handler" "localhost" "6831") (zlogger_NewContext []) (backend c cipher)
      (mkManager (c_CookieName c) 300 (30 * Minute)
         (mkCookieStore
            (if missing (SessionOldAuthSecret c) then [SessionAuthSecret c; SessionEncSecret c]
             else [SessionOldAuthSecret c; SessionOldEncSecret c])
            (mkOptions "/" (c_CookieDomain c) 0 true true SameSiteStrictMode))
         (backend c cipher) 0)
      (mkOidcConfig
         (mkOauth2Config (OidcClientID c) (OidcClientSecret c) (AuthorizationEndpoint ep)
            (TokenEndpoint ep) ["openid"; "profile"; "email"] (OidcRedirectURL c))
         (OidcIssuer c) ep))), b') ∧
    b_otel b' = otel_globals (tracer_setup "token-handler" "localhost" "6831") ∧
    w_table (b_world b') = default ∅ (stored_table (address c)) ∧
    w_open (b_world b') = true ∧ w_log (b_world b') = w_log (b_world b).
Proof.
  intros Hload Hkeys Henv Hlevel Hbs Hbp. pose proof (LoadConfig_validated _ _ _ Hload) as Hval.
  assert (Hv : valid_config c).
  { apply valid_of_checks. by rewrite configValidate_first_error in Hval. }
  unfold start_up. rewrite Hload. rewrite (NewLogger_made _ _ _ Hlevel).
  rewrite run_bind, InitTracer_run, (up_tracer _ _ _ Henv). cbv beta iota zeta. destruct (up_cipher _ _ _ Henv) as (err & -> & Hr). rewrite Hr.
  rewrite run_bind.
  match goal with |- context [open_database ?ctx c cipher err ?b1] =>
    destruct (open_database_up ctx c cipher err ep b1 Henv Hv Hbs Hbp) as (b' & -> & Hot & Ht & Ho & Hl) end.
  rewrite run_bind. unfold lift, NewConfiguration. rewrite run_bind. unfold getOidcEndpoints.
  rewrite run_bind. cbn [interact].
  destruct (up_provider _ _ _ Henv (w_tick (b_world b'))) as (body & -> & ->).
  cbn [mret M_ret fst snd]. rewrite (valid_config_makes_a_manager 0 c _ Hval Hkeys).
  eexists. split; [reflexivity|]. by split_and!.
Qed.
End StartUp.

(** ** The hypotheses can hold *)

#[local] Existing Instance toy_viper.
#[local] Existing Instance toy_mux_paths.
#[local] Existing Instance toy_propagator.
#[local] Existing Instance toy_reverse_proxy.

#[local] Instance toy_databases : Databases := {|
  sql_Open := λ _ _ _, None;
  pgx_Connect := λ _ _, None;
  stored_table := λ dsn, if String.eqb dsn "file:sessions.db"
                         then Some {["id-0" := toy_row "bob" 1690000000]} else None
|}.

#[local] Instance toy_cipher_lib : CipherLib := {|
  NewXChaCha20Cipher := λ key old,
    if String.eqb key "" then (None, Some (ErrVar "encryption" "ErrNoEncryptionKeys" "no keys"))
    else (Some toy_cipher, None);
  ErrNoEncryptionKeys_text := "no keys"
|}.

#[local] Instance toy_telemetry : Telemetry_libs := {|
  zap_NewProductionEncoderConfig :=
    mkEncoderConfig PresetTimeEncoder PresetLevelEncoder "msg" "caller" [("level", "level"); ("time", "ts")];
  zap_NewDevelopmentEncoderConfig :=
    mkEncoderConfig PresetTimeEncoder PresetLevelEncoder "M" "C" [("level", "L"); ("time", "T")];
  zapcore_Level_Set := λ l,
    if String.eqb l "debug" then Ok DebugLevel else if String.eqb l "info" then Ok InfoLevel
    else if String.eqb l "warn" then Ok WarnLevel else if String.eqb l "error" then Ok ErrorLevel
    else Err (ErrorString "unrecognized level");
  jaeger_New := λ _ _ _, None
|}.

Definition proxy_entry (endpoint : string) : ProxyEntry :=
  mkProxyEntry endpoint "http://backend:8080/" (mkProxyConfig 0 0 0 0).

#[local] Instance toy_files : Files := {|
  os_ReadFile := λ _ name, Ok name;
  yaml_Unmarshal := λ file,
    Ok (if String.eqb file "proxy.yaml" then [proxy_entry "/proxy"]
        else [proxy_entry "/proxy"; proxy_entry "/login"])
|}.

#[local] Instance toy_url : UrlParser := {|
  url_Parse := λ s, if String.eqb s "http://backend:8080/"
                    then Ok (mkURL "http" "backend:8080" "/" "")
                    else Err (ErrorString "parse: invalid URL") |}.

#[local] Instance toy_discovery : Discovery := {|
  http_Get := λ _ url, Ok url;
  json_Decode_Endpoints := λ _, Ok (OidcEndpoints toy_config)
|}.

Definition new_process : Boot := mkBoot Once_new Once_new (mkOtelGlobals None []) (toy_world ∅).

Lemma toy_environment_up : environment_up (conf "" "" "") None (OidcEndpoints toy_config).
Proof.
  split; try done.
  - by eexists.
  - exists (Some ErrNoEncryptionKeys). by split.
  - intros n. by eexists.
Qed.

Lemma toy_loaded :
  LoadConfig (mkSources (environment_of (conf "" "" "")) ∅) [] = Some (conf "" "" "", None).
Proof. vm_compute. reflexivity. Qed.

Lemma toy_keys : no_24_byte_key (conf "" "" "").
Proof. split; [discriminate|by left]. Qed.

Lemma start_up_makes_the_manager_witness :
  ltac:(let T := type of (start_up_makes_the_manager
          (mkSources (environment_of (conf "" "" "")) ∅) [] (conf "" "" "") None
          (OidcEndpoints toy_config) InfoLevel new_process toy_loaded toy_keys toy_environment_up
          eq_refl eq_refl eq_refl) in exact T).
Proof.
  exact (start_up_makes_the_manager
          (mkSources (environment_of (conf "" "" "")) ∅) [] (conf "" "" "") None
          (OidcEndpoints toy_config) InfoLevel new_process toy_loaded toy_keys toy_environment_up
          eq_refl eq_refl eq_refl).
Defined.

(** A process that has come so far, with the proxies of [file]. *)
Definition toy_started (file : string) : Started :=
  let c := conf "" "" "" in
  mkStarted
    (mkConfig true "info" (OidcIssuer c) (OidcClientID c) (OidcClientSecret c) (OidcRedirectURL c)
       (OidcPostLoginRedirectURL c) (OidcPostLogoutRedirectURL c) (ListenAddr c) (c_CookieDomain c)
       (c_CookieName c) (SessionAuthSecret c) "" "" "" "" "" file "sqlite" "" (DBName c) "" "")
    (zap_logger InfoLevel true) (tracer_setup "token-handler" "localhost" "6831")
    (zlogger_NewContext []) (sqlite_impl None) toy_manager toy_config.

Lemma toy_targets l : targets_parse (proxy_entry <$> l).
Proof. apply Forall_fmap, Forall_true. intros ep. by eexists. Qed.

Lemma toy_proxies_ok : configured_proxies (st_config (toy_started "proxy.yaml")) (proxy_entry <$> ["/proxy"]).
Proof. intros n. by eexists. Qed.

Lemma toy_proxies_twice :
  configured_proxies (st_config (toy_started "twice.yaml")) (proxy_entry <$> ["/proxy"; "/login"]).
Proof. intros n. by eexists. Qed.

(** One proxy is served; a proxy on the endpoint of the login is a panic. *)
Lemma main_mounts_the_routes_witness :
  (∃ h b', mount (toy_started "proxy.yaml") new_process = (Ret (Going h), b')) ∧
  (∃ why b', mount (toy_started "twice.yaml") new_process = (Panic why, b')).
Proof.
  split.
  - destruct (main_mounts_the_routes (toy_started "proxy.yaml") (proxy_entry <$> ["/proxy"])
                new_process toy_proxies_ok (toy_targets _)) as [b' Hb'].
    eexists. exists b'. exact Hb'.
  - exact (main_mounts_the_routes (toy_started "twice.yaml") (proxy_entry <$> ["/proxy"; "/login"])
             new_process toy_proxies_twice (toy_targets _)).
Defined.
