(* ===== verification/ShutdownProps.v ===== *)
(** * Properties of the shutdown *)

From stdpp Require Import base gmap strings list option numbers relations.
From Stdlib Require Import ZArith Lia String.
From S2P Require Import Prelude GoBase Encoding World Telemetry Zlogger Database Sqlite.
From S2P Require Import Postgresql Oidc SessionConfig Sessions Config LoadConfig Manager.
From S2P Require Import Cleaner Handlers Server Startup Shutdown Concrete ConfigProps.
From S2P Require Import LoadConfigProps ServerProps StartupProps.

#[local] Open Scope Z_scope.
#[local] Open Scope string_scope.

Section Simulation.
Context `{!Otel} `{!SqlDriver} `{!TracerProvider}.
Context (ctx : Context) (c : nat → Configuration) (impl : SessionImpl).

Abbreviation steps := (rtc (process_step (λ _, ctx) c (λ _, impl))).

Lemma one_step p q q' : process_step (λ _, ctx) c (λ _, impl) p q' → q' = q → steps p q.
Proof. intros Hp <-. by apply rtc_once. Qed.

Ltac same_process :=
  f_equal; repeat case_match;
  rewrite ?union_empty_r_L, ?union_idemp_L, ?difference_diag_L; done.

Ltac here := by apply elem_of_singleton.

Ltac process_step_is tac := eapply one_step; [tac|same_process].

(** The running process implements the process of the cleaner: a step of its
    goroutines that does not kill it is a sequence of steps of the process with one
    manager, whose channel [main] waits for. *)
Theorem main_refines_the_cleaner_process s s' :
  main_step ctx impl s s' → rn_pc s' ≠ Killed →
  rtc (process_step (λ _, ctx) c (λ _, impl)) (process_of s) (process_of s').
Proof.
  intros Hstep Hk.
  destruct Hstep as [| |? ? ? ? ? ? ? ? Hr|? ? ? ? ? ? ? Hr| | | | |? ? ? ? w' Hr| | | |
    nt can cl h w]; unfold process_of in *; simpl in *; try done.
  - process_step_is ltac:(apply step_outside).
  - process_step_is ltac:(apply (step_once_run _ _ _ _ _ _ _ _ _ 0%nat); here).
  - process_step_is ltac:(by apply step_tick).
  - process_step_is ltac:(apply (step_stop _ _ _ _ _ _ _ _ _ 0%nat); [here|exact Hr]).
  - process_step_is ltac:(apply (step_cancel _ _ _ _ _ _ _ _ _ _ 0%nat)).
  - etrans; [process_step_is ltac:(apply step_outside)|].
    process_step_is ltac:(apply (step_wait _ _ _ _ _ _ _ _ _ _ 0%nat)).
  - process_step_is ltac:(apply (step_wait_returns _ _ _ _ _ _ _ _ _ _ 0%nat); [here|here|exact Hr]).
  - process_step_is ltac:(apply step_outside).
  - process_step_is ltac:(apply step_outside).
  - process_step_is ltac:(apply step_outside).
  - process_step_is ltac:(apply (step_cancel _ _ _ _ _ _ _ _ _ _ 0%nat)).
Qed.
End Simulation.

Section Shutdown.
Context `{!Clock} `{!Uuid} `{!SqlDriver} `{!Otel} `{!TracerProvider}.
Context (ctx : Context) (Hctx : has_logger ctx) (impl : SessionImpl).
Implicit Types (s : Running).

(** The database outlives the cleaner.  From every start, in every reachable state
    in which the main goroutine has closed the connection, the cleaner has stopped,
    after the interruption, and never runs again: no purge meets a closed database. *)
Theorem connection_closes_after_the_cleaner r s s' :
  rtc (main_step ctx impl) (after_mount r) s → connection_closed (rn_pc s) = true →
  rtc (main_step ctx impl) s s' →
  rn_cancelled s = true ∧ rn_cleaner s = CleanerStopped ∧ rn_cleaner s' = CleanerStopped.
Proof.
  intros Hs Hc Hs'.
  destruct (main_invariant_steps _ _ _ _ Hs (main_invariant_start r)) as (Hw & Hcan & _).
  assert (Hst : rn_cleaner s = CleanerStopped).
  { apply Hw. unfold waited. by destruct (rn_pc s). }
  split; [auto|]. split; [done|]. clear Hs Hc Hw Hcan. induction Hs'; eauto using cleaner_stays_stopped.
Qed.

Lemma log_to_runs l message fields w : ∃ w', log_to ctx l message fields w = (Ret tt, w').
Proof using Hctx.
  assert (Htwp : twp (log_to ctx l message fields) (λ _ _, True) w).
  { apply twp_bind, twp_zlogger_FromContext; [done|]. intros. by apply twp_modify. }
  destruct Htwp as ([] & Hr & _). destruct (log_to ctx l message fields w) as [o w'].
  simpl in Hr. subst o. by exists w'.
Qed.

(** Both backends close their connection and return. *)
Definition closes : Prop := ∀ c w, ∃ e w', CloseConnection impl c w = (Ret e, w').

Lemma close_connection_runs w : closes → ∃ w', close_connection ctx impl w = (Ret tt, w').
Proof.
  intros Hc. unfold close_connection. rewrite run_bind. destruct (Hc ctx w) as (e & w' & ->).
  destruct e; by eexists.
Qed.

Lemma shutdown_tracer_runs can w : ∃ w', shutdown_tracer can w = (Ret tt, w').
Proof.
  unfold shutdown_tracer. rewrite run_bind. cbn [interact].
  destruct (tp_Shutdown _ _) as [e|]; [destruct (errors_Is _ _)|]; by eexists.
Qed.

(** What a signal does: the first one cancels the context; once main has called [stop]
    it kills the process. *)
Definition signalled s : Running :=
  if rn_notified s then
    mkRunning (rn_pc s) true true (rn_cleaner s) (rn_handler s) (rn_world s)
  else mkRunning Killed false (rn_cancelled s) (rn_cleaner s) (rn_handler s) (rn_world s).

(** A step that is not the arrival of a signal. *)
Definition unsignalled_step s s' : Prop := main_step ctx impl s s' ∧ s' ≠ signalled s.

Lemma unsignalled_steps s s' : rtc unsignalled_step s s' → rtc (main_step ctx impl) s s'.
Proof. apply rtc_subrel. by intros ? ? []. Qed.

Abbreviation reaches_end s := (∃ s', rtc unsignalled_step s s' ∧ rn_pc s' = Ended).

(** A step of the main goroutine or of the cleaner is not the arrival of a signal. *)
Lemma then_reaches s s1 :
  main_step ctx impl s s1 →
  (rn_pc s1 ≠ rn_pc s ∧ rn_pc s1 ≠ Killed) ∨ rn_cleaner s1 ≠ rn_cleaner s →
  reaches_end s1 → reaches_end s.
Proof.
  intros Hs Hne (s' & Hs' & He). exists s'. split; [|done]. eapply rtc_l; [|done]. split; [done|].
  intros ->. unfold signalled in Hne. destruct (rn_notified s); simpl in Hne;
    destruct Hne as [[? ?]|?]; congruence.
Qed.

(** The deferred calls, once the cleaner has stopped. *)
Lemma ends_from_stopping nt can cl h w : reaches_end (mkRunning Stopping nt can cl h w).
Proof. eapply then_reaches; [by apply run_ended|by left|]. eexists. by split. Qed.

Lemma ends_from_syncing nt can cl h w : reaches_end (mkRunning SyncingLogger nt can cl h w).
Proof. eapply then_reaches; [by apply run_synced|by left|]. apply ends_from_stopping. Qed.

Lemma ends_from_tracer nt can cl h w : reaches_end (mkRunning ShuttingTracer nt can cl h w).
Proof.
  destruct (shutdown_tracer_runs can w) as [w1 Hw1].
  eapply then_reaches; [by apply run_tracer|by left|]. apply ends_from_syncing.
Qed.

Lemma ends_from_closing nt can cl h w :
  closes → reaches_end (mkRunning ClosingConnection nt can cl h w).
Proof.
  intros Hc. destruct (close_connection_runs w Hc) as [w1 Hw1].
  eapply then_reaches; [by apply run_closed|by left|]. apply ends_from_tracer.
Qed.

Lemma deferred_calls_end nt can h w :
  closes → reaches_end (mkRunning WaitingCleaner nt can CleanerStopped h w).
Proof using Hctx.
  intros Hc.
  destruct (log_to_runs DebugLevel "session manager: the expired sessions cleaner is now stopped" [] w)
    as [w1 Hw1]. eapply then_reaches; [by apply run_waited|by left|]. by apply ends_from_closing.
Qed.

(** The cleaner, once the context is cancelled. *)
Lemma cleaner_stops_then pc nt cl h w :
  pc ≠ Ended → pc ≠ Killed →
  (∀ w', reaches_end (mkRunning pc nt true CleanerStopped h w')) →
  reaches_end (mkRunning pc nt true cl h w).
Proof using Hctx.
  intros He Hk Hs.
  assert (Hrun : ∀ w, reaches_end (mkRunning pc nt true CleanerRunning h w)).
  { intros w0.
    destruct (log_to_runs DebugLevel "session manager: stopping the expired sessions cleaner job" [] w0)
      as [w1 Hw1]. by eapply then_reaches; [apply run_cleaner_stops|right|]. }
  destruct cl; [|done|done]. by eapply then_reaches; [apply run_cleaner_starts|right|].
Qed.

Lemma ends_when_cancelled s :
  closes → main_invariant s → rn_pc s ≠ Killed → rn_cancelled s = true → reaches_end s.
Proof using Hctx.
  intros Hc (Hw & _ & _) Hk Hcan. destruct s as [pc nt can cl h w]. simpl in *. subst can.
  destruct pc; try done.
  - apply cleaner_stops_then; [done..|]. intros w1.
    eapply then_reaches; [by apply run_interrupted|by left|]. by apply deferred_calls_end.
  - apply cleaner_stops_then; [done..|]. intros w1. by apply deferred_calls_end.
  - by apply ends_from_closing.
  - apply ends_from_tracer.
  - apply ends_from_syncing.
  - apply ends_from_stopping.
  - eexists. by split.
Qed.

(** Before a signal, main serves or waits, and the cleaner has not stopped. *)
Definition awaiting s : Prop :=
  rn_cancelled s = false ∧ rn_cleaner s ≠ CleanerStopped ∧
  (rn_pc s = Serving ∨ rn_pc s = WaitingCleaner ∨ rn_pc s = Killed).

Lemma awaiting_invariant s : main_invariant s → rn_cancelled s = false → awaiting s.
Proof.
  intros (Hw & Hcl & _) Hcan. split; [done|].
  assert (Hne : rn_cleaner s ≠ CleanerStopped) by (intros Hst; rewrite Hcl in Hcan; done).
  split; [done|]. destruct (rn_pc s); try tauto; destruct Hne; by apply Hw.
Qed.

Lemma awaiting_step s s' : unsignalled_step s s' → awaiting s → awaiting s'.
Proof.
  intros [Hstep Hne] (Hcan & Hcl & Hpc).
  destruct Hstep; unfold awaiting, signalled in *; simpl in *; intuition congruence.
Qed.

(** C30: one signal ends the process, and without one it does not end.  In every state
    that [main] reaches and that was not killed:
    - while no signal has come, one can come and cancels the context, and however the
      requests and the cleaner go on without it, [main] does not reach its end;
    - once one has come, there is a way to the end of [main], with the cleaner stopped
      and all the deferred calls run, on which no further signal comes, whatever the
      errors of the database and of the tracer. *)
Theorem one_signal_ends_the_process r s :
  closes → rtc (main_step ctx impl) (after_mount r) s → rn_pc s ≠ Killed →
  if rn_cancelled s then ∃ s', rtc unsignalled_step s s' ∧ rn_pc s' = Ended
  else (main_step ctx impl s (signalled s) ∧ rn_cancelled (signalled s) = true ∧
        rn_pc (signalled s) = rn_pc s) ∧
       ∀ s', rtc unsignalled_step s s' → rn_pc s' ≠ Ended.
Proof using Hctx.
  intros Hc Hs Hk.
  pose proof (main_invariant_steps _ _ _ _ Hs (main_invariant_start r)) as Hinv.
  destruct (rn_cancelled s) eqn:Hcan; [by apply ends_when_cancelled|]. split.
  - destruct Hinv as (Hw & Hcl & Hnot). destruct s as [pc nt can cl h w]. simpl in *. subst can.
    destruct nt; [|discriminate (Hnot eq_refl)]. split; [|done]. apply run_signal; [|done].
    intros ->. discriminate (Hcl (Hw eq_refl)).
  - intros s' Hs'. assert (Ha : awaiting s').
    { assert (Ha0 : awaiting s) by by apply awaiting_invariant. clear Hinv Hcan Hk Hs.
      induction Hs'; eauto using awaiting_step. }
    destruct Ha as (_ & _ & Hpc). intros He. rewrite He in Hpc. by destruct Hpc as [|[]].
Qed.

(** A start that panicked, before any signal. *)
Definition stuck s : Prop :=
  rn_handler s = None ∧
  (rn_cancelled s = false → rn_pc s = WaitingCleaner ∧ rn_notified s = true ∧
                            rn_cleaner s ≠ CleanerStopped).

Lemma stuck_step s s' : main_step ctx impl s s' → stuck s → stuck s'.
Proof. unfold stuck. destruct 1; simpl; intuition congruence. Qed.
End Shutdown.

Lemma stuck_steps `{!Otel} `{!SqlDriver} `{!TracerProvider} ctx impl s s' :
  rtc (main_step ctx impl) s s' → stuck s → stuck s'.
Proof. induction 1; eauto using stuck_step. Qed.

Section BadEndpoint.
Context `{!Clock} `{!Uuid} `{!SqlDriver} `{!Databases} `{!CipherLib} `{!Telemetry_libs}.
Context `{!Files} `{!Viper} `{!Discovery} `{!UrlParser}.
Context `{!Network} `{!Otel} `{!Rand} `{!Redirector} `{!RealIP}.
Context `{!Gorilla} `{!OidcLib} `{!OAuth2} `{!BodyFault}.
Context `{!ReverseProxy} `{!Propagator} `{!MuxPaths} `{!TracerProvider}.

(** C38: a bad endpoint hangs the process.  When the endpoint of a configured proxy is
    empty, repeated, or one of the server's own, the panic of its registration does
    not end the process: [main] waits in its deferred [WaitSessionCleaner] for a
    cleaner that only stops once the context is cancelled, and the [stop] that would
    cancel it is deferred behind; the process neither serves nor ends until a signal
    comes. *)
Theorem bad_endpoint_hangs_until_a_signal st l b s :
  configured_proxies (st_config st) l → targets_parse l →
  endpoints_ok fixed_routes ((pe_Endpoint <$> l) ++ ["/"])%list = false →
  rtc (main_step (st_ctx st) (st_impl st)) (after_mount (mount st b)) s →
  rn_cancelled s = false →
  rn_handler s = None ∧ rn_pc s = WaitingCleaner ∧
  ∀ s', main_step (st_ctx st) (st_impl st) s s' → rn_pc s' = WaitingCleaner.
Proof.
  intros Hc Hl Hbad Hs Hcan.
  destruct (mount_panics st l b Hc Hl Hbad) as (why & b' & Hm). rewrite Hm in Hs.
  destruct (stuck_steps _ _ _ _ Hs) as [Hh Hw]; [by split|].
  destruct (Hw Hcan) as (Hpc & Hnot & Hcl). split; [done|]. split; [done|].
  intros s' Hstep. destruct Hstep; simpl in *; congruence.
Qed.
End BadEndpoint.

(** ** The hypotheses can hold *)

#[local] Existing Instances toy_viper toy_mux_paths toy_propagator toy_reverse_proxy.
#[local] Existing Instances toy_databases toy_cipher_lib toy_telemetry toy_files toy_url.
#[local] Existing Instance toy_discovery.

(** The exporter notices that its context is cancelled. *)
#[local] Instance toy_tracer_provider : TracerProvider := {|
  tp_Shutdown := λ _ cancelled, if cancelled then Some context_Canceled else None |}.

Lemma toy_closes : closes (sqlite_impl None).
Proof. intros c w. by eexists _, _. Qed.

(** A process that serves, without requests. *)
Definition serving : outcome (main_end Handler) * Boot :=
  (Ret (Going (λ _ _, mret tt)), new_process).

Lemma toy_ends :
  ∃ s, rtc (main_step toy_ctx (sqlite_impl None)) (after_mount serving) s ∧ rn_pc s = Ended.
Proof.
  edestruct (ends_when_cancelled toy_ctx eq_refl (sqlite_impl None)
               (mkRunning Serving true true CleanerNew (Some (λ _ _, mret tt)) (toy_world ∅)))
    as (s & Hs & He); [apply toy_closes|by split_and!|done|done|].
  exists s. split; [|exact He].
  eapply rtc_l; [by apply run_signal|]. exact (unsignalled_steps _ _ _ _ Hs).
Qed.

Lemma connection_closes_after_the_cleaner_witness :
  ∃ s, rtc (main_step toy_ctx (sqlite_impl None)) (after_mount serving) s ∧
    rn_cancelled s = true ∧ rn_cleaner s = CleanerStopped ∧ rn_cleaner s = CleanerStopped.
Proof.
  destruct toy_ends as (s & Hs & He). exists s. split; [exact Hs|].
  apply (connection_closes_after_the_cleaner toy_ctx (sqlite_impl None) serving s s Hs);
    [rewrite He; reflexivity|apply rtc_refl].
Defined.

Lemma one_signal_ends_the_process_witness :
  let s := after_mount serving in
  (main_step toy_ctx (sqlite_impl None) s (signalled s) ∧ rn_cancelled (signalled s) = true ∧
   rn_pc (signalled s) = Serving) ∧
  ∃ s', rtc (unsignalled_step toy_ctx (sqlite_impl None)) (signalled s) s' ∧ rn_pc s' = Ended.
Proof.
  intros s.
  assert (H0 : rtc (main_step toy_ctx (sqlite_impl None)) s s) by apply rtc_refl.
  destruct (one_signal_ends_the_process toy_ctx eq_refl (sqlite_impl None) serving s toy_closes H0)
    as [(Hs & Hc & Hp) _]; [discriminate|].
  split; [split; [exact Hs|split; [exact Hc|exact Hp]]|].
  apply (one_signal_ends_the_process toy_ctx eq_refl (sqlite_impl None) serving (signalled s) toy_closes
           (rtc_once _ _ Hs)). discriminate.
Defined.

Lemma main_refines_the_cleaner_process_witness :
  let s := mkRunning Serving true false CleanerNew None (toy_world ∅) in
  let s' := mkRunning Serving true true CleanerNew None (toy_world ∅) in
  rtc (process_step (λ _, toy_ctx) (λ _, session_configuration (conf "" "" "") None)
         (λ _, sqlite_impl None)) (process_of s) (process_of s').
Proof.
  intros s s'. apply (main_refines_the_cleaner_process toy_ctx _ (sqlite_impl None) s s');
    [apply run_signal; discriminate|discriminate].
Defined.

Lemma bad_endpoint_hangs_until_a_signal_witness :
  let s := after_mount (mount (toy_started "twice.yaml") new_process) in
  rn_handler s = None ∧ rn_pc s = WaitingCleaner ∧
  ∀ s', main_step (st_ctx (toy_started "twice.yaml")) (st_impl (toy_started "twice.yaml")) s s' →
    rn_pc s' = WaitingCleaner.
Proof.
  intros s.
  apply (bad_endpoint_hangs_until_a_signal (toy_started "twice.yaml")
           (proxy_entry <$> ["/proxy"; "/login"]) new_process s toy_proxies_twice (toy_targets _));
    [reflexivity|apply rtc_refl|reflexivity].
Defined.
