(* ===== verification/InterleavingProps.v ===== *)
(** * Properties of concurrent requests *)

From stdpp Require Import base gmap strings list option numbers relations.
From Stdlib Require Import ZArith Lia.
From S2P Require Import Prelude GoBase Encoding World Telemetry Zlogger Database Sqlite Oidc.
From S2P Require Import SessionConfig Sessions CookieLaws Handlers Server MiddlewareSpec.
From S2P Require Import HandlerSpec Concrete ZloggerProps MiddlewareProps ServerProps Interleaving.

#[local] Open Scope Z_scope.
#[local] Open Scope string_scope.
#[local] Open Scope list_scope.

Section Entries.
Context `{!Clock} `{!RealIP} (next : Handler).
Implicit Types (w : World).

Lemma entry_core_log rec latency r l message :
  entry_core (mkLogEntry (log_level (sr_Status rec)) message (log_fields rec latency r l))
  = (log_level (sr_Status rec),
     [("status", FInt (sr_Status rec)); ("size", FInt (sr_Written rec));
      ("method", FString (r_Method r)); ("uri", FString (r_RequestURI r));
      ("host", FString (r_RemoteAddr r))]).
Proof. reflexivity. Qed.

Lemma begin_request_run w :
  begin_request w
  = (Ret (clock_now (w_tick w)), set_tick S (set_rec (λ _, mkStatusRecorder 200 0) w)).
Proof. reflexivity. Qed.

(** The entry [log_request] writes in the world [w]. *)
Definition entry_in (start : Time) (r : Request) w : LogEntry :=
  mkLogEntry (log_level (sr_Status (w_recorder w))) (log_message (sr_Status (w_recorder w)) (w_logger w))
    (log_fields (w_recorder w) (clock_now (w_tick w) - start) r (w_logger w)).

Lemma log_request_run start r w :
  log_request start r w = (Ret tt, add_log (entry_in start r w) (set_tick S w)).
Proof. reflexivity. Qed.

Lemma clean_logger_run w :
  clean_logger w
  = (Ret tt, set_logger (λ l, mkLogger None "" (traceID l) (spanID l)) w).
Proof. reflexivity. Qed.

Ltac run_part Hr :=
  rewrite ?begin_request_run, ?log_request_run, ?clean_logger_run in Hr; simplify_eq.

Ltac phases :=
  unfold was_logged;
  match goal with Hp : ex_phase _ = _ |- _ => rewrite ?Hp end;
  simpl.

(** A step of exchange [e] that writes nothing to the log. *)
Ltac same_entries e :=
  eapply invariant_same with (e := e); try done;
  try (lazymatch goal with
       | |- _ ↔ _ => phases; split; intros [?|?]; try discriminate; auto
       | |- _ ∨ _ => first [by left | right; phases; by intros [?|?]]
       end).

Lemma log_invariant_step log0 s s' :
  logs_nothing next → interleaved_step next s s' → log_invariant log0 s → log_invariant log0 s'.
Proof.
  intros Hn Hstep.
  assert (Hquiet : ∀ e w, w_log (next (RecorderOf NetHttpWriter) (in_logger (ex_request e))
                                   (as_seen_by e w)).2 = w_log w).
  { intros e w. rewrite Hn; [done|]. apply ctx_Value_WithValue_eq. }
  destruct Hstep as [es w i e start w' Hi Hp Hr|es w i e start w' Hi Hp Hr|
    es w i e start why w' Hi Hp Hr|es w i e start w' Hi Hp Hr|es w i e w' Hi Hp Hr|
    es w i e w' Hi Hp Hr|es w i e start l Hi Hp].
  - run_part Hr. same_entries e.
  - same_entries e. by rewrite <-(Hquiet e w), Hr.
  - same_entries e. by rewrite <-(Hquiet e w), Hr.
  - run_part Hr.
    eapply invariant_logged with (e := e); try done; [|by left].
    phases. by intros [?|?].
  - run_part Hr. same_entries e.
  - run_part Hr. same_entries e.
  - done.
Qed.

Lemma log_invariant_steps log0 s s' :
  logs_nothing next → rtc (interleaved_step next) s s' → log_invariant log0 s →
  log_invariant log0 s'.
Proof. intros Hn. induction 1; eauto using log_invariant_step. Qed.

Lemma log_invariant_start rs w : log_invariant (w_log w) (arrived <$> rs, w).
Proof.
  exists []. simpl. split; [by rewrite app_nil_r|].
  replace (filter was_logged (arrived <$> rs)) with (@nil Exchange); [done|].
  symmetry. induction rs as [|r rs IH]; [done|]. rewrite fmap_cons, filter_cons_False; [done|].
  by intros [?|?].
Qed.
End Entries.

Lemma requests_step `{!Clock} `{!RealIP} next s s' :
  interleaved_step next s s' → ex_request <$> s'.1 = ex_request <$> s.1.
Proof.
  destruct 1; simpl; [..|done];
    rewrite list_fmap_insert; simpl; apply list_insert_id; rewrite list_lookup_fmap;
    match goal with Hi : _ !! _ = Some _ |- _ => by rewrite Hi end.
Qed.

Lemma requests_steps `{!Clock} `{!RealIP} next s s' :
  rtc (interleaved_step next) s s' → ex_request <$> s'.1 = ex_request <$> s.1.
Proof. induction 1; [done|]. etrans; [eassumption|]. by eapply requests_step. Qed.

Section ServerLog.
Context `{!Clock} `{!Network} `{!Otel} `{!Rand} `{!Redirector} `{!RealIP}.
Context `{!Gorilla} `{!OidcLib} `{!OAuth2} `{!BodyFault} `{!Uuid} `{!SqlDriver}.
Context `{!ReverseProxy} `{!Propagator} `{!MuxPaths}.
Context (impl : SessionImpl) (view : gmap string Row → Store) (no_rows : string → error).
Context `{!LossyStore impl view no_rows}.
Context (m : Manager) (config : oidc_Config) (Hm : m_sessionImpl m = impl).
Context (refresh_needs_token :
  ∀ n c, ∃ e, oauth2_TokenSource_Token n c (Token_of_refresh "") = Err e).
Context (clock_after_zero : ∀ n, Time_zero < clock_now n).
Context (keeps : otelhttp_keeps_values).

(** C28: the access log under concurrency.  Whatever requests the server handles at the
    same time, and however their goroutines interleave, the log gains one entry per
    request that got so far, with its own level, status, size, method, address and
    URI, and none for the ones the proxy has aborted. *)
Theorem concurrent_requests_are_logged_once post_login post_logout proxies rs w es w' :
  Forall (λ ep, has_logger (px_ctx ep.2)) proxies →
  rtc (interleaved_step (mux_ServeHTTP (routes m config post_login post_logout proxies)))
      (arrived <$> rs, w) (es, w') →
  ex_request <$> es = rs ∧
  ∃ xs, w_log w' = w_log w ++ xs ∧
    (entry_core <$> xs) ≡ₚ core_of <$> filter was_logged es.
Proof using All.
  intros Hp Hsteps. split.
  { pose proof (requests_steps _ _ _ Hsteps) as Hr. simpl in Hr. rewrite Hr, <-list_fmap_compose.
    apply list_fmap_id. }
  apply (log_invariant_steps _ (w_log w) _ _) in Hsteps; [exact Hsteps| |apply log_invariant_start].
  intros rw r w0 Hl.
  assert (Hs : Forall (λ ph, serves_logged ph.2) (routes m config post_login post_logout proxies))
    by (by eapply routes_serve).
  by destruct (mux_serves _ Hs rw r w0 Hl) as [? _].
Qed.
End ServerLog.

Section SharedError.
Context `{!Clock} `{!Network} `{!Otel} `{!RealIP}.
Implicit Types (w : World) (l : Logger).

Lemma log_fields_no_error rec latency r l :
  lastErr l = None → "error" ∉ (log_fields rec latency r l).*1.
Proof.
  intros Hl. assert (Hf : Forall (λ f : string * FieldValue, f.1 ≠ "error") (log_fields rec latency r l)).
  { unfold log_fields. rewrite Hl, app_nil_r. repeat case_match; cbn [app];
      repeat (constructor; [discriminate|]); constructor. }
  intros ([n v] & Hn & Hin)%list_elem_of_fmap. rewrite Forall_forall in Hf.
  by apply (Hf _ Hin).
Qed.

Lemma log_fields_error rec latency r l e :
  lastErr l = Some e → ("error", FError e) ∈ log_fields rec latency r l.
Proof.
  intros Hl. unfold log_fields. rewrite Hl, !elem_of_app. do 6 right. by apply list_elem_of_singleton.
Qed.

(** The world in which the inner handler of a request starts. *)
Definition begun (r : Request) w : World :=
  set_tick S (set_rec (λ _, mkStatusRecorder 200 0) (as_seen_by (arrived r) w)).

(** The middleware up to the return of the inner handler. *)
Lemma answer_exchange next es i r w w2 :
  es !! i = Some (arrived r) →
  next (RecorderOf NetHttpWriter) (in_logger r) (begun r w) = (Ret tt, w2) →
  rtc (interleaved_step next) (es, w)
    (<[i := mkExchange r (w_resp w2) (w_rec w2) (Answered (clock_now (w_tick w)))]> es, w2).
Proof.
  intros Hi Hr. eapply rtc_l; [by eapply (il_begin _ _ _ _ _ _ _ Hi)|].
  eapply rtc_l.
  - eapply (il_handle _ _ _ i); [by apply list_lookup_insert_eq; eapply lookup_lt_Some|reflexivity|exact Hr].
  - rewrite list_insert_insert_eq. apply rtc_refl.
Qed.

(** The rest of the middleware. *)
Lemma log_exchange next es i r resp rec start w :
  es !! i = Some (mkExchange r resp rec (Answered start)) →
  let w1 := as_seen_by (mkExchange r resp rec (Answered start)) w in
  rtc (interleaved_step next) (es, w)
    (<[i := mkExchange r resp rec Finished]> es,
     set_logger (λ l, mkLogger None "" (traceID l) (spanID l))
       (add_log (entry_in start r w1) (set_tick S w1))).
Proof.
  intros Hi w1. eapply rtc_l; [by eapply (il_log _ _ _ _ _ _ _ Hi)|].
  eapply rtc_l.
  - eapply (il_clean _ _ _ i); [by apply list_lookup_insert_eq; eapply lookup_lt_Some|reflexivity|reflexivity].
  - rewrite list_insert_insert_eq. apply rtc_refl.
Qed.

(** C40: the error of one request can be logged for another.  When two requests are
    handled at the same time, one rejected with an error (of a final status) and one answered by a handler
    that reports none, there is an interleaving in which the entry of the second has
    the error and the description of the first, and the entry of the first has
    neither. *)
Theorem an_error_can_be_logged_for_another_request next rA rB code d e w :
  final_status code → d ≠ "" →
  (∀ w, next (RecorderOf NetHttpWriter) (in_logger rA) w
        = Logger_JsonError (RecorderOf NetHttpWriter) code d (Some e) w) →
  (∀ w, twp (next (RecorderOf NetHttpWriter) (in_logger rB))
          (λ _ w', w_log w' = w_log w ∧ lastErr (w_logger w') = lastErr (w_logger w) ∧
                   lastErrDescription (w_logger w') = lastErrDescription (w_logger w)) w) →
  ∃ es w' xA xB,
    rtc (interleaved_step next) (arrived <$> [rA; rB], w) (es, w') ∧
    Forall (λ e, ex_phase e = Finished) es ∧ w_log w' = w_log w ++ [xB; xA] ∧
    core_of <$> es = [entry_core xA; entry_core xB] ∧
    ("error", FError e) ∈ le_fields xB ∧
    (∃ status, le_message xB = ((StatusText status) +:+ ": " +:+ d)%string) ∧
    ¬ ("error" ∈ (le_fields xA).*1) ∧ le_message xA = StatusText code.
Proof.
  intros Hcode Hd HA HB.
  destruct (twp_Logger_JsonError (RecorderOf NetHttpWriter) code d (Some e)
    (λ _ w', w_log w' = w_log w ∧ lastErr (w_logger w') = Some e ∧
             lastErrDescription (w_logger w') = d) (begun rA w)) as ([] & HoA & HlA & HeA & HdA).
  { done. }
  { intros w' (_ & _ & _ & Hl) _ Hlog _ _ _. by rewrite Hlog. }
  pose proof (JsonError_status code d (Some e) (begun rA w) Hcode) as HsA. unfold recorded in HsA.
  rewrite <-HA in HoA, HlA, HeA, HdA, HsA.
  destruct (next (RecorderOf NetHttpWriter) (in_logger rA) (begun rA w)) as [oA w1] eqn:HrA.
  destruct (HB (begun rB w1)) as ([] & HoB & HlB & HeB & HdB).
  destruct (next (RecorderOf NetHttpWriter) (in_logger rB) (begun rB w1)) as [oB w2] eqn:HrB.
  simpl in HoA, HlA, HeA, HdA, HsA, HoB, HlB, HeB, HdB. subst oA oB.
  eexists _, _, _, _. split.
  { etrans; [by apply (answer_exchange next _ 0 rA)|].
    etrans; [by apply (answer_exchange next _ 1 rB)|].
    etrans; [by apply (log_exchange next _ 1)|]. by apply (log_exchange next _ 0). }
  split; [by repeat constructor|].
  split; [simpl; rewrite HlB, HlA, <-app_assoc; reflexivity|].
  split; [reflexivity|].
  split; [unfold entry_in; cbn [le_fields]; apply log_fields_error; simpl; congruence|].
  split.
  { eexists. simpl. unfold log_message. simpl. rewrite HdB, HdA.
    rewrite (proj2 (String.eqb_neq d "")) by done. reflexivity. }
  split; [unfold entry_in; cbn [le_fields]; by apply log_fields_no_error|].
  unfold w_recorder in HsA. simpl. unfold log_message, w_recorder. simpl. by rewrite HsA.
Qed.
End SharedError.

(** ** The hypotheses can hold *)

#[local] Existing Instances toy_mux_paths toy_propagator toy_reverse_proxy.

(** A page that is answered, next to one that is rejected. *)
Definition two_pages : Handler := λ rw r,
  if String.eqb (URL_Path (r_URL r)) "/good" then _ ← rw_Write rw "good"; mret tt
  else Logger_JsonError rw 401 "no session found" (Some ErrSessionNotFound).

Lemma two_pages_good w :
  twp (two_pages (RecorderOf NetHttpWriter) (in_logger (toy_request "/good" "" [])))
    (λ _ w', w_log w' = w_log w ∧ lastErr (w_logger w') = lastErr (w_logger w) ∧
             lastErrDescription (w_logger w') = lastErrDescription (w_logger w)) w.
Proof.
  change (two_pages (RecorderOf NetHttpWriter) (in_logger (toy_request "/good" "" [])))
    with (_ ← rw_Write (RecorderOf NetHttpWriter) "good"; mret tt : IO unit).
  apply twp_bind, twp_rw_Write. intros x w' (_ & _ & _ & Hl) [Hlog _] _ _ _. apply twp_ret.
  by rewrite Hl, Hlog.
Qed.

Lemma an_error_can_be_logged_for_another_request_witness :
  ∃ es w' xA xB,
    rtc (interleaved_step two_pages)
      (arrived <$> [toy_request "/bad" "" []; toy_request "/good" "" []], toy_world ∅) (es, w') ∧
    Forall (λ e, ex_phase e = Finished) es ∧ w_log w' = w_log (toy_world ∅) ++ [xB; xA] ∧
    core_of <$> es = [entry_core xA; entry_core xB] ∧
    ("error", FError ErrSessionNotFound) ∈ le_fields xB ∧
    (∃ status, le_message xB = ((StatusText status) +:+ ": " +:+ "no session found")%string) ∧
    ¬ ("error" ∈ (le_fields xA).*1) ∧ le_message xA = StatusText 401.
Proof.
  apply (an_error_can_be_logged_for_another_request two_pages (toy_request "/bad" "" [])
           (toy_request "/good" "" []) 401 "no session found" ErrSessionNotFound (toy_world ∅));
    [exact unauthorized_final|discriminate|intros w; reflexivity|exact two_pages_good].
Defined.

(** A proxied request and a login, answered and logged one inside the other. *)
Definition toy_mux : Handler :=
  mux_ServeHTTP (routes toy_manager toy_config "/home" "/bye" [("/proxy", toy_proxy)]).

Definition login_request : Request := toy_request "/login" "" [].

Lemma toy_interleaving :
  ∃ es w', rtc (interleaved_step toy_mux)
    (arrived <$> [forged_request; login_request], toy_world bob_table) (es, w') ∧
    Forall (λ e, ex_phase e = Finished) es.
Proof.
  set (w := toy_world bob_table).
  destruct (toy_mux (RecorderOf NetHttpWriter) (in_logger forged_request) (begun forged_request w))
    as [oA w1] eqn:HA.
  assert (oA = Ret tt) as -> by (apply (f_equal fst) in HA; vm_compute in HA; by subst oA).
  assert (Hw1 : w1 = (toy_mux (RecorderOf NetHttpWriter) (in_logger forged_request)
                        (begun forged_request w)).2) by by rewrite HA.
  destruct (toy_mux (RecorderOf NetHttpWriter) (in_logger login_request) (begun login_request w1))
    as [oB w2] eqn:HB.
  assert (oB = Ret tt) as ->.
  { apply (f_equal fst) in HB. rewrite Hw1 in HB. vm_compute in HB. by subst oB. }
  eexists _, _. split.
  - etrans; [by apply (answer_exchange toy_mux _ 0 forged_request)|].
    etrans; [by apply (answer_exchange toy_mux _ 1 login_request)|].
    etrans; [by apply (log_exchange toy_mux _ 1)|]. by apply (log_exchange toy_mux _ 0).
  - by repeat constructor.
Qed.

Lemma concurrent_requests_are_logged_once_witness :
  ∃ es w', Forall (λ e, ex_phase e = Finished) es ∧
    ex_request <$> es = [forged_request; login_request] ∧
    ∃ xs, w_log w' = w_log (toy_world bob_table) ++ xs ∧
      (entry_core <$> xs) ≡ₚ core_of <$> filter was_logged es.
Proof.
  destruct toy_interleaving as (es & w' & Hsteps & Hf). exists es, w'. split; [exact Hf|].
  exact (concurrent_requests_are_logged_once (sqlite_impl None) (store_view None)
          sqlite_no_rows toy_manager toy_config eq_refl toy_refresh_needs_token toy_clock_after_zero
          toy_keeps_values "/home" "/bye" [("/proxy", toy_proxy)] [forged_request; login_request]
          (toy_world bob_table) es w' toy_proxies Hsteps).
Defined.
