(* ===== verification/TypingProps.v ===== *)
(** * Properties of the database over the life of a process *)

From stdpp Require Import base gmap strings list option numbers relations.
From Stdlib Require Import ZArith Lia String.
From S2P Require Import Prelude GoBase Encoding World Telemetry Zlogger Database Sqlite.
From S2P Require Import Postgresql Oidc SessionConfig Sessions Config LoadConfig Manager.
From S2P Require Import Cleaner SessionLemmas Handlers Server Startup Shutdown Invariance.
From S2P Require Import Typing Closed MiddlewareSpec Concrete MiddlewareProps ConfigProps.
From S2P Require Import LoadConfigProps ServerProps StartupProps ShutdownProps.

#[local] Open Scope Z_scope.
#[local] Open Scope string_scope.

Section Life.
Context `{!Clock} `{!Uuid} `{!SqlDriver} `{!Databases} `{!CipherLib} `{!Telemetry_libs}.
Context `{!Files} `{!Viper} `{!Discovery} `{!UrlParser}.
Context `{!Network} `{!Otel} `{!Rand} `{!Redirector} `{!RealIP}.
Context `{!Gorilla} `{!OidcLib} `{!OAuth2} `{!BodyFault}.
Context `{!ReverseProxy} `{!Propagator} `{!MuxPaths} `{!TracerProvider}.

(** C22: encryption at rest over the whole life of a process.  When the configuration has
    a database key, so that the cipher library gives a cipher, every row of the table in
    every state the process reaches after its start, over all requests, purges, signals
    and deferred calls, either was already in the database, as it is, or is the row of a
    record whose access, refresh and id tokens were each encrypted by that cipher in a
    draw of its own: the process never writes a token in clear, on either backend. *)
Theorem process_encrypts_tokens_at_rest src args c cipher b st b1 s id r :
  LoadConfig src args = Some (c, None) →
  b_sqlite b = Once_new → b_pg b = Once_new →
  (NewXChaCha20Cipher (SessionDBKey c) (SessionOldDBKey c)).1 = Some cipher →
  start_up src args b = (Ret (Going st), b1) →
  rtc (main_step (st_ctx st) (st_impl st)) (after_mount (mount st b1)) s →
  w_table (rn_world s) !! id = Some r →
  w_table (b_world b1) !! id = Some r ∨ ∃ d, encrypted_by cipher d r.
Proof.
  intros Hc Hs Hp Hcipher Hst Hsteps Hr. set (P := at_rest cipher (w_table (b_world b1))).
  assert (Hwell : boot_well (StorageKeeps P) b).
  { split; intros i; [rewrite Hs|rewrite Hp]; done. }
  destruct (start_up_well (StorageKeeps P) (Some cipher)
    (λ inner, nil_keeps P (at_rest_about_db _ _) inner) _ _ src args c Hc Hcipher b Hwell) as [_ Hgoing].
  rewrite Hst in Hgoing. destruct (Hgoing _ eq_refl st eq_refl) as (_ & Hm & Hk).
  assert (Hfinal : P (rn_world s)); [|by apply Hfinal].
  eapply keeps_main_steps; [apply at_rest_about_db|exact Hk|exact Hsteps|].
  apply (keeping_after_mount P P (at_rest_about_db _ _) (at_rest_about_db _ _) st anything Hm).
  intros id' r' Hr'. by left.
Qed.

(** The connection is closed once the main goroutine has closed it. *)
Definition closed_when_told (s : Running) : Prop :=
  connection_closed (rn_pc s) = true → closed (rn_world s).

Lemma closed_when_told_step ctx impl s s' `{!ClosedStorage impl} :
  main_step ctx impl s s' → keeping_handler closed s ∧ closed_when_told s →
  keeping_handler closed s' ∧ closed_when_told s'.
Proof.
  intros Hstep [Hh Hc]. unfold closed_when_told in *.
  destruct (connection_closed (rn_pc s)) eqn:Hpc.
  - destruct (keeps_main_step closed closed_about_db anything impl ctx s s' Hstep); [by auto|by split].
  - destruct Hstep; simpl in *; (split; [done|]); intros Hpc'; try congruence.
    unfold close_connection in *. match goal with Hr : _ = (Ret tt, _) |- _ => revert Hr end.
    rewrite run_bind. destruct (close_closes (impl:=impl) ctx w) as (e & w1 & -> & Hw1).
    destruct e; by intros [= <-].
Qed.

Lemma closed_when_told_steps ctx impl s s' `{!ClosedStorage impl} :
  rtc (main_step ctx impl) s s' → keeping_handler closed s → closed_when_told s →
  closed_when_told s'.
Proof.
  induction 1 as [s|s s1 s2 Hs _ IH]; [done|]. intros Hh Hc.
  destruct (closed_when_told_step _ _ _ _ Hs (conj Hh Hc)). by apply IH.
Qed.

(** C29: requests after the close.  Once the main goroutine has closed the database, the
    connection stays closed in every later state; the server may still handle
    requests, and every one that presents a session, whatever its id, is answered 401
    or 500: the handler behind the middleware does not run. *)
Theorem requests_after_the_close_are_rejected view no_rows st b s next rw r w g id :
  LossyStore (st_impl st) view no_rows → ClosedStorage (st_impl st) →
  m_sessionImpl (st_manager st) = st_impl st →
  rtc (main_step (st_ctx st) (st_impl st)) (after_mount (mount st b)) s →
  connection_closed (rn_pc s) = true →
  same_db (rn_world s) w → has_tracer (r_ctx r) → has_logger (r_ctx r) →
  cookie_lookup (st_manager st) r (w_tick w) = SessionId g id →
  ∃ code d e w1, (code = 401 ∨ code = 500) ∧ w_table w1 = w_table (rn_world s) ∧
    AuthenticationMiddleware (st_manager st) (st_oidc st) next rw r w
      = Logger_JsonError rw code d (Some e) w1.
Proof.
  intros Hstore Hcl Hm Hsteps Hpc Hdb Ht Hl Hlook.
  assert (Hs : closed (rn_world s)).
  { eapply closed_when_told_steps; [exact Hcl|exact Hsteps| | |exact Hpc].
    - apply (keeping_after_mount (λ _, True) closed (λ _ _ _ Hx, Hx) closed_about_db st anything Hm b I).
    - destruct (mount st b) as [[[|h]|e] b']; by intros ?. }
  assert (Hw : closed w) by (by apply (closed_about_db _ _ Hdb)).
  destruct (closed_middleware (st_impl st) view no_rows (st_manager st) (st_oidc st) Hm next rw r w g id)
    as (code & d & e & w1 & Hcode & Htab & Hrun); [done..|].
  exists code, d, e, w1. split; [done|]. split; [|done]. rewrite Htab. by destruct Hdb.
Qed.
End Life.

(** ** The hypotheses can hold *)

#[local] Existing Instances toy_viper toy_mux_paths toy_propagator toy_reverse_proxy.
#[local] Existing Instances toy_cipher_lib toy_telemetry toy_files toy_url toy_discovery.

(** A database that holds the session of a user in clear, from before there was a key. *)
#[local] Instance databases_with_bob : Databases := {|
  sql_Open := λ _ _ _, None;
  pgx_Connect := λ _ _, None;
  stored_table := λ _, Some {[ "A" := toy_row "bob" 1690000000 ]}
|}.

#[local] Instance no_tracer : TracerProvider := {| tp_Shutdown := λ _ _, None |}.

Definition sealed_conf : Config :=
  mkConfig true "info" "https://idp" "client" "secret" "https://app/callback" "/" "/bye" ":9080"
    "app" "session" secret32 "" "" "" secret32 "" "" "sqlite" "" "sessions.db" "" "".

Definition sealed_sources : Sources := mkSources (environment_of sealed_conf) ∅.

Definition sealed_start : outcome (main_end Started) * Boot := start_up sealed_sources [] new_process.

(** The process after the login of another user: the steps of its two requests. *)
Definition sealed_login (s : Running) : Running :=
  let exchange r s :=
    match rn_handler s with
    | Some h => mkRunning (rn_pc s) (rn_notified s) (rn_cancelled s) (rn_cleaner s) (Some h)
                  (h NetHttpWriter r (new_exchange (rn_world s))).2
    | None => s
    end in
  let s1 := exchange (toy_request "/login" "" []) s in
  exchange (toy_next_request "/callback"
    ("state=" +:+ QueryEscape (base64_URLEncoding (fill 128 (rand_Read 7 128).1)) +:+ "&code=code-alice")
    (rn_world s1)) s1.

Definition served_state : option Running :=
  match sealed_start with
  | (Ret (Going st), b) => Some (sealed_login (after_mount (mount st b)))
  | _ => None
  end.

Lemma sealed_login_steps ctx impl s :
  rn_pc s = Serving → rtc (main_step ctx impl) s (sealed_login s).
Proof.
  intros Hpc. unfold sealed_login. destruct s as [pc nt can cl [h|] w]; simpl in *; [|done]. subst pc.
  eapply rtc_l; [by apply run_request|]. by apply rtc_once, run_request.
Qed.

Lemma sealed_loaded : LoadConfig sealed_sources [] = Some (sealed_conf, None).
Proof. vm_compute. reflexivity. Qed.

Lemma sealed_cipher :
  (NewXChaCha20Cipher (SessionDBKey sealed_conf) (SessionOldDBKey sealed_conf)).1 = Some toy_cipher.
Proof. reflexivity. Qed.

Lemma sealed_table :
  (served_state ≫= λ s, row_access_token <$> w_table (rn_world s) !! "id-18") = Some "0cat-alice-14".
Proof. vm_compute. reflexivity. Qed.

Lemma sealed_serves :
  match sealed_start with
  | (Ret (Going st), b) => rn_pc (after_mount (mount st b)) = Serving
  | _ => False
  end.
Proof. vm_compute. reflexivity. Qed.

Lemma process_encrypts_tokens_at_rest_witness :
  ∃ st b s r, sealed_start = (Ret (Going st), b) ∧
    w_table (rn_world s) !! "id-18" = Some r ∧ row_access_token r = "0cat-alice-14" ∧
    (w_table (b_world b) !! "id-18" = Some r ∨ ∃ d, encrypted_by toy_cipher d r).
Proof.
  pose proof sealed_table as Htab. pose proof sealed_serves as Hpc. unfold served_state in Htab.
  destruct sealed_start as [[[|st]|e] b] eqn:Hst; [discriminate| |discriminate].
  exists st, b, (sealed_login (after_mount (mount st b))). simpl in Htab.
  destruct (w_table (rn_world (sealed_login (after_mount (mount st b)))) !! "id-18") as [r|] eqn:Hr;
    [|discriminate].
  exists r. injection Htab as Htok. split; [reflexivity|]. split; [reflexivity|]. split; [exact Htok|].
  apply (process_encrypts_tokens_at_rest sealed_sources [] sealed_conf toy_cipher new_process st b
           (sealed_login (after_mount (mount st b))) "id-18" r sealed_loaded eq_refl eq_refl sealed_cipher Hst);
    [apply sealed_login_steps, Hpc|exact Hr].
Defined.

(** A process that has served, was interrupted, and has closed its database. *)
Lemma bob_closes :
  ∃ s, rtc (main_step (st_ctx (toy_started "proxy.yaml")) (st_impl (toy_started "proxy.yaml")))
         (after_mount (mount (toy_started "proxy.yaml") new_process)) s ∧ rn_pc s = Ended.
Proof.
  pose proof (mount_run (toy_started "proxy.yaml") (proxy_entry <$> ["/proxy"]) new_process
                toy_proxies_ok (toy_targets _)) as [b' ->].
  match goal with |- context [after_mount (Ret (Going ?h), b')] =>
    destruct (ends_when_cancelled (st_ctx (toy_started "proxy.yaml")) eq_refl (sqlite_impl None)
      (mkRunning Serving true true CleanerNew (Some h) (b_world b'))) as (s & Hs & He) end;
    [apply toy_closes|by split_and!|done|done|].
  exists s. split; [|exact He].
  eapply rtc_l; [by apply run_signal|]. exact (unsignalled_steps _ _ _ _ Hs).
Qed.

Lemma requests_after_the_close_are_rejected_witness :
  ∃ s, rn_pc s = Ended ∧ ∃ code d e w1, (code = 401 ∨ code = 500) ∧ w_table w1 = w_table (rn_world s) ∧
    AuthenticationMiddleware toy_manager toy_config toy_next NetHttpWriter (get_proxy cookie_A)
      (new_exchange (rn_world s)) = Logger_JsonError NetHttpWriter code d (Some e) w1.
Proof.
  destruct bob_closes as (s & Hs & He). exists s. split; [exact He|].
  apply (requests_after_the_close_are_rejected (store_view None) sqlite_no_rows (toy_started "proxy.yaml")
           new_process s toy_next NetHttpWriter (get_proxy cookie_A) (new_exchange (rn_world s))
           (toy_new toy_store_ (get_proxy cookie_A) "session").1 "A");
    [apply toy_sqlite_store|apply sqlite_closed|reflexivity|exact Hs|rewrite He; reflexivity|repeat split; reflexivity|
     apply toy_has_tracer|apply toy_has_logger|reflexivity].
Defined.
