(* ===== verification/TerminationProps.v ===== *)
(** * The shutdown terminates

    A rank on the states of the running process, which the steps of the main goroutine
    and of the cleaner decrease and no other step increases; and its consequence for
    every execution in which these two goroutines are scheduled again and again. *)

From stdpp Require Import base gmap strings list option numbers relations.
From Stdlib Require Import ZArith Lia String.
From S2P Require Import Prelude GoBase Encoding World Telemetry Zlogger Database Sqlite.
From S2P Require Import Postgresql Oidc SessionConfig Sessions Config LoadConfig Manager.
From S2P Require Import Cleaner Handlers Server Startup Shutdown Concrete ConfigProps.
From S2P Require Import LoadConfigProps ServerProps StartupProps ShutdownProps.

#[local] Open Scope nat_scope.

(** What the main goroutine and the cleaner still have to do. *)
Definition main_rank (pc : main_pc) : nat :=
  match pc with
  | Serving => 6 | WaitingCleaner => 5 | ClosingConnection => 4 | ShuttingTracer => 3
  | SyncingLogger => 2 | Stopping => 1 | Ended | Killed => 0
  end.

Definition cleaner_rank (cl : cleaner_state) : nat :=
  match cl with CleanerNew => 2 | CleanerRunning => 1 | CleanerStopped => 0 end.

Definition over (s : Running) : Prop := rn_pc s = Ended ∨ rn_pc s = Killed.

#[export] Instance over_dec s : Decision (over s).
Proof. unfold over. apply _. Defined.

Definition rank (s : Running) : nat :=
  if decide (over s) then 0 else main_rank (rn_pc s) + cleaner_rank (rn_cleaner s).

Section Termination.
Context `{!Otel} `{!SqlDriver} `{!TracerProvider} `{!Clock} `{!Uuid}.
Context (ctx : Context) (Hctx : has_logger ctx) (impl : SessionImpl) (Hcl : closes impl).
Implicit Types (s : Running) (σ : nat → Running).

(** A step of the main goroutine or of the cleaner that brings it further. *)
Definition orderly s s' : Prop :=
  main_step ctx impl s s' ∧ rn_pc s' ≠ Killed ∧
  (rn_pc s' ≠ rn_pc s ∨ rn_cleaner s' ≠ rn_cleaner s).

(** An infinite execution, which may idle. *)
Definition execution σ : Prop := ∀ n, main_step ctx impl (σ n) (σ (S n)) ∨ σ (S n) = σ n.

(** The two goroutines are scheduled again and again, while one of them can go on. *)
Definition fair σ : Prop :=
  ∀ n, ∃ k, n ≤ k ∧ (orderly (σ k) (σ (S k)) ∨ ¬ ∃ s', orderly (σ k) s').

Ltac ranks := unfold rank, over; repeat case_decide; simpl in *; intuition (try congruence); lia.

Lemma rank_step s s' : main_step ctx impl s s' → rank s' ≤ rank s.
Proof.
  destruct 1 as [pc|pc|pc|pc|pc|pc|pc| | | | | |]; try (destruct pc); ranks.
Qed.

Lemma rank_orderly s s' : orderly s s' → rank s' < rank s.
Proof.
  intros (Hstep & Hk & Hch). revert Hk Hch.
  destruct Hstep as [pc|pc|pc|pc|pc|pc|pc| | | | | |]; simpl; intros Hk Hch;
    try (destruct pc); ranks.
Qed.

(** A process that was interrupted and is not over can go on. *)
Lemma orderly_enabled s :
  main_invariant s → rn_cancelled s = true → ¬ over s → ∃ s', orderly s s'.
Proof using Hctx Hcl.
  intros (Hw & _ & _) Hcan Hno. unfold over in Hno. destruct s as [pc nt can cl h w]. simpl in *. subst can.
  destruct pc; try (destruct Hno; tauto).
  - eexists. split; [by apply run_interrupted|]. split; [done|by left].
  - destruct cl.
    + eexists. split; [by apply run_cleaner_starts|]. split; [done|by right].
    + destruct (log_to_runs ctx Hctx DebugLevel "session manager: stopping the expired sessions cleaner job"
                  [] w) as [w1 Hw1].
      eexists. split; [by eapply run_cleaner_stops|]. split; [done|by right].
    + destruct (log_to_runs ctx Hctx DebugLevel
                  "session manager: the expired sessions cleaner is now stopped" [] w) as [w1 Hw1].
      eexists. split; [by eapply run_waited|]. split; [done|by left].
  - destruct (close_connection_runs ctx impl w Hcl) as [w1 Hw1].
    eexists. split; [by eapply run_closed|]. split; [done|by left].
  - destruct (shutdown_tracer_runs true w) as [w1 Hw1].
    eexists. split; [by eapply run_tracer|]. split; [done|by left].
  - eexists. split; [by apply run_synced|]. split; [done|by left].
  - eexists. split; [by apply run_ended|]. split; [done|by left].
Qed.

Lemma over_step s s' : main_step ctx impl s s' → over s → s' = s ∨ over s'.
Proof. unfold over. destruct 1; simpl; intuition congruence. Qed.

Lemma cancelled_step s s' : main_step ctx impl s s' → rn_cancelled s = true → rn_cancelled s' = true.
Proof. by destruct 1. Qed.

(** What every state of an execution inherits from an earlier one. *)
Lemma execution_keeps (P : Running → Prop) σ n k :
  (∀ s s', main_step ctx impl s s' → P s → P s') → execution σ → n ≤ k → P (σ n) → P (σ k).
Proof.
  intros HP Hσ Hle Hn. induction Hle as [|k Hle IH]; [done|].
  destruct (Hσ k) as [Hs| ->]; eauto.
Qed.

Lemma execution_rank σ n k : execution σ → n ≤ k → rank (σ k) ≤ rank (σ n).
Proof.
  intros Hσ Hle.
  apply (execution_keeps (λ s, rank s ≤ rank (σ n)) σ n k); [|done..].
  intros s s' Hs%rank_step ?. lia.
Qed.

(** C31: the shutdown terminates.  In every execution, from every start, in which the main
    goroutine and the cleaner are scheduled again and again, the process is over some
    time after the first signal, and stays so, whatever requests, purges and signals
    come in between and whatever the errors of the database and the tracer: every step
    of the two goroutines decreases a rank that no other step increases. *)
Theorem shutdown_terminates r σ n :
  execution σ → fair σ → σ 0 = after_mount r → rn_cancelled (σ n) = true →
  ∃ k, n ≤ k ∧ ∀ j, k ≤ j → over (σ j).
Proof using Hctx Hcl.
  intros Hσ Hfair Hz Hcan.
  assert (Hinv : main_invariant (σ n)).
  { apply (execution_keeps main_invariant σ 0); [apply main_invariant_step|done|lia|].
    rewrite Hz. apply main_invariant_start. }
  clear Hz r. remember (rank (σ n)) as m eqn:Hm. revert n Hcan Hinv Hm.
  induction m as [m IH] using lt_wf_ind. intros n Hcan Hinv ->.
  destruct (Hfair n) as (k & Hk & Hor).
  assert (Hcan' : rn_cancelled (σ k) = true).
  { by apply (execution_keeps (λ s, rn_cancelled s = true) σ n); [apply cancelled_step|..]. }
  assert (Hinv' : main_invariant (σ k)).
  { by apply (execution_keeps main_invariant σ n); [apply main_invariant_step|..]. }
  destruct (decide (over (σ k))) as [Ho|Ho].
  { exists k. split; [done|]. intros j Hj. apply (execution_keeps over σ k); [|done..].
    intros s s' Hs Hs'. by destruct (over_step s s' Hs Hs') as [-> |]. }
  destruct Hor as [Hor|Hor]; [|destruct Hor; by apply orderly_enabled].
  pose proof (rank_orderly _ _ Hor). pose proof (execution_rank σ n k Hσ Hk).
  destruct Hor as [Hs _].
  destruct (IH (rank (σ (S k))) ltac:(lia) (S k)) as (k' & Hk' & Hover);
    [by eapply cancelled_step|by eapply main_invariant_step|done|].
  exists k'. split; [lia|done].
Qed.
End Termination.

(** ** The hypotheses can hold *)

#[local] Instance prompt_tracer : TracerProvider := {| tp_Shutdown := λ _ _, None |}.

(** A process that is interrupted at once, runs its deferred calls and idles. *)
Definition orderly_end : list Running :=
  let h : option Handler := Some (λ _ _, mret tt) in
  let w0 := toy_world ∅ in
  let w1 := (cleaner_stopping toy_ctx w0).2 in
  let w2 := (graceful w1).2 in
  let w3 := (cleaner_stopped toy_ctx w2).2 in
  let w4 := (close_connection toy_ctx (sqlite_impl None) w3).2 in
  let w5 := (shutdown_tracer true w4).2 in
  let w6 := (Logger_Sync w5).2 in
  [mkRunning Serving true false CleanerNew h w0;
   mkRunning Serving true true CleanerNew h w0;
   mkRunning Serving true true CleanerRunning h w0;
   mkRunning Serving true true CleanerStopped h w1;
   mkRunning WaitingCleaner false true CleanerStopped h w2;
   mkRunning ClosingConnection false true CleanerStopped h w3;
   mkRunning ShuttingTracer false true CleanerStopped h w4;
   mkRunning SyncingLogger false true CleanerStopped h w5;
   mkRunning Stopping false true CleanerStopped h w6;
   mkRunning Ended false true CleanerStopped h w6].

Definition orderly_process (n : nat) : Running := List.nth n orderly_end (List.last orderly_end (after_mount serving)).

Lemma orderly_process_idle n : 9 ≤ n → orderly_process n = orderly_process 9.
Proof.
  intros Hn. unfold orderly_process. destruct (Nat.eq_dec n 9) as [->|Hne]; [done|].
  rewrite List.nth_overflow; [reflexivity|]. simpl. lia.
Qed.

Lemma orderly_process_execution : execution toy_ctx (sqlite_impl None) orderly_process.
Proof.
  intros n. destruct (decide (9 ≤ n)) as [Hn|Hn].
  { right. by rewrite (orderly_process_idle n), (orderly_process_idle (S n)) by lia. }
  left. do 9 (destruct n as [|n]; [unfold orderly_process, orderly_end; cbn [List.nth]; by constructor|]).
  lia.
Qed.

Lemma orderly_process_fair : fair toy_ctx (sqlite_impl None) orderly_process.
Proof.
  intros n. exists (n + 9). split; [lia|]. right. rewrite orderly_process_idle by lia.
  intros (s' & Hs & _ & Hch). inversion Hs; subst; simpl in Hch; intuition congruence.
Qed.

Lemma shutdown_terminates_witness :
  ∃ k, 1 ≤ k ∧ ∀ j, k ≤ j → over (orderly_process j).
Proof.
  apply (shutdown_terminates toy_ctx eq_refl (sqlite_impl None) toy_closes serving orderly_process 1
           orderly_process_execution orderly_process_fair); reflexivity.
Defined.
