(* ===== verification/RaceStore.v ===== *)
(** * The halves of [Update] against the abstract store

    What the contract of a storage says of its [Update] is true of no interleaving: the
    row that is written need not be the one that was compared.  Here is what remains
    true of each half, and the user of a session as an invariant of the goroutines. *)

From stdpp Require Import base gmap strings list option numbers relations.
From Stdlib Require Import ZArith Lia String.
From S2P Require Import Prelude GoBase Encoding World Telemetry Database Sqlite Postgresql.
From S2P Require Import Invariance Race.

#[local] Open Scope Z_scope.

(** ** The interface *)

Class StoreHalves `{!Clock} `{!Uuid} `{!SqlDriver} (hv : Halves)
    (view : gmap string Row → Store) (no_rows : string → error) : Prop := {
  halves_store :: LossyStore (hv_impl hv) view no_rows;
  (** the first half goes on only for a session with the subject of the new data, and
      ends with an error otherwise *)
  read_spec ctx id d w :
    twp (hv_read hv ctx id d)
      (λ r w', db_step w w' ∧ w_table w' = w_table w ∧ r.2 ≠ Some None ∧
         (r.2 = None → ∃ old, view (w_table w) !! id = Some old ∧ Subject old = Subject d)) w;
  (** the second one writes the data under the id, if it has a row, or nothing *)
  write_spec ctx span id d w :
    twp (hv_write hv ctx span id d)
      (λ _ w', db_step w w' ∧
         (view (w_table w') = view (w_table w) ∨
          is_Some (w_table w !! id) ∧
          view (w_table w') = <[id := truncate d]> (view (w_table w)))) w
}.

Section Specs.
Context `{!SqlDriver} (cipher : option HexCipher) (Hc : cipher_ok cipher) (no_rows : string → error).
Context (text : string) (get : Context → string → IO (SessionData * option error)).
Context (write : Context → Row → string → IO (option error)).
Context (Hget : ∀ ctx id w, twp (get ctx id) (get_post cipher no_rows id w) w).

(** The statement writes the row, if there is one to overwrite, or nothing. *)
Definition row_effect (id : string) (r : Row) (w w' : World) : Prop :=
  db_step w w' ∧ (w_table w' = w_table w ∨
                  is_Some (w_table w !! id) ∧ w_table w' = <[id := r]> (w_table w)).

Context (Hwrite : ∀ ctx r id w, twp (write ctx r id) (λ _ w', row_effect id r w w') w).

Lemma Update_read_spec ctx id d w :
  twp (Update_read text get ctx id d)
    (λ r w', db_step w w' ∧ w_table w' = w_table w ∧ r.2 ≠ Some None ∧
       (r.2 = None → ∃ old, store_view cipher (w_table w) !! id = Some old ∧
                            Subject old = Subject d)) w.
Proof using Hget.
  apply twp_bind, twp_NewSpanFromContext. intros c span w1 Hw1.
  apply twp_bind, twp_set_attributes. intros w2 Hw2. apply twp_bind.
  eapply twp_mono; [apply Hget|]. intros [old [err|]] w3 (Hs3 & Ht3 & [_ Hspec] & _); simpl in Hspec.
  - apply twp_bind, twp_set_error_status. intros w4 Hw4. apply twp_bind, twp_return_error.
    intros w5 Hw5. apply twp_ret. split; [solve_db_step|]. split; [world_facts; congruence|done].
  - destruct (negb _) eqn:Hsub.
    + apply twp_bind.
      eapply (twp_mono _ (λ _ w', w' ≡ w3)).
      { destruct span; [apply twp_Span_SetStatus|apply twp_ret]; done. }
      intros [] w4 Hw4. apply twp_bind, twp_return_error. intros w5 Hw5. apply twp_ret.
      split; [solve_db_step|]. split; [world_facts; congruence|done].
    + apply twp_ret. split; [solve_db_step|]. split; [world_facts; congruence|].
      split; [done|]. intros _. exists old. apply negb_false_iff, String.eqb_eq in Hsub.
      split; [|done]. by replace (w_table w) with (w_table w2) by (world_facts; congruence).
Qed.

Lemma Update_write_spec ctx span id d w :
  twp (Update_write text write cipher ctx span id d)
    (λ _ w', db_step w w' ∧
       (store_view cipher (w_table w') = store_view cipher (w_table w) ∨
        is_Some (w_table w !! id) ∧
        store_view cipher (w_table w') = <[id := truncate d]> (store_view cipher (w_table w)))) w.
Proof using Hc Hwrite.
  apply twp_bind, twp_encryptArgs; [done|]. intros enc err w1 Hs1 Ht1 Henc. destruct err as [err|].
  { apply twp_bind, twp_set_error_status. intros w2 Hw2. apply twp_return_error. intros w3 Hw3.
    split; [solve_db_step|]. left. f_equal. world_facts. congruence. }
  assert (Hend : ∀ w2 w3, row_effect id (row_of enc) w1 w2 → w3 ≡ w2 →
    db_step w w3 ∧ (store_view cipher (w_table w3) = store_view cipher (w_table w) ∨
      is_Some (w_table w !! id) ∧
      store_view cipher (w_table w3) = <[id := truncate d]> (store_view cipher (w_table w)))).
  { intros w2 w3 [Hs2 He] Hw3. split; [solve_db_step|]. rewrite (w_table_proper _ _ Hw3), <-Ht1.
    destruct He as [-> | [Hid ->]]; [by left|right]. split; [done|]. by apply store_view_insert, Henc. }
  apply twp_bind. eapply twp_mono; [apply Hwrite|]. intros [err|] w2 He.
  - apply twp_bind, twp_set_error_status. intros w3 Hw3. apply twp_return_error. intros w4 Hw4.
    eapply Hend; [done|]. by rewrite Hw4.
  - apply twp_return_error. intros w3 Hw3. by eapply Hend.
Qed.
End Specs.

Lemma sql_update_effect r id t t' :
  sql_update id r t = Ok t' → t' = t ∨ is_Some (t !! id) ∧ t' = <[id := r]> t.
Proof.
  unfold sql_update. destruct (t !! id); [|intros [= <-]; by left].
  destruct (row_checks r); [|done]. intros [= <-]. right. by split.
Qed.

Lemma twp_sqlite_write `{!SqlDriver} ctx r id w :
  twp (sqlite_write ctx r id) (λ _ w', row_effect id r w w') w.
Proof.
  apply twp_db_Exec.
  - intros e. split; [by repeat split; simpl; lia|by left].
  - intros t Ht _. split; [by repeat split; simpl; lia|]. by eapply sql_update_effect.
Qed.

Lemma twp_postgresql_write `{!SqlDriver} ctx r id w :
  twp (postgresql_write ctx r id) (λ _ w', row_effect id r w w') w.
Proof.
  apply twp_pgx_Exec.
  - intros e. split; [by repeat split; simpl; lia|by left].
  - intros t err Ht _ _. split; [by repeat split; simpl; lia|].
    unfold queryPostgresqlUpdate in Ht. repeat case_match; [done..|]. by eapply sql_update_effect.
Qed.

Section Instances.
Context `{!Clock} `{!Uuid} `{!SqlDriver} (cipher : option HexCipher) (Hc : cipher_ok cipher).

#[export] Instance sqlite_store_halves :
  StoreHalves (sqlite_halves cipher) (store_view cipher) sqlite_no_rows.
Proof using Hc.
  split.
  - by apply sqlite_lossy_store.
  - apply (Update_read_spec cipher sqlite_no_rows). intros. apply twp_sqlite_Get.
  - apply Update_write_spec; [done|apply twp_sqlite_write].
Qed.

#[export] Instance postgresql_store_halves :
  StoreHalves (postgresql_halves cipher) (store_view cipher) pgx_no_rows.
Proof using Hc.
  split.
  - by apply postgresql_lossy_store.
  - apply (Update_read_spec cipher pgx_no_rows). intros. apply twp_postgresql_Get.
  - apply Update_write_spec; [done|apply twp_postgresql_write].
Qed.
End Instances.

(** ** The user of a session *)

Section Users.
Context `{!Clock} `{!Uuid} `{!SqlDriver} (hv : Halves).
Context (view : gmap string Row → Store) (no_rows : string → error) `{!StoreHalves hv view no_rows}.
(** Two draws are different. *)
Context (uuid_inj : ∀ n k, uuid_New n = uuid_New k → n = k).
Implicit Types (gs : list goroutine) (w : World) (s : list goroutine * World).

Abbreviation sessions w := (view (w_table w)).

(** What a call of one statement does to the sessions: some are gone, or one is new. *)
Definition call_effect w w' : Prop :=
  db_step w w' ∧
  ((∀ id d, sessions w' !! id = Some d → sessions w !! id = Some d) ∨
   ∃ n d, (w_tick w ≤ n < w_tick w')%nat ∧ sessions w !! uuid_New n = None ∧
          sessions w' = <[uuid_New n := d]> (sessions w)).

Lemma call_effect_same w w' : db_step w w' → sessions w' = sessions w → call_effect w w'.
Proof. intros Hs Hv. split; [done|]. left. by rewrite Hv. Qed.

(** An [Add] puts a session under an id of its own, whether its answer arrives or not. *)
Lemma add_effect d r w w' :
  unless_lost True add_failed (spec_Add d) (sessions w) r (sessions w') →
  (∀ id, sessions w !! id = None → is_Some (sessions w' !! id) →
     ∃ n, id = uuid_New n ∧ (w_tick w ≤ n < w_tick w')%nat) →
  sessions w' = sessions w ∨
  ∃ n, (w_tick w ≤ n < w_tick w')%nat ∧ sessions w !! uuid_New n = None ∧
       sessions w' = <[uuid_New n := truncate d]> (sessions w).
Proof.
  intros Hspec Hf.
  assert (∃ r', spec_Add d (sessions w) r' (sessions w')) as [[id [e|]] [Hno Hv]]
    by (destruct Hspec as [?|(_ & _ & ?)]; eauto); simpl in Hno, Hv; [by left|right].
  destruct (Hf id Hno) as (n & -> & Hn); [by rewrite Hv, lookup_insert_eq|]. by exists n.
Qed.

Lemma twp_call_error c w :
  is_update c = false → twp (call_error hv c) (λ _ w', call_effect w w') w.
Proof using StoreHalves0.
  intros Hc. destruct c as [ctx d|ctx id|ctx id|ctx id d|ctx]; [..|]; try done; simpl.
  - apply twp_bind.
    eapply twp_mono; [apply (twp_conj _ _ _ _ (Add_refines (view:=view) ctx d w) (Add_fresh ctx d w))|].
    intros r w' ((Hs & Hspec) & Hf). apply twp_ret.
    destruct (add_effect d r w w' Hspec Hf) as [Hv|(n & Hn & Hno & Hv)]; [by apply call_effect_same|].
    split; [done|]. right. by exists n, (truncate d).
  - eapply twp_mono; [apply (Delete_refines (view:=view))|].
    intros e w' (Hs & [Hv|Hv]%spec_Delete_effect); [by apply call_effect_same|].
    split; [done|]. left. intros k d. rewrite Hv. by intros [_ ?]%lookup_delete_Some.
  - apply twp_bind. eapply twp_mono; [apply (Get_refines (view:=view))|].
    intros r w' (Hs & [Hv _]). apply twp_ret. by apply call_effect_same.
  - eapply twp_mono; [apply (Purge_refines (view:=view))|].
    intros e w' (Hs & [Hv|[n Hv]]%spec_Purge_effect); [by apply call_effect_same|].
    split; [done|]. left. intros k d. rewrite Hv. by intros [? _]%map_lookup_filter_Some.
Qed.

(** Session [id] was never handed out, so far. *)
Definition unborn (id : string) s : Prop :=
  sessions s.2 !! id = None ∧ ∀ ctx span d, Renewing ctx span id d ∉ s.1.

(** Session [id] was handed out to user [u], and whoever renews it renews it for [u]. *)
Definition belongs_to (id u : string) s : Prop :=
  fresh id s.2 ∧ (∀ d, sessions s.2 !! id = Some d → Subject d = u) ∧
  (∀ ctx span d, Renewing ctx span id d ∈ s.1 → Subject d = u).

Lemma elem_of_insert gs i g g' : g' ∈ <[i := g]> gs → g' = g ∨ g' ∈ gs.
Proof.
  intros [j Hj]%list_elem_of_lookup. rewrite list_lookup_insert in Hj.
  destruct (decide _); [left; congruence|]. right. by eapply list_elem_of_lookup_2.
Qed.

Lemma fresh_step id w w' : db_step w w' → fresh id w → fresh id w'.
Proof. intros [Hle _] Hf n Hn. apply Hf. lia. Qed.

(** Goroutine [i] has gone on, and the sessions have not changed for [id]. *)
Lemma belongs_to_next id u gs i g w w' :
  db_step w w' → (∀ d, sessions w' !! id = Some d → Subject d = u) →
  (∀ ctx span d, g = Renewing ctx span id d → Subject d = u) →
  belongs_to id u (gs, w) → belongs_to id u (<[i := g]> gs, w').
Proof.
  intros Hs Hd Hg (Hf & _ & Hr). split; [by eapply fresh_step|]. split; [done|].
  intros ctx span d [Heq|Hin]%elem_of_insert; [by eapply Hg|by eapply Hr].
Qed.

Lemma unborn_next id gs i g w w' :
  sessions w' !! id = None → (∀ ctx span d, g ≠ Renewing ctx span id d) →
  unborn id (gs, w) → unborn id (<[i := g]> gs, w').
Proof.
  intros Hd Hg [_ Hr]. split; [done|]. intros ctx span d [Heq|Hin]%elem_of_insert.
  - by eapply Hg.
  - by eapply Hr.
Qed.

Ltac run_spec Hr lem :=
  pose proof (twp_result _ _ _ _ _ lem Hr) as Hspec.

Lemma belongs_to_step id u s s' : race_step hv s s' → belongs_to id u s → belongs_to id u s'.
Proof using StoreHalves0.
  destruct 1 as [gs w i c err w' Hi Hc Hr|gs w i ctx id' d span w' Hi Hr|
    gs w i ctx id' d span err w' Hi Hr|gs w i ctx span id' d err w' Hi Hr|gs w w' Hdb];
    intros Hb; pose proof Hb as (Hf & Hd & Hren); simpl in Hf, Hd, Hren.
  - run_spec Hr (twp_call_error c w Hc). destruct Hspec as [Hs He].
    apply (belongs_to_next id u gs i _ w); [done| |done|done]. intros d' Hd'.
    destruct He as [He|(n & d & Hn & _ & Hv)]; [auto|].
    rewrite Hv, lookup_insert_ne in Hd'; [auto|]. apply Hf. lia.
  - run_spec Hr (read_spec (view:=view) ctx id' d w). destruct Hspec as (Hs & Ht & _ & Hold).
    apply (belongs_to_next id u gs i _ w); [done|by rewrite Ht| |done].
    intros ctx' span' d' [= -> -> -> ->]. destruct (Hold eq_refl) as (old & Ho & <-). by apply Hd.
  - run_spec Hr (read_spec (view:=view) ctx id' d w). destruct Hspec as (Hs & Ht & _ & _).
    apply (belongs_to_next id u gs i _ w); [done|by rewrite Ht|done|done].
  - run_spec Hr (write_spec (view:=view) ctx span id' d w). destruct Hspec as (Hs & He).
    apply (belongs_to_next id u gs i _ w); [done| |done|done]. intros d' Hd'.
    destruct He as [He|[_ He]]; rewrite He in Hd'; [by apply Hd|].
    apply lookup_insert_Some in Hd' as [[-> <-]|[_ Hd']]; [|by apply Hd].
    apply (Hren ctx span d). by eapply list_elem_of_lookup_2.
  - destruct Hdb as (Ht & _ & Hle). split; [intros n Hn; apply Hf; simpl in *; lia|].
    simpl. by rewrite Ht.
Qed.

Lemma unborn_step id s s' :
  race_step hv s s' → unborn id s → unborn id s' ∨ ∃ u, belongs_to id u s'.
Proof using StoreHalves0 uuid_inj.
  destruct 1 as [gs w i c err w' Hi Hc Hr|gs w i ctx id' d span w' Hi Hr|
    gs w i ctx id' d span err w' Hi Hr|gs w i ctx span id' d err w' Hi Hr|gs w w' Hdb];
    intros Hb; pose proof Hb as (Hd & Hren); simpl in Hd, Hren.
  - run_spec Hr (twp_call_error c w Hc). destruct Hspec as [Hs He].
    destruct He as [He|(n & d & Hn & _ & Hv)].
    + left. apply (unborn_next id gs i _ w); [|done|done].
      destruct (sessions w' !! id) eqn:Hid; [|done]. apply He in Hid. congruence.
    + destruct (decide (uuid_New n = id)) as [<-|Hne].
      * right. exists (Subject d). split; [|split].
        -- intros k Hk Heq%uuid_inj. simpl in Hk. lia.
        -- intros d'. simpl. rewrite Hv, lookup_insert_eq. by intros [= <-].
        -- intros ctx span d' [|Hin]%elem_of_insert; [done|]. by destruct (Hren ctx span d').
      * left. apply (unborn_next id gs i _ w); [|done|done]. by rewrite Hv, lookup_insert_ne.
  - run_spec Hr (read_spec (view:=view) ctx id' d w). destruct Hspec as (Hs & Ht & _ & Hold).
    left. apply (unborn_next id gs i _ w); [by rewrite Ht| |done].
    intros ctx' span' d' [= -> -> -> ->]. destruct (Hold eq_refl) as (old & Ho & _). congruence.
  - run_spec Hr (read_spec (view:=view) ctx id' d w). destruct Hspec as (Hs & Ht & _ & _).
    left. apply (unborn_next id gs i _ w); [by rewrite Ht|done|done].
  - run_spec Hr (write_spec (view:=view) ctx span id' d w). destruct Hspec as (Hs & He).
    left. apply (unborn_next id gs i _ w); [|done|done].
    destruct He as [-> | [_ ->]]; [done|]. rewrite lookup_insert_ne; [done|]. intros ->.
    eapply Hren. by eapply list_elem_of_lookup_2.
  - left. destruct Hdb as (Ht & _). split; [simpl; by rewrite Ht|done].
Qed.

Lemma belongs_to_steps id u s s' :
  rtc (race_step hv) s s' → belongs_to id u s → belongs_to id u s'.
Proof using StoreHalves0. induction 1; eauto using belongs_to_step. Qed.

Lemma known_steps id s s' :
  rtc (race_step hv) s s' → unborn id s ∨ (∃ u, belongs_to id u s) →
  unborn id s' ∨ ∃ u, belongs_to id u s'.
Proof using StoreHalves0 uuid_inj.
  induction 1 as [s|s s1 s2 Hs _ IH]; [done|]. intros [Hu|[u Hb]]; apply IH.
  - by eapply unborn_step.
  - right. exists u. by eapply belongs_to_step.
Qed.
End Users.
