(* ===== verification/Service.v ===== *)
(** * The service of sessions, and requests that run at the same time

    What the whole program does to the sessions, whatever happens in between: a small
    transition system, the session service.  The storage of a request is interrupted
    before every statement by what other goroutines do; a request whose interference
    takes the service through its steps takes it through its steps, too.  So the
    condition on the others is what each of them guarantees. *)

From stdpp Require Import base gmap strings list option numbers relations.
From Stdlib Require Import ZArith Lia String.
From S2P Require Import Prelude GoBase Encoding World Telemetry Zlogger Database Sqlite.
From S2P Require Import Postgresql Oidc SessionConfig Sessions SessionLemmas Cleaner Handlers.
From S2P Require Import Server Startup Shutdown Invariance Typing Race RaceStore.

#[local] Open Scope Z_scope.

(** ** The abstract service *)

(** The draws of ids so far, and the sessions. *)
Record Service : Type := mkService {
  sv_draws : nat;
  sv_sessions : Store
}.

Section Service.
Context `{!Clock} `{!Uuid} `{!OidcLib} `{!OAuth2} (config : oidc_Config).

Definition unexpired (n : nat) (kd : string * SessionData) : Prop :=
  ¬ (Time_Unix (ExpiresAt kd.2) < Time_Unix (clock_now n)).

#[export] Instance unexpired_dec n kd : Decision (unexpired n kd).
Proof. unfold unexpired. apply _. Defined.

Inductive service_step : Service → Service → Prop :=
  (** ids are drawn *)
  | service_draws n n' s :
      (n ≤ n')%nat → service_step (mkService n s) (mkService n' s)
  (** a user has logged in: a new session for a code and a verified id-token *)
  | service_opens n k n' s j code t sub raw :
      (n ≤ k < n')%nat → s !! uuid_New k = None →
      oauth2_Exchange j (oauth2_config config) code = Ok t → verified config t sub raw →
      service_step (mkService n s)
        (mkService n' (<[uuid_New k := truncate (token_data sub raw t)]> s))
  (** a session is renewed, for its user *)
  | service_renews n s id old j rt t raw :
      s !! id = Some old →
      oauth2_TokenSource_Token j (oauth2_config config) (Token_of_refresh rt) = Ok t →
      verified config t (Subject old) raw →
      service_step (mkService n s)
        (mkService n (<[id := truncate (token_data (Subject old) raw t)]> s))
  (** a user has logged out *)
  | service_closes n s id : service_step (mkService n s) (mkService n (delete id s))
  (** the sessions that have expired are purged *)
  | service_expires n s k : service_step (mkService n s) (mkService n (filter (unexpired k) s)).

Abbreviation service_steps := (rtc service_step).

(** An id that is not drawn from now on. *)
Definition taken (id : string) (s : Service) : Prop :=
  ∀ n, (sv_draws s ≤ n)%nat → uuid_New n ≠ id.

Lemma taken_step id s s' : service_step s s' → taken id s → taken id s'.
Proof. destruct 1; intros Ht m Hm; apply Ht; simpl in *; lia. Qed.

Lemma taken_steps id s s' : service_steps s s' → taken id s → taken id s'.
Proof. induction 1; eauto using taken_step. Qed.

(** The session of a taken id has this user, if it is still there. *)
Definition is_of (id user : string) (s : Service) : Prop :=
  taken id s ∧ ∀ d, sv_sessions s !! id = Some d → Subject d = user.

Lemma is_of_step id user s s' : service_step s s' → is_of id user s → is_of id user s'.
Proof.
  intros Hs [Ht Hu]. split; [by eapply taken_step|]. intros d. revert Hu Ht.
  destruct Hs as [n n' s _|n k n' s j code t sub raw Hk _ _ _|n s id' old j rt t raw Ho _ _
    |n s id'|n s k]; simpl; intros Hu Ht Hd.
  - auto.
  - rewrite lookup_insert_ne in Hd; [auto|]. apply Ht. simpl. lia.
  - apply lookup_insert_Some in Hd as [[-> <-]|[_ Hd]]; [exact (Hu old Ho)|auto].
  - apply lookup_delete_Some in Hd as [_ Hd]. auto.
  - apply map_lookup_filter_Some in Hd as [Hd _]. auto.
Qed.

(** The user of a session never changes. *)
Lemma is_of_steps id user s s' : service_steps s s' → is_of id user s → is_of id user s'.
Proof. induction 1; eauto using is_of_step. Qed.

Definition gone (id : string) (s : Service) : Prop := taken id s ∧ sv_sessions s !! id = None.

Lemma gone_service_step id s s' : service_step s s' → gone id s → gone id s'.
Proof.
  intros Hs [Ht Hn]. split; [by eapply taken_step|]. revert Hn Ht.
  destruct Hs as [n n' s _|n k n' s j code t sub raw Hk _ _ _|n s id' old j rt t raw Ho _ _
    |n s id'|n s k]; simpl; intros Hn Ht; [done| | | |].
  - rewrite lookup_insert_ne; [done|]. apply Ht. simpl. lia.
  - rewrite lookup_insert_ne; [done|]. congruence.
  - apply lookup_delete_None. by right.
  - apply map_lookup_filter_None. by left.
Qed.

(** A session that is gone never comes back. *)
Lemma gone_service_steps id s s' : service_steps s s' → gone id s → gone id s'.
Proof. induction 1; eauto using gone_service_step. Qed.

(** The ids of the sessions are not drawn again. *)
Definition all_taken (s : Service) : Prop := ∀ id, is_Some (sv_sessions s !! id) → taken id s.

Lemma all_taken_step s s' :
  (∀ n k, uuid_New n = uuid_New k → n = k) → service_step s s' → all_taken s → all_taken s'.
Proof.
  intros Hinj Hs Ht id Hid. assert (Hold : is_Some (sv_sessions s !! id) → taken id s').
  { intros Ho. eapply taken_step; [exact Hs|by apply Ht]. }
  destruct Hs as [n n' s _|n k n' s j code t sub raw Hk _ _ _|n s id' old j rt t raw Ho _ _
    |n s id'|n s k]; simpl in *; [auto| | | |].
  - destruct (decide (uuid_New k = id)) as [<-|Hne].
    + intros i Hi Heq%Hinj. simpl in Hi. lia.
    + rewrite lookup_insert_ne in Hid by done. auto.
  - destruct (decide (id' = id)) as [<-|Hne]; [by apply Hold; exists old|].
    rewrite lookup_insert_ne in Hid by done. auto.
  - destruct Hid as [d [_ Hd]%lookup_delete_Some]. apply Hold. by exists d.
  - destruct Hid as [d [Hd _]%map_lookup_filter_Some]. apply Hold. by exists d.
Qed.

Lemma all_taken_steps s s' :
  (∀ n k, uuid_New n = uuid_New k → n = k) → service_steps s s' → all_taken s → all_taken s'.
Proof. intros Hinj. induction 1; eauto using all_taken_step. Qed.

(** What is stored for a token whose id-token was verified. *)
Definition vouched (d : SessionData) : Prop :=
  ∃ t sub raw, verified config t sub raw ∧ d = truncate (token_data sub raw t).

(** Every session is one of the first, or was made of a verified token. *)
Lemma vouched_steps s s' id d :
  service_steps s s' → sv_sessions s' !! id = Some d →
  (∃ id0, sv_sessions s !! id0 = Some d) ∨ vouched d.
Proof.
  intros Hs. revert id d.
  induction Hs as [s|s s1 s2 Hs _ IH]; intros id d Hd; [left; by exists id|].
  destruct (IH id d Hd) as [[id1 Hd1]|Hv]; [|by right]. clear Hd.
  destruct Hs as [n n' s _|n k n' s j code t sub raw _ _ _ Hv|n s id' old j rt t raw Ho _ Hv
    |n s id'|n s k]; simpl in *.
  - left. by exists id1.
  - apply lookup_insert_Some in Hd1 as [[_ <-]|[_ Hd1]]; [right; by exists t, sub, raw|left; by exists id1].
  - apply lookup_insert_Some in Hd1 as [[_ <-]|[_ Hd1]];
      [right; by exists t, (Subject old), raw|left; by exists id1].
  - apply lookup_delete_Some in Hd1 as [_ Hd1]. left. by exists id1.
  - apply map_lookup_filter_Some in Hd1 as [Hd1 _]. left. by exists id1.
Qed.
End Service.

(** ** The service a database provides *)

Section Guarantee.
Context `{!Clock} `{!Uuid} `{!SqlDriver} `{!OidcLib} `{!OAuth2}.
Context (view : gmap string Row → Store) (config : oidc_Config).

Definition service_of (w : World) : Service := mkService (w_tick w) (view (w_table w)).

(** A row that cannot be decrypted. *)
Definition unreadable (id : string) (w : World) : Prop :=
  is_Some (w_table w !! id) ∧ view (w_table w) !! id = None.

Definition readable (B : string → Prop) (w : World) : Prop := ∀ id, unreadable id w → B id.

(** The service took some of its steps, and no row has become unreadable. *)
Definition guarantee (w w' : World) : Prop :=
  rtc (service_step config) (service_of w) (service_of w') ∧
  readable (λ id, unreadable id w) w'.

#[export] Instance guarantee_preorder : PreOrder guarantee.
Proof.
  split; [intros w; split; [apply rtc_refl|by intros id]|]. intros w1 w2 w3 [Hs Hr] [Hs' Hr'].
  split; [by etrans|]. intros id Hid. apply Hr, Hr', Hid.
Qed.

Lemma readable_about_db B : about_db (readable B).
Proof. intros w w' [Ht _] Hw id. unfold unreadable. rewrite Ht. apply Hw. Qed.

(** Time goes by, and the sessions are as they were. *)
Lemma guarantee_same w w' :
  (w_tick w ≤ w_tick w')%nat → w_table w' = w_table w → guarantee w w'.
Proof.
  intros Hle Ht. split.
  - unfold service_of. rewrite Ht. by apply rtc_once, service_draws.
  - intros id. unfold unreadable. by rewrite Ht.
Qed.

Lemma guarantee_about_db w0 : about_db (guarantee w0).
Proof. intros w w' (Ht & _ & Hle) Hw. etrans; [exact Hw|]. by apply guarantee_same. Qed.

Lemma is_of_guarantee id user w w' :
  guarantee w w' → is_of id user (service_of w) → is_of id user (service_of w').
Proof. intros [Hs _]. by eapply is_of_steps. Qed.

Lemma gone_guarantee id w w' :
  guarantee w w' → gone id (service_of w) → gone id (service_of w').
Proof. intros [Hs _]. by eapply gone_service_steps. Qed.

Lemma taken_guarantee w w' :
  (∀ n k, uuid_New n = uuid_New k → n = k) →
  guarantee w w' → all_taken (service_of w) → all_taken (service_of w').
Proof. intros Hinj [Hs _]. by eapply all_taken_steps. Qed.

(** What the program adds to the service that was [s0], and finds there. *)
Definition served (s0 : Service) : Provenance := mkProvenance
  (λ d, ∃ n code t sub raw, oauth2_Exchange n (oauth2_config config) code = Ok t ∧
          verified config t sub raw ∧ d = token_data sub raw t)
  (λ _ _, True)
  (λ _ d, ∃ n rt t sub raw,
     oauth2_TokenSource_Token n (oauth2_config config) (Token_of_refresh rt) = Ok t ∧
     verified config t sub raw ∧ d = token_data sub raw t)
  (λ id d, ∃ s old, rtc (service_step config) s0 s ∧ sv_sessions s !! id = Some old ∧
                    Subject old = Subject d).

#[export] Instance served_sound s0 : Sound config (served s0).
Proof.
  split.
  - intros n code t sub raw Ht Hv. by exists n, code, t, sub, raw.
  - intros n id d t sub raw _ Ht Hv. by exists n, (RefreshToken d), t, sub, raw.
Qed.
End Guarantee.

(** ** The interface: a storage that provides the service *)

Class ServiceHalves `{!Clock} `{!Uuid} `{!SqlDriver} (hv : Halves)
    (view : gmap string Row → Store) (no_rows : string → error) : Prop := {
  service_halves :: StoreHalves hv view no_rows;
  readable_impl B :: StorageKeeps (readable view B) (hv_impl hv);
  readable_read B ctx id d : keeps (readable view B) (hv_read hv ctx id d);
  readable_write B ctx span id d : keeps (readable view B) (hv_write hv ctx span id d);
  close_table ctx w :
    w_table (CloseConnection (hv_impl hv) ctx w).2 = w_table w ∧
    (w_tick w ≤ w_tick (CloseConnection (hv_impl hv) ctx w).2)%nat
}.

(** What the others do, and then a statement. *)
Definition meanwhile {A : Type} (others : IO unit) (m : IO A) : IO A := _ ← others; m.

(** A storage between whose statements other goroutines run.  A method is one
    statement with the Go code around it, but for [Update]. *)
Definition interfered (others : IO unit) (hv : Halves) : SessionImpl :=
  mkSessionImpl
    (λ ctx, meanwhile others (CloseConnection (hv_impl hv) ctx))
    (λ ctx d, meanwhile others (Add (hv_impl hv) ctx d))
    (λ ctx id, meanwhile others (Delete (hv_impl hv) ctx id))
    (λ ctx id, meanwhile others (Get (hv_impl hv) ctx id))
    (λ ctx id d,
       '(span, over) ← meanwhile others (hv_read hv ctx id d);
       match over with
       | Some err => mret err
       | None => meanwhile others (hv_write hv ctx span id d)
       end)
    (λ ctx, meanwhile others (Purge (hv_impl hv) ctx)).

Section Interfered.
Context `{!Clock} `{!Uuid} `{!SqlDriver} `{!OidcLib} `{!OAuth2}.
Context (hv : Halves) (view : gmap string Row → Store) (no_rows : string → error).
Context `{!ServiceHalves hv view no_rows} (config : oidc_Config).

Abbreviation guarantee := (guarantee view config).
Abbreviation steps := (rtc (service_step config)).
Abbreviation service_of := (service_of view).

(** A computation takes the service through its steps when it does so in one run, and
    makes no row unreadable. *)
Lemma safe_guarantee {A} (m : IO A) R w0 :
  (∀ B, keeps (readable view B) m) →
  (∀ w, guarantee w0 w → twp m (λ a w', steps (service_of w) (service_of w') ∧ R a) w) →
  safe (guarantee w0) m R.
Proof.
  intros Hk Hm w Hw. destruct (Hm w Hw) as (a & Ha & Hs & HR). split.
  - etrans; [exact Hw|]. split; [exact Hs|].
    apply (Hk (λ id, unreadable view id w) w). by intros id.
  - intros a' Ha'. rewrite Ha in Ha'. by injection Ha' as <-.
Qed.

Lemma steps_draws w w' :
  db_step w w' → view (w_table w') = view (w_table w) → steps (service_of w) (service_of w').
Proof.
  intros (Hle & _) Ht. unfold Service.service_of. rewrite Ht. by apply rtc_once, service_draws.
Qed.

(** One step on the sessions, while ids are drawn. *)
Lemma steps_once w w' s' :
  db_step w w' → view (w_table w') = s' →
  service_step config (service_of w) (mkService (w_tick w) s') →
  steps (service_of w) (service_of w').
Proof.
  intros (Hle & _) Ht Hs. unfold Service.service_of in *. rewrite Ht.
  eapply rtc_l; [exact Hs|]. by apply rtc_once, service_draws.
Qed.

Abbreviation served_from w0 := (served config (service_of w0)).

Lemma guarantee_Add w0 ctx d :
  opened (served_from w0) d → keeps (guarantee w0) (Add (hv_impl hv) ctx d).
Proof using ServiceHalves0.
  intros (j & code & t & sub & raw & Ht & Hv & ->).
  apply safe_guarantee; [intros B; apply keeps_Add_any|]. intros w _.
  eapply twp_mono;
    [apply (twp_conj _ _ _ _ (Add_refines (view:=view) ctx _ w) (Add_fresh ctx _ w))|].
  intros r w' ((Hs & Hspec) & Hf); (split; [|done]).
  destruct (add_effect view _ r w w' Hspec Hf) as [Hsame|(n & Hn & Hno & Hview)].
  - by apply steps_draws.
  - unfold Service.service_of. rewrite Hview. apply rtc_once. by eapply service_opens.
Qed.

Lemma guarantee_Delete w0 ctx id : keeps (guarantee w0) (Delete (hv_impl hv) ctx id).
Proof using ServiceHalves0.
  apply safe_guarantee; [intros B; apply keeps_Delete|]. intros w _.
  eapply twp_mono; [apply (Delete_refines (view:=view))|].
  intros e w' (Hs & [Hv|Hv]%spec_Delete_effect); (split; [|done]).
  - by apply steps_draws.
  - by eapply steps_once; [..|apply service_closes].
Qed.

Lemma guarantee_Get w0 ctx id :
  safe (guarantee w0) (Get (hv_impl hv) ctx id) (λ r, r.2 = None → found (served_from w0) id r.1).
Proof using ServiceHalves0.
  apply safe_guarantee; [intros B; apply keeps_Get|]. intros w _.
  eapply twp_mono; [apply (Get_refines (view:=view))|]. intros r w' (Hs & [Hv _]).
  split; [by apply steps_draws|done].
Qed.

Lemma guarantee_Purge w0 ctx : keeps (guarantee w0) (Purge (hv_impl hv) ctx).
Proof using ServiceHalves0.
  apply safe_guarantee; [intros B; apply keeps_Purge|]. intros w _.
  eapply twp_mono; [apply (Purge_refines (view:=view))|].
  intros e w' (Hs & [Hv|[n Hv]]%spec_Purge_effect); (split; [|done]).
  - by apply steps_draws.
  - eapply steps_once; [done| |by apply (service_expires _ _ _ n)].
    rewrite Hv. by apply map_filter_ext.
Qed.

Lemma guarantee_Close w0 ctx : keeps (guarantee w0) (CloseConnection (hv_impl hv) ctx).
Proof using ServiceHalves0.
  intros w Hw. split; [|done]. etrans; [exact Hw|].
  destruct (close_table (hv:=hv) ctx w). by apply guarantee_same.
Qed.

(** The first half of an [Update] that goes on has seen a session of the user. *)
Lemma guarantee_read w0 ctx id d :
  safe (guarantee w0) (hv_read hv ctx id d) (λ r, r.2 = None → confirmed (served_from w0) id d).
Proof using ServiceHalves0.
  apply safe_guarantee; [intros B; apply readable_read|]. intros w [Hw _].
  eapply twp_mono; [apply (read_spec (view:=view))|]. intros r w' (Hs & Ht & _ & Hr).
  split; [by apply steps_draws; [|rewrite Ht]|]. intros Hn. destruct (Hr Hn) as (old & Ho & Hsub).
  by exists (service_of w), old.
Qed.

(** The second half, some time after the first one has seen a session of the user. *)
Lemma guarantee_write w1 w2 ctx span id d old :
  all_taken (service_of w1) → view (w_table w1) !! id = Some old → Subject old = Subject d →
  renewed (served_from w1) id d → guarantee w1 w2 → guarantee w2 (hv_write hv ctx span id d w2).2.
Proof using ServiceHalves0.
  intros Htaken Ho Hsub (j & rt & t & sub & raw & Ht & Hv & ->) Hw2.
  assert (Hid : is_of id (Subject old) (service_of w1)).
  { split; [apply Htaken; simpl; by rewrite Ho|]. simpl. congruence. }
  apply (is_of_guarantee view config _ _ _ _ Hw2) in Hid as [_ Hid]. simpl in Hsub.
  destruct (write_spec (view:=view) ctx span id (token_data sub raw t) w2) as (e & _ & Hs & Hspec).
  split; [|apply (readable_write (λ id, unreadable view id w2) ctx span id _ w2); by intros ?].
  destruct Hspec as [Hsame|[Hrow Hins]]; [by apply steps_draws|].
  destruct (view (w_table w2) !! id) as [now|] eqn:Hnow.
  - assert (sub = Subject now) as -> by (rewrite <-Hsub; symmetry; by apply Hid).
    eapply steps_once; [done|exact Hins|]. by eapply service_renews.
  - destruct Hw2 as [_ Hr]. destruct (Hr id); [by split|]. congruence.
Qed.

(** The others are goroutines that provide the service, to a database whose ids are
    not drawn again. *)
Context (others : IO unit) (Hothers : ∀ w, all_taken (service_of w) → guarantee w (others w).2).
Context (uuid_inj : ∀ n k, uuid_New n = uuid_New k → n = k).

Lemma keeps_others w0 : all_taken (service_of w0) → keeps (guarantee w0) others.
Proof using Hothers uuid_inj.
  intros Ht w Hw. split; [|done]. etrans; [exact Hw|]. by eapply Hothers, taken_guarantee.
Qed.

Lemma safe_meanwhile {A} w0 (m : IO A) R :
  all_taken (service_of w0) → safe (guarantee w0) m R → safe (guarantee w0) (meanwhile others m) R.
Proof using Hothers uuid_inj.
  intros Ht Hm. apply keeps_bind; [by apply keeps_others|]. by intros _.
Qed.

Lemma guarantee_Update w0 ctx id d :
  all_taken (service_of w0) → renewed (served_from w0) id d →
  safe (guarantee w0) (Update (interfered others hv) ctx id d)
    (λ e, e = None → confirmed (served_from w0) id d).
Proof using All.
  intros Htaken Hd. intros w Hw. unfold interfered, Update, meanwhile.
  rewrite !bind_assoc. revert w Hw. apply keeps_bind; [by apply keeps_others|]. intros [] w1 Hw1. rewrite run_bind.
  destruct (guarantee_read w0 ctx id d w1 Hw1) as [Hw2 Hc].
  destruct (read_spec (view:=view) ctx id d w1) as ([span over] & Hr & (Hs & Ht & Hne & Hold)).
  destruct (hv_read hv ctx id d w1) as [o w2]. simpl in Hr, Hw2, Hc, Hs, Ht, Hne, Hold. subst o.
  destruct over as [err|]; [split; [done|]; intros e [= ->]; by intros ->|].
  destruct (Hold eq_refl) as (old & Ho & Hsub). rewrite run_bind.
  assert (Htaken2 : all_taken (service_of w2)) by by eapply taken_guarantee.
  assert (Hw3 : guarantee w2 (others w2).2) by by apply Hothers.
  destruct (others w2) as [[[]|e] w3]; simpl in Hw3; [|split; [by etrans|done]].
  split; [|intros e _ _; by apply (Hc _ eq_refl)].
  etrans; [exact Hw2|]. etrans; [exact Hw3|].
  by eapply (guarantee_write w2); [|by rewrite Ht|..].
Qed.

(** The storage of a goroutine provides the service that the others provide to it. *)
Lemma interfered_serves w0 :
  all_taken (service_of w0) →
  StorageKeepsAs (served_from w0) (guarantee w0) (interfered others hv).
Proof using All.
  intros Htaken. split; intros; [| | | |by apply safe_meanwhile, guarantee_Purge
    |by apply safe_meanwhile, guarantee_Close].
  - by apply safe_meanwhile, guarantee_Add.
  - by apply safe_meanwhile, guarantee_Delete.
  - by apply safe_meanwhile, guarantee_Get.
  - by apply guarantee_Update.
Qed.
End Interfered.

Lemma impl_serves `{!Clock} `{!Uuid} `{!SqlDriver} `{!OidcLib} `{!OAuth2} hv view no_rows
    `{!ServiceHalves hv view no_rows} `{!SafeHalves hv} config w0 :
  (∀ n k, uuid_New n = uuid_New k → n = k) → all_taken (service_of view w0) →
  StorageKeepsAs (served config (service_of view w0)) (guarantee view config w0) (hv_impl hv).
Proof.
  intros Hinj Htaken.
  assert (Hnobody : ∀ w, all_taken (service_of view w) →
    guarantee view config w (mret (M:=IO) tt w).2) by reflexivity.
  pose proof (interfered_serves hv view no_rows config _ Hnobody Hinj w0 Htaken) as Hk.
  split.
  - intros ctx d Hd. exact (keeps_Add (impl:=interfered (mret tt) hv) ctx d Hd).
  - intros ctx id. exact (keeps_Delete (impl:=interfered (mret tt) hv) ctx id).
  - intros ctx id. exact (safe_Get (impl:=interfered (mret tt) hv) ctx id).
  - intros ctx id d Hd w Hw. rewrite halves_Update.
    exact (safe_Update (impl:=interfered (mret tt) hv) ctx id d Hd w Hw).
  - intros ctx. exact (keeps_Purge (impl:=interfered (mret tt) hv) ctx).
  - intros ctx. exact (keeps_CloseConnection (impl:=interfered (mret tt) hv) ctx).
Qed.

(** ** A goroutine for each request *)

(** [net/http] runs the handler of another request in its own goroutine, with its own
    response and recorder; a panic ends that goroutine alone. *)
Definition elsewhere (h : Handler) (r : Request) : IO unit := λ w,
  let w' := (h NetHttpWriter r (new_exchange w)).2 in
  (Ret tt, set_wrappers (λ _, w_rec w) (set_resp (λ _, w_resp w) w')).

(** Requests of which each is interrupted, before every statement, by those after it. *)
Fixpoint crowd (serve : SessionImpl → Handler) (hv : Halves) (rs : list Request) : IO unit :=
  match rs with
  | [] => mret tt
  | r :: rs => elsewhere (serve (interfered (crowd serve hv rs) hv)) r
  end.

Lemma crowd_returns serve hv rs w : ∃ w', crowd serve hv rs w = (Ret tt, w').
Proof. destruct rs; by eexists. Qed.

Section Crowd.
Context `{!Clock} `{!Uuid} `{!SqlDriver} `{!OidcLib} `{!OAuth2}.
Context (view : gmap string Row → Store) (config : oidc_Config).
Context (serve : SessionImpl → Handler) (hv : Halves).

Abbreviation provides others :=
  (∀ w, all_taken (service_of view w) → guarantee view config w (others w).2).

(** When a request provides the service while others provide it, so does a crowd. *)
Lemma crowd_provides rs :
  (∀ others, provides others → ∀ r, provides (serve (interfered others hv) NetHttpWriter r)) →
  provides (crowd serve hv rs).
Proof.
  intros Hserve. induction rs as [|r rs IH]; intros w Hw; [reflexivity|].
  assert (Hnew : guarantee view config w (new_exchange w)) by by apply guarantee_same.
  etrans; [exact Hnew|]. etrans; [by apply (Hserve _ IH r)|]. by apply guarantee_same.
Qed.
End Crowd.

(** ** The two backends *)

Section Backends.
Context `{!Clock} `{!Uuid} `{!SqlDriver} (cipher : option HexCipher) (Hc : cipher_ok cipher).
Context (B : string → Prop).

Abbreviation readable := (readable (store_view cipher) B).
Definition decodes (r : Row) : Prop := is_Some (decode_row cipher r).

Lemma encrypted_decodes d : safe readable (encryptArgs cipher d) (λ r, r.2 = None → decodes (row_of r.1)).
Proof using Hc.
  intros w Hw. split; [by apply keeps_encryptArgs; [apply readable_about_db|]|].
  destruct (twp_encryptArgs cipher d (λ r _, r.2 = None → decodes (row_of r.1)) w Hc)
    as (r & Hr & Hd).
  { intros enc err w' _ _ Hd He. exists (truncate d). by apply Hd. }
  intros a Ha. rewrite Hr in Ha. by injection Ha as <-.
Qed.

Lemma readable_insert id r w :
  decodes r → readable w → readable (set_table (<[id := r]> (w_table w)) w).
Proof.
  intros [d Hd] Hw id' [Hrow Hno]. simpl in Hrow, Hno. apply Hw.
  rewrite (store_view_insert _ _ _ _ _ Hd) in Hno.
  apply lookup_insert_None in Hno as [Hno Hne]. rewrite lookup_insert_ne in Hrow by done. by split.
Qed.

Lemma readable_smaller w t :
  (∀ id r, t !! id = Some r → w_table w !! id = Some r) → readable w → readable (set_table t w).
Proof.
  intros Ht Hw id [[r Hr] Hno]. simpl in Hr, Hno. apply Hw. split; [by exists r; apply Ht|].
  rewrite store_view_lookup in Hno |- *. rewrite Hr in Hno. by rewrite (Ht _ _ Hr).
Qed.

Lemma readable_sql_insert id r : decodes r → stmt_keeps readable (sql_insert id r).
Proof. intros Hr w t Hw _ (_ & -> & _)%sql_insert_Ok. by apply readable_insert. Qed.

Lemma readable_sql_update id r : decodes r → stmt_keeps readable (sql_update id r).
Proof.
  intros Hr w t Hw _ Ht. destruct (sql_update_effect _ _ _ _ Ht) as [-> | [_ ->]];
    [by apply readable_smaller|by apply readable_insert].
Qed.

Lemma readable_sql_delete id : stmt_keeps readable (sql_delete id).
Proof.
  intros w t Hw _ [= <-]. apply readable_smaller; [|done]. by intros id' r [_ ?]%lookup_delete_Some.
Qed.

Lemma readable_sql_purge n : stmt_keeps readable (sql_purge n).
Proof.
  intros w t Hw _ [= <-]. apply readable_smaller; [|done].
  by intros id' r [? _]%map_lookup_filter_Some.
Qed.

#[export] Instance sqlite_keeps_readable : StorageKeeps readable (sqlite_impl cipher).
Proof using Hc.
  apply (sqlite_keeps_rows readable (readable_about_db _ _) (λ _ Hw, Hw) cipher _
           (any_id _ (readable_about_db _ _)) decodes encrypted_decodes); intros.
  - by apply readable_sql_insert.
  - apply readable_sql_delete.
  - by apply readable_sql_update.
  - apply readable_sql_purge.
Qed.

Lemma readable_postgresql_update r id :
  decodes r → stmt_keeps readable (queryPostgresqlUpdate r id).
Proof.
  intros Hr w t Hw Ho. unfold queryPostgresqlUpdate. repeat case_match; [done..|].
  by apply readable_sql_update.
Qed.

#[export] Instance postgresql_keeps_readable : StorageKeeps readable (postgresql_impl cipher).
Proof using Hc.
  apply (postgresql_keeps_rows readable (readable_about_db _ _) (λ _ Hw, Hw) cipher _
           (any_id _ (readable_about_db _ _)) decodes encrypted_decodes); intros.
  - intros w t Hw Ho. unfold queryPostgresqlInsert. repeat case_match; [done..|]. by apply readable_sql_insert.
  - intros w t Hw Ho. unfold queryPostgresqlDelete. case_match; [done|]. by apply readable_sql_delete.
  - by apply readable_postgresql_update.
  - intros w t Hw Ho. unfold queryPostgresqlPurge. case_match; [done|]. by apply readable_sql_purge.
Qed.
End Backends.

Section Instances.
Context `{!Clock} `{!Uuid} `{!SqlDriver} (cipher : option HexCipher) (Hc : cipher_ok cipher).

#[export] Instance sqlite_serves : ServiceHalves (sqlite_halves cipher) (store_view cipher) sqlite_no_rows.
Proof using Hc.
  assert (Hk : ∀ B, (∀ ctx id d, keeps (readable (store_view cipher) B) (hv_read (sqlite_halves cipher) ctx id d)) ∧
    (∀ ctx span id d, keeps (readable (store_view cipher) B) (hv_write (sqlite_halves cipher) ctx span id d))).
  { intros B. pose proof (sqlite_keeps_readable cipher Hc B).
    apply (keeps_halves_rows _ (decodes cipher)); [apply readable_about_db|by apply encrypted_decodes| |].
    - intros ctx id. by apply (keeps_Get (impl:=sqlite_impl cipher)).
    - intros ctx r id Hr. apply keeps_db_Exec; [apply readable_about_db|by apply readable_sql_update]. }
  split; [by apply sqlite_store_halves|intros B; by apply sqlite_keeps_readable|apply Hk..|].
  intros ctx w. simpl. split; [done|lia].
Qed.

#[export] Instance postgresql_serves :
  ServiceHalves (postgresql_halves cipher) (store_view cipher) pgx_no_rows.
Proof using Hc.
  assert (Hk : ∀ B, (∀ ctx id d, keeps (readable (store_view cipher) B) (hv_read (postgresql_halves cipher) ctx id d)) ∧
    (∀ ctx span id d, keeps (readable (store_view cipher) B) (hv_write (postgresql_halves cipher) ctx span id d))).
  { intros B. pose proof (postgresql_keeps_readable cipher Hc B).
    apply (keeps_halves_rows _ (decodes cipher)); [apply readable_about_db|by apply encrypted_decodes| |].
    - intros ctx id. by apply (keeps_Get (impl:=postgresql_impl cipher)).
    - intros ctx r id Hr. apply keeps_pgx_Exec; [apply readable_about_db|by apply readable_postgresql_update]. }
  split; [by apply postgresql_store_halves|intros B; by apply postgresql_keeps_readable|apply Hk..|].
  intros ctx w. simpl. split; [done|lia].
Qed.
End Instances.
