(* ===== verification/RaceProps.v ===== *)
(** * Renewals against logouts *)

From stdpp Require Import base gmap strings list option numbers relations pretty.
From Stdlib Require Import ZArith Lia Ascii String.
From S2P Require Import Prelude GoBase Encoding World Telemetry Zlogger Database Sqlite.
From S2P Require Import Postgresql Oidc SessionConfig Sessions SessionLemmas Handlers.
From S2P Require Import MiddlewareSpec Concrete MiddlewareProps Invariance Race RaceStore.

#[local] Open Scope Z_scope.
#[local] Open Scope string_scope.

Section Race.
Context `{!Uuid} (hv : Halves) `{!SafeHalves hv}.
Implicit Types (gs : list goroutine) (w : World).

(** A deletion of [id] has returned without an error. *)
Definition deleted (id : string) gs : Prop := ∃ ctx, Returned (CallDelete ctx id) None ∈ gs.

Definition race_invariant (id : string) (s : list goroutine * World) : Prop :=
  fresh id s.2 ∧ (deleted id s.1 → s.2.(w_table) !! id = None).

Lemma keeps_call_error (P : World → Prop) c :
  about_db P → StorageKeeps P (hv_impl hv) → keeps P (call_error hv c).
Proof.
  intros HP Hk. destruct c; simpl; solve_safe.
Qed.

Lemma deleted_insert id gs i g :
  deleted id (<[i := g]> gs) → deleted id gs ∨ ∃ ctx, g = Returned (CallDelete ctx id) None.
Proof.
  intros [ctx [j Hj]%list_elem_of_lookup]. rewrite list_lookup_insert in Hj.
  destruct (decide _) as [[-> ?]|_]; [right; exists ctx; congruence|].
  left. exists ctx. by eapply list_elem_of_lookup_2.
Qed.

(** A computation that keeps both predicates keeps the invariant, when it is no deletion
    that has just succeeded. *)
Lemma invariant_run {A} id gs i g (m : IO A) w a w' :
  keeps (fresh id) m → keeps (absent id) m → m w = (Ret a, w') →
  ((∃ ctx, g = Returned (CallDelete ctx id) None) → w_table w' !! id = None) →
  race_invariant id (gs, w) → race_invariant id (<[i := g]> gs, w').
Proof.
  intros Hf Ha Hr Hg [Hfresh Hdel]. unfold race_invariant in *. simpl in *.
  split; [by eapply keeps_run|]. intros [Hd|?]%deleted_insert; [|auto].
  assert (Hab : absent id w) by (split; [by apply Hdel|done]).
  by destruct (keeps_run _ _ _ _ _ Ha Hr Hab).
Qed.

Lemma race_invariant_step id s s' : race_step hv s s' → race_invariant id s → race_invariant id s'.
Proof using SafeHalves0.
  destruct 1 as [gs w i c err w' Hi Hc Hr|gs w i ctx id' d span w' Hi Hr|
    gs w i ctx id' d span err w' Hi Hr|gs w i ctx span id' d err w' Hi Hr|gs w w' Hdb].
  - apply (invariant_run _ _ _ _ (call_error hv c) _ err); [| |done|].
    + apply keeps_call_error; [apply fresh_about_db|apply _].
    + apply keeps_call_error; [apply absent_about_db|apply _].
    + intros [ctx [= -> ->]]. by eapply delete_deletes.
  - eapply invariant_run; [apply read_fresh|apply read_absent|exact Hr|by intros [? ?]].
  - eapply invariant_run; [apply read_fresh|apply read_absent|exact Hr|by intros [? ?]].
  - eapply invariant_run; [apply write_fresh|apply write_absent|exact Hr|by intros [? ?]].
  - intros [Hf Hd]. split; [by eapply fresh_about_db|]. simpl in *.
    destruct Hdb as (-> & _). done.
Qed.

(** C9: no interleaving restores a session that was deleted.  Goroutines add, read, renew,
    delete and purge sessions at the same time, on either backend; a renewal reads the
    row and writes it back in two statements, between which the others run.  Once a
    deletion of a session has returned without an error, the session has no row in any
    later state: the second half of a renewal that had read it before does not put it
    back.  (The ids drawn later differ from it.) *)
Theorem no_renewal_restores_a_deleted_session id cs w gs w' :
  (∀ n, (w_tick w ≤ n)%nat → uuid_New n ≠ id) →
  rtc (race_step hv) (Calling <$> cs, w) (gs, w') →
  (∃ ctx, Returned (CallDelete ctx id) None ∈ gs) → w_table w' !! id = None.
Proof using SafeHalves0.
  intros Hn Hsteps Hdel.
  assert (Hinv : race_invariant id (gs, w')); [|by apply Hinv].
  assert (Hstart : race_invariant id (Calling <$> cs, w)).
  { split; [exact Hn|]. by intros [ctx (c & ? & _)%list_elem_of_fmap]. }
  clear Hdel Hn. revert Hstart. induction Hsteps; eauto using race_invariant_step.
Qed.
End Race.

(** ** At the middleware *)

Section Users.
Context `{!Clock} `{!Uuid} `{!SqlDriver} (hv : Halves).
Context (view : gmap string Row → Store) (no_rows : string → error) `{!StoreHalves hv view no_rows}.
Context (uuid_inj : ∀ n k, uuid_New n = uuid_New k → n = k).

(** No interleaving changes the user of a session.  An update compares the subject
    with the row it has read, and writes without comparing again; still, whatever
    additions, renewals, deletions and purges the goroutines interleave, on either
    backend, a session that is found twice has the same subject both times: an id
    never comes back for another user, and whoever renews a session does so for its
    own user. *)
Theorem no_interleaving_changes_the_user cs w s1 s2 id d1 d2 :
  (∀ id, is_Some (view (w_table w) !! id) → fresh id w) →
  rtc (race_step hv) (Calling <$> cs, w) s1 → rtc (race_step hv) s1 s2 →
  view (w_table s1.2) !! id = Some d1 → view (w_table s2.2) !! id = Some d2 →
  Subject d1 = Subject d2.
Proof using StoreHalves0 uuid_inj.
  intros Hold Hs1 Hs2 Hd1 Hd2.
  assert (Hno : ∀ ctx span d, Renewing ctx span id d ∉ Calling <$> cs).
  { by intros ctx span d (c & ? & _)%list_elem_of_fmap. }
  destruct (known_steps hv view no_rows uuid_inj id _ _ Hs1) as [[Hn _]|[u Hu]].
  - destruct (view (w_table w) !! id) as [d|] eqn:Hd; [right|by left; split].
    exists (Subject d). split; [by apply Hold|]. split; [|by intros ctx span d' []%Hno].
    intros d'. simpl. rewrite Hd. by intros [= ->].
  - congruence.
  - pose proof Hu as (_ & Hu1 & _). rewrite (Hu1 _ Hd1).
    destruct (belongs_to_steps hv view no_rows id u _ _ Hs2 Hu) as (_ & Hu2 & _).
    by rewrite (Hu2 _ Hd2).
Qed.
End Users.

(** Every text can be encrypted. *)
Definition encrypts (cipher : option HexCipher) : Prop :=
  match cipher with
  | None => True
  | Some c => ∀ n x, ∃ y, EncryptToHexString c n x = Ok y
  end.

Lemma encryptArgs_succeeds cipher s w :
  encrypts cipher → ∃ enc n, encryptArgs cipher s w = (Ret (enc, None), set_tick (λ k, n + k)%nat w).
Proof.
  intros He. destruct cipher as [c|]; [|by exists s, 0%nat; destruct w].
  destruct (He (w_tick w) (AccessToken s)) as [a Ha].
  destruct (He (S (w_tick w)) (RefreshToken s)) as [b Hb].
  destruct (He (S (S (w_tick w))) (IDToken s)) as [i Hi].
  exists (mkSessionData (Subject s) a b i (ExpiresAt s)), 3%nat. unfold encryptArgs.
  rewrite run_bind. cbn [interact]. rewrite Ha. rewrite run_bind. cbn [interact set_tick w_tick].
  rewrite Hb. rewrite run_bind. cbn [interact set_tick w_tick]. by rewrite Hi.
Qed.

Section ServedRenewal.
Context `{!Clock} `{!Network} `{!Otel}.
Context `{!Gorilla} `{!OidcLib} `{!OAuth2} `{!Uuid} `{!SqlDriver}.
Context (cipher : option HexCipher) (He : encrypts cipher).

(** The first statement finds the session, and the subject is the same. *)
Lemma twp_sqlite_read ctx id old s w :
  db_up w → store_view cipher (w_table w) !! id = Some old → Subject s = Subject old →
  twp (Update_read "session.sqlite" (λ _, sqlite_Get cipher []) ctx id s)
    (λ r w', r.2 = None ∧ db_step w w' ∧ w_table w' = w_table w) w.
Proof using Type.
  intros Hup Hold Hsub. apply twp_bind, twp_NewSpanFromContext. intros c span w1 Hw1.
  apply twp_bind, twp_set_attributes. intros w2 Hw2. apply twp_bind.
  assert (Hup2 : db_up w2).
  { destruct Hup. split; [done|]. world_facts. congruence. }
  assert (Ht2 : w_table w2 = w_table w) by (world_facts; congruence).
  eapply twp_mono; [apply twp_sqlite_Get|]. intros r w3 Hget.
  assert (r = (old, None)) as -> by (eapply get_post_found; [exact Hget|done|by rewrite Ht2]).
  destruct Hget as (Hstep & Ht3 & _). rewrite Hsub, String.eqb_refl. apply twp_ret.
  split; [done|]. split; [|congruence]. solve_db_step.
Qed.

(** The second one finds no row, and reports no error. *)
Lemma twp_sqlite_overtaken ctx span id s w :
  db_up w → w_table w !! id = None →
  twp (Update_write "session.sqlite" sqlite_write cipher ctx span id s)
    (λ err w', err = None ∧ db_step w w' ∧ w_table w' = w_table w) w.
Proof using He.
  intros Hup Hid. destruct (encryptArgs_succeeds cipher s w He) as (enc & n & Henc).
  set (w1 := set_tick (λ k, n + k)%nat w) in *.
  assert (Htwp : twp (encryptArgs cipher s) (λ r w', r = (enc, None) ∧ w' = w1) w).
  { exists (enc, None). by rewrite Henc. }
  apply twp_bind. eapply twp_mono; [exact Htwp|]. intros r w' [-> ->]. apply twp_bind.
  unfold sqlite_write, db_Exec. apply twp_bind, twp_interact. rewrite (proj1 (proj1 Hup _)).
  apply twp_bind, twp_gets. simpl. rewrite (proj2 Hup). apply twp_bind, twp_gets. simpl.
  unfold querySQLiteUpdate, sql_update. rewrite Hid. apply twp_bind, twp_modify, twp_ret.
  apply twp_return_error. intros w2 Hw2. split; [done|].
  split; [unfold db_step; world_facts; repeat split; first [lia|congruence]|].
  world_facts. congruence.
Qed.

(** What happens between the statements: the session is logged out, by a request that
    has its own response; the database stays up, and time does not go back. *)
Definition logs_out (id : string) (f : World → World) : Prop :=
  ∀ w, w_table (f w) !! id = None ∧ w_open (f w) = w_open w ∧ w_resp (f w) = w_resp w ∧
      (w_tick w ≤ w_tick (f w))%nat.

Lemma twp_Update_logged_out f ctx id old s w :
  logs_out id f → db_up w → store_view cipher (w_table w) !! id = Some old →
  Subject s = Subject old →
  twp (Update (sqlite_around cipher f) ctx id s)
    (λ err w', err = None ∧ w_table w' !! id = None ∧ w_resp w' = w_resp w ∧
               (w_tick w ≤ w_tick w')%nat) w.
Proof using He.
  intros Hf Hup Hold Hsub. simpl. apply twp_bind.
  eapply twp_mono; [by eapply twp_sqlite_read|]. intros [span over] w1 (Ho & Hs1 & Ht1).
  simpl in Ho. subst over. apply twp_bind, twp_modify.
  destruct (Hf w1) as (Hid & Hopen & Hresp & Hle).
  eapply twp_mono; [apply twp_sqlite_overtaken; [|exact Hid]|].
  - destruct Hup. split; [done|]. world_facts. congruence.
  - intros err w2 (-> & Hs2 & Ht2). split; [done|]. split; [congruence|]. world_facts. split; [congruence|lia].
Qed.

Context (m : Manager) (config : oidc_Config) (f : World → World).
Context (Hm : m_sessionImpl m = sqlite_around cipher f).

Lemma twp_GetSession_found r g id d w :
  has_tracer (r_ctx r) → cookie_lookup m r (w_tick w) = SessionId g id → db_up w →
  store_view cipher (w_table w) !! id = Some d →
  twp (GetSession m r config)
    (λ a w', a = (Some (session_of m config g d), None) ∧ quiet w w') w.
Proof using Hm.
  intros Ht Hlook Hup Hd. apply twp_with_span_tracer; [done|]. intros c w1 Hw1 Hc.
  assert (Htick : w_tick w1 = w_tick w) by (step_facts; congruence).
  apply twp_bind, twp_interact. rewrite Htick. unfold cookie_lookup in Hlook.
  destruct (store_Get (w_tick w) (m_store m) r (m_cookieName m)) as [g' [e|]]; [done|].
  destruct (value_string g' sessionStateName) eqn:Hstate; [done|].
  destruct (value_string g' sessionIdName) as [id'|] eqn:Hid; [|done]. simplify_eq.
  apply twp_bind, twp_with_span_tracer; [done|]. intros c' w2 Hw2 _. simpl.
  rewrite Hid. apply twp_bind. rewrite Hm. simpl.
  eapply twp_mono; [apply twp_sqlite_Get|]. intros a w3 Hget.
  assert (a = (d, None)) as ->.
  { eapply get_post_found; [exact Hget| |].
    - destruct Hup. split; [done|]. step_facts. congruence.
    - replace (w_table w2) with (w_table w) by (step_facts; congruence). exact Hd. }
  destruct Hget as (Hs3 & Ht3 & _). apply twp_ret. intros w4 Hw4. apply twp_ret. intros w5 Hw5.
  split; [unfold session_of; by rewrite Hm|]. solve_step.
Qed.
(** The identity provider vouches for the renewed token [t] of [d], and the cookie can be
    written. *)
Record renewable (g : GSession) (id : string) (d : SessionData) (t : Token) (raw : string) : Prop := {
  rn_token n : oauth2_TokenSource_Token n (oauth2_config config) (Token_of_refresh (RefreshToken d)) = Ok t;
  rn_raw : t_Extra_id_token t = Some raw;
  rn_verified n : ∃ p, oidc_NewProvider n (issuer config) = Ok p ∧
    ∀ k, Verifier_Verify k p (ClientID (oauth2_config config)) raw = Ok (Subject d);
  rn_cookie n : ∃ c, session_cookie n (with_id g id (m_sessionTimeout m)) = Ok c
}.

Context (g : GSession) (id : string) (d : SessionData) (t : Token) (raw : string).
Context (Hrn : renewable g id d t raw).

Lemma twp_newData_renewed ctx w :
  has_tracer ctx →
  twp (newData (session_of m config g d) ctx t)
    (λ r w', r = (token_data (Subject d) raw t, None) ∧ quiet w w') w.
Proof using Hrn.
  intros Ht. destruct Hrn as [_ Hraw Hver _].
  apply twp_with_span_tracer; [done|]. intros c1 w1 Hw1 Ht1. apply twp_bind.
  apply twp_with_span_tracer; [done|]. intros c2 w2 Hw2 _. rewrite Hraw.
  apply twp_bind, twp_interact. destruct (Hver (w_tick w2)) as (p & Hp & Hv). simpl. rewrite Hp.
  apply twp_bind, twp_interact. rewrite Hv. apply twp_ret. intros w3 Hw3.
  apply twp_ret. intros w4 Hw4. split; [done|]. solve_step.
Qed.

Lemma twp_saveSession_renewed s rw r w :
  has_tracer (r_ctx r) → s_session s = g → s_timeout s = m_sessionTimeout m →
  twp (saveSession s rw r id)
    (λ err w', err = None ∧ cookie_step w w' ∧ saved (with_id g id (m_sessionTimeout m)) w w') w.
Proof using Hrn.
  intros Ht <- Htimeout. destruct Hrn as [_ _ _ Hck].
  apply twp_with_span_tracer; [done|]. intros c1 w1 Hw1 _. apply twp_bind, twp_interact.
  destruct (Hck (w_tick w1)) as [ck Hc]. unfold with_id in Hc. rewrite <-Htimeout in Hc. rewrite Hc.
  apply twp_bind, twp_modify, twp_ret.
  match goal with |- ∀ w2, w2 ≡ ?w' → _ =>
    assert (Hstep : cookie_step w1 w') by (repeat split; simpl; lia);
    assert (Hcs : rs_cookies (w_resp w') = (rs_cookies (w_resp w1) ++ [ck])%list) by done;
    assert (Htick : w_tick w' = S (w_tick w1)) by done;
    generalize dependent w' end.
  intros w2 Hstep Hcs Htick w3 Hw3. split; [done|]. split; [solve_step|].
  exists (w_tick w1), ck. unfold with_id. rewrite <-Htimeout. split; [step_facts; lia|].
  split; [done|]. step_facts. congruence.
Qed.

Lemma twp_Session_Update_logged_out rw r w :
  logs_out id f → has_tracer (r_ctx r) → value_string g sessionIdName = Some id → db_up w →
  store_view cipher (w_table w) !! id = Some d →
  twp (Session_Update (session_of m config g d) rw r t)
    (λ a w', a = (session_of m config g (token_data (Subject d) raw t), None) ∧
             w_table w' !! id = None ∧ saved (with_id g id (m_sessionTimeout m)) w w') w.
Proof using Hrn Hm He.
  intros Hf Ht Hid Hup Hd. apply twp_with_span_tracer; [done|]. intros c w1 Hw1 Ht1. apply twp_bind.
  eapply twp_mono; [by apply twp_newData_renewed|]. intros a w2 [-> Hw2]. cbn beta iota zeta.
  change (s_session (set_data (session_of m config g d) _)) with g. rewrite Hid. apply twp_bind.
  change (s_sessionImpl (set_data _ _)) with (m_sessionImpl m). rewrite Hm.
  assert (Hup2 : db_up w2) by (destruct Hup; split; [done|step_facts; congruence]).
  assert (Ht2 : w_table w2 = w_table w) by (step_facts; congruence).
  eapply twp_mono; [eapply (twp_Update_logged_out f _ id d); [done..|by rewrite Ht2|done]|].
  intros err w3 (-> & Hgone & Hresp & Hle). apply twp_bind.
  eapply twp_mono; [by apply twp_saveSession_renewed|].
  intros err w4 (-> & Hw4 & n & ck & Hn & Hck & Hcs). apply twp_ret. intros w5 Hw5.
  split; [done|]. split; [step_facts; congruence|]. exists n, ck. split; [step_facts; lia|].
  split; [done|]. step_facts. congruence.
Qed.

(** C39: a renewal that a logout overtakes is served.  When a session is logged out
    between the two statements of its renewal, the update finds no row and reports no
    error: the middleware runs the handler with the renewed token and sets the cookie
    again, while the session has no row. *)
Theorem overtaken_renewal_is_served next rw r w :
  logs_out id f → has_tracer (r_ctx r) → has_logger (r_ctx r) →
  cookie_lookup m r (w_tick w) = SessionId g id → db_up w →
  store_view cipher (w_table w) !! id = Some d →
  (∀ n, (w_tick w ≤ n)%nat → ExpiresAt d < clock_now n) →
  ∃ w1, w_table w1 !! id = None ∧ saved (with_id g id (m_sessionTimeout m)) w w1 ∧
    AuthenticationMiddleware m config next rw r w = next rw (with_access_token r (t_AccessToken t)) w1.
Proof using Hrn Hm He.
  intros Hf Ht Hl Hlook Hup Hd Hexp. unfold AuthenticationMiddleware.
  destruct (twp_run_bind (zlogger_FromContext (r_ctx r))
    (λ _ w', http_step w w' ∧ w_resp w' = w_resp w ∧ w_rec w' = w_rec w ∧ w_tick w' = w_tick w)
    w) as (u & w1 & (Hs & Hresp & Hrec & Htick) & ->); [by apply twp_zlogger_FromContext|].
  assert (Hup1 : db_up w1) by (destruct Hup; split; [done|step_facts; congruence]).
  destruct (twp_run_bind (GetSession m r config) _ w1
    (twp_GetSession_found r g id d w1 Ht ltac:(by rewrite Htick) Hup1
       ltac:(replace (w_table w1) with (w_table w) by (step_facts; congruence); exact Hd)))
    as (a & w2 & (-> & Hw2) & ->).
  unfold authenticated, SessionData_IsExpired, time_Now.
  rewrite !bind_assoc, run_bind. cbn [interact fst snd]. rewrite bind_ret.
  unfold Time_After. cbn [session_of s_data].
  rewrite (proj2 (Z.ltb_lt _ _)) by (apply Hexp; step_facts; lia).
  rewrite run_bind. cbn [interact w_tick set_tick]. rewrite (rn_token _ _ _ _ _ Hrn).
  set (w3 := set_tick S (set_tick S w2)).
  assert (Hidg : value_string g sessionIdName = Some id).
  { unfold cookie_lookup in Hlook. repeat case_match; by simplify_eq. }
  destruct (twp_run_bind (Session_Update (session_of m config g d) rw r t) _ w3
    (twp_Session_Update_logged_out rw r w3 Hf Ht Hidg
       ltac:(destruct Hup1; split; [done|step_facts; congruence])
       ltac:(replace (w_table w3) with (w_table w) by (step_facts; congruence); exact Hd)))
    as (b & w4 & (-> & Hgone & n & ck & Hn & Hck & Hcs) & ->).
  exists w4. split; [done|]. split; [|reflexivity]. exists n, ck.
  split; [unfold w3 in Hn; step_facts; lia|]. split; [done|]. rewrite Hcs. simpl. step_facts. congruence.
Qed.
End ServedRenewal.

(** ** The hypotheses can hold *)

Definition old_row : Row := toy_row "bob" 1600000000.

Definition old_data : SessionData :=
  mkSessionData "bob" "at-bob" "rt-bob" "it-bob" (time_Unix 1600000000).

Definition renewed_data : SessionData :=
  mkSessionData "bob" "at-new" "rt-bob" "it-bob" (time_Unix 1690000000).

Lemma uuid_not_A n : uuid_New n ≠ "A".
Proof. unfold uuid_New, toy_uuid. discriminate. Qed.

(** A renewal and a logout: read, delete, write. *)
Definition race : list goroutine :=
  [Returned (CallUpdate [] "A" renewed_data) None; Returned (CallDelete [] "A") None].

Lemma race_happens :
  ∃ w', rtc (race_step (sqlite_halves None))
    (Calling <$> [CallUpdate [] "A" renewed_data; CallDelete [] "A"], toy_world {["A" := old_row]})
    (race, w').
Proof.
  eexists. eapply rtc_l; [eapply (race_read _ _ _ 0%nat); (vm_compute; reflexivity)|].
  eapply rtc_l; [eapply (race_call _ _ _ 1%nat); [vm_compute; reflexivity..|]; vm_compute; reflexivity|].
  eapply rtc_l; [eapply (race_write _ _ _ 0%nat); (vm_compute; reflexivity)|].
  apply rtc_refl.
Qed.

Lemma no_renewal_restores_a_deleted_session_witness :
  ∃ w', rtc (race_step (sqlite_halves None))
    (Calling <$> [CallUpdate [] "A" renewed_data; CallDelete [] "A"], toy_world {["A" := old_row]})
    (race, w') ∧ w_table w' !! "A" = None.
Proof.
  destruct race_happens as [w' Hw']. exists w'. split; [exact Hw'|].
  apply (no_renewal_restores_a_deleted_session (sqlite_halves None) "A" _ _ race w'
           (λ n _, uuid_not_A n) Hw').
  exists []. right. left.
Defined.

Lemma toy_uuid_inj n k : uuid_New n = uuid_New k → n = k.
Proof.
  unfold uuid_New, toy_uuid. intros Heq. apply (inj pretty).
  change (String "i"%char (String "d"%char (String "-"%char (pretty n)))
          = String "i"%char (String "d"%char (String "-"%char (pretty k)))) in Heq.
  congruence.
Qed.

Lemma old_row_fresh id :
  is_Some (store_view None (w_table (toy_world {["A" := old_row]})) !! id) →
  fresh id (toy_world {["A" := old_row]}).
Proof.
  intros [d (r & Hr & _)%store_view_lookup_Some] n _.
  simpl in Hr. apply (lookup_singleton_Some (M:=gmap string)) in Hr as [<- _]. apply uuid_not_A.
Qed.

(** A renewal by itself. *)
Lemma renewal_happens :
  ∃ w', rtc (race_step (sqlite_halves None))
    (Calling <$> [CallUpdate [] "A" renewed_data], toy_world {["A" := old_row]})
    ([Returned (CallUpdate [] "A" renewed_data) None], w') ∧
    store_view None (w_table w') !! "A" = Some renewed_data.
Proof.
  eexists. split.
  - eapply rtc_l; [eapply (race_read _ _ _ 0%nat); (vm_compute; reflexivity)|].
    eapply rtc_l; [eapply (race_write _ _ _ 0%nat)|].
    + vm_compute. reflexivity.
    + vm_compute. reflexivity.
    + apply rtc_refl.
  - vm_compute. reflexivity.
Qed.

Lemma no_interleaving_changes_the_user_witness :
  ∃ w', store_view None (w_table w') !! "A" = Some renewed_data ∧
    Subject old_data = Subject renewed_data.
Proof.
  destruct renewal_happens as (w' & Hs & Hd). exists w'. split; [exact Hd|].
  apply (no_interleaving_changes_the_user (sqlite_halves None) (store_view None) sqlite_no_rows
           (StoreHalves0 := sqlite_store_halves None I) toy_uuid_inj
           [CallUpdate [] "A" renewed_data] (toy_world {["A" := old_row]})
           (Calling <$> [CallUpdate [] "A" renewed_data], toy_world {["A" := old_row]})
           ([Returned (CallUpdate [] "A" renewed_data) None], w') "A"
           old_data renewed_data old_row_fresh (rtc_refl _ _) Hs eq_refl Hd).
Defined.

(** A provider that renews with one token. *)
#[local] Instance steady_oauth2 : OAuth2 := {|
  oauth2_Exchange := λ _ _ _, Err (ErrorString "oauth2: cannot fetch token");
  oauth2_TokenSource_Token := λ _ _ _, Ok (mkToken "at-new" "rt-bob" (time_Unix 1690000000) (Some "it-bob"));
  oauth2_AuthCodeURL := λ c _, AuthURL c;
  oauth2_Client_Get := λ _ _ _ _, Ok (401, [])
|}.

Lemma old_data_expired n : ExpiresAt old_data < clock_now n.
Proof. unfold clock_now, toy_clock, old_data, time_Unix, Second. cbn [ExpiresAt]. lia. Qed.

Definition log_bob_out (w : World) : World := set_table (delete "A" (w_table w)) w.

Definition racing_manager : Manager := toy_manager_of (sqlite_around None log_bob_out).

Lemma overtaken_renewal_is_served_witness :
  let w := toy_world {["A" := old_row]} in
  ∃ w1, w_table w1 !! "A" = None ∧
    saved (with_id (toy_new toy_store_ (get_proxy cookie_A) "session").1 "A" (30 * Minute)) w w1 ∧
    AuthenticationMiddleware racing_manager toy_config toy_next NetHttpWriter (get_proxy cookie_A) w
      = toy_next NetHttpWriter (with_access_token (get_proxy cookie_A) "at-new") w1.
Proof.
  intros w.
  apply (overtaken_renewal_is_served None I racing_manager toy_config log_bob_out eq_refl
           (toy_new toy_store_ (get_proxy cookie_A) "session").1 "A" old_data
           (mkToken "at-new" "rt-bob" (time_Unix 1690000000) (Some "it-bob")) "it-bob").
  - split; [reflexivity|reflexivity| |].
    + intros n. exists (issuer toy_config). split; reflexivity.
    + intros n. eexists. reflexivity.
  - intros w1. split; [apply lookup_delete_eq|]. split; [reflexivity|split; [reflexivity|apply le_n]].
  - apply toy_has_tracer.
  - apply toy_has_logger.
  - reflexivity.
  - split; [apply toy_answering|reflexivity].
  - reflexivity.
  - intros n _. apply old_data_expired.
Defined.
