(* ===== verification/Backend.v ===== *)
(** * test/backend_services: the demonstration service behind the proxy

    It checks the [Authorization] header the proxy has set, and answers with the
    addresses of the request.  The start of the service and its shutdown are the ones
    of main.go in small: the end is the deferred calls, as steps. *)

From stdpp Require Import base gmap strings list option numbers.
From Stdlib Require Import ZArith Lia Ascii String.
From S2P Require Import Prelude GoBase GoStrings Encoding World Telemetry Zlogger Oidc Server.
From S2P Require Import Startup Shutdown.

#[local] Open Scope Z_scope.
#[local] Open Scope string_scope.

(** ** authorize.go *)

(** [token.Claims(&claims)] for the raw token of a verified one: its payload, decoded. *)
Class TokenClaims : Type := { token_Claims : string → result error Claims }.

(** [os.Getenv] is a function of the environment the process has got. *)
Definition backend_issuer (getenv : string → string) : string := getenv "OIDC_ISSUER".

Definition backend_clientId : string := "account".

Section Backend.
Context `{!Clock} `{!Network} `{!Otel} `{!RealIP} `{!OidcLib} `{!TokenClaims}.

(** [Authorize(next)], with the [provider] found when the service starts. *)
Definition Authorize (provider : Provider) (next : Handler) : Handler := λ w r,
  _ ← zlogger_FromContext (r_ctx r);
  let accessToken := Header_Get (r_Header r) "Authorization" in
  match strings_Split accessToken "Bearer" with
  | [_; second] =>
      let accessToken := strings_TrimSpace second in
      token ← interact (λ n, Verifier_Verify n provider backend_clientId accessToken);
      match token with
      | Err err => Logger_JsonError w 401 "" (Some err)
      | Ok _ =>
          match token_Claims accessToken with
          | Err err => Logger_JsonError w 401 "" (Some err)
          | Ok claims =>
              next w (WithContext r (context_WithValue (r_ctx r) ClaimsCtxKey (AnyClaims claims)))
          end
      end
  | _ => Logger_JsonError w 401 "" (Some (ErrorString "cannot split the bearer token"))
  end.

(** ** main.go *)

(** [json.Marshal] of the answer, which never fails: a time and two strings. *)
Definition backend_document (now : Time) (proxyIP realIP : string) : string :=
  "{" +:+ json_field "timestamp" (time_MarshalJSON now)
      +:+ "," +:+ json_field "proxy_ip" (json_string proxyIP)
      +:+ "," +:+ json_field "real_ip" (json_string realIP) +:+ "}".

Definition backend_rootHandler : Handler := λ w r,
  _ ← zlogger_FromContext (r_ctx r);
  match ctx_Value (r_ctx r) ClaimsCtxKey with
  | Some (AnyClaims _) =>
      let realIP := match realip_Get r with Ok ip => ip | Err _ => "" end in
      now ← time_Now;
      _ ← rw_Write w (backend_document now (r_RemoteAddr r) realIP);
      mret tt
  | _ => Logger_JsonError w 401 "" (Some (ErrorString "cannot retrieve the token claims"))
  end.

(** The address of the service: a package variable, and its [init]. *)
Definition backend_listenAddress (getenv : string → string) : string :=
  if negb (String.eqb (getenv "LISTEN_ADDRESS") "") then getenv "LISTEN_ADDRESS" else ":9081".

Context `{!Telemetry_libs} `{!MuxPaths} `{!Redirector}.

(** [init] of authorize.go: the provider, or the end of the process. *)
Definition backend_init (getenv : string → string) : M Boot (main_end Provider) :=
  provider ← lift (interact (λ n, oidc_NewProvider n (backend_issuer getenv)));
  match provider with
  | Err _ => mret Exited
  | Ok provider => mret (Going provider)
  end.

(** The service from its start to the address and the handler it listens with; a failure
    of [init] or of the logger ends it before there is a log. *)
Definition backend_start (getenv : string → string) : M Boot (main_end (string * Handler)) :=
  provider ← backend_init getenv;
  match provider with
  | Exited => mret Exited
  | Going provider =>
  match NewLogger "info" false with
  | Err _ => mret Exited
  | Ok _ =>
  tp ← InitTracer "backend-test-service" "localhost" "6831";
  match tp with
  | Err err => zlog_Fatal "error initializing the open-telemetry tracer" err
  | Ok _ =>
  mux ← mux_Handle [] "/" (opentelemetry_Middleware backend_rootHandler tracer_name_ "/");
  mret (Going (backend_listenAddress getenv,
               Logger_Middleware (Authorize provider (mux_ServeHTTP mux))))
  end end end.
End Backend.

(** *** The running service *)

(** Where the main goroutine is: waiting for a signal; in its deferred [tp.Shutdown],
    [zlog.Sync] or [stop]; at its end; or the process was killed. *)
Inductive backend_pc : Type :=
  | BackendServing
  | BackendShuttingTracer
  | BackendSyncing
  | BackendStopping
  | BackendEnded
  | BackendKilled.

#[export] Instance backend_pc_eq_dec : EqDecision backend_pc.
Proof. solve_decision. Defined.

(** [br_failed]: the goroutine of [ListenAndServe] has called [stop], and is about to call
    [log.Fatal]. *)
Record BackendRunning : Type := mkBackendRunning {
  br_pc : backend_pc;
  br_notified : bool;
  br_cancelled : bool;
  br_failed : bool;
  br_handler : Handler;
  br_world : World
}.

Definition backend_serving (h : Handler) (w : World) : BackendRunning :=
  mkBackendRunning BackendServing true false false h w.

Section Running.
Context `{!TracerProvider}.

Inductive backend_step : BackendRunning → BackendRunning → Prop :=
  | backend_request pc nt can h w rw r :
      pc ≠ BackendEnded → pc ≠ BackendKilled →
      backend_step (mkBackendRunning pc nt can false h w)
                   (mkBackendRunning pc nt can false h (h rw r (new_exchange w)).2)
  | backend_signal pc can f h w :
      pc ≠ BackendEnded → pc ≠ BackendKilled →
      backend_step (mkBackendRunning pc true can f h w) (mkBackendRunning pc true true f h w)
  | backend_second_signal pc can f h w :
      pc ≠ BackendEnded → pc ≠ BackendKilled →
      backend_step (mkBackendRunning pc false can f h w) (mkBackendRunning BackendKilled false can f h w)
  | backend_cannot_listen pc nt can h w :
      pc ≠ BackendEnded → pc ≠ BackendKilled →
      backend_step (mkBackendRunning pc nt can false h w) (mkBackendRunning pc false true true h w)
  | backend_fatal pc nt can h w :
      pc ≠ BackendEnded → pc ≠ BackendKilled →
      backend_step (mkBackendRunning pc nt can true h w) (mkBackendRunning BackendKilled nt can true h w)
  | backend_interrupted nt f h w w' :
      graceful w = (Ret tt, w') →
      backend_step (mkBackendRunning BackendServing nt true f h w)
                   (mkBackendRunning BackendShuttingTracer false true f h w')
  | backend_tracer nt can f h w w' :
      shutdown_tracer can w = (Ret tt, w') →
      backend_step (mkBackendRunning BackendShuttingTracer nt can f h w)
                   (mkBackendRunning BackendSyncing nt can f h w')
  | backend_synced nt can f h w w' :
      Logger_Sync w = (Ret tt, w') →
      backend_step (mkBackendRunning BackendSyncing nt can f h w)
                   (mkBackendRunning BackendStopping nt can f h w')
  | backend_ended nt can f h w :
      backend_step (mkBackendRunning BackendStopping nt can f h w)
                   (mkBackendRunning BackendEnded false true f h w).
End Running.
