(* ===== verification/BackendProps.v ===== *)
(** * From the proxy to the demonstration service *)

From stdpp Require Import base gmap strings list option numbers relations.
From Stdlib Require Import ZArith Lia Ascii String.
From S2P Require Import Prelude GoBase GoStrings Encoding World Telemetry Zlogger Database.
From S2P Require Import Sqlite Oidc SessionConfig Sessions Handlers Httputil Server.
From S2P Require Import MiddlewareSpec Concrete HandlerSpec MiddlewareProps ServerProps.
From S2P Require Import Startup Shutdown StartupProps ShutdownProps Backend.

#[local] Open Scope Z_scope.
#[local] Open Scope string_scope.

(** ** The bearer token *)

(** The header of a token is cut in two, unless the word of the scheme is in the token. *)
Lemma split_sent tok :
  strings_Contains tok "Bearer" = false → strings_Split ("Bearer " +:+ tok) "Bearer" = [""; " " +:+ tok].
Proof.
  intros Hc. change (strings_Split ("Bearer " +:+ tok) "Bearer")
    with ("" :: split_from "Bearer" 0 "" (String " " tok)).
  by rewrite split_from_none.
Qed.

Lemma split_too_often tok :
  strings_Contains tok "Bearer" = true →
  ∃ a b c l, strings_Split ("Bearer " +:+ tok) "Bearer" = a :: b :: c :: l.
Proof.
  intros Hc. change (strings_Split ("Bearer " +:+ tok) "Bearer")
    with ("" :: split_from "Bearer" 0 "" (String " " tok)).
  destruct (split_from_some "Bearer" "" (String " " tok)) as (a & b & l & ->); [done|exact Hc|].
  by exists "", a, b, l.
Qed.

Section Backend.
Context `{!Clock} `{!Network} `{!Otel} `{!RealIP} `{!OidcLib} `{!TokenClaims}.
Context `{!Propagator} `{!MuxPaths} `{!ReverseProxy}.
Context (inject_auth : inject_keeps "Authorization") (inject_conn : inject_keeps "Connection").

(** C13: the proxied service checks the token of the session.  Let the proxy hand a
    request of a client over with the access token [tok], and let the service receive a
    request with the [Authorization] header that was sent.  If the client had the header
    dropped, with its [Connection] header, or if the word [Bearer] occurs in the token,
    the answer is 401.  Otherwise [Authorize] verifies [tok], without white space around
    it, and nothing the client has sent: the inner handler runs, with the claims of the
    token, if the provider verifies it, and the answer is 401 if it does not. *)
Theorem backend_checks_the_session_token p r tok out provider next rw r' w :
  outgoing_request p (with_access_token r tok) = Ok out →
  r_Header r' !! "Authorization" = r_Header out !! "Authorization" → has_logger (r_ctx r') →
  ∃ w1, http_step w w1 ∧ w_resp w1 = w_resp w ∧
    Authorize provider next rw r' w =
    if drops (r_Header r) "Authorization" || strings_Contains tok "Bearer" then
      Logger_JsonError rw 401 "" (Some (ErrorString "cannot split the bearer token")) w1
    else
      let token := strings_TrimSpace tok in
      match Verifier_Verify (w_tick w) provider backend_clientId token, token_Claims token with
      | Ok _, Ok claims =>
          next rw (WithContext r' (context_WithValue (r_ctx r') ClaimsCtxKey (AnyClaims claims))) w1
      | Ok _, Err err | Err err, _ => Logger_JsonError rw 401 "" (Some err) w1
      end.
Proof using inject_auth inject_conn.
  intros Hout Hh Hl. apply (outgoing_authorization inject_auth inject_conn) in Hout as [Hauth _].
  rewrite Hauth in Hh. clear Hauth.
  destruct (twp_zlogger_FromContext (r_ctx r')
    (λ _ w', http_step w w' ∧ w_resp w' = w_resp w ∧ w_tick w' = w_tick w) w Hl)
    as ([] & Hr & Hst & Hresp & Htick); [by intros; split_and!|].
  unfold Authorize. rewrite run_bind.
  destruct (zlogger_FromContext (r_ctx r') w) as [o w0]. simpl in Hr, Hst, Hresp, Htick. subst o.
  assert (Hget : Header_Get (r_Header r') "Authorization"
    = if drops (r_Header r) "Authorization" then "" else "Bearer " +:+ tok).
  { unfold Header_Get, Header in *. rewrite Hh. by destruct (drops _ _). }
  cbv zeta. rewrite Hget. destruct (drops _ _); cbn [orb]; [by exists w0|].
  destruct (strings_Contains tok "Bearer") eqn:Hc.
  { destruct (split_too_often tok Hc) as (a & b & c & l & ->). by exists w0. }
  rewrite split_sent by done. change (strings_TrimSpace (" " +:+ tok)) with (strings_TrimSpace tok).
  rewrite run_bind. cbn [interact]. exists (set_tick S w0). split_and!.
  - destruct Hst as (?&?&?&?). repeat split; simpl; [lia|done..].
  - done.
  - rewrite Htick. by destruct (Verifier_Verify _ _ _ _), (token_Claims (strings_TrimSpace tok)).
Qed.

(** ** The service *)

Lemma backend_root_serves : serves backend_rootHandler.
Proof using Type.
  intros rw r w _ Hl. unfold backend_rootHandler.
  destruct (run_FromContext r w Hl) as (w1 & [Hsil _] & _ & Hrun).
  eapply served_run; [apply Hrun|by apply silent_still|].
  destruct (ctx_Value (r_ctx r) ClaimsCtxKey) as [[]|]; try by apply JsonError_served.
  split.
  - unfold time_Now. apply preserves_bind; [apply interact_log|]. intros now.
    apply preserves_bind; [apply rw_Write_log|]. intros _. apply preserves_ret.
  - intros _ _. apply twp_answered, twp_bind, twp_interact, twp_bind, twp_rw_Write.
    intros x w2 (_ & _ & _ & Hl2) _ _ _ Hs2. apply twp_ret. simpl in *.
    split; [congruence|]. rewrite Hs2. by eexists.
Qed.

(** Whatever the header, a request is answered: by the inner handler or with 401. *)
Lemma Authorize_serves provider next : serves_logged next → serves_logged (Authorize provider next).
Proof using Type.
  intros Hn rw r w Hl. unfold Authorize.
  destruct (run_FromContext r w Hl) as (w1 & [Hsil _] & _ & Hrun).
  eapply served_run; [apply Hrun|by apply silent_still|].
  cbv zeta. destruct (strings_Split _ _) as [|? [|second [|]]]; try by apply JsonError_served.
  apply (served_run _ _ (match Verifier_Verify (w_tick w1) provider backend_clientId
      (strings_TrimSpace second) with
    | Ok _ => match token_Claims (strings_TrimSpace second) with
              | Ok claims => next rw (WithContext r (context_WithValue (r_ctx r) ClaimsCtxKey (AnyClaims claims)))
              | Err err => Logger_JsonError rw 401 "" (Some err)
              end
    | Err err => Logger_JsonError rw 401 "" (Some err)
    end) _ (set_tick S w1)); [by rewrite run_bind|done|].
  destruct (Verifier_Verify _ _ _ _); [|by apply JsonError_served].
  destruct (token_Claims _); [|by apply JsonError_served].
  apply Hn. unfold has_logger. simpl r_ctx. by rewrite ctx_Value_WithValue_ne.
Qed.
End Backend.

(** ** The shutdown of the service *)

Section BackendShutdown.
Context `{!TracerProvider}.

Definition backend_reaches_end (s : BackendRunning) : Prop :=
  ∃ s', rtc backend_step s s' ∧ br_pc s' = BackendEnded.

Lemma backend_reaches s s1 : backend_step s s1 → backend_reaches_end s1 → backend_reaches_end s.
Proof. intros Hs (s' & Hs' & He). exists s'. split; [by eapply rtc_l|done]. Qed.

(** Past the wait for a signal, the context is cancelled. *)
Definition backend_past_wait (s : BackendRunning) : Prop :=
  br_pc s ≠ BackendServing → br_pc s ≠ BackendKilled → br_cancelled s = true.

Lemma backend_past_wait_step s s' : backend_step s s' → backend_past_wait s → backend_past_wait s'.
Proof. unfold backend_past_wait. destruct 1; simpl; auto; intros Hs; try congruence; intros; by apply Hs. Qed.

Lemma backend_past_wait_steps s s' :
  rtc backend_step s s' → backend_past_wait s → backend_past_wait s'.
Proof. induction 1; eauto using backend_past_wait_step. Qed.

(** The service shuts down.  In every state it reaches that was not killed, the main
    goroutine is past its wait only when the context is cancelled (so the tracer is
    always shut down with a cancelled context); and once the context is cancelled, by a
    signal or because the server could not listen, the deferred calls can run to the
    end. *)
Theorem backend_shutdown_completes h w s :
  rtc backend_step (backend_serving h w) s → br_pc s ≠ BackendKilled →
  (br_pc s ≠ BackendServing → br_cancelled s = true) ∧
  (br_cancelled s = true → ∃ s', rtc backend_step s s' ∧ br_pc s' = BackendEnded).
Proof.
  intros Hs Hk.
  assert (Hwait : backend_past_wait s) by by eapply backend_past_wait_steps; [|intros []].
  split; [by intros; apply Hwait|]. destruct s as [pc nt can f h' w']. simpl in *. intros ->.
  change (backend_reaches_end (mkBackendRunning pc nt true f h' w')).
  assert (Hstop : ∀ nt w, backend_reaches_end (mkBackendRunning BackendStopping nt true f h' w)).
  { intros nt1 w1. eapply backend_reaches; [apply backend_ended|]. eexists. by split. }
  assert (Hsync : ∀ nt w, backend_reaches_end (mkBackendRunning BackendSyncing nt true f h' w)).
  { intros nt1 w1. eapply backend_reaches; [by apply backend_synced|apply Hstop]. }
  assert (Htrace : ∀ nt w, backend_reaches_end (mkBackendRunning BackendShuttingTracer nt true f h' w)).
  { intros nt1 w1. destruct (shutdown_tracer_runs true w1) as [w2 Hw2].
    eapply backend_reaches; [by apply backend_tracer|apply Hsync]. }
  destruct pc; [|apply Htrace|apply Hsync|apply Hstop| |done].
  - eapply backend_reaches; [by apply backend_interrupted|apply Htrace].
  - eexists. by split.
Qed.
End BackendShutdown.

(** ** The hypotheses can hold *)

#[local] Existing Instance toy_propagator.
#[local] Existing Instance toy_reverse_proxy.
#[local] Existing Instance toy_mux_paths.
#[local] Instance toy_claims : TokenClaims := {| token_Claims := λ raw,
  Ok (mkClaims (after "it-" raw) "" "openid" true (after "it-" raw) "" "" "" "" []) |}.

Definition bob_claims : Claims := mkClaims "bob" "" "openid" true "bob" "" "" "" "" [].

(** The forged header of the client does not reach the service. *)
Lemma backend_checks_the_session_token_witness :
  ∃ out, outgoing_request toy_proxy (with_access_token forged_request " it-bob") = Ok out ∧
  ∃ w1, http_step (toy_world ∅) w1 ∧ w_resp w1 = empty_response ∧
    Authorize ("https://idp" : Provider) backend_rootHandler NetHttpWriter out (toy_world ∅)
    = backend_rootHandler NetHttpWriter
        (WithContext out (context_WithValue (r_ctx out) ClaimsCtxKey (AnyClaims bob_claims))) w1.
Proof.
  destruct (outgoing_request toy_proxy (with_access_token forged_request " it-bob")) as [out|e] eqn:Hout;
    [|vm_compute in Hout; discriminate].
  exists out. split; [reflexivity|].
  assert (Hl : has_logger (r_ctx out)) by (vm_compute in Hout; injection Hout as <-; reflexivity).
  exact (backend_checks_the_session_token toy_inject toy_inject_connection toy_proxy forged_request
           " it-bob" out ("https://idp" : Provider) backend_rootHandler NetHttpWriter out (toy_world ∅)
           Hout eq_refl Hl).
Defined.

(** A token with the word in it is refused, whatever it is worth. *)
Example bearer_in_the_token :
  match outgoing_request toy_proxy (with_access_token forged_request "it-Bearer") with
  | Ok out => status (Authorize ("https://idp" : Provider) backend_rootHandler NetHttpWriter out (toy_world ∅)).2
  | Err _ => None
  end = Some 401.
Proof. vm_compute. reflexivity. Qed.

#[local] Existing Instance toy_tracer_provider.

(** The service is interrupted. *)
Lemma backend_shutdown_completes_witness :
  let s := mkBackendRunning BackendServing true true false backend_rootHandler (toy_world ∅) in
  ∃ s', rtc backend_step s s' ∧ br_pc s' = BackendEnded.
Proof.
  intros s. apply (backend_shutdown_completes backend_rootHandler (toy_world ∅) s);
    [apply rtc_once, backend_signal; discriminate|discriminate|reflexivity].
Defined.
