(* ===== verification/FlowProps.v ===== *)
(** * Properties that follow a session from one request to the next

    Login, then callback; callback, then a protected page; and the attributes of
    every cookie on the way.  Proved against the laws of the cookie store. *)

From stdpp Require Import base gmap strings list option numbers.
From Stdlib Require Import ZArith Lia.
From S2P Require Import Prelude GoBase Encoding World Telemetry Zlogger Database Sqlite.
From S2P Require Import Postgresql Oidc SessionConfig Sessions SessionLemmas CookieLaws.
From S2P Require Import Handlers MiddlewareSpec HandlerSpec Concrete MiddlewareProps.
From S2P Require Import HandlerProps.

#[local] Open Scope Z_scope.

(** The client sends back the cookie [c], and no other. *)
Definition sends_back (r : Request) (c : Cookie) : Prop :=
  r_Cookies r = [(c_Name c, c_Value c)] ∧ has_tracer (r_ctx r) ∧ has_logger (r_ctx r).

Lemma value_string_insert g k s vs :
  gs_Values g = <[k := VString s]> vs → value_string g k = Some s.
Proof. unfold value_string. intros ->. by rewrite lookup_insert_eq. Qed.

Lemma value_string_insert_ne g k k' s vs :
  k ≠ k' → gs_Values g = <[k := VString s]> (delete k' vs) → value_string g k' = None.
Proof. unfold value_string. intros Hk ->. by rewrite lookup_insert_ne, lookup_delete_eq. Qed.

Section Flow.
Context `{!Clock} `{!Network} `{!Otel} `{!Rand} `{!Redirector}.
Context `{!Gorilla} `{!CookieLaws} `{!OidcLib} `{!OAuth2} `{!Uuid} `{!SqlDriver}.
Context (impl : SessionImpl) (view : gmap string Row → Store) (no_rows : string → error).
Context `{!LossyStore impl view no_rows}.
Context (m : Manager) (config : oidc_Config) (Hm : m_sessionImpl m = impl).
Implicit Types (rw : ResponseWriter) (r : Request) (w : World).

(** A new session belongs to the store and the cookie of the manager. *)
Lemma new_cookie_fields r n g :
  new_cookie m r n = (g, None) →
  gs_Name g = m_cookieName m ∧ gs_store g = m_store m ∧ gs_Options g = cs_Options (m_store m).
Proof. apply store_New_fields. Qed.

(** The callback, for a request that carries the cookie of a login. *)
Lemma callback_in_login post rw r w g state :
  has_tracer (r_ctx r) → has_logger (r_ctx r) →
  store_Get (w_tick w) (m_store m) r (m_cookieName m) = (g, None) →
  value_string g sessionStateName = Some state →
  if String.eqb (Query_Get r sessionStateName) state then
    ∃ k a w1, CallbackHandlerOidc m config post rw r w = give rw r a w1 ∧
      match oauth2_Exchange k (oauth2_config config) (FormValue r "code") with
      | Err e => a = Failed 401 "cannot validate oauth code for oidc callback" (Some e)
      | Ok _ => a = Redirected post ∨ ∃ d e, a = Failed 500 d (Some e)
      end
  else
    ∃ w1, silent w w1 ∧ w_table w1 = w_table w ∧
      CallbackHandlerOidc m config post rw r w
        = Logger_JsonError rw 401 "cannot validate state value for oidc callback" None w1.
Proof using All.
  intros Ht Hl Hget Hstate.
  destruct (CallbackHandlerOidc_refines impl view no_rows m config Hm post rw r w Ht Hl)
    as (a & w1 & Hspec & ->).
  pose proof (session_or_error_state view no_rows m config r w g) as Hs.
  assert (Hread : ∀ s, session_or_error view no_rows m config r w (Some s, None) →
            session_state s = state).
  { intros s Hse. assert (s = session_of m config g SessionData_zero) as ->.
    { specialize (Hs _ _ Hget Hstate Hse). congruence. }
    unfold session_state. simpl. by rewrite Hstate. }
  destruct Hspec as [err w1 Hse|s w1 Hse Hne|s k err w1 Hse Heq Hex|
    s k t n g' e err w1 Hse Heq Hex|s k t err w1 Hse Heq Hex|s k t n g' sub raw id w1 Hse Heq Hex];
    [by specialize (Hs _ _ Hget Hstate Hse)|..];
    pose proof (Hread _ Hse) as Hst; destruct (String.eqb_spec (Query_Get r sessionStateName) state)
      as [He|He]; try congruence.
  - eexists. split; [|split; [|reflexivity]]; done.
  - exists k. eexists _, _. split; [reflexivity|]. by rewrite Hex.
  - exists k. eexists _, _. split; [reflexivity|]. rewrite Hex. right. by eexists _, _.
  - exists k. eexists _, _. split; [reflexivity|]. rewrite Hex. right. by eexists _, _.
  - exists k. eexists _, _. split; [reflexivity|]. rewrite Hex. by left.
Qed.

(** C14: login and callback fit together, when the configured name is one a cookie can
    have.  A login either answers an error and sets no cookie, or redirects to the
    provider with a state and sets one cookie; and for a request that sends this cookie
    back to the callback within the 30 days in which the store reads it, a request
    with that state in its query gets its code exchanged (and then the redirect, or
    an error 500 of a later step), while a request with any other state is answered
    401 and changes nothing. *)
Theorem login_then_callback post rw r w :
  valid_cookie_name (m_cookieName m) = true → has_tracer (r_ctx r) → has_logger (r_ctx r) →
  (∃ d e w1, LoginHandlerOidc m config rw r w = Logger_JsonError rw 500 d (Some e) w1 ∧
     silent w w1) ∨
  (∃ state c n w1,
     LoginHandlerOidc m config rw r w
       = http_Redirect rw r (oauth2_AuthCodeURL (oauth2_config config) state) 302 w1 ∧
     rs_cookies (w_resp w1) = rs_cookies (w_resp w) ++ [c] ∧ (w_tick w ≤ n < w_tick w1)%nat ∧
     ∀ rw' r' w', sends_back r' c → not_too_old n (w_tick w') →
       if String.eqb (Query_Get r' sessionStateName) state then
         ∃ k a w2, CallbackHandlerOidc m config post rw' r' w' = give rw' r' a w2 ∧
           match oauth2_Exchange k (oauth2_config config) (FormValue r' "code") with
           | Err e => a = Failed 401 "cannot validate oauth code for oidc callback" (Some e)
           | Ok _ => a = Redirected post ∨ ∃ d e, a = Failed 500 d (Some e)
           end
       else
         ∃ w2, silent w' w2 ∧ w_table w2 = w_table w' ∧
           CallbackHandlerOidc m config post rw' r' w'
             = Logger_JsonError rw' 401 "cannot validate state value for oidc callback" None w2).
Proof using All.
  intros Hvalid Ht Hl.
  destruct (LoginHandlerOidc_refines m config rw r w Ht Hl) as (a & w1 & Hspec & ->).
  destruct Hspec as [e g err w1 Hg He Hs Htab|g err w1 Hg Hs Htab|g n read err w1 state Hg Hr Hu Htab Hsv];
    [left; by eexists _, _, _|left; by eexists _, _, _|right].
  destruct (new_cookie_fields _ _ _ Hg) as (Hname & Hst & _).
  destruct (saved_cookie g _ _ _ _ Hsv) as (c & k & Hcs & _ & _ & Hk & Hget).
  exists state, c, k, w1. split; [reflexivity|]. split; [done|]. split; [done|].
  intros rw' r' w' (Hck & Ht' & Hl') Hold. rewrite Hname, Hst in Hget.
  destruct (Hget (w_tick w') r' Hvalid Hold Hck) as (g' & Hg' & Hvs).
  eapply callback_in_login; [done|done|exact Hg'|]. by eapply value_string_insert.
Qed.

(** ** Cookies *)

(** Every cookie of [w'] that [w] did not have is named after the manager and has
    the attributes of its store. *)
Definition only_hardened_cookies (w w' : World) : Prop :=
  ∃ cs, rs_cookies (w_resp w') = rs_cookies (w_resp w) ++ cs ∧
    Forall (λ c, c_Name c = m_cookieName m ∧ hardened (m_store m) c) cs.

Lemma only_hardened_none w w' :
  rs_cookies (w_resp w') = rs_cookies (w_resp w) → only_hardened_cookies w w'.
Proof. intros He. exists []. by rewrite app_nil_r. Qed.

Lemma only_hardened_saved g vs age w w' :
  gs_Name g = m_cookieName m → gs_Options g = cs_Options (m_store m) →
  saved (set_Values g vs age) w w' → only_hardened_cookies w w'.
Proof using All.
  intros Hn Ho (c & n & Hcs & Hopt & Hname & _)%saved_cookie. exists [c]. split; [done|].
  repeat constructor; [congruence|]. exists age. congruence.
Qed.

Lemma silent_cookies w w' : silent w w' → rs_cookies (w_resp w') = rs_cookies (w_resp w).
Proof. by intros (_ & _ & _ & _ & ->). Qed.

Lemma login_cookies r w a w1 :
  login_spec m config r w a w1 → only_hardened_cookies w w1.
Proof using All.
  intros [ | |g n read err w2 state Hg _ _ _ Hsv]; [by apply only_hardened_none, silent_cookies..|].
  destruct (new_cookie_fields _ _ _ Hg) as (? & _ & ?). by eapply only_hardened_saved.
Qed.

Lemma callback_cookies post r w a w1 :
  callback_spec view no_rows m config post r w a w1 → only_hardened_cookies w w1.
Proof using All.
  intros [| | | | |s k t n g sub raw id w2 _ _ _ Hg _ _ _ _ _ Hsv];
    [by apply only_hardened_none, silent_cookies..|].
  destruct (new_cookie_fields _ _ _ Hg) as (? & _ & ?). by eapply only_hardened_saved.
Qed.

Lemma logout_cookies post r w a w1 :
  logout_spec view no_rows m config post r w a w1 → only_hardened_cookies w w1.
Proof using All.
  intros [| |s id w2 Hse _ _ _ Hsv]; [by apply only_hardened_none, silent_cookies..|].
  apply (session_or_error_read impl) in Hse as (g & d & -> & Hg); [|done..].
  destruct (store_Get_fields _ _ _ _ _ Hg) as (? & _ & ?). by eapply only_hardened_saved.
Qed.

(** The handlers of the routes that are not behind the middleware. *)
Definition public_handlers (post_login post_logout : string) : list Handler :=
  [LoginHandlerOidc m config; CallbackHandlerOidc m config post_login;
   LogoutHandlerOidc m config post_logout].

(** C23: every cookie that the login, callback and logout handlers set is the
    session cookie, with the domain, path, [Secure], [HttpOnly] and [SameSite]
    attributes of the store of the manager. *)
Theorem public_handlers_set_hardened_cookies post_login post_logout rw r w :
  has_tracer (r_ctx r) → has_logger (r_ctx r) →
  Forall (λ h : Handler, only_hardened_cookies w (h rw r w).2)
         (public_handlers post_login post_logout).
Proof using All.
  intros Ht Hl.
  assert (Hgive : ∀ a w1, only_hardened_cookies w w1 → only_hardened_cookies w (give rw r a w1).2).
  { intros a w1 (cs & Hcs & Hall). exists cs. split; [|done]. rewrite <-Hcs.
    exact (proj2 (give_step rw r a w1)). }
  repeat constructor.
  - destruct (LoginHandlerOidc_refines m config rw r w Ht Hl) as (a & w1 & Hs & ->).
    eapply Hgive, login_cookies, Hs.
  - destruct (CallbackHandlerOidc_refines impl view no_rows m config Hm post_login rw r w Ht Hl)
      as (a & w1 & Hs & ->). eapply Hgive, callback_cookies, Hs.
  - destruct (LogoutHandlerOidc_refines impl view no_rows m config Hm post_logout rw r w Ht Hl)
      as (a & w1 & Hs & ->). eapply Hgive, logout_cookies, Hs.
Qed.

(** ** From the callback to a protected page *)

Context (refresh_needs_token :
  ∀ n c, ∃ e, oauth2_TokenSource_Token n c (Token_of_refresh "") = Err e).
Context (clock_after_zero : ∀ n, Time_zero < clock_now n).

(** C10: callback and middleware fit together, when the configured name is one a cookie
    can have.  When the callback redirects, it has exchanged the code for a token, and
    put a session in the store under the id that the one cookie it sets carries.  Any
    request that sends this cookie back within the 30 days in which the store reads it,
    before the expiration of the token (rounded down to a second), while the database
    answers and that session is still the one in the store, whatever else is there,
    passes the middleware with the access token of that token, whatever the inner
    handler. *)
Theorem callback_then_protected_page post rw r w :
  valid_cookie_name (m_cookieName m) = true → has_tracer (r_ctx r) → has_logger (r_ctx r) →
  ∃ a w1, CallbackHandlerOidc m config post rw r w = give rw r a w1 ∧
    ∀ url, a = Redirected url → url = post ∧
      ∃ k t c n id d, oauth2_Exchange k (oauth2_config config) (FormValue r "code") = Ok t ∧
        rs_cookies (w_resp w1) = rs_cookies (w_resp w) ++ [c] ∧ (w_tick w ≤ n < w_tick w1)%nat ∧
        view (w_table w1) = <[id := d]> (view (w_table w)) ∧
        ∀ next rw' r' w', sends_back r' c → not_too_old n (w_tick w') →
          view (w_table w') !! id = Some d → db_up w' →
          (∀ n, (w_tick w' ≤ n)%nat → clock_now n ≤ time_Unix (Time_Unix (t_Expiry t))) →
          ∃ w2, silent w' w2 ∧ w_table w2 = w_table w' ∧
            AuthenticationMiddleware m config next rw' r' w'
              = next rw' (with_access_token r' (t_AccessToken t)) w2.
Proof using All.
  intros Hvalid Ht Hl.
  destruct (CallbackHandlerOidc_refines impl view no_rows m config Hm post rw r w Ht Hl)
    as (a & w1 & Hspec & ->).
  exists a, w1. split; [done|]. intros url ->. inversion_clear Hspec as [| | | | |
    s k t n g sub raw id ? Hse Heq Hex Hg Hver Hfr Hno Hun Hview Hsv].
  split; [done|]. destruct (new_cookie_fields _ _ _ Hg) as (Hname & Hst & _).
  destruct (saved_cookie g _ _ _ _ Hsv) as (c & j & Hcs & _ & _ & Hj & Hget).
  exists k, t, c, j, id, (truncate (token_data sub raw t)). do 4 (split; [done|]).
  intros next rw' r' w' (Hck & Ht' & Hl') Hold Hsess Hup Hclock. rewrite Hname, Hst in Hget.
  destruct (Hget (w_tick w') r' Hvalid Hold Hck) as (g' & Hg' & Hvs).
  destruct (AuthenticationMiddleware_valid impl view no_rows m config Hm refresh_needs_token
    clock_after_zero next rw' r' w' g' id (truncate (token_data sub raw t)) Ht' Hl') as (w3 & Hs3 & Ht3 & Hr3);
    [|exact Hup|exact Hsess|exact Hclock|exists w3; split; [exact Hs3|split; [exact Ht3|exact Hr3]]].
  apply cookie_lookup_session; [done| |by eapply value_string_insert].
  eapply (value_string_insert_ne _ sessionIdName); [done|exact Hvs].
Qed.
End Flow.

(** ** The hypotheses can hold *)

Lemma login_then_callback_witness :
  status after_callback = Some 302 ∧
  ltac:(instance_of (login_then_callback (sqlite_impl None) (store_view None) sqlite_no_rows
    toy_manager toy_config eq_refl "/home" NetHttpWriter login_request (toy_world ∅)
    eq_refl (toy_has_tracer _ _ _) (toy_has_logger _ _ _))).
Proof.
  split; [vm_compute; reflexivity|].
  exact (login_then_callback (sqlite_impl None) (store_view None) sqlite_no_rows
    toy_manager toy_config eq_refl "/home" NetHttpWriter login_request (toy_world ∅)
    eq_refl (toy_has_tracer _ _ _) (toy_has_logger _ _ _)).
Defined.

Lemma public_handlers_set_hardened_cookies_witness :
  length (rs_cookies (w_resp after_login)) = 1%nat ∧
  ltac:(instance_of (public_handlers_set_hardened_cookies (sqlite_impl None) (store_view None)
    sqlite_no_rows toy_manager toy_config eq_refl "/home" "/bye" NetHttpWriter login_request
    (toy_world ∅) (toy_has_tracer _ _ _) (toy_has_logger _ _ _))).
Proof.
  split; [vm_compute; reflexivity|].
  exact (public_handlers_set_hardened_cookies (sqlite_impl None) (store_view None)
    sqlite_no_rows toy_manager toy_config eq_refl "/home" "/bye" NetHttpWriter login_request
    (toy_world ∅) (toy_has_tracer _ _ _) (toy_has_logger _ _ _)).
Defined.

(** The page, right after the callback: the token of bob reaches the inner handler. *)
Lemma callback_then_protected_page_witness :
  rs_body (w_resp (AuthenticationMiddleware toy_manager toy_config toy_next NetHttpWriter
    (toy_next_request "/proxy" "" after_callback) (next_exchange after_callback)).2) = ["at-bob-5"] ∧
  ltac:(instance_of (callback_then_protected_page (sqlite_impl None) (store_view None)
    sqlite_no_rows toy_manager toy_config eq_refl toy_refresh_needs_token toy_clock_after_zero
    "/home" NetHttpWriter (callback_request toy_state) (next_exchange after_login)
    eq_refl (toy_next_tracer _ _ _) (toy_next_logger _ _ _))).
Proof.
  split; [vm_compute; reflexivity|].
  exact (callback_then_protected_page (sqlite_impl None) (store_view None)
    sqlite_no_rows toy_manager toy_config eq_refl toy_refresh_needs_token toy_clock_after_zero
    "/home" NetHttpWriter (callback_request toy_state) (next_exchange after_login)
    eq_refl (toy_next_tracer _ _ _) (toy_next_logger _ _ _)).
Defined.
