(* ===== verification/Revocation.v ===== *)
(** * The server over many requests: revocation

    The requests of a server as steps between worlds, one handler after the other,
    in any order; the sessions that are gone stay gone. *)

From stdpp Require Import base gmap strings list option numbers relations.
From Stdlib Require Import ZArith Lia.
From S2P Require Import Prelude GoBase Encoding World Telemetry Zlogger Database Sqlite.
From S2P Require Import Postgresql Oidc SessionConfig Sessions SessionLemmas CookieLaws.
From S2P Require Import Handlers MiddlewareSpec HandlerSpec Concrete MiddlewareProps.
From S2P Require Import HandlerProps.

#[local] Open Scope Z_scope.

Section Server.
Context `{!Clock} `{!Network} `{!Otel} `{!Rand} `{!Redirector}.
Context `{!Gorilla} `{!OidcLib} `{!OAuth2} `{!Uuid} `{!SqlDriver}.
Context (m : Manager) (config : oidc_Config) (post_login post_logout : string).
Implicit Types (rw : ResponseWriter) (r : Request) (w : World).

(** A handler behind the middleware that leaves the sessions alone. *)
Definition leaves_sessions (next : Handler) : Prop :=
  ∀ rw r w, w_table (next rw r w).2 = w_table w ∧ (w_tick w ≤ w_tick (next rw r w).2)%nat.

(** One step of the server: a request to one of its handlers, a round of the
    cleaner, or the world moving on without touching the sessions (another
    exchange, a failure of the connection). *)
Inductive server_step : World → World → Prop :=
  | step_login rw r w :
      has_tracer (r_ctx r) → has_logger (r_ctx r) →
      server_step w (LoginHandlerOidc m config rw r w).2
  | step_callback rw r w :
      has_tracer (r_ctx r) → has_logger (r_ctx r) →
      server_step w (CallbackHandlerOidc m config post_login rw r w).2
  | step_logout rw r w :
      has_tracer (r_ctx r) → has_logger (r_ctx r) →
      server_step w (LogoutHandlerOidc m config post_logout rw r w).2
  | step_page next rw r w :
      has_tracer (r_ctx r) → has_logger (r_ctx r) → leaves_sessions next →
      server_step w (AuthenticationMiddleware m config next rw r w).2
  | step_purge ctx w : server_step w (Purge (m_sessionImpl m) ctx w).2
  | step_other w w' :
      w_table w' = w_table w → (w_tick w ≤ w_tick w')%nat → server_step w w'.
End Server.

Section Revocation.
Context `{!Clock} `{!Network} `{!Otel} `{!Rand} `{!Redirector}.
Context `{!Gorilla} `{!OidcLib} `{!OAuth2} `{!Uuid} `{!SqlDriver}.
Context (impl : SessionImpl) (view : gmap string Row → Store) (no_rows : string → error).
Context `{!LossyStore impl view no_rows}.
Context (m : Manager) (config : oidc_Config) (Hm : m_sessionImpl m = impl).
Context (post_login post_logout : string).
Context (refresh_needs_token :
  ∀ n c, ∃ e, oauth2_TokenSource_Token n c (Token_of_refresh "") = Err e).
Context (clock_after_zero : ∀ n, Time_zero < clock_now n).
Implicit Types (rw : ResponseWriter) (r : Request) (w : World) (id : string).

(** The session [id] is gone, and will not be handed out again. *)
Definition gone id w : Prop :=
  view (w_table w) !! id = None ∧ ∀ n, (w_tick w ≤ n)%nat → uuid_New n ≠ id.

Lemma gone_same id w w' :
  (w_tick w ≤ w_tick w')%nat → view (w_table w') = view (w_table w) → gone id w → gone id w'.
Proof. intros Hk Hv [Hn Hid]. split; [by rewrite Hv|]. intros n Hle. apply Hid. lia. Qed.

Lemma gone_insert id id' d w w' :
  (w_tick w ≤ w_tick w')%nat → id ≠ id' →
  view (w_table w') = <[id' := d]> (view (w_table w)) → gone id w → gone id w'.
Proof.
  intros Hk Hne Hv [Hn Hid]. split; [by rewrite Hv, lookup_insert_ne|].
  intros n Hle. apply Hid. lia.
Qed.

Lemma gone_delete id id' w w' :
  (w_tick w ≤ w_tick w')%nat → view (w_table w') = delete id' (view (w_table w)) →
  gone id w → gone id w'.
Proof.
  intros Hk Hv [Hn Hid]. split; [|intros n Hle; apply Hid; lia].
  rewrite Hv. by apply lookup_delete_None; right.
Qed.

Lemma gone_http id w w' : http_step w w' → gone id w → gone id w'.
Proof. intros (Hk & Ht & _). apply gone_same; [done|by rewrite Ht]. Qed.

Lemma gone_fresh id id' w w' : fresh_id id' w w' → gone id w → id ≠ id'.
Proof. intros (n & -> & Hle & _) [_ Hid]. specialize (Hid n Hle). congruence. Qed.

Lemma silent_tick w w' : silent w w' → (w_tick w ≤ w_tick w')%nat.
Proof. by intros [? _]. Qed.

Lemma unsent_tick w w' : unsent w w' → (w_tick w ≤ w_tick w')%nat.
Proof. by intros [? _]. Qed.

Lemma gone_table id w w' :
  (w_tick w ≤ w_tick w')%nat → w_table w' = w_table w → gone id w → gone id w'.
Proof. intros ? Ht. apply gone_same; [done|by rewrite Ht]. Qed.

Lemma gone_login id r w a w1 : login_spec m config r w a w1 → gone id w → gone id w1.
Proof.
  intros [? ? ? ? _ _ Hs Ht|? ? ? _ Hs Ht|? ? ? ? ? ? _ _ Hu Ht _]; apply gone_table;
    eauto using silent_tick, unsent_tick.
Qed.

Lemma gone_callback id r w a w1 :
  callback_spec view no_rows m config post_login r w a w1 → gone id w → gone id w1.
Proof.
  intros Hspec Hg. destruct Hspec as [? ? _ Hs Ht|? ? _ _ Hs Ht|? ? ? ? _ _ _ Hs Ht|
    ? ? ? ? ? ? ? ? _ _ _ _ Hs Ht|? ? ? ? ? _ _ _ Hs [Hv|(id' & d & Hf & _ & Hv)]|
    ? ? ? ? ? ? ? id' ? _ _ _ _ _ Hf _ Hu Hv _].
  1-4: by apply (gone_table _ w); [apply silent_tick| |].
  - apply (gone_same _ w); [by apply silent_tick|exact Hv|done].
  - apply (gone_insert _ id' d w); [by apply silent_tick|by eapply gone_fresh|done|done].
  - eapply (gone_insert _ id' _ w); [by apply unsent_tick|by eapply gone_fresh|done|done].
Qed.

Lemma gone_logout id r w a w1 :
  logout_spec view no_rows m config post_logout r w a w1 → gone id w → gone id w1.
Proof.
  intros [? ? _ Hs Ht|? ? ? _ Hs [Hv|[id' Hv]]|? id' ? _ _ Hu Hv _] Hg.
  - by apply (gone_table _ w); [apply silent_tick| |].
  - apply (gone_same _ w); [by apply silent_tick|exact Hv|done].
  - by apply (gone_delete _ id' w); [apply silent_tick| |].
  - by apply (gone_delete _ id' w); [apply unsent_tick| |].
Qed.

Lemma gone_auth id r w v w1 :
  auth_spec view no_rows m config r w v w1 → gone id w → gone id w1.
Proof.
  intros Hspec Hg. assert (Hne : ∀ id' old, view (w_table w) !! id' = Some old → id ≠ id').
  { intros id' old Ho ->. destruct Hg. congruence. }
  destruct Hspec as [? ? _ Hs Ht|? ? _ Hs Ht|? ? ? _ _ Hs Ht|? ? ? ? _ _ _ _ Hs Ht|
    ? ? ? ? ? _ _ _ _ Hs Ht|? ? ? ? ? ? _ _ _ _ Hs Ht|
    ? ? ? ? ? ? ? ? _ _ _ _ _ Hs [Hv|(id' & old & d' & Ho & _ & Hv)]|
    ? id' ? ? ? ? ? ? _ Ho _ _ _ _ Hu Hv _].
  1-6: by apply (gone_table _ w); [apply silent_tick| |].
  - apply (gone_same _ w); [by apply silent_tick|exact Hv|done].
  - apply (gone_insert _ id' d' w); [by apply silent_tick|by eapply Hne|done|done].
  - eapply (gone_insert _ id' _ w); [by apply unsent_tick|by eapply Hne|done|done].
Qed.

Lemma gone_step id w w' :
  server_step m config post_login post_logout w w' → gone id w → gone id w'.
Proof using All.
  intros Hstep Hg. destruct Hstep as [rw r w Ht Hl|rw r w Ht Hl|rw r w Ht Hl|
    next rw r w Ht Hl Hn|ctx w|w w' Ht Hk].
  - destruct (LoginHandlerOidc_refines m config rw r w Ht Hl) as (a & w1 & Hs & ->).
    eapply gone_http; [apply (proj1 (give_step _ _ _ _))|]. by eapply gone_login.
  - destruct (CallbackHandlerOidc_refines impl view no_rows m config Hm post_login rw r w Ht Hl)
      as (a & w1 & Hs & ->).
    eapply gone_http; [apply (proj1 (give_step _ _ _ _))|]. by eapply gone_callback.
  - destruct (LogoutHandlerOidc_refines impl view no_rows m config Hm post_logout rw r w Ht Hl)
      as (a & w1 & Hs & ->).
    eapply gone_http; [apply (proj1 (give_step _ _ _ _))|]. by eapply gone_logout.
  - destruct (AuthenticationMiddleware_refines impl view no_rows m config Hm
      refresh_needs_token clock_after_zero next rw r w Ht Hl) as (v & w1 & Hs & ->).
    pose proof (gone_auth _ _ _ _ _ Hs Hg) as Hg1. destruct v as [code d e|tok]; simpl.
    + eapply gone_http; [apply (proj1 (give_step rw r (Failed code d (Some e)) _))|done].
    + destruct (Hn rw (with_access_token r tok) w1). by eapply gone_table.
  - rewrite Hm. destruct (Purge_refines (view:=view) ctx w) as (e & _ & (Hk & _) & Hp).
    destruct (spec_Purge_effect _ _ _ Hp) as [Hv|[n Hv]]; [by eapply gone_same|].
    destruct Hg as [Hno Hid]. split; [|intros k Hle; apply Hid; lia].
    rewrite Hv. apply map_lookup_filter_None. by left.
  - by eapply gone_table.
Qed.

Lemma gone_steps id w w' :
  rtc (server_step m config post_login post_logout) w w' → gone id w → gone id w'.
Proof using All. induction 1; eauto using gone_step. Qed.

(** C5: logging out revokes the session for good.  After a logout that redirected,
    the session id of the cookie it was given is not in the store, and whatever
    requests the server handles next, in any order, a request that presents a
    cookie with this id never reaches the handler behind the middleware: it is
    answered 401 or 500.  (The ids drawn later differ from it.) *)
Theorem logged_out_session_is_never_accepted rw r w g id :
  has_tracer (r_ctx r) → has_logger (r_ctx r) →
  cookie_lookup m r (w_tick w) = SessionId g id →
  (∀ n, (w_tick w ≤ n)%nat → uuid_New n ≠ id) →
  (∃ d e w1, LogoutHandlerOidc m config post_logout rw r w
             = Logger_JsonError rw 500 d (Some e) w1) ∨
  (∃ url w1, LogoutHandlerOidc m config post_logout rw r w = http_Redirect rw r url 302 w1 ∧
     ∀ w2 next rw' r' g',
       rtc (server_step m config post_login post_logout) w1 w2 →
       has_tracer (r_ctx r') → has_logger (r_ctx r') →
       cookie_lookup m r' (w_tick w2) = SessionId g' id →
       ∃ code d e w3, (code = 401 ∨ code = 500) ∧
         AuthenticationMiddleware m config next rw' r' w2
           = Logger_JsonError rw' code d (Some e) w3).
Proof using All.
  intros Ht Hl Hlook Hfresh.
  destruct (LogoutHandlerOidc_refines impl view no_rows m config Hm post_logout rw r w Ht Hl)
    as (a & w1 & Hspec & ->).
  destruct Hspec as [err w1 Hse Hs Htab|s err w1 Hse Hs Hv|s id' w1 Hse Hid Hu Hv Hsv];
    [left; by eexists _, _, _..|right].
  assert (id' = id) as ->.
  { unfold session_or_error, get_session_post in Hse. rewrite Hlook in Hse.
    destruct Hse as [(d & _ & ?)|(e & ? & _)]; simplify_eq.
    by eapply cookie_lookup_id. }
  eexists _, w1. split; [reflexivity|]. intros w2 next rw' r' g' Hrtc Ht' Hl' Hlook'.
  assert (Hg : gone id w2).
  { eapply gone_steps; [done|]. split; [by rewrite Hv, lookup_delete_eq|].
    intros n Hn. apply Hfresh. pose proof (unsent_tick _ _ Hu). lia. }
  destruct (AuthenticationMiddleware_refines impl view no_rows m config Hm
    refresh_needs_token clock_after_zero next rw' r' w2 Ht' Hl') as (v & w3 & Hv' & ->).
  destruct Hg as [Hno _].
  inversion Hv' as [| | | | |? ? ? ? ? ? [(st & Hld & _)|(id' & Hld & Hd)]| |]; simplify_eq;
    try congruence; eexists _, _, _, _; (split; [|reflexivity]); auto.
Qed.
End Revocation.

(** ** The hypotheses can hold *)

Lemma pretty_id n : uuid_New n ≠ "A".
Proof. unfold uuid_New, toy_uuid. discriminate. Qed.

Lemma logged_out_session_is_never_accepted_witness :
  w_table (LogoutHandlerOidc toy_manager toy_config "/bye" NetHttpWriter (get_proxy cookie_A)
             (toy_world bob_table)).2 = ∅ ∧
  ltac:(instance_of (logged_out_session_is_never_accepted (sqlite_impl None) (store_view None)
    sqlite_no_rows toy_manager toy_config eq_refl "/home" "/bye" toy_refresh_needs_token
    toy_clock_after_zero NetHttpWriter (get_proxy cookie_A) (toy_world bob_table)
    (toy_new toy_store_ (get_proxy cookie_A) "session").1 "A"
    (toy_has_tracer _ _ _) (toy_has_logger _ _ _) eq_refl (λ n _, pretty_id n))).
Proof.
  split; [vm_compute; reflexivity|].
  exact (logged_out_session_is_never_accepted (sqlite_impl None) (store_view None)
    sqlite_no_rows toy_manager toy_config eq_refl "/home" "/bye" toy_refresh_needs_token
    toy_clock_after_zero NetHttpWriter (get_proxy cookie_A) (toy_world bob_table)
    (toy_new toy_store_ (get_proxy cookie_A) "session").1 "A"
    (toy_has_tracer _ _ _) (toy_has_logger _ _ _) eq_refl (λ n _, pretty_id n)).
Defined.
