(* ===== verification/ServiceProps.v ===== *)
(** * Properties of requests that run at the same time, and of the process as a service *)

From stdpp Require Import base gmap strings list option numbers relations.
From Stdlib Require Import ZArith Lia String.
From S2P Require Import Prelude GoBase Encoding World Telemetry Zlogger Database Sqlite.
From S2P Require Import Postgresql Oidc SessionConfig Sessions Config LoadConfig Manager.
From S2P Require Import Cleaner SessionLemmas Handlers Server Startup Shutdown Invariance.
From S2P Require Import Typing MiddlewareSpec Race RaceStore Service Concrete.
From S2P Require Import MiddlewareProps ConfigProps LoadConfigProps ServerProps StartupProps.
From S2P Require Import ShutdownProps TypingProps RaceProps.

#[local] Open Scope Z_scope.
#[local] Open Scope string_scope.

(** ** Requests that run at the same time *)

Section Requests.
Context `{!Clock} `{!Network} `{!Otel} `{!Rand} `{!Redirector} `{!RealIP}.
Context `{!Gorilla} `{!OidcLib} `{!OAuth2} `{!BodyFault}.
Context `{!ReverseProxy} `{!Propagator} `{!MuxPaths} `{!Uuid} `{!SqlDriver}.
Context (hv : Halves) (view : gmap string Row → Store) (no_rows : string → error).
Context `{!ServiceHalves hv view no_rows} (config : oidc_Config).
(** Two draws are different. *)
Context (uuid_inj : ∀ n k, uuid_New n = uuid_New k → n = k).
(** What other goroutines do before each statement: whatever takes the service through
    its steps, as long as no id of a session is drawn again. *)
Context (others : IO unit).
Context (Hothers : ∀ w, all_taken (service_of view w) → guarantee view config w (others w).2).
Context (m : Manager) (Hm : m_sessionImpl m = interfered others hv).

Abbreviation service_of := (service_of view).
Abbreviation guarantee := (guarantee view config).

Lemma server_provides post_login post_logout proxies rw r w :
  all_taken (service_of w) →
  guarantee w (server m config post_login post_logout proxies rw r w).2.
Proof using All.
  intros Htaken.
  pose proof (interfered_serves hv view no_rows config others Hothers uuid_inj w Htaken) as Hk.
  by apply (keeping_server (guarantee w) (guarantee_about_db view config w) _ _ config m Hm).
Qed.

(** C3: requests that run at the same time provide the service of sessions.  Before every
    statement of a request, between the two statements of a renewal, too, other
    goroutines do what they like as long as the sessions go through steps of the
    service: a session is opened under a new id for a verified token, renewed for its
    user, closed, or purged.  Then the whole server takes them through such steps and
    makes no row unreadable, wherever it is stopped (the others may panic at any point),
    and so does a round of the cleaner: what each goroutine relies on is what it
    guarantees. *)
Theorem concurrent_requests_refine_the_service post_login post_logout proxies ctx rw r w :
  all_taken (service_of w) →
  guarantee w (server m config post_login post_logout proxies rw r w).2 ∧
  guarantee w (cleaner_round ctx (interfered others hv) w).2.
Proof using All.
  intros Htaken. split; [by apply server_provides|].
  pose proof (interfered_serves hv view no_rows config others Hothers uuid_inj w Htaken) as Hk.
  by apply (keeps_cleaner_round (guarantee w) (guarantee_about_db view config w)
      (served config (service_of w))).
Qed.

(** ** The middleware, while the others run *)

Context (others_return : ∀ w, ∃ w', others w = (Ret tt, w')).

Lemma twp_others (Q : unit → World → Prop) w :
  all_taken (service_of w) → (∀ w', guarantee w w' → Q tt w') → twp others Q w.
Proof using Hothers others_return.
  intros Ht HQ. destruct (others_return w) as [w' Hw']. exists tt. specialize (Hothers w Ht).
  rewrite Hw' in Hothers |- *. split; [done|]. by apply HQ.
Qed.

Lemma guarantee_quiet w w' : SessionLemmas.quiet w w' → guarantee w w'.
Proof. intros [(Hle & _) Ht]. by apply guarantee_same. Qed.

Lemma twp_interfered_Get ctx id (Q : SessionData * option error → World → Prop) w :
  all_taken (service_of w) →
  (∀ wm w' d, guarantee w wm → view (w_table wm) !! id = Some d → guarantee wm w' → Q (d, None) w') →
  (∀ w' e, guarantee w w' → Q (SessionData_zero, Some e) w') →
  twp (Get (interfered others hv) ctx id) Q w.
Proof using Hothers others_return ServiceHalves0.
  intros Ht Hok Herr. apply twp_bind, twp_others; [done|]. intros wm Hwm.
  apply (twp_impl_Get (hv_impl hv) view no_rows).
  - intros w' d Hq Hd. by eapply Hok; [exact Hwm|exact Hd|apply guarantee_quiet].
  - intros w' e Hq _ _. apply Herr. etrans; [exact Hwm|]. by apply guarantee_quiet.
Qed.
Lemma twp_interfered_Update ctx id d w :
  all_taken (service_of w) → twp (Update (interfered others hv) ctx id d) (λ _ _, True) w.
Proof using Hothers others_return ServiceHalves0 uuid_inj.
  intros Ht. apply twp_bind, twp_bind, twp_others; [done|]. intros w1 Hw1.
  eapply twp_mono; [apply (read_spec (view:=view))|].
  intros [span [err|]] w2 (Hs & Htab & _); [by apply twp_ret|].
  assert (Hw2 : guarantee w1 w2) by (apply guarantee_quiet; by split).
  apply twp_bind, twp_others; [by eauto using taken_guarantee|]. intros w3 _.
  eapply twp_mono; [apply (write_spec (view:=view))|done].
Qed.

Lemma twp_Session_Update_returns s rw r t w :
  s_sessionImpl s = interfered others hv → has_tracer (r_ctx r) → all_taken (service_of w) →
  twp (Session_Update s rw r t) (λ _ _, True) w.
Proof using Hothers others_return ServiceHalves0 uuid_inj.
  intros Hs Ht Htaken. apply twp_with_span_tracer; [done|]. intros c w1 Hw1 Hc.
  apply twp_bind, twp_newData; [done|by intros; apply twp_ret|]. intros w2 sub raw Hw2 _. cbn zeta.
  assert (Hw : guarantee w w2) by (apply guarantee_quiet; solve_step).
  cbn [set_data s_session s_sessionImpl s_data]. rewrite Hs.
  destruct (value_string _ _); [|by apply twp_ret]. apply twp_bind.
  eapply twp_mono; [by apply twp_interfered_Update; eapply taken_guarantee|].
  intros [e|] w3 _; [by apply twp_ret|].
  apply twp_bind, twp_saveSession; [done|by intros; apply twp_ret..].
Qed.

(** A session that is found was in the service while the request ran. *)
Lemma twp_GetSession_interfered r g id w :
  has_tracer (r_ctx r) → all_taken (service_of w) →
  cookie_lookup m r (w_tick w) = SessionId g id →
  twp (GetSession m r config)
    (λ a w',
      (∃ d wm, a = (Some (session_of m config g d), None) ∧ guarantee w wm ∧
         view (w_table wm) !! id = Some d ∧ guarantee wm w') ∨
      (∃ e, a = (None, Some (lookup_error e)) ∧ guarantee w w')) w.
Proof using Hothers others_return ServiceHalves0 Hm uuid_inj.
  intros Ht Htaken Hlook. apply twp_with_span_tracer; [done|]. intros c w1 Hw1 Hc.
  assert (Htick : w_tick w1 = w_tick w) by (step_facts; congruence).
  assert (Hg1 : guarantee w w1) by (apply guarantee_quiet; solve_step).
  apply twp_bind, twp_interact. rewrite Htick. unfold cookie_lookup in Hlook.
  destruct (store_Get (w_tick w) (m_store m) r (m_cookieName m)) as [g' [e|]]; [done|].
  destruct (value_string g' sessionStateName); [done|].
  destruct (value_string g' sessionIdName) as [id'|] eqn:Hid; [|done]. injection Hlook as -> ->.
  apply twp_bind, twp_with_span_tracer; [done|]. intros c' w2 Hw2 _. cbn [s_session].
  assert (Hg2 : guarantee w w2) by (etrans; [exact Hg1|]; apply guarantee_quiet; solve_step).
  rewrite Hid. apply twp_bind. cbn [s_sessionImpl]. rewrite Hm. apply twp_interfered_Get; [by eapply taken_guarantee| |].
  - intros wm w3 d Hwm Hd Hw3. apply twp_ret. intros w4 Hw4. apply twp_ret. intros w5 Hw5. left.
    exists d, wm. unfold session_of. rewrite Hm. split; [done|]. split; [by etrans|].
    split; [done|]. etrans; [exact Hw3|]. apply guarantee_quiet. solve_step.
  - intros w3 e Hw3. unfold lookup_error.
    destruct (error_eq e sql_ErrNoRows) eqn:He; apply twp_ret; intros w4 Hw4; apply twp_ret;
      intros w5 Hw5; right; exists e; rewrite He; (split; [done|]);
      (etrans; [exact Hg2|]; etrans; [exact Hw3|]; apply guarantee_quiet; solve_step).
Qed.
(** The token a session gives: its own, or one it was renewed with for the user the
    session had in the meantime. *)
Definition gives (w : World) (id : string) (d : SessionData) (tok : string) : Prop :=
  (tok = AccessToken d ∧ ∃ n, (clock_now n ≤ ExpiresAt d)%Z) ∨
  (∃ k t raw s old,
     oauth2_TokenSource_Token k (oauth2_config config) (Token_of_refresh (RefreshToken d)) = Ok t ∧
     tok = t_AccessToken t ∧ rtc (service_step config) (service_of w) s ∧
     sv_sessions s !! id = Some old ∧ verified config t (Subject old) raw).

(** How the middleware ends. *)
Definition refused rw (run : outcome unit * World) (w1 : World) : Prop :=
  ∃ code text e, (code = 401 ∨ code = 500) ∧ run = Logger_JsonError rw code text (Some e) w1.

Lemma interfered_authenticated next rw r w w2 g id d :
  has_tracer (r_ctx r) → all_taken (service_of w) → value_string g sessionIdName = Some id →
  guarantee w w2 →
  ∃ w1, guarantee w2 w1 ∧
    (refused rw (authenticated config next (Some (session_of m config g d)) rw r w2) w1 ∨
     ∃ tok, gives w id d tok ∧
       authenticated config next (Some (session_of m config g d)) rw r w2
         = next rw (with_access_token r tok) w1).
Proof using All.
  intros Ht Htaken Hid Hw2. unfold authenticated, SessionData_IsExpired, time_Now.
  rewrite !bind_assoc, run_bind. cbn [interact fst snd]. rewrite bind_ret.
  cbn [session_of s_data]. unfold Time_After.
  destruct (Z.ltb_spec (ExpiresAt d) (clock_now (w_tick w2))) as [Hexp|Hexp].
  2: { exists (set_tick S w2). split; [by apply guarantee_same; simpl; [lia|]|]. right.
       exists (AccessToken d). split; [|reflexivity]. left. split; [done|]. by exists (w_tick w2). }
  rewrite run_bind. cbn [interact w_tick set_tick].
  set (w3 := set_tick S (set_tick S w2)).
  assert (Hw3 : guarantee w2 w3) by (apply guarantee_same; simpl; [lia|done]).
  destruct (oauth2_TokenSource_Token (S (w_tick w2)) (oauth2_config config) _) as [t|e] eqn:Hr.
  2: { exists w3. split; [done|]. left. eexists 401, _, e. split; [by left|reflexivity]. }
  assert (Hst : stored_in (served config (service_of w3)) (interfered others hv) config
                  (session_of m config g d)).
  { split; [exact Hm|]. split; [done|]. intros id' _. by left. }
  assert (Htaken3 : all_taken (service_of w3)) by eauto using taken_guarantee.
  pose proof (interfered_serves hv view no_rows config others Hothers uuid_inj w3 Htaken3) as Hk.
  destruct (safe_Session_Update (guarantee w3) (guarantee_about_db view config w3) _ _ config
    (session_of m config g d) rw r t _ Hst Hr w3 ltac:(reflexivity)) as [Hw4 Hpost].
  destruct (twp_Session_Update_returns (session_of m config g d) rw r t w3 Hm Ht Htaken3)
    as ([s' err] & Ha & _).
  rewrite run_bind. destruct (Session_Update (session_of m config g d) rw r t w3) as [o w4].
  simpl in Ha, Hw4, Hpost. subst o. exists w4. split; [by etrans|].
  destruct err as [err|]; [left; eexists 500, _, err; split; [by right|reflexivity]|right].
  destruct (Hpost _ eq_refl eq_refl) as (id' & sub & raw & Hv & Hd & Hid' & s0 & old & Hs0 & Ho & Hsub).
  simpl in Hd, Hid', Hsub. rewrite Hid in Hid'. injection Hid' as <-. subst sub.
  exists (t_AccessToken t). split; [|by rewrite Hd].
  right. exists (S (w_tick w2)), t, raw, s0, old. split_and!; [done..| |done|done].
  by etrans; [apply Hw2|]; etrans; [apply Hw3|].
Qed.
Lemma interfered_middleware next rw r w g id :
  has_tracer (r_ctx r) → has_logger (r_ctx r) → all_taken (service_of w) →
  cookie_lookup m r (w_tick w) = SessionId g id →
  ∃ w1, guarantee w w1 ∧
    (refused rw (AuthenticationMiddleware m config next rw r w) w1 ∨
     ∃ tok d wm, guarantee w wm ∧ view (w_table wm) !! id = Some d ∧ guarantee wm w1 ∧
       gives w id d tok ∧
       AuthenticationMiddleware m config next rw r w = next rw (with_access_token r tok) w1).
Proof using All.
  intros Ht Hl Htaken Hlook. unfold AuthenticationMiddleware.
  destruct (twp_run_bind (zlogger_FromContext (r_ctx r))
    (λ _ w', http_step w w' ∧ w_resp w' = w_resp w ∧ w_rec w' = w_rec w ∧ w_tick w' = w_tick w)
    w) as (u & w1 & (Hs & _ & _ & Htick) & ->); [by apply twp_zlogger_FromContext|].
  assert (Hw1 : guarantee w w1) by (apply guarantee_same; step_facts; [lia|congruence]).
  destruct (twp_run_bind (GetSession m r config) _ w1
    (twp_GetSession_interfered r g id w1 Ht ltac:(by eapply taken_guarantee) ltac:(by rewrite Htick))) as (a & w2 & Hpost & ->).
  destruct Hpost as [(d & wm & -> & Hwm & Hd & Hw2)|(e & -> & Hw2)].
  - assert (Hid : value_string g sessionIdName = Some id).
    { unfold cookie_lookup in Hlook. repeat case_match; by simplify_eq. }
    assert (Hwm' : guarantee w wm) by by etrans.
    destruct (interfered_authenticated next rw r w w2 g id d Ht Htaken Hid ltac:(by etrans))
      as (w3 & Hw3 & [Hrun|(tok & Htok & Hrun)]); exists w3; (split; [by repeat (etrans; [done|])|]).
    + left. exact Hrun.
    + right. exists tok, d, wm. split_and!; [done|done|by etrans|done|exact Hrun].
  - exists w2. split; [by etrans|]. left. unfold lookup_error.
    destruct (error_eq e sql_ErrNoRows).
    + eexists 401, _, _. split; [by left|reflexivity].
    + eexists 500, _, _. split; [by right|reflexivity].
Qed.

(** C2: a request is served the session of its own user, whatever the others do
    meanwhile.  A request presents the id of a session.  While it runs, others open,
    renew, close and purge sessions between any two of its statements.  It is answered
    401 or 500, or the inner handler runs with an access token: the one of a record the
    session had while the request ran, or one the provider issued for the refresh token of
    that record, with a verified id-token; and the user of both is the user the session
    had when the request began. *)
Theorem a_request_is_served_its_own_session next rw r w g id d0 :
  has_tracer (r_ctx r) → has_logger (r_ctx r) → all_taken (service_of w) →
  cookie_lookup m r (w_tick w) = SessionId g id → view (w_table w) !! id = Some d0 →
  ∃ w1, guarantee w w1 ∧
    (refused rw (AuthenticationMiddleware m config next rw r w) w1 ∨
     ∃ tok d wm, guarantee w wm ∧ view (w_table wm) !! id = Some d ∧ guarantee wm w1 ∧
       Subject d = Subject d0 ∧
       AuthenticationMiddleware m config next rw r w = next rw (with_access_token r tok) w1 ∧
       ((tok = AccessToken d ∧ ∃ n, (clock_now n ≤ ExpiresAt d)%Z) ∨
        ∃ k t raw,
          oauth2_TokenSource_Token k (oauth2_config config) (Token_of_refresh (RefreshToken d)) = Ok t ∧
          verified config t (Subject d0) raw ∧ tok = t_AccessToken t)).
Proof using All.
  intros Ht Hl Htaken Hlook Hd0.
  assert (Hof : is_of id (Subject d0) (service_of w)).
  { split; [apply Htaken; simpl; by exists d0|]. simpl. congruence. }
  destruct (interfered_middleware next rw r w g id Ht Hl Htaken Hlook)
    as (w1 & Hw1 & [Hrun|(tok & d & wm & Hwm & Hd & Hw1' & Htok & Hrun)]);
    exists w1; (split; [done|]); [by left|right].
  exists tok, d, wm. split_and!; [done..| |done|].
  - apply (is_of_guarantee view config _ _ _ _ Hwm) in Hof as [_ Hof]. by apply Hof.
  - destruct Htok as [Htok|(k & t & raw & s & old & Hr & -> & Hs & Ho & Hv)]; [by left|right].
    exists k, t, raw. split; [done|]. split; [|done].
    apply (is_of_steps config _ _ _ _ Hs) in Hof as [_ Hof]. by rewrite <-(Hof old Ho).
Qed.

(** C6: no interference revives a session.  A request that presents the id of a session
    that is gone (logged out or purged) when the request begins is answered 401 or 500,
    whatever the others do while it runs, and the session is still gone. *)
Theorem no_interference_revives_a_session next rw r w g id :
  has_tracer (r_ctx r) → has_logger (r_ctx r) → all_taken (service_of w) →
  cookie_lookup m r (w_tick w) = SessionId g id → gone id (service_of w) →
  ∃ w1, gone id (service_of w1) ∧
    ∃ code text e, (code = 401 ∨ code = 500) ∧
      AuthenticationMiddleware m config next rw r w = Logger_JsonError rw code text (Some e) w1.
Proof using All.
  intros Ht Hl Htaken Hlook Hgone.
  destruct (interfered_middleware next rw r w g id Ht Hl Htaken Hlook)
    as (w1 & Hw1 & [Hrun|(tok & d & wm & Hwm & Hd & _)]).
  - exists w1. split; [by eapply gone_guarantee|done].
  - apply (gone_guarantee view config _ _ _ Hwm) in Hgone as [_ Hno]. simpl in Hno. congruence.
Qed.
End Requests.

(** ** The process *)

Section Process.
Context `{!Clock} `{!Network} `{!Otel} `{!Rand} `{!Redirector} `{!RealIP}.
Context `{!Gorilla} `{!OidcLib} `{!OAuth2} `{!BodyFault}.
Context `{!ReverseProxy} `{!Propagator} `{!MuxPaths} `{!Uuid} `{!SqlDriver}.
Context `{!Databases} `{!CipherLib} `{!Telemetry_libs} `{!Files} `{!Viper} `{!Discovery}.
Context `{!UrlParser} `{!TracerProvider}.
Context (hv : Halves) (view : gmap string Row → Store) (no_rows : string → error).
Context `{!ServiceHalves hv view no_rows} `{!SafeHalves hv}.
Context (uuid_inj : ∀ n k, uuid_New n = uuid_New k → n = k).
Context (st : Started) (Hm : m_sessionImpl (st_manager st) = st_impl st).
(** The storage of the process is a backend, alone or with others between its statements. *)
Context (others : IO unit).
Context (Hothers : ∀ w, all_taken (service_of view w) → guarantee view (st_oidc st) w (others w).2).
Context (Hst : st_impl st = hv_impl hv ∨ st_impl st = interfered others hv).

Abbreviation service_of := (service_of view).
Abbreviation guarantee := (guarantee view (st_oidc st)).
Abbreviation runs := (rtc (main_step (st_ctx st) (st_impl st))).

(** The process keeps its handler, or loses it. *)
Lemma handler_kept s s' h :
  runs s s' → rn_handler s' = Some h → rn_handler s = Some h.
Proof. induction 1 as [|s s1 s2 Hs _ IH]; [done|]. intros Hh%IH. by destruct Hs. Qed.

Lemma process_serves w :
  all_taken (service_of w) →
  StorageKeepsAs (served (st_oidc st) (service_of w)) (guarantee w) (st_impl st).
Proof using All.
  intros Htaken. destruct Hst as [-> | ->]; [by eapply impl_serves|by eapply interfered_serves].
Qed.

(** Between two states of a process that was started, the service goes through steps. *)
Lemma guarantee_runs b s s' :
  runs (after_mount (mount st b)) s → runs s s' → all_taken (service_of (rn_world s)) →
  guarantee (rn_world s) (rn_world s').
Proof using All.
  intros Hs Hs' Htaken. set (w := rn_world s).
  pose proof (process_serves w Htaken) as Hk.
  pose proof (guarantee_about_db view (st_oidc st) w) as HP.
  eapply (keeps_main_steps _ HP _ _ _ _ _ Hs').
  split; [|reflexivity]. intros h Hh%(handler_kept _ _ _ Hs).
  destruct (keeping_after_mount (λ _, True) _ (λ _ _ _ Hx, Hx) HP st
              (served (st_oidc st) (service_of w)) Hm b I) as [Hkeep _].
  by apply Hkeep.
Qed.

Lemma guarantee_mount b :
  all_taken (service_of (b_world b)) → guarantee (b_world b) (rn_world (after_mount (mount st b))).
Proof using All.
  intros Htaken. pose proof (process_serves _ Htaken) as Hk.
  pose proof (guarantee_about_db view (st_oidc st) (b_world b)) as HP.
  eapply (keeping_after_mount _ _ HP HP st (served (st_oidc st) (service_of (b_world b))) Hm b).
  reflexivity.
Qed.

Lemma guarantee_start b s :
  all_taken (service_of (b_world b)) → runs (after_mount (mount st b)) s →
  guarantee (b_world b) (rn_world s).
Proof using All.
  intros Htaken Hs. pose proof (guarantee_mount b Htaken) as Hb. etrans; [exact Hb|].
  apply (guarantee_runs b); [apply rtc_refl|exact Hs|by eapply taken_guarantee].
Qed.

(** C4: the process refines the service of sessions.  Whatever happens between the start
    of the process and a state it reaches (requests, purges, signals, the shutdown), the
    sessions in the database went through steps of the service, and every row that
    cannot be decrypted was there before. *)
Theorem process_refines_the_service b s :
  all_taken (service_of (b_world b)) → runs (after_mount (mount st b)) s →
  rtc (service_step (st_oidc st)) (service_of (b_world b)) (service_of (rn_world s)) ∧
  ∀ id, unreadable view id (rn_world s) → unreadable view id (b_world b).
Proof using All.
  intros Htaken Hs. by destruct (guarantee_start b s Htaken Hs).
Qed.

(** C8: every session was vouched for.  In every state a process reaches, a session in the
    database was there when it started, or was made from a token whose id-token was
    verified for this client: its subject is the one of the id-token. *)
Theorem every_stored_session_was_vouched_for b s id d :
  all_taken (service_of (b_world b)) → runs (after_mount (mount st b)) s →
  view (w_table (rn_world s)) !! id = Some d →
  (∃ id0, view (w_table (b_world b)) !! id0 = Some d) ∨
  ∃ t sub raw, verified (st_oidc st) t sub raw ∧ d = truncate (token_data sub raw t).
Proof using All.
  intros Htaken Hs Hd. destruct (guarantee_start b s Htaken Hs) as [Hsteps _].
  exact (vouched_steps _ _ _ id d Hsteps Hd).
Qed.

(** C7: a session keeps its user, and when it is gone it is gone for good.  Of the states
    that a process passes through one after the other: the data under the id of a
    session has the same subject as long as there is any, and once there is none, no
    later state has a session with this id. *)
Theorem process_never_reassigns_or_revives_a_session b s s1 s2 id d :
  all_taken (service_of (b_world b)) → runs (after_mount (mount st b)) s →
  view (w_table (rn_world s)) !! id = Some d → runs s s1 → runs s1 s2 →
  (∀ d1, view (w_table (rn_world s1)) !! id = Some d1 → Subject d1 = Subject d) ∧
  (view (w_table (rn_world s1)) !! id = None → view (w_table (rn_world s2)) !! id = None).
Proof using All.
  intros Htaken Hs Hd Hs1 Hs2.
  pose proof (taken_guarantee _ _ _ _ uuid_inj (guarantee_start b s Htaken Hs) Htaken) as Htaken1.
  pose proof (guarantee_runs b s s1 Hs Hs1 Htaken1) as Hg1.
  assert (Hid : taken id (service_of (rn_world s))) by (apply Htaken1; simpl; by exists d).
  split.
  - intros d1 Hd1. apply (is_of_guarantee view (st_oidc st) id (Subject d) _ _ Hg1); [|exact Hd1].
    split; [done|]. simpl. congruence.
  - intros Hno. assert (Hs' : runs (after_mount (mount st b)) s1) by by etrans.
    pose proof (guarantee_runs b s1 s2 Hs' Hs2 (taken_guarantee _ _ _ _ uuid_inj Hg1 Htaken1)) as Hg2.
    apply (gone_guarantee view (st_oidc st) id _ _ Hg2).
    split; [|exact Hno]. eapply taken_steps; [apply Hg1|exact Hid].
Qed.
End Process.

(** ** The hypotheses can hold *)

#[local] Existing Instances toy_viper toy_mux_paths toy_propagator toy_reverse_proxy.
#[local] Existing Instances toy_cipher_lib toy_telemetry toy_files toy_url toy_discovery.
#[local] Existing Instances databases_with_bob no_tracer.

#[local] Instance toy_serves : ServiceHalves (sqlite_halves None) (store_view None) sqlite_no_rows :=
  sqlite_serves None I.

(** A server on a storage. *)
Definition toy_server (impl : SessionImpl) : Handler :=
  server (toy_manager_of impl) toy_config "/home" "/bye" [("/proxy", toy_proxy)].

(** Alice logs in, and bob logs out. *)
Definition alice_logs_in : Request := toy_request "/callback" "state=xyz&code=code-alice" cookie_login.
Definition bob_logs_out : Request := toy_request "/logout" "" cookie_A.

Definition toy_crowd : list Request → IO unit := crowd toy_server (sqlite_halves None).

Lemma toy_crowd_provides rs w :
  all_taken (service_of (store_view None) w) →
  guarantee (store_view None) toy_config w (toy_crowd rs w).2.
Proof.
  apply crowd_provides. intros others Ho r w' Hw'.
  exact (server_provides (sqlite_halves None) (store_view None) sqlite_no_rows toy_config
           toy_uuid_inj others Ho (toy_manager_of (interfered others (sqlite_halves None))) eq_refl
           "/home" "/bye" [("/proxy", toy_proxy)] NetHttpWriter r w' Hw').
Qed.

Lemma toy_taken (row : Row) w :
  w_table w = {["A" := row]} → all_taken (service_of (store_view None) w).
Proof.
  intros Hw id [d (r & Hr & _)%store_view_lookup_Some] n _. rewrite Hw in Hr.
  apply (lookup_singleton_Some (M:=gmap string)) in Hr as [<- _]. apply uuid_not_A.
Qed.

Definition old_world : World := toy_world {["A" := old_row]}.

Lemma old_world_taken : all_taken (service_of (store_view None) old_world).
Proof. by eapply toy_taken. Qed.

(** Bob's expired session is renewed while alice logs in before each statement: once before
    it is read, and around both statements of the update.  All sessions are there. *)
Definition crowded : World :=
  (toy_server (interfered (toy_crowd [alice_logs_in]) (sqlite_halves None))
     NetHttpWriter (get_proxy cookie_A) old_world).2.

Lemma concurrent_requests_refine_the_service_witness :
  (row_subject <$> (map_to_list (w_table crowded)).*2) = ["alice"; "alice"; "alice"; "bob"] ∧
  rs_body (w_resp crowded) = ["Bearer at-bob-17"] ∧
  guarantee (store_view None) toy_config old_world crowded.
Proof.
  split; [vm_compute; reflexivity|]. split; [vm_compute; reflexivity|].
  exact (proj1 (concurrent_requests_refine_the_service (sqlite_halves None) (store_view None)
    sqlite_no_rows toy_config toy_uuid_inj (toy_crowd [alice_logs_in]) (toy_crowd_provides _)
    (toy_manager_of (interfered (toy_crowd [alice_logs_in]) (sqlite_halves None))) eq_refl
    "/home" "/bye" [("/proxy", toy_proxy)] [] NetHttpWriter (get_proxy cookie_A) old_world
    old_world_taken)).
Defined.

Lemma toy_has_sessions row w :
  w_table w = {["A" := row]} → store_view None (w_table w) !! "A" = Some (data_of row).
Proof. intros ->. rewrite store_view_lookup, lookup_singleton_eq. reflexivity. Qed.

Definition crowded_manager (rs : list Request) : Manager :=
  toy_manager_of (interfered (toy_crowd rs) (sqlite_halves None)).

Lemma a_request_is_served_its_own_session_witness :
  rs_body (w_resp (AuthenticationMiddleware (crowded_manager [alice_logs_in]) toy_config toy_next
    NetHttpWriter (get_proxy cookie_A) old_world).2) = ["at-bob-15"] ∧
  ltac:(instance_of (a_request_is_served_its_own_session (sqlite_halves None) (store_view None)
    sqlite_no_rows toy_config toy_uuid_inj (toy_crowd [alice_logs_in]) (toy_crowd_provides _)
    (crowded_manager [alice_logs_in]) eq_refl (crowd_returns _ _ _) toy_next NetHttpWriter
    (get_proxy cookie_A) old_world (toy_new toy_store_ (get_proxy cookie_A) "session").1 "A"
    (data_of old_row) (toy_has_tracer _ _ _) (toy_has_logger _ _ _) old_world_taken
    eq_refl (toy_has_sessions old_row old_world eq_refl))).
Proof.
  split; [vm_compute; reflexivity|].
  exact (a_request_is_served_its_own_session (sqlite_halves None) (store_view None)
    sqlite_no_rows toy_config toy_uuid_inj (toy_crowd [alice_logs_in]) (toy_crowd_provides _)
    (crowded_manager [alice_logs_in]) eq_refl (crowd_returns _ _ _) toy_next NetHttpWriter
    (get_proxy cookie_A) old_world (toy_new toy_store_ (get_proxy cookie_A) "session").1 "A"
    (data_of old_row) (toy_has_tracer _ _ _) (toy_has_logger _ _ _) old_world_taken
    eq_refl (toy_has_sessions old_row old_world eq_refl)).
Defined.

Lemma toy_gone : gone "A" (service_of (store_view None) (toy_world ∅)).
Proof. split; [intros n _; apply uuid_not_A|]. reflexivity. Qed.

Lemma nothing_taken : all_taken (service_of (store_view None) (toy_world ∅)).
Proof.
  intros id [d (r & Hr & _)%store_view_lookup_Some]. discriminate Hr.
Qed.

Lemma no_interference_revives_a_session_witness :
  ∃ w1, gone "A" (service_of (store_view None) w1) ∧
    ∃ code text e, (code = 401 ∨ code = 500) ∧
      AuthenticationMiddleware (crowded_manager [alice_logs_in]) toy_config toy_next
        NetHttpWriter (get_proxy cookie_A) (toy_world ∅)
      = Logger_JsonError NetHttpWriter code text (Some e) w1.
Proof.
  exact (no_interference_revives_a_session (sqlite_halves None) (store_view None)
    sqlite_no_rows toy_config toy_uuid_inj (toy_crowd [alice_logs_in]) (toy_crowd_provides _)
    (crowded_manager [alice_logs_in]) eq_refl (crowd_returns _ _ _) toy_next NetHttpWriter
    (get_proxy cookie_A) (toy_world ∅) (toy_new toy_store_ (get_proxy cookie_A) "session").1 "A"
    (toy_has_tracer _ _ _) (toy_has_logger _ _ _) nothing_taken eq_refl toy_gone).
Defined.

(** *** A process with the session of bob, in which bob logs out *)

Definition process_with_bob : Boot :=
  mkBoot Once_new Once_new (mkOtelGlobals None []) old_world.

Definition bob_served : Running := after_mount (mount (toy_started "proxy.yaml") process_with_bob).

(** The next state, when the server has handled a request. *)
Definition handled (r : Request) (s : Running) : Running :=
  match rn_handler s with
  | Some h => mkRunning (rn_pc s) (rn_notified s) (rn_cancelled s) (rn_cleaner s) (Some h)
                (h NetHttpWriter r (new_exchange (rn_world s))).2
  | None => s
  end.

Lemma handled_runs st s r :
  rn_pc s = Serving → rtc (main_step (st_ctx st) (st_impl st)) s (handled r s).
Proof.
  intros Hs. unfold handled. destruct s as [pc nt can cl [h|] w]; simpl in *; [|apply rtc_refl].
  subst pc. by apply rtc_once, run_request.
Qed.

Definition bob_logged_out : Running := handled bob_logs_out bob_served.

Lemma bob_served_serving : rn_pc bob_served = Serving.
Proof. vm_compute. reflexivity. Qed.

Lemma bob_served_table : w_table (rn_world bob_served) = {["A" := old_row]}.
Proof. vm_compute. reflexivity. Qed.

Lemma bob_logged_out_table : w_table (rn_world bob_logged_out) = ∅.
Proof. vm_compute. reflexivity. Qed.

Lemma bob_logs_out_runs :
  rtc (main_step (st_ctx (toy_started "proxy.yaml")) (st_impl (toy_started "proxy.yaml")))
    bob_served bob_logged_out.
Proof. exact (handled_runs _ bob_served bob_logs_out bob_served_serving). Qed.

(** Nobody else runs. *)
Lemma alone_provides w :
  all_taken (service_of (store_view None) w) →
  guarantee (store_view None) (st_oidc (toy_started "proxy.yaml")) w (mret (M:=IO) tt w).2.
Proof. reflexivity. Qed.

Lemma process_refines_the_service_witness :
  sv_sessions (service_of (store_view None) (rn_world bob_logged_out)) = ∅ ∧
  ltac:(instance_of (process_refines_the_service (sqlite_halves None) (store_view None) sqlite_no_rows
    toy_uuid_inj (toy_started "proxy.yaml") eq_refl (mret tt) alone_provides (or_introl eq_refl)
    process_with_bob bob_logged_out old_world_taken bob_logs_out_runs)).
Proof.
  split; [unfold Service.service_of; cbn [sv_sessions]; rewrite bob_logged_out_table; reflexivity|].
  exact (process_refines_the_service (sqlite_halves None) (store_view None) sqlite_no_rows
    toy_uuid_inj (toy_started "proxy.yaml") eq_refl (mret tt) alone_provides (or_introl eq_refl)
    process_with_bob bob_logged_out old_world_taken bob_logs_out_runs).
Defined.

(** Alice has logged in. *)
Definition alice_logged_in : Running := handled alice_logs_in bob_served.

Definition alice_data : SessionData :=
  mkSessionData "alice" "at-alice-4" "rt-alice" "it-alice" (1680003604 * Second).

Lemma alice_is_stored :
  store_view None (w_table (rn_world alice_logged_in)) !! "id-8" = Some alice_data.
Proof. vm_compute. reflexivity. Qed.

Lemma alice_logs_in_runs :
  rtc (main_step (st_ctx (toy_started "proxy.yaml")) (st_impl (toy_started "proxy.yaml")))
    bob_served alice_logged_in.
Proof. exact (handled_runs _ bob_served alice_logs_in bob_served_serving). Qed.

Lemma every_stored_session_was_vouched_for_witness :
  (∃ id0, store_view None (w_table (b_world process_with_bob)) !! id0 = Some alice_data) ∨
  ∃ t sub raw, verified toy_config t sub raw ∧ alice_data = truncate (token_data sub raw t).
Proof.
  exact (every_stored_session_was_vouched_for (sqlite_halves None) (store_view None) sqlite_no_rows
    toy_uuid_inj (toy_started "proxy.yaml") eq_refl (mret tt) alone_provides (or_introl eq_refl)
    process_with_bob alice_logged_in "id-8" alice_data old_world_taken alice_logs_in_runs
    alice_is_stored).
Defined.

Lemma process_never_reassigns_or_revives_a_session_witness :
  w_table (rn_world bob_logged_out) = ∅ ∧
  ltac:(instance_of (process_never_reassigns_or_revives_a_session (sqlite_halves None) (store_view None)
    sqlite_no_rows toy_uuid_inj (toy_started "proxy.yaml") eq_refl (mret tt) alone_provides
    (or_introl eq_refl) process_with_bob bob_served bob_logged_out bob_logged_out "A"
    (data_of old_row) old_world_taken (rtc_refl _ _) (toy_has_sessions _ _ bob_served_table)
    bob_logs_out_runs (rtc_refl _ _))).
Proof.
  split; [exact bob_logged_out_table|].
  exact (process_never_reassigns_or_revives_a_session (sqlite_halves None) (store_view None)
    sqlite_no_rows toy_uuid_inj (toy_started "proxy.yaml") eq_refl (mret tt) alone_provides
    (or_introl eq_refl) process_with_bob bob_served bob_logged_out bob_logged_out "A"
    (data_of old_row) old_world_taken (rtc_refl _ _) (toy_has_sessions _ _ bob_served_table)
    bob_logs_out_runs (rtc_refl _ _)).
Defined.
